(** * Transform-and-load engine of [scripts/initialize_data.py]

    A shallow embedding of the value normalizers, the entity resolvers, the
    aggregate loaders and the savepoint coordinator of the seeding script,
    together with the properties of the specification that were checked
    against it.

    Conventions.
    - A Python value is a [pyval]; a document is a [pydict], an association
      list in key order.
    - A Python [float] is an IEEE binary64 number, [spec_float] of the
      standard library, compared with [SFleb].
    - A Python [str] is a [string]; one character stands for one code point,
      so the model covers the code points below 256.
    - A computation that may raise returns a [res]; a method of [PgRepo] is a
      function [PgRepo -> res A * PgRepo]: the state reached when the
      exception leaves the method is kept, as the mutations of a Python object
      are.
    - The two Python builtins that are not modelled, [float(str)] and the
      [str()] of floats and containers, are Variables of the Sections. *)

From Stdlib Require Import ZArith String Ascii List Bool Lia.
From Stdlib Require Import Floats.SpecFloat DecimalString.
From stdpp Require Import base option list gmap strings.

Local Open Scope string_scope.
Local Open Scope list_scope.

(** ** Exceptions and results *)

(** The errors of the relational store the model distinguishes. *)
Inductive pgerror :=
| ForeignKeyViolation
| UniqueViolation
| CardinalityViolation
| InFailedSqlTransaction
| InvalidSavepoint.

Inductive exn :=
| AttributeError
| TypeError
| ValueError
| OverflowError
| DbError (e : pgerror).

Inductive res (A : Type) :=
| Ok (a : A)
| Raise (e : exn).
Arguments Ok {A} a.
Arguments Raise {A} e.

Definition res_bind {A B} (r : res A) (k : A -> res B) : res B :=
  match r with
  | Ok a => k a
  | Raise e => Raise e
  end.

(** [try: r  except Exception: h] *)
Definition try_except {A} (r : res A) (h : A) : A :=
  match r with
  | Ok a => a
  | Raise _ => h
  end.

Definition is_ok {A} (r : res A) : bool :=
  match r with Ok _ => true | Raise _ => false end.

Declare Scope res_scope.
Delimit Scope res_scope with res.
Notation "x <-? r ; k" := (res_bind r (fun x => k))
  (at level 100, r at next level, right associativity) : res_scope.

(** ** Python values *)

(** [datetime.datetime]: the civil fields and the offset of the attached
    [tzinfo] in microseconds, [None] for a naive value. *)
Record datetime := mkDatetime {
  dt_year : Z;
  dt_month : Z;
  dt_day : Z;
  dt_hour : Z;
  dt_minute : Z;
  dt_second : Z;
  dt_micro : Z;
  dt_tz : option Z
}.

(** [datetime.date] *)
Record date := mkDate {
  d_year : Z;
  d_month : Z;
  d_day : Z
}.

#[local] Set Warnings "-register-all".

Inductive pyval :=
| VNone
| VBool (b : bool)
| VInt (z : Z)
| VFloat (f : spec_float)
| VStr (s : string)
| VDatetime (d : datetime)
| VObjectId (s : string)
| VList (l : list pyval)
| VDict (d : list (string * pyval)).

Abbreviation pydict := (list (string * pyval)).

(** *** binary64 *)

Definition prec64 : Z := 53.
Definition emax64 : Z := 1024.

(** [float(z)] of an [int]: rounded to nearest even, [OverflowError] when the
    rounded value is not finite. *)
Definition float_of_Z (z : Z) : res spec_float :=
  match binary_normalize prec64 emax64 z 0 false with
  | S754_infinity _ => Raise OverflowError
  | S754_nan => Raise OverflowError
  | f => Ok f
  end.

(** [int(f)] of a [float]: truncation toward zero. *)
Definition Z_of_float (f : spec_float) : res Z :=
  match f with
  | S754_zero _ => Ok 0%Z
  | S754_infinity _ => Raise OverflowError
  | S754_nan => Raise ValueError
  | S754_finite s m e =>
      let a := match e with
               | Zneg p => Z.shiftr (Zpos m) (Zpos p)
               | _ => Z.shiftl (Zpos m) e
               end in
      Ok (if s then Z.opp a else a)
  end.

Definition float_zero : spec_float := S754_zero false.
Definition float_ten : spec_float := binary_normalize prec64 emax64 10 0 false.

Definition float_truthy (f : spec_float) : bool :=
  match f with
  | S754_zero _ => false
  | _ => true
  end.

(** *** Truthiness, [dict.get], iteration *)

Definition truthy (v : pyval) : bool :=
  match v with
  | VNone => false
  | VBool b => b
  | VInt z => negb (Z.eqb z 0)
  | VFloat f => float_truthy f
  | VStr s => negb (String.eqb s "")
  | VDatetime _ => true
  | VObjectId _ => true
  | VList l => match l with [] => false | _ => true end
  | VDict d => match d with [] => false | _ => true end
  end.

(** [a or b] *)
Definition py_or (a b : pyval) : pyval := if truthy a then a else b.

Fixpoint dict_lookup (d : pydict) (k : string) : option pyval :=
  match d with
  | [] => None
  | (k', v) :: d' => if String.eqb k k' then Some v else dict_lookup d' k
  end.

(** [d.get(k)] on a dict *)
Definition dict_get (d : pydict) (k : string) : pyval :=
  match dict_lookup d k with
  | Some v => v
  | None => VNone
  end.

(** [k in d] *)
Definition dict_has (d : pydict) (k : string) : bool :=
  match dict_lookup d k with
  | Some _ => true
  | None => false
  end.

(** [d.get(k, default)] *)
Definition dict_get_default (d : pydict) (k : string) (dflt : pyval) : pyval :=
  match dict_lookup d k with
  | Some v => v
  | None => dflt
  end.

(** [v.get(k)] on any value: only a dict has the method. *)
Definition py_get (v : pyval) (k : string) : res pyval :=
  match v with
  | VDict d => Ok (dict_get d k)
  | _ => Raise AttributeError
  end.

Definition chars_of (s : string) : list pyval :=
  map (fun c => VStr (String c EmptyString)) (list_ascii_of_string s).

(** [for x in v]: the items a loop over [v] visits. *)
Definition py_iter (v : pyval) : res (list pyval) :=
  match v with
  | VList l => Ok l
  | VDict d => Ok (map (fun kv => VStr (fst kv)) d)
  | VStr s => Ok (chars_of s)
  | _ => Raise TypeError
  end.

Definition is_dict (v : pyval) : bool :=
  match v with VDict _ => true | _ => false end.

Definition is_list (v : pyval) : bool :=
  match v with VList _ => true | _ => false end.

(** *** Strings *)

(** [str.isspace] on the code points below 256. *)
Definition is_space (c : ascii) : bool :=
  let n := nat_of_ascii c in
  (((9 <=? n) && (n <=? 13)) || ((28 <=? n) && (n <=? 32))
   || (n =? 133) || (n =? 160))%nat.

Fixpoint lstrip_by (p : ascii -> bool) (s : string) : string :=
  match s with
  | EmptyString => EmptyString
  | String c s' => if p c then lstrip_by p s' else s
  end.

Fixpoint rstrip_by (p : ascii -> bool) (s : string) : string :=
  match s with
  | EmptyString => EmptyString
  | String c s' =>
      match rstrip_by p s' with
      | EmptyString => if p c then EmptyString else String c EmptyString
      | r => String c r
      end
  end.

Definition strip_by (p : ascii -> bool) (s : string) : string :=
  rstrip_by p (lstrip_by p s).

(** [s.strip()] *)
Definition py_strip (s : string) : string := strip_by is_space s.

(** [s.strip(chars)] *)
Definition py_strip_chars (chars : string) (s : string) : string :=
  strip_by (fun c => existsb (Ascii.eqb c) (list_ascii_of_string chars)) s.

(** [s.replace(c, r)] for a one-character pattern. *)
Fixpoint py_replace (c : ascii) (r : string) (s : string) : string :=
  match s with
  | EmptyString => EmptyString
  | String a s' =>
      if Ascii.eqb a c then r ++ py_replace c r s'
      else String a (py_replace c r s')
  end.

Definition comma_to_dot (s : string) : string := py_replace "," "." s.

(** [s.lower()] on the code points below 256: the capitals are [A] to [Z]
    and the code points 192 to 222 without the multiplication sign 215. *)
Definition lower_char (c : ascii) : ascii :=
  let n := nat_of_ascii c in
  if (((65 <=? n) && (n <=? 90)) || ((192 <=? n) && (n <=? 214))
      || ((216 <=? n) && (n <=? 222)))%nat
  then ascii_of_nat (n + 32) else c.

(** [s.upper()] on the code points below 256: the small letters are [a] to
    [z] and the code points 224 to 254 without the division sign 247; the
    capital of the sharp s, 223, is ["SS"].  The capitals of the micro sign,
    181, and of the y with diaeresis, 255, lie above 255: a text with one of
    these two is outside the model, and they are left as they are. *)
Definition upper_char (c : ascii) : string :=
  let n := nat_of_ascii c in
  if (n =? 223)%nat then "SS"
  else if (((97 <=? n) && (n <=? 122)) || ((224 <=? n) && (n <=? 246))
           || ((248 <=? n) && (n <=? 254)))%nat
  then String (ascii_of_nat (n - 32)) EmptyString
  else String c EmptyString.

Fixpoint str_map (f : ascii -> ascii) (s : string) : string :=
  match s with
  | EmptyString => EmptyString
  | String c s' => String (f c) (str_map f s')
  end.

Definition py_lower : string -> string := str_map lower_char.

Fixpoint py_upper (s : string) : string :=
  match s with
  | EmptyString => EmptyString
  | String c s' => upper_char c ++ py_upper s'
  end.

(** [sep.join(l)] *)
Fixpoint py_join (sep : string) (l : list string) : string :=
  match l with
  | [] => ""
  | [x] => x
  | x :: l' => x ++ sep ++ py_join sep l'
  end.

(** [str(z)] of an [int] *)
Definition str_of_Z (z : Z) : string := NilZero.string_of_int (Z.to_int z).

(** [not s] for an optional string: [None] and the empty string are false. *)
Definition str_truthy (o : option string) : bool :=
  match o with
  | Some s => negb (String.eqb s "")
  | None => false
  end.

(** [not z] for an optional integer: [None] and [0] are false. *)
Definition int_truthy (o : option Z) : bool :=
  match o with
  | Some z => negb (Z.eqb z 0)
  | None => false
  end.

(** ** [datetime] *)

(** The model of the library follows the documented behaviour of CPython's
    [datetime] module (versions 3.7 to 3.10, the ones for which the script
    rewrites a [Z] suffix by hand):
    [fromisoformat] accepts
    [YYYY-MM-DD[*HH[:MM[:SS[.fff[fff]]]][+HH:MM[:SS[.ffffff]]]]]
    and attaches a [tzinfo] only when the string carries an offset. *)

Definition utc : option Z := Some 0%Z.

Definition is_leap (y : Z) : bool :=
  ((y mod 4 =? 0) && (negb (y mod 100 =? 0) || (y mod 400 =? 0)))%Z.

Definition days_in_month (y m : Z) : Z :=
  (if m =? 2 then (if is_leap y then 29 else 28)
   else if (m =? 4) || (m =? 6) || (m =? 9) || (m =? 11) then 30
   else 31)%Z.

Definition between (lo x hi : Z) : bool := ((lo <=? x) && (x <=? hi))%Z.

Definition day_micros : Z := 86400000000.

(** The checks of the [datetime(...)] and [timezone(...)] constructors. *)
Definition valid_datetime (d : datetime) : bool :=
  between 1 (dt_year d) 9999
  && between 1 (dt_month d) 12
  && between 1 (dt_day d) (days_in_month (dt_year d) (dt_month d))
  && between 0 (dt_hour d) 23
  && between 0 (dt_minute d) 59
  && between 0 (dt_second d) 59
  && between 0 (dt_micro d) 999999
  && match dt_tz d with
     | None => true
     | Some o => ((- day_micros <? o) && (o <? day_micros))%Z
     end.

Definition digit_of (c : ascii) : option Z :=
  let n := nat_of_ascii c in
  if ((48 <=? n) && (n <=? 57))%nat then Some (Z.of_nat (n - 48)) else None.

Fixpoint parse_digits_from (s : string) (acc : Z) : option Z :=
  match s with
  | EmptyString => Some acc
  | String c s' =>
      match digit_of c with
      | Some d => parse_digits_from s' (10 * acc + d)%Z
      | None => None
      end
  end.

(** A non-empty string of decimal digits. *)
Definition parse_digits (s : string) : option Z :=
  match s with
  | EmptyString => None
  | _ => parse_digits_from s 0%Z
  end.

(** The decimal digits of [int(s)]: single underscores may separate them. *)
Fixpoint parse_int_digits (s : string) (after_digit : bool) (acc : Z)
  : option Z :=
  match s with
  | EmptyString => if after_digit then Some acc else None
  | String c s' =>
      if Ascii.eqb c "_" then
        if after_digit then parse_int_digits s' false acc else None
      else
        match digit_of c with
        | Some d => parse_int_digits s' true (10 * acc + d)%Z
        | None => None
        end
  end.

(** [int(s)] on a string: surrounding white space, a sign, digits. *)
Definition int_of_str (s : string) : res Z :=
  let t := py_strip s in
  let r :=
    match t with
    | String "-" t' => option_map Z.opp (parse_int_digits t' false 0%Z)
    | String "+" t' => parse_int_digits t' false 0%Z
    | _ => parse_int_digits t false 0%Z
    end in
  match r with
  | Some z => Ok z
  | None => Raise ValueError
  end.

(** [s[a:]] *)
Definition str_from (a : nat) (s : string) : string :=
  substring a (String.length s - a) s.

Definition two_digits (s : string) : option (Z * string) :=
  match s with
  | String a (String b rest) =>
      match digit_of a, digit_of b with
      | Some x, Some y => Some ((10 * x + y)%Z, rest)
      | _, _ => None
      end
  | _ => None
  end.

Definition parse_fraction (s : string) : option Z :=
  match s with
  | EmptyString => Some 0%Z
  | String "." f =>
      match String.length f with
      | 3 => option_map (Z.mul 1000) (parse_digits f)
      | 6 => parse_digits f
      | _ => None
      end
  | _ => None
  end.

(** [_parse_hh_mm_ss_ff]: [HH[:MM[:SS[.fff[fff]]]]] *)
Definition parse_hh_mm_ss_ff (s : string) : option (Z * Z * Z * Z) :=
  match two_digits s with
  | None => None
  | Some (h, r1) =>
      match r1 with
      | EmptyString => Some (h, 0, 0, 0)%Z
      | String ":" r1' =>
          match two_digits r1' with
          | None => None
          | Some (m, r2) =>
              match r2 with
              | EmptyString => Some (h, m, 0, 0)%Z
              | String ":" r2' =>
                  match two_digits r2' with
                  | None => None
                  | Some (sec, r3) =>
                      match parse_fraction r3 with
                      | Some f => Some (h, m, sec, f)
                      | None => None
                      end
                  end
              | _ => None
              end
          end
      | _ => None
      end
  end.

(** The text before and after the first occurrence of [c]. *)
Fixpoint split_at_char (c : ascii) (s : string) : option (string * string) :=
  match s with
  | EmptyString => None
  | String a s' =>
      if Ascii.eqb a c then Some (EmptyString, s')
      else match split_at_char c s' with
           | Some (l, r) => Some (String a l, r)
           | None => None
           end
  end.

(** [tz_pos = tstr.find('-') + 1 or tstr.find('+') + 1]: the time text, and
    the sign and text of the offset when there is one. *)
Definition split_offset (t : string) : string * option (bool * string) :=
  match split_at_char "-" t with
  | Some (l, r) => (l, Some (true, r))
  | None =>
      match split_at_char "+" t with
      | Some (l, r) => (l, Some (false, r))
      | None => (t, None)
      end
  end.

Definition parse_offset (o : option (bool * string)) : option (option Z) :=
  match o with
  | None => Some None
  | Some (neg, tz) =>
      if existsb (Nat.eqb (String.length tz)) [5; 8; 15]%nat then
        match parse_hh_mm_ss_ff tz with
        | Some (h, m, sec, f) =>
            let off := ((((h * 60 + m) * 60 + sec) * 1000000) + f)%Z in
            Some (Some (if neg then Z.opp off else off))
        | None => None
        end
      else None
  end.

(** [_parse_isoformat_time] *)
Definition parse_isoformat_time (t : string)
  : option (Z * Z * Z * Z * option Z) :=
  if (String.length t <? 2)%nat then None
  else
    let '(timestr, off) := split_offset t in
    match parse_hh_mm_ss_ff timestr, parse_offset off with
    | Some (h, m, sec, f), Some tz => Some (h, m, sec, f, tz)
    | _, _ => None
    end.

(** [_parse_isoformat_date] on the first ten characters. *)
Definition parse_isoformat_date (d : string) : option (Z * Z * Z) :=
  if negb (String.length d =? 10)%nat then None
  else
    match parse_digits (substring 0 4 d), parse_digits (substring 5 2 d),
          parse_digits (substring 8 2 d) with
    | Some y, Some m, Some dd =>
        if String.eqb (substring 4 1 d) "-" && String.eqb (substring 7 1 d) "-"
        then Some (y, m, dd) else None
    | _, _, _ => None
    end.

(** [datetime.fromisoformat] *)
Definition fromisoformat (s : string) : res datetime :=
  match parse_isoformat_date (substring 0 10 s) with
  | None => Raise ValueError
  | Some (y, m, d) =>
      let tstr := str_from 11 s in
      let comps :=
        if String.eqb tstr "" then Some (0, 0, 0, 0, None)%Z
        else parse_isoformat_time tstr in
      match comps with
      | None => Raise ValueError
      | Some (h, mi, sec, f, tz) =>
          let r := mkDatetime y m d h mi sec f tz in
          if valid_datetime r then Ok r else Raise ValueError
      end
  end.

(** Days since 1970-01-01 of a civil date, and back. *)
Definition days_from_civil (y m d : Z) : Z :=
  (let y' := if m <=? 2 then y - 1 else y in
   let era := y' / 400 in
   let yoe := y' - era * 400 in
   let mp := if 2 <? m then m - 3 else m + 9 in
   let doy := (153 * mp + 2) / 5 + d - 1 in
   let doe := yoe * 365 + yoe / 4 - yoe / 100 + doy in
   era * 146097 + doe - 719468)%Z.

Definition civil_from_days (n : Z) : Z * Z * Z :=
  (let z := n + 719468 in
   let era := z / 146097 in
   let doe := z - era * 146097 in
   let yoe := (doe - doe / 1460 + doe / 36524 - doe / 146096) / 365 in
   let doy := doe - (365 * yoe + yoe / 4 - yoe / 100) in
   let mp := (5 * doy + 2) / 153 in
   let d := doy - (153 * mp + 2) / 5 + 1 in
   let m := if mp <? 10 then mp + 3 else mp - 9 in
   let y := yoe + era * 400 in
   ((if m <=? 2 then y + 1 else y), m, d))%Z.

(** Microseconds since the epoch of the civil fields, the offset left aside. *)
Definition civil_micros (d : datetime) : Z :=
  ((((days_from_civil (dt_year d) (dt_month d) (dt_day d) * 24 + dt_hour d) * 60
     + dt_minute d) * 60 + dt_second d) * 1000000 + dt_micro d)%Z.

(** The instant an aware datetime denotes. *)
Definition instant (d : datetime) : option Z :=
  match dt_tz d with
  | Some o => Some (civil_micros d - o)%Z
  | None => None
  end.

(** [datetime.fromtimestamp(millis / 1000.0, tz=timezone.utc)].  The quotient
    is taken exactly: the rounding of the binary64 division and of the
    conversion to microseconds is left out of the model. *)
Definition fromtimestamp_millis (millis : Z) : res datetime :=
  (let us := millis * 1000 in
   let days := us / day_micros in
   let rest := us mod day_micros in
   let '(y, m, d) := civil_from_days days in
   let r := mkDatetime y m d (rest / 3600000000) (rest / 60000000 mod 60)
              (rest / 1000000 mod 60) (rest mod 1000000) utc in
   if valid_datetime r then Ok r else Raise OverflowError)%Z.

Definition option_Z_eqb (a b : option Z) : bool :=
  match a, b with
  | Some x, Some y => Z.eqb x y
  | None, None => true
  | _, _ => false
  end.

(** [a == b] on datetimes: two aware values are equal when they denote one
    instant, two naive values when their fields agree, and an aware value
    never equals a naive one. *)
Definition datetime_eqb (a b : datetime) : bool :=
  match dt_tz a, dt_tz b with
  | Some oa, Some ob => Z.eqb (civil_micros a - oa) (civil_micros b - ob)
  | None, None => Z.eqb (civil_micros a) (civil_micros b)
  | _, _ => false
  end.

(** [d.replace(tzinfo=timezone.utc)] *)
Definition with_utc (d : datetime) : datetime :=
  mkDatetime (dt_year d) (dt_month d) (dt_day d) (dt_hour d) (dt_minute d)
    (dt_second d) (dt_micro d) utc.

(** [d.date()] *)
Definition date_of (d : datetime) : date :=
  mkDate (dt_year d) (dt_month d) (dt_day d).

(** [int(v)] *)
Definition int_of_value (v : pyval) : res Z :=
  match v with
  | VInt z => Ok z
  | VBool b => Ok (if b then 1 else 0)%Z
  | VFloat f => Z_of_float f
  | VStr s => int_of_str s
  | _ => Raise TypeError
  end.

Definition z_to_plus (s : string) : string := py_replace "Z" "+00:00" s.

(** [parse_mongo_date] *)
Definition parse_mongo_date (value : pyval) : res (option datetime) :=
  match value with
  | VNone => Ok None
  | VDatetime d =>
      Ok (Some (match dt_tz d with Some _ => d | None => with_utc d end))
  | _ =>
      let wrapped :=
        match value with
        | VDict d => dict_lookup d "$date"
        | _ => None
        end in
      let iso (s : string) : res (option datetime) :=
        Ok (try_except
              (d <-? fromisoformat (z_to_plus s); Ok (Some d))%res
              None) in
      let millis (inner : pydict) : option (res (option datetime)) :=
        match dict_lookup inner "$numberLong" with
        | Some n =>
            Some (Ok (try_except
                        (ms <-? int_of_value n;
                         _ <-? float_of_Z ms;
                         d <-? fromtimestamp_millis ms;
                         Ok (Some d))%res
                        None))
        | None => None
        end in
      match wrapped with
      | Some (VStr inner) => iso inner
      | Some (VDict inner) =>
          match millis inner with
          | Some r => r
          | None => Ok None
          end
      | _ =>
          match value with
          | VStr s => iso s
          | _ => Ok None
          end
      end
  end.

(** ** Value normalizers *)

Section Normalizers.

(** [float(s)] on a string, [None] for [ValueError]. *)
Variable py_float : string -> option spec_float.
(** [str(v)] where the model does not compute it: floats, containers,
    datetimes. *)
Variable py_repr : pyval -> string.

Definition py_str (v : pyval) : string :=
  match v with
  | VStr s => s
  | VInt z => str_of_Z z
  | VBool true => "True"
  | VBool false => "False"
  | VNone => "None"
  | VObjectId s => s
  | _ => py_repr v
  end.

Definition float_of_str (s : string) : res spec_float :=
  match py_float s with
  | Some f => Ok f
  | None => Raise ValueError
  end.

(** [float(v)] *)
Definition py_float_of (v : pyval) : res spec_float :=
  match v with
  | VFloat f => Ok f
  | VInt z => float_of_Z z
  | VBool b => float_of_Z (if b then 1 else 0)
  | VStr s => float_of_str s
  | _ => Raise TypeError
  end.

(** First key of [keys] present in [d]. *)
Fixpoint first_key (d : pydict) (keys : list string) : option pyval :=
  match keys with
  | [] => None
  | k :: keys' =>
      match dict_lookup d k with
      | Some v => Some v
      | None => first_key d keys'
      end
  end.

Definition as_int_body (value : pyval) : res (option Z) :=
  match value with
  | VNone => Ok None
  | _ =>
      let wrapped :=
        match value with
        | VDict d => first_key d ["$numberInt"; "$numberLong"; "$numberDouble"]
        | _ => None
        end in
      match wrapped with
      | Some inner =>
          (f <-? float_of_str (comma_to_dot (py_str inner));
           z <-? Z_of_float f;
           Ok (Some z))%res
      | None =>
          match value with
          | VStr s =>
              (f <-? float_of_str (comma_to_dot s);
               z <-? Z_of_float f;
               Ok (Some z))%res
          | _ => (z <-? int_of_value value; Ok (Some z))%res
          end
      end
  end.

Definition as_int (value : pyval) : option Z :=
  try_except (as_int_body value) None.

Definition as_float_body (value : pyval) : res (option spec_float) :=
  match value with
  | VNone => Ok None
  | _ =>
      let wrapped :=
        match value with
        | VDict d =>
            first_key d
              ["$numberDouble"; "$numberDecimal"; "$numberInt"; "$numberLong"]
        | _ => None
        end in
      match wrapped with
      | Some inner =>
          (f <-? float_of_str (comma_to_dot (py_str inner)); Ok (Some f))%res
      | None =>
          match value with
          | VStr s => (f <-? float_of_str (comma_to_dot s); Ok (Some f))%res
          | _ => (f <-? py_float_of value; Ok (Some f))%res
          end
      end
  end.

Definition as_float (value : pyval) : option spec_float :=
  try_except (as_float_body value) None.

Definition normalize_text (value : pyval) : option string :=
  match value with
  | VNone => None
  | _ =>
      let s := py_strip (py_str value) in
      if String.eqb s "" then None else Some s
  end.

Definition truncate_text (value : option string) (max_length : nat)
  : option string :=
  match value with
  | None => None
  | Some s =>
      Some (if (max_length <? String.length s)%nat
            then substring 0 max_length s else s)
  end.

Definition sanitize_year (value : option Z) : option Z :=
  match value with
  | None => None
  | Some v => if ((1800 <=? v) && (v <=? 2100))%Z then Some v else None
  end.

Definition sanitize_age_rating (value : option Z) : option Z :=
  match value with
  | None => None
  | Some v => if ((0 <=? v) && (v <=? 21))%Z then Some v else None
  end.

(** [0.0 <= f <= 10.0] *)
Definition rating_in_range (f : spec_float) : bool :=
  SFleb float_zero f && SFleb f float_ten.

(** [sanitize_rating] on any value.  The string conversion is inside the
    [try]; the final [float(value)] is not. *)
Definition sanitize_rating (value : pyval) : res pyval :=
  match value with
  | VNone => Ok VNone
  | _ =>
      let converted :=
        match value with
        | VStr s =>
            match float_of_str (comma_to_dot s) with
            | Ok f => Some (VFloat f)
            | Raise _ => None
            end
        | _ => Some value
        end in
      match converted with
      | None => Ok VNone
      | Some v =>
          (f <-? py_float_of v;
           Ok (if rating_in_range f then v else VNone))%res
      end
  end.

(** The composition every caller uses: [sanitize_rating(as_float(x))]. *)
Definition sanitize_rating_opt (value : option spec_float)
  : option spec_float :=
  match value with
  | None => None
  | Some f => if rating_in_range f then Some f else None
  end.

End Normalizers.

(** ** The relational store

    The tables and their DDL are not part of the script.  The store is
    modelled as PostgreSQL behaves behind a psycopg2 connection opened with
    [autocommit = False]:
    - a row is the list of its column values, the [id] first where the table
      has one; a table is the list of its rows in insertion order;
    - a statement is atomic; one that violates a constraint raises and leaves
      the transaction in the failed state, in which every further statement
      raises until a [ROLLBACK TO SAVEPOINT] (or the end of the transaction);
    - a sequence is not transactional: a rolled back [INSERT] keeps the
      identifier it drew;
    - the foreign keys and unique keys are those of a [schema].

    What a statement can be refused for beyond these is not modelled: the
    driver raising [ValueError] before it sends a text that holds the
    character NUL, and the server refusing a value outside the range of its
    column type.  The properties below are stated so as not to depend on
    them: they are about a call that has returned, about a closed run whose
    values hold neither, or hold for every exception alike. *)

Inductive sqlval :=
| SNull
| SInt (z : Z)
| SText (s : string)
| SFloat (f : spec_float)
| SDate (d : date)
| SBool (b : bool).

Abbreviation row := (list sqlval).
Abbreviation table := (list (list sqlval)).

Definition float_eqb (a b : spec_float) : bool :=
  match a, b with
  | S754_zero s, S754_zero s' => Bool.eqb s s'
  | S754_infinity s, S754_infinity s' => Bool.eqb s s'
  | S754_nan, S754_nan => true
  | S754_finite s m e, S754_finite s' m' e' =>
      Bool.eqb s s' && Pos.eqb m m' && Z.eqb e e'
  | _, _ => false
  end.

Definition date_eqb (a b : date) : bool :=
  (Z.eqb (d_year a) (d_year b) && Z.eqb (d_month a) (d_month b)
   && Z.eqb (d_day a) (d_day b)).

(** Identity of two column values. *)
Definition sql_same (a b : sqlval) : bool :=
  match a, b with
  | SNull, SNull => true
  | SInt x, SInt y => Z.eqb x y
  | SText x, SText y => String.eqb x y
  | SFloat x, SFloat y => float_eqb x y
  | SDate x, SDate y => date_eqb x y
  | SBool x, SBool y => Bool.eqb x y
  | _, _ => false
  end.

(** SQL [a = b]: never true on [NULL]. *)
Definition sql_eq (a b : sqlval) : bool :=
  match a, b with
  | SNull, _ => false
  | _, SNull => false
  | _, _ => sql_same a b
  end.

(** [COALESCE(a, b)] *)
Definition coalesce (a b : sqlval) : sqlval :=
  match a with
  | SNull => b
  | _ => a
  end.

(** Truth value of a value read back from the store, as in [if person_id:]. *)
Definition sql_truthy (v : sqlval) : bool :=
  match v with
  | SNull => false
  | SInt z => negb (Z.eqb z 0)
  | SText s => negb (String.eqb s "")
  | SFloat f => float_truthy f
  | SDate _ => true
  | SBool b => b
  end.

Definition col (i : nat) (r : row) : sqlval := nth i r SNull.

Definition opt_text (o : option string) : sqlval :=
  match o with Some s => SText s | None => SNull end.
Definition opt_int (o : option Z) : sqlval :=
  match o with Some z => SInt z | None => SNull end.
Definition opt_float (o : option spec_float) : sqlval :=
  match o with Some f => SFloat f | None => SNull end.
Definition opt_date (o : option datetime) : sqlval :=
  match o with Some d => SDate (date_of d) | None => SNull end.

Record table_schema := mkTableSchema {
  ts_fks : list (nat * string);
  ts_uniques : list (list nat)
}.

Abbreviation tables := (gmap string (list (list sqlval))).

Definition get_table (T : tables) (t : string) : table :=
  default [] (T !! t).

Record connection := mkConnection {
  conn_tables : tables;
  conn_seqs : gmap string Z;
  conn_failed : bool;
  conn_savepoints : list (string * tables);
  conn_committed : tables
}.

Definition with_tables (T : tables) (c : connection) : connection :=
  mkConnection T (conn_seqs c) (conn_failed c) (conn_savepoints c)
    (conn_committed c).

Definition with_seqs (s : gmap string Z) (c : connection) : connection :=
  mkConnection (conn_tables c) s (conn_failed c) (conn_savepoints c)
    (conn_committed c).

Definition with_failed (b : bool) (c : connection) : connection :=
  mkConnection (conn_tables c) (conn_seqs c) b (conn_savepoints c)
    (conn_committed c).

Definition with_savepoints (sp : list (string * tables)) (c : connection)
  : connection :=
  mkConnection (conn_tables c) (conn_seqs c) (conn_failed c) sp
    (conn_committed c).

(** The values of the key columns, [None] when one of them is [NULL]: a
    unique key never matches on [NULL]. *)
Fixpoint key_of (cols : list nat) (r : row) : option (list sqlval) :=
  match cols with
  | [] => Some []
  | i :: cols' =>
      match col i r, key_of cols' r with
      | SNull, _ => None
      | _, None => None
      | v, Some k => Some (v :: k)
      end
  end.

Fixpoint key_same (a b : list sqlval) : bool :=
  match a, b with
  | [], [] => true
  | x :: a', y :: b' => sql_same x y && key_same a' b'
  | _, _ => false
  end.

Definition same_key (cols : list nat) (r r' : row) : bool :=
  match key_of cols r, key_of cols r' with
  | Some k, Some k' => key_same k k'
  | _, _ => false
  end.

(** [r] collides with a row of [tbl] on one of the unique keys. *)
Definition conflicts (uniques : list (list nat)) (tbl : table) (r : row)
  : bool :=
  existsb (fun cols => existsb (same_key cols r) tbl) uniques.

Definition has_id (tbl : table) (v : sqlval) : bool :=
  existsb (fun r => sql_eq (col 0 r) v) tbl.

(** Every foreign key of [r] is [NULL] or the [id] of a row of the table it
    references. *)
Definition fks_ok (fks : list (nat * string)) (T : tables) (r : row) : bool :=
  forallb (fun fk =>
             match col (fst fk) r with
             | SNull => true
             | v => has_id (get_table T (snd fk)) v
             end) fks.

(** What [ON CONFLICT] says in an [INSERT]. *)
Inductive on_conflict :=
| NoClause
| DoNothing
| DoUpdate (target : list nat) (set : list nat).

(** [SET c = EXCLUDED.c] for the columns [set]: the proposed row, with the
    stored values in the other columns. *)
Definition overwrite (set : list nat) (new old : row) : row :=
  imap (fun i v => if existsb (Nat.eqb i) set then v else col i old) new.

(** One row of an [INSERT]; [touched] holds the rows this statement has
    already written, which [DO UPDATE] may not write again. *)
Definition insert_row (sch : table_schema) (oc : on_conflict) (t : string)
    (st : tables * list row) (r : row) : res (tables * list row) :=
  let '(T, touched) := st in
  let tbl := get_table T t in
  let add :=
    if conflicts (ts_uniques sch) tbl r
    then Raise (DbError UniqueViolation)
    else if fks_ok (ts_fks sch) T r
         then Ok (<[t := tbl ++ [r]]> T, touched ++ [r])
         else Raise (DbError ForeignKeyViolation) in
  match oc with
  | NoClause => add
  | DoNothing =>
      if conflicts (ts_uniques sch) tbl r then Ok (T, touched) else add
  | DoUpdate target set =>
      if existsb (same_key target r) tbl then
        if existsb (same_key target r) touched
        then Raise (DbError CardinalityViolation)
        else
          Ok (<[t := map (fun old => if same_key target r old
                                     then overwrite set r old else old) tbl]> T,
              touched ++ [r])
      else add
  end.

Fixpoint insert_rows (sch : table_schema) (oc : on_conflict) (t : string)
    (st : tables * list row) (rows : list row) : res (tables * list row) :=
  match rows with
  | [] => Ok st
  | r :: rows' =>
      match insert_row sch oc t st r with
      | Ok st' => insert_rows sch oc t st' rows'
      | Raise e => Raise e
      end
  end.

(** A statement on a connection: refused in the failed state; an error puts
    the transaction in the failed state and changes no table. *)
Definition statement {A} (body : tables -> res (A * tables)) (c : connection)
  : res A * connection :=
  if conn_failed c then (Raise (DbError InFailedSqlTransaction), c)
  else
    match body (conn_tables c) with
    | Ok (a, T) => (Ok a, with_tables T c)
    | Raise e => (Raise e, with_failed true c)
    end.

(** [INSERT INTO t VALUES rows [ON CONFLICT ...]] as one statement. *)
Definition exec_insert (sch : table_schema) (oc : on_conflict) (t : string)
    (rows : list row) : connection -> res unit * connection :=
  statement (fun T =>
               match insert_rows sch oc t (T, []) rows with
               | Ok (T', _) => Ok (tt, T')
               | Raise e => Raise e
               end).

(** [SELECT ... FROM t WHERE p] followed by [fetchone()]. *)
Definition exec_select_one (t : string) (p : row -> bool)
  : connection -> res (option row) * connection :=
  statement (fun T => Ok (find p (get_table T t), T)).

(** [UPDATE t SET ... WHERE p] *)
Definition exec_update (t : string) (p : row -> bool) (f : row -> row)
  : connection -> res unit * connection :=
  statement (fun T =>
               Ok (tt, <[t := map (fun r => if p r then f r else r)
                                  (get_table T t)]> T)).

(** [nextval] of the sequence behind the [id] of [t]. *)
Definition nextval (t : string) (c : connection) : Z * connection :=
  let v := (default 0%Z (conn_seqs c !! t) + 1)%Z in
  (v, with_seqs (<[t := v]> (conn_seqs c)) c).

(** The row of [t] that holds the key of [r], for [RETURNING id]. *)
Definition returning_id (target : list nat) (t : string) (r : row)
    (T : tables) : sqlval :=
  match find (same_key target r) (get_table T t) with
  | Some r' => col 0 r'
  | None => SNull
  end.

(** [INSERT INTO t(cols) VALUES (...) [ON CONFLICT ...] RETURNING id] where
    the [id] comes from the sequence: the value is drawn before the row is
    checked, and is the [id] of the row when it is inserted. *)
Definition exec_insert_serial (sch : table_schema) (oc : on_conflict)
    (t : string) (cols : row) (c : connection) : res sqlval * connection :=
  if conn_failed c then (Raise (DbError InFailedSqlTransaction), c)
  else
    let '(v, c1) := nextval t c in
    let r := SInt v :: cols in
    statement (fun T =>
                 match insert_row sch oc t (T, []) r with
                 | Ok (T', _) =>
                     let id :=
                       match oc with
                       | DoUpdate target _ =>
                           if existsb (same_key target r) (get_table T t)
                           then returning_id target t r T'
                           else SInt v
                       | _ => SInt v
                       end in
                     Ok (id, T')
                 | Raise e => Raise e
                 end) c1.

Fixpoint find_savepoint (name : string) (sps : list (string * tables))
  : option (tables * list (string * tables)) :=
  match sps with
  | [] => None
  | (n, T) :: rest =>
      if String.eqb n name then Some (T, sps) else find_savepoint name rest
  end.

(** [SAVEPOINT name]: the stack has the latest savepoint first. *)
Definition exec_savepoint (name : string) (c : connection)
  : res unit * connection :=
  if conn_failed c then (Raise (DbError InFailedSqlTransaction), c)
  else (Ok tt, with_savepoints ((name, conn_tables c) :: conn_savepoints c) c).

(** [ROLLBACK TO SAVEPOINT name]: allowed in the failed state, which it
    ends; the savepoint itself stays. *)
Definition exec_rollback_to (name : string) (c : connection)
  : res unit * connection :=
  match find_savepoint name (conn_savepoints c) with
  | Some (T, sps) =>
      (Ok tt, with_failed false (with_savepoints sps (with_tables T c)))
  | None => (Raise (DbError InvalidSavepoint), with_failed true c)
  end.

(** [RELEASE SAVEPOINT name] *)
Definition exec_release (name : string) (c : connection)
  : res unit * connection :=
  if conn_failed c then (Raise (DbError InFailedSqlTransaction), c)
  else
    match find_savepoint name (conn_savepoints c) with
    | Some (_, sps) => (Ok tt, with_savepoints (tl sps) c)
    | None => (Raise (DbError InvalidSavepoint), with_failed true c)
    end.

(** [conn.commit()]: a transaction in the failed state is rolled back. *)
Definition commit (c : connection) : connection :=
  let T := if conn_failed c then conn_committed c else conn_tables c in
  mkConnection T (conn_seqs c) false [] T.

(** ** [PgRepo] and its methods *)

Record PgRepo := mkPgRepo {
  conn : connection;
  _cache : gmap string (gmap string sqlval);
  _person_cache : gmap (string * option string) sqlval;
  stats : gmap string Z
}.

Definition set_conn (c : connection) (pg : PgRepo) : PgRepo :=
  mkPgRepo c (_cache pg) (_person_cache pg) (stats pg).

(** A computation on a state [S]: the result or the exception, and the state
    as it is then.  A method of [PgRepo] is an [M]. *)
Definition ST (S A : Type) : Type := S -> res A * S.

Definition M (A : Type) : Type := ST PgRepo A.

Definition ret {S A} (a : A) : ST S A := fun s => (Ok a, s).

Definition raise {S A} (e : exn) : ST S A := fun s => (Raise e, s).

Definition bind {S A B} (m : ST S A) (k : A -> ST S B) : ST S B :=
  fun s =>
    match m s with
    | (Ok a, s') => k a s'
    | (Raise e, s') => (Raise e, s')
    end.

Definition lift {S A} (r : res A) : ST S A := fun s => (r, s).

(** [try: m  except Exception as e: h e] *)
Definition catch {S A} (m : ST S A) (h : exn -> ST S A) : ST S A :=
  fun s =>
    match m s with
    | (Ok a, s') => (Ok a, s')
    | (Raise e, s') => h e s'
    end.

(** A statement on [self.conn]. *)
Definition on_conn {A} (f : connection -> res A * connection) : M A :=
  fun pg => let '(r, c) := f (conn pg) in (r, set_conn c pg).

Declare Scope pg_scope.
Delimit Scope pg_scope with pg.
Notation "x <- m ;; k" := (bind m (fun x => k))
  (at level 100, m at next level, right associativity) : pg_scope.
Notation "m ;; k" := (bind m (fun _ => k))
  (at level 100, right associativity) : pg_scope.

(** [self._cache[kind][key]] *)
Definition cache_lookup (kind key : string) (pg : PgRepo) : option sqlval :=
  default ∅ (_cache pg !! kind) !! key.

(** [self._cache[kind][key] = v] *)
Definition cache_store (kind key : string) (v : sqlval) : M unit :=
  fun pg =>
    (Ok tt,
     mkPgRepo (conn pg)
       (<[kind := <[key := v]> (default ∅ (_cache pg !! kind))]> (_cache pg))
       (_person_cache pg) (stats pg)).

(** [self._person_cache[key] = v] *)
Definition person_cache_store (key : string * option string) (v : sqlval)
  : M unit :=
  fun pg =>
    (Ok tt,
     mkPgRepo (conn pg) (_cache pg) (<[key := v]> (_person_cache pg))
       (stats pg)).

(** [self.stats[key] += n] *)
Definition bump (key : string) (n : Z) : M unit :=
  fun pg =>
    (Ok tt,
     mkPgRepo (conn pg) (_cache pg) (_person_cache pg)
       (<[key := (default 0%Z (stats pg !! key) + n)%Z]> (stats pg))).

Definition stat (key : string) (pg : PgRepo) : Z :=
  default 0%Z (stats pg !! key).

(** [a or b] on the results of [normalize_text]. *)
Definition opt_or (a b : option string) : option string :=
  if str_truthy a then a else b.

(** [execute_values] sends one statement per page of 100 rows. *)
Fixpoint pages_from {A} (fuel : nat) (l : list A) : list (list A) :=
  match fuel with
  | O => []
  | S fuel' =>
      match l with
      | [] => []
      | _ => take 100 l :: pages_from fuel' (drop 100 l)
      end
  end.

Definition pages {A} (l : list A) : list (list A) := pages_from (length l) l.

Fixpoint for_each {S A} (f : A -> ST S unit) (l : list A) : ST S unit :=
  match l with
  | [] => ret tt
  | x :: l' => (f x ;; for_each f l')%pg
  end.

(** Column positions of [people]. *)
Definition people_name : nat := 1.
Definition people_en_name : nat := 2.
Definition people_birth_date : nat := 3.
Definition people_death_date : nat := 4.
Definition people_birth_place : nat := 5.
Definition people_photo_url : nat := 6.

Section Repo.

Variable py_float : string -> option spec_float.
Variable py_repr : pyval -> string.
(** The constraints of the target tables. *)
Variable schema : string -> table_schema.

Abbreviation normalize_text := (normalize_text py_repr).
Abbreviation as_int := (as_int py_float py_repr).
Abbreviation as_float := (as_float py_float py_repr).

Definition execute_values (oc : on_conflict) (t : string) (rows : list row)
  : M unit :=
  for_each (fun page => on_conn (exec_insert (schema t) oc t page))
    (pages rows).

Definition _get_single_value (t : string) (p : row -> bool) : M sqlval :=
  (r <- on_conn (exec_select_one t p) ;;
   ret (match r with Some r' => col 0 r' | None => SNull end))%pg.

(** The body shared by [get_or_create_country] and [get_or_create_genre]:
    the two differ in the table, the cache and the counter. *)
Definition get_or_create_named (t counter : string) (name : string)
  : M sqlval :=
  match truncate_text (Some (py_strip name)) 100 with
  | None => ret SNull
  | Some name =>
      if String.eqb name "" then ret SNull
      else fun pg =>
        match cache_lookup t name pg with
        | Some id => (Ok id, pg)
        | None =>
            (id <- _get_single_value t
                     (fun r => sql_eq (col 1 r) (SText name)) ;;
             if sql_truthy id then
               (cache_store t name id ;; ret id)
             else
               (id <- on_conn (exec_insert_serial (schema t) NoClause t
                                 [SText name]) ;;
                cache_store t name id ;;
                bump counter 1 ;;
                ret id))%pg pg
        end
  end.

Definition get_or_create_country : string -> M sqlval :=
  get_or_create_named "countries" "countries_created".

Definition get_or_create_genre : string -> M sqlval :=
  get_or_create_named "genres" "genres_created".

Definition get_role_id (role_name : option string) : M sqlval :=
  match role_name with
  | None => ret SNull
  | Some role_name =>
      if String.eqb role_name "" then ret SNull
      else fun pg =>
        match cache_lookup "roles" role_name pg with
        | Some id => (Ok id, pg)
        | None =>
            (id <- _get_single_value "roles"
                     (fun r => sql_eq (col 1 r) (SText role_name)) ;;
             if sql_truthy id then (cache_store "roles" role_name id ;; ret id)
             else ret id)%pg pg
        end
  end.

(** The fields [upsert_person] derives from a person document. *)
Record person_fields := mkPersonFields {
  pf_name : string;
  pf_en_name : option string;
  pf_photo_url : option string;
  pf_birth_date : option datetime;
  pf_death_date : option datetime;
  pf_birth_place : option string
}.

(** [", ".join([normalize_text(item.get("value")) or "" for item in l
     if isinstance(item, dict)]).strip(", ")] *)
Definition birth_place_text (l : list pyval) : string :=
  py_strip_chars ", "
    (py_join ", "
       (map (fun item =>
               match item with
               | VDict d => default "" (normalize_text (dict_get d "value"))
               | _ => ""
               end)
            (List.filter is_dict l))).

(** The part of [upsert_person] before the store is consulted; [None] when
    no name can be derived. *)
Definition person_fields_of (person : pyval) : res (option person_fields) :=
  (v_name <-? py_get person "name";
   v_en <-? py_get person "enName";
   let name :=
     truncate_text (opt_or (normalize_text v_name) (normalize_text v_en))
       200 in
   let en_name := truncate_text (normalize_text v_en) 200 in
   match name with
   | None => Ok None
   | Some name =>
       if String.eqb name "" then Ok None
       else
         v_photo <-? py_get person "photo";
         let photo_url := normalize_text v_photo in
         v_birthday <-? py_get person "birthday";
         birth_date_dt <-? parse_mongo_date v_birthday;
         v_death <-? py_get person "death";
         death_dt <-? parse_mongo_date v_death;
         v_place <-? py_get person "birthPlace";
         let birth_place_list := py_or v_place (VList []) in
         let birth_place :=
           match birth_place_list with
           | VList l => Some (birth_place_text l)
           | _ => None
           end in
         let birth_place :=
           if str_truthy birth_place then truncate_text birth_place 200
           else None in
         Ok (Some (mkPersonFields name en_name photo_url birth_date_dt
                     death_dt birth_place))
   end)%res.

(** [WHERE name = %s AND COALESCE(en_name,'') = COALESCE(%s,'')] *)
Definition person_matches (name : string) (en_name : option string)
    (r : row) : bool :=
  sql_eq (col people_name r) (SText name)
  && sql_eq (coalesce (col people_en_name r) (SText ""))
       (coalesce (opt_text en_name) (SText "")).

(** The [SET] list of the [UPDATE people]: [c = COALESCE(%s, c)] for the
    four mutable columns ([updated_at] is not a column of the model). *)
Definition person_update (f : person_fields) (r : row) : row :=
  [col 0 r; col people_name r; col people_en_name r;
   coalesce (opt_date (pf_birth_date f)) (col people_birth_date r);
   coalesce (opt_date (pf_death_date f)) (col people_death_date r);
   coalesce (opt_text (pf_birth_place f)) (col people_birth_place r);
   coalesce (opt_text (pf_photo_url f)) (col people_photo_url r)].

(** The column values of the [INSERT INTO people], after the [id]. *)
Definition person_insert_cols (f : person_fields) : row :=
  [SText (pf_name f); opt_text (pf_en_name f); opt_date (pf_birth_date f);
   opt_date (pf_death_date f); opt_text (pf_birth_place f);
   opt_text (pf_photo_url f)].

Definition upsert_person (person : pyval) : M sqlval :=
  (o <- lift (person_fields_of person) ;;
   match o with
   | None => ret SNull
   | Some f =>
       let cache_key := (pf_name f, pf_en_name f) in
       fun pg =>
         match _person_cache pg !! cache_key with
         | Some id => (Ok id, pg)
         | None =>
             (r <- on_conn (exec_select_one "people"
                              (person_matches (pf_name f) (pf_en_name f))) ;;
              match r with
              | Some found =>
                  let person_id := col 0 found in
                  on_conn (exec_update "people"
                             (fun r' => sql_eq (col 0 r') person_id)
                             (person_update f)) ;;
                  bump "people_updated" 1 ;;
                  person_cache_store cache_key person_id ;;
                  ret person_id
              | None =>
                  person_id <- on_conn (exec_insert_serial (schema "people")
                                          NoClause "people"
                                          (person_insert_cols f)) ;;
                  bump "people_inserted" 1 ;;
                  person_cache_store cache_key person_id ;;
                  ret person_id
              end)%pg pg
         end
   end)%pg.

Definition upsert_distributor (name release_name : option string)
  : M sqlval :=
  if negb (str_truthy name) then ret SNull
  else
    match truncate_text name 200 with
    | None => ret SNull
    | Some name =>
        let release_name :=
          if str_truthy release_name then truncate_text release_name 200
          else None in
        let cache_key := (name ++ ":" ++ default "" release_name)%string in
        fun pg =>
          match cache_lookup "distributors" cache_key pg with
          | Some id => (Ok id, pg)
          | None =>
              (r <- on_conn
                      (exec_select_one "distributors"
                         (fun r =>
                            sql_eq (col 1 r) (SText name)
                            && sql_eq (coalesce (col 2 r) (SText ""))
                                 (coalesce (opt_text release_name)
                                    (SText "")))) ;;
               match r with
               | Some found =>
                   cache_store "distributors" cache_key (col 0 found) ;;
                   ret (col 0 found)
               | None =>
                   distributor_id <-
                     on_conn (exec_insert_serial (schema "distributors")
                                NoClause "distributors"
                                [SText name; opt_text release_name]) ;;
                   cache_store "distributors" cache_key distributor_id ;;
                   bump "distributors_created" 1 ;;
                   ret distributor_id
               end)%pg pg
          end
    end.

(** *** Aggregate loader: movie *)

(** [d.get(k) or {}] *)
Definition sub_doc (d : pydict) (k : string) : pyval :=
  py_or (dict_get d k) (VDict []).

Definition float_val (o : option spec_float) : pyval :=
  match o with Some f => VFloat f | None => VNone end.

(** A scalar handed to the store as a statement parameter. *)
Definition sql_of_value (v : pyval) : sqlval :=
  match v with
  | VBool b => SBool b
  | VInt z => SInt z
  | VFloat f => SFloat f
  | VStr s => SText s
  | _ => SNull
  end.

Definition get_nested (d : pyval) (path : list string) : pyval :=
  (fix go (cur : pyval) (path : list string) : pyval :=
     match path with
     | [] => cur
     | key :: path' =>
         match cur with
         | VDict c =>
             match dict_lookup c key with
             | Some v => go v path'
             | None => VNone
             end
         | _ => VNone
         end
     end) d path.

(** What [insert_movie_core] derives from the document: the explicit id,
    the title and the 34 column values after the [id], in the order of the
    [INSERT]; [None] when the document has no title. *)
Definition movie_core_values (movie : pydict)
  : res (option (option Z * list sqlval)) :=
  let explicit_id := as_int (dict_get movie "id") in
  let title :=
    opt_or (normalize_text (dict_get movie "name"))
      (opt_or (normalize_text (dict_get movie "alternativeName"))
         (normalize_text (dict_get movie "enName"))) in
  if negb (str_truthy title) then Ok None
  else
    (let title := truncate_text title 500 in
     let alternative_name :=
       truncate_text (normalize_text (dict_get movie "alternativeName")) 500 in
     let en_name :=
       truncate_text (normalize_text (dict_get movie "enName")) 500 in
     let description := normalize_text (dict_get movie "description") in
     let age_rating :=
       sanitize_age_rating (as_int (dict_get movie "ageRating")) in
     let movie_length := as_int (dict_get movie "movieLength") in
     let slogan := normalize_text (dict_get movie "slogan") in
     let mtype :=
       truncate_text
         (opt_or (normalize_text (dict_get movie "type")) (Some "movie")) 50 in
     let year := sanitize_year (as_int (dict_get movie "year")) in
     premiere_world <-?
       parse_mongo_date (get_nested (VDict movie) ["premiere"; "world"]);
     premiere_russia <-?
       parse_mongo_date (get_nested (VDict movie) ["premiere"; "russia"]);
     let rating := sub_doc movie "rating" in
     v <-? py_get rating "kp";
     rating_kp <-? sanitize_rating py_float (float_val (as_float v));
     v <-? py_get rating "imdb";
     rating_imdb <-? sanitize_rating py_float (float_val (as_float v));
     v <-? py_get rating "filmCritics";
     rating_fc <-? sanitize_rating py_float (float_val (as_float v));
     v <-? py_get rating "russianFilmCritics";
     rating_rfc <-? sanitize_rating py_float (float_val (as_float v));
     let votes := sub_doc movie "votes" in
     votes_kp <-? py_get votes "kp";
     votes_imdb <-? py_get votes "imdb";
     votes_fc <-? py_get votes "filmCritics";
     votes_rfc <-? py_get votes "russianFilmCritics";
     let budget := sub_doc movie "budget" in
     budget_value <-? py_get budget "value";
     budget_currency <-? py_get budget "currency";
     let fees := sub_doc movie "fees" in
     v <-? py_get fees "world";
     let fees_world := py_or v (VDict []) in
     v <-? py_get fees "russia";
     let fees_russia := py_or v (VDict []) in
     v <-? py_get fees "usa";
     let fees_usa := py_or v (VDict []) in
     fees_world_value <-? py_get fees_world "value";
     fees_world_currency <-? py_get fees_world "currency";
     fees_russia_value <-? py_get fees_russia "value";
     fees_russia_currency <-? py_get fees_russia "currency";
     fees_usa_value <-? py_get fees_usa "value";
     fees_usa_currency <-? py_get fees_usa "currency";
     let poster := sub_doc movie "poster" in
     poster_url <-? py_get poster "url";
     poster_preview_url <-? py_get poster "previewUrl";
     let backdrop := sub_doc movie "backdrop" in
     backdrop_url <-? py_get backdrop "url";
     backdrop_preview_url <-? py_get backdrop "previewUrl";
     let external := sub_doc movie "externalId" in
     external_id_imdb <-? py_get external "imdb";
     external_id_tmdb <-? py_get external "tmdb";
     external_id_kphd <-? py_get external "kpHD";
     Ok (Some
           (explicit_id,
            [opt_text title; opt_text alternative_name; opt_text en_name;
             opt_text description; opt_int age_rating; opt_int movie_length;
             opt_text slogan; opt_text mtype; opt_int year;
             opt_date premiere_world; opt_date premiere_russia;
             sql_of_value rating_kp; sql_of_value rating_imdb;
             sql_of_value rating_fc; sql_of_value rating_rfc;
             opt_int (as_int votes_kp); opt_int (as_int votes_imdb);
             opt_int (as_int votes_fc); opt_int (as_int votes_rfc);
             opt_int (as_int budget_value);
             opt_text (truncate_text (normalize_text budget_currency) 10);
             opt_int (as_int fees_world_value);
             opt_text (truncate_text (normalize_text fees_world_currency) 10);
             opt_int (as_int fees_russia_value);
             opt_text (truncate_text (normalize_text fees_russia_currency) 10);
             opt_int (as_int fees_usa_value);
             opt_text (truncate_text (normalize_text fees_usa_currency) 10);
             opt_text (normalize_text poster_url);
             opt_text (normalize_text poster_preview_url);
             opt_text (normalize_text backdrop_url);
             opt_text (normalize_text backdrop_preview_url);
             opt_text (truncate_text (normalize_text external_id_imdb) 20);
             opt_int (as_int external_id_tmdb);
             opt_text (truncate_text (normalize_text external_id_kphd) 50)])))%res.

(** The columns [ON CONFLICT (id) DO UPDATE SET] overwrites: all but [id]. *)
Definition movie_set_cols : list nat := seq 1 34.

Definition insert_movie_core (movie : pydict) : M sqlval :=
  (o <- lift (movie_core_values movie) ;;
   match o with
   | None => ret SNull
   | Some (explicit_id, cols) =>
       movie_id <-
         match explicit_id with
         | Some id =>
             on_conn (exec_insert (schema "movies")
                        (DoUpdate [0%nat] movie_set_cols) "movies"
                        [SInt id :: cols]) ;;
             ret (SInt id)
         | None =>
             on_conn (exec_insert_serial (schema "movies") NoClause "movies"
                        cols)
         end ;;
       (if sql_truthy movie_id then
          match explicit_id with
          | Some _ => bump "movies_updated" 1
          | None => bump "movies_inserted" 1
          end
        else ret tt) ;;
       ret movie_id
   end)%pg.

(** The loop of [link_movie_countries] and [link_movie_genres]. *)
Fixpoint resolve_pairs (resolve : string -> M sqlval) (movie_id : sqlval)
    (names : list string) : M (list row) :=
  match names with
  | [] => ret []
  | name :: names' =>
      if String.eqb name "" then resolve_pairs resolve movie_id names'
      else
        (id <- resolve name ;;
         rest <- resolve_pairs resolve movie_id names' ;;
         ret ([movie_id; id] :: rest))%pg
  end.

Definition link_movie_named (resolve : string -> M sqlval)
    (t counter : string) (movie_id : sqlval) (names : list string)
  : M unit :=
  match names with
  | [] => ret tt
  | _ =>
      (pairs <- resolve_pairs resolve movie_id names ;;
       match pairs with
       | [] => ret tt
       | _ =>
           execute_values DoNothing t pairs ;;
           bump counter (Z.of_nat (length pairs))
       end)%pg
  end.

Definition link_movie_countries : sqlval -> list string -> M unit :=
  link_movie_named get_or_create_country "movie_countries"
    "movie_countries_linked".

Definition link_movie_genres : sqlval -> list string -> M unit :=
  link_movie_named get_or_create_genre "movie_genres" "movie_genres_linked".

(** [role_map.get(role_key)] *)
Definition role_map (role_key : string) : option string :=
  if String.eqb role_key "actor" then Some "actor"
  else if String.eqb role_key "director" then Some "director"
  else if String.eqb role_key "producer" then Some "producer"
  else if String.eqb role_key "writer" then Some "writer"
  else if String.eqb role_key "composer" then Some "composer"
  else if String.eqb role_key "operator" then Some "cinematographer"
  else if String.eqb role_key "cinematographer" then Some "cinematographer"
  else if String.eqb role_key "editor" then Some "editor"
  else if String.eqb role_key "production designer"
  then Some "production_designer"
  else if String.eqb role_key "designer" then Some "production_designer"
  else None.

(** [dedup_key in seen_keys] on [(person_id, role_id, character_name)]. *)
Definition dedup_key_of (r : row) : list sqlval :=
  [col 1 r; col 2 r; col 3 r].

Definition seen (seen_keys : list (list sqlval)) (k : list sqlval) : bool :=
  existsb (key_same k) seen_keys.

(** The loop of [insert_movie_people] from the person at position
    [order_index + 1]: the rows it appends. *)
Fixpoint people_rows (movie_id : sqlval) (order_index : Z)
    (seen_keys : list (list sqlval)) (persons : list pyval)
  : M (list row) :=
  match persons with
  | [] => ret []
  | p :: persons' =>
      let order_index := (order_index + 1)%Z in
      (person_id <- upsert_person p ;;
       if negb (sql_truthy person_id)
       then people_rows movie_id order_index seen_keys persons'
       else
         v_prof <- lift (py_get p "enProfession") ;;
         let role_key := py_lower (default "" (normalize_text v_prof)) in
         let role_name := role_map role_key in
         role_id <- (if str_truthy role_name then get_role_id role_name
                     else ret SNull) ;;
         v_descr <- lift (py_get p "description") ;;
         let character_name := truncate_text (normalize_text v_descr) 200 in
         let r := [movie_id; person_id; role_id; opt_text character_name;
                   SInt order_index] in
         if seen seen_keys (dedup_key_of r)
         then people_rows movie_id order_index seen_keys persons'
         else
           rest <- people_rows movie_id order_index
                     (dedup_key_of r :: seen_keys) persons' ;;
           ret (r :: rest))%pg
  end.

(** The per-row retry of [insert_movie_people]: the number of rows whose
    statement did not raise. *)
Fixpoint insert_people_one_by_one (rows : list row) : M Z :=
  match rows with
  | [] => ret 0%Z
  | r :: rows' =>
      (ok <- catch
               (on_conn (exec_insert (schema "movie_people") DoNothing
                           "movie_people" [r]) ;;
                ret true)
               (fun _ => ret false) ;;
       linked <- insert_people_one_by_one rows' ;;
       ret (if ok : bool then (1 + linked)%Z else linked))%pg
  end.

Definition insert_movie_people (movie_id : sqlval) (persons : list pyval)
  : M unit :=
  match persons with
  | [] => ret tt
  | _ =>
      (rows <- people_rows movie_id 0 [] persons ;;
       match rows with
       | [] => ret tt
       | _ =>
           catch
             (execute_values DoNothing "movie_people" rows ;;
              bump "movie_people_linked" (Z.of_nat (length rows)))
             (fun _ =>
                linked <- insert_people_one_by_one rows ;;
                bump "movie_people_linked" linked)
       end)%pg
  end.

Fixpoint fact_rows (movie_id : sqlval) (facts : list pyval)
  : res (list row) :=
  match facts with
  | [] => Ok []
  | f :: facts' =>
      (v_text <-? py_get f "value";
       v_type <-? py_get f "type";
       let text := normalize_text v_text in
       let ftype := normalize_text v_type in
       let spoiler :=
         match f with
         | VDict d => truthy (dict_get_default d "spoiler" (VBool false))
         | _ => false
         end in
       rest <-? fact_rows movie_id facts';
       Ok (match text with
           | Some t =>
               if String.eqb t "" then rest
               else [movie_id; SText t;
                     SText (py_upper (default "FACT" ftype));
                     SBool spoiler] :: rest
           | None => rest
           end))%res
  end.

Definition insert_movie_facts (movie_id : sqlval) (facts : pyval) : M unit :=
  if negb (truthy facts) then ret tt
  else
    (items <- lift (py_iter facts) ;;
     rows <- lift (fact_rows movie_id items) ;;
     match rows with
     | [] => ret tt
     | _ =>
         execute_values DoNothing "movie_facts" rows ;;
         bump "movie_facts_inserted" (Z.of_nat (length rows))
     end)%pg.

Fixpoint video_rows (movie_id : sqlval) (videos : list pyval) : list row :=
  match videos with
  | [] => []
  | v :: videos' =>
      match v with
      | VDict d =>
          match normalize_text (dict_get d "url") with
          | Some url =>
              if String.eqb url "" then video_rows movie_id videos'
              else
                [movie_id; SText url;
                 opt_text (normalize_text (dict_get d "name"));
                 opt_text (normalize_text (dict_get d "site"));
                 opt_text (option_map py_lower
                             (normalize_text (dict_get d "type")))]
                :: video_rows movie_id videos'
          | None => video_rows movie_id videos'
          end
      | _ => video_rows movie_id videos'
      end
  end.

Definition insert_movie_videos (movie_id : sqlval) (movie : pydict)
  : M unit :=
  match py_or (get_nested (VDict movie) ["videos"; "trailers"]) (VList [])
  with
  | VList (v :: videos) =>
      match video_rows movie_id (v :: videos) with
      | [] => ret tt
      | rows =>
          (execute_values DoNothing "movie_videos" rows ;;
           bump "movie_videos_inserted" (Z.of_nat (length rows)))%pg
      end
  | _ => ret tt
  end.

(** *** Aggregate loader: season and episodes *)

(** [as_int(v) or d] *)
Definition int_or (o : option Z) (d : Z) : Z :=
  match o with
  | Some z => if Z.eqb z 0 then d else z
  | None => d
  end.

(** Column positions of [seasons] and [episodes]. *)
Definition seasons_key : list nat := [1; 2]%nat.
Definition seasons_set : list nat := [3; 4; 5; 6]%nat.
Definition episodes_key : list nat := [0; 1]%nat.
Definition episodes_set : list nat := [2; 3; 4; 5; 6; 7; 8]%nat.

(** The row [upsert_season] builds for one embedded episode. *)
Definition episode_row (season_id : sqlval) (ep : pyval) : res row :=
  (v_number <-? py_get ep "number";
   let ep_num := int_or (as_int v_number) 0 in
   v_name <-? py_get ep "name";
   v_en <-? py_get ep "enName";
   v_descr <-? py_get ep "description";
   v_air <-? py_get ep "airDate";
   air_dt <-? parse_mongo_date v_air;
   v_duration <-? py_get ep "duration";
   v_still <-? py_get ep "still";
   let still := py_or v_still (VDict []) in
   still_url <-? py_get still "url";
   still_preview <-? py_get still "previewUrl";
   Ok [season_id; SInt ep_num; opt_text (normalize_text v_name);
       opt_text (normalize_text v_en); opt_text (normalize_text v_descr);
       opt_date air_dt; opt_int (as_int v_duration);
       opt_text (normalize_text still_url);
       opt_text (normalize_text still_preview)])%res.

Fixpoint episode_rows (season_id : sqlval) (episodes : list pyval)
  : res (list row) :=
  match episodes with
  | [] => Ok []
  | ep :: episodes' =>
      (r <-? episode_row season_id ep;
       rest <-? episode_rows season_id episodes';
       Ok (r :: rest))%res
  end.

(** The column values of the [INSERT INTO seasons], after the [id]. *)
Definition season_cols (movie_id : Z) (season_doc : pydict) : res row :=
  (let number := int_or (as_int (dict_get season_doc "number")) 1 in
   let episodes_count := as_int (dict_get season_doc "episodesCount") in
   air_date_dt <-? parse_mongo_date (dict_get season_doc "airDate");
   let poster := sub_doc season_doc "poster" in
   v_url <-? py_get poster "url";
   let poster_url := normalize_text v_url in
   let description := normalize_text (dict_get season_doc "description") in
   Ok [SInt movie_id; SInt number; opt_int episodes_count;
       opt_date air_date_dt; opt_text poster_url; opt_text description])%res.

Definition upsert_season (season_doc : pydict) : M sqlval :=
  let movie_id := as_int (dict_get season_doc "movieId") in
  match movie_id with
  | None => ret SNull
  | Some movie_id =>
      if Z.eqb movie_id 0 then ret SNull
      else
        (found <- on_conn (exec_select_one "movies"
                             (fun r => sql_eq (col 0 r) (SInt movie_id))) ;;
         match found with
         | None => ret SNull
         | Some _ =>
             cols <- lift (season_cols movie_id season_doc) ;;
             season_id <-
               on_conn (exec_insert_serial (schema "seasons")
                          (DoUpdate seasons_key seasons_set) "seasons" cols) ;;
             bump "seasons_inserted" 1 ;;
             let episodes := py_or (dict_get season_doc "episodes")
                               (VList []) in
             items <- lift (py_iter episodes) ;;
             rows <- lift (episode_rows season_id items) ;;
             match rows with
             | [] => ret tt
             | _ =>
                 execute_values (DoUpdate episodes_key episodes_set)
                   "episodes" rows
             end ;;
             ret season_id
         end)%pg
  end.

(** *** Batch and savepoint coordinator *)

(** [time.time_ns()] as read for the document at a position of the batch. *)
Variable time_ns : nat -> Z.

(** The local counters of a batch function; only [inserted] is returned,
    [skipped] is logged. *)
Record counters := mkCounters {
  inserted : Z;
  skipped : Z
}.

(** The frame of a batch function: its local counters, which keep what was
    added to them when an exception reaches the [except] clause, and the
    repository it was given. *)
Record frame := mkFrame {
  locals : counters;
  self : PgRepo
}.

Definition in_pg {A} (m : M A) : ST frame A :=
  fun fr => let '(r, pg) := m (self fr) in (r, mkFrame (locals fr) pg).

(** [inserted += 1] *)
Definition count_inserted : ST frame unit :=
  fun fr =>
    (Ok tt,
     mkFrame (mkCounters (inserted (locals fr) + 1) (skipped (locals fr)))
       (self fr)).

(** [skipped += 1] *)
Definition count_skipped : ST frame unit :=
  fun fr =>
    (Ok tt,
     mkFrame (mkCounters (inserted (locals fr)) (skipped (locals fr) + 1))
       (self fr)).

Definition sp_name (prefix : string) (i : nat) : string :=
  (prefix ++ str_of_Z (time_ns i))%string.

(** The [except] clause of the batch loops after the count: roll back to
    the savepoint and release it, whatever these two statements do. *)
Definition rollback_and_release (name : string) : ST frame unit :=
  catch
    (in_pg (on_conn (exec_rollback_to name)) ;;
     in_pg (on_conn (exec_release name)))%pg
    (fun _ => ret tt).

(** The [try] block of the loop of [process_people_batch]. *)
Definition person_doc_body (name : string) (person_doc : pydict)
  : ST frame unit :=
  (in_pg (on_conn (exec_savepoint name)) ;;
   pid <- in_pg (upsert_person (VDict person_doc)) ;;
   (if sql_truthy pid then count_inserted else ret tt) ;;
   in_pg (on_conn (exec_release name)))%pg.

(** One iteration of the loop of [process_people_batch]. *)
Definition process_person_doc (i : nat) (person_doc : pydict)
  : ST frame unit :=
  let name := sp_name "sp_person_" i in
  catch (person_doc_body name person_doc)
    (fun _ => (count_skipped ;; rollback_and_release name)%pg).

Fixpoint batch_loop {D} (step : nat -> D -> ST frame unit) (i : nat)
    (docs : list D) : ST frame unit :=
  match docs with
  | [] => ret tt
  | d :: docs' => (step i d ;; batch_loop step (S i) docs')%pg
  end.

(** A batch function from its entry to its [return inserted]. *)
Definition run_batch {D} (step : nat -> D -> ST frame unit)
    (docs : list D) (pg : PgRepo) : res unit * frame :=
  batch_loop step 0 docs (mkFrame (mkCounters 0 0) pg).

Definition returning_inserted (r : res unit * frame) : res Z * PgRepo :=
  (match fst r with
   | Ok _ => Ok (inserted (locals (snd r)))
   | Raise e => Raise e
   end, self (snd r)).

Definition process_people_batch (people_batch : list pydict) : M Z :=
  fun pg => returning_inserted (run_batch process_person_doc people_batch pg).

(** [[normalize_text(c.get("name")) for c in (doc.get(k) or [])
      if isinstance(c, dict)]], then the non-empty ones. *)
Definition names_of (movie_doc : pydict) (k : string) : res (list string) :=
  (items <-? py_iter (py_or (dict_get movie_doc k) (VList []));
   Ok (omap (fun c =>
               match c with
               | VDict d =>
                   match normalize_text (dict_get d "name") with
                   | Some n => if String.eqb n "" then None else Some n
                   | None => None
                   end
               | _ => None
               end) items))%res.

(** [parse_mongo_date(russia) or parse_mongo_date(world)] *)
Definition release_date (movie_doc : pydict) : res (option datetime) :=
  (russia <-?
     parse_mongo_date (get_nested (VDict movie_doc) ["premiere"; "russia"]);
   match russia with
   | Some d => Ok (Some d)
   | None =>
       parse_mongo_date (get_nested (VDict movie_doc) ["premiere"; "world"])
   end)%res.

(** The distributor step of [process_movie_batch]. *)
Definition link_distributor (movie_id : sqlval) (movie_doc : pydict)
  : M unit :=
  (let distributors := sub_doc movie_doc "distributors" in
   v_name <- lift (py_get distributors "distributor") ;;
   v_release <- lift (py_get distributors "distributorRelease") ;;
   let d_name := normalize_text v_name in
   let d_release := normalize_text v_release in
   distributor_id <- upsert_distributor d_name d_release ;;
   if sql_truthy distributor_id then
     release_dt <- lift (release_date movie_doc) ;;
     on_conn (exec_insert (schema "movie_distributors") DoNothing
                "movie_distributors"
                [[movie_id; distributor_id; SText "theatrical";
                  opt_date release_dt]])
   else ret tt)%pg.

(** The statements of one movie document after its core row. *)
Definition movie_children (movie_id : sqlval) (movie_doc : pydict)
  : M unit :=
  (countries <- lift (names_of movie_doc "countries") ;;
   link_movie_countries movie_id countries ;;
   genres <- lift (names_of movie_doc "genres") ;;
   link_movie_genres movie_id genres ;;
   match py_or (dict_get movie_doc "persons") (VList []) with
   | VList persons => insert_movie_people movie_id persons
   | _ => ret tt
   end ;;
   insert_movie_facts movie_id
     (py_or (dict_get movie_doc "facts") (VList [])) ;;
   insert_movie_videos movie_id movie_doc ;;
   link_distributor movie_id movie_doc)%pg.

(** The [try] block of the loop of [process_movie_batch], run without the
    search and cache sinks ([es] and [redis_repo] are [None]; when present
    their failures are caught on the spot and they write to no table). *)
Definition movie_doc_body (name : string) (movie_doc : pydict)
  : ST frame unit :=
  (in_pg (on_conn (exec_savepoint name)) ;;
   movie_id <- in_pg (insert_movie_core movie_doc) ;;
   if negb (sql_truthy movie_id) then
     count_skipped ;;
     in_pg (on_conn (exec_release name))
   else
     in_pg (movie_children movie_id movie_doc) ;;
     count_inserted ;;
     in_pg (on_conn (exec_release name)))%pg.

(** One iteration of the loop of [process_movie_batch]. *)
Definition process_movie_doc (i : nat) (movie_doc : pydict)
  : ST frame unit :=
  let name := sp_name "sp_movie_" i in
  catch (movie_doc_body name movie_doc)
    (fun _ => (count_skipped ;; rollback_and_release name)%pg).

Definition process_movie_batch (movies_batch : list pydict) : M Z :=
  fun pg => returning_inserted (run_batch process_movie_doc movies_batch pg).

(** A batch as [seed_from_mongo] runs it: the batch function, then
    [pg.conn.commit()]. *)
Definition run_movie_batch (movies_batch : list pydict) (pg : PgRepo)
  : res Z * PgRepo :=
  let '(r, pg') := process_movie_batch movies_batch pg in
  (r, set_conn (commit (conn pg')) pg').

End Repo.


(** * Definitions for the statements *)

(** ** Instances for closed statements *)

(** An instance of [float(str)] for the closed examples: right on a string of
    decimal digits with an optional sign, [ValueError] on any other string.
    The documents of the examples hold no other numeric string. *)
Definition float_of_digits (s : string) : option spec_float :=
  match int_of_str s with
  | Ok z =>
      match float_of_Z z with
      | Ok f => Some f
      | Raise _ => None
      end
  | Raise _ => None
  end.

(** An instance of [str()] on floats and containers for the closed examples,
    in which no such value is converted. *)
Definition no_repr (v : pyval) : string := "".

(** Modelled from the spec: the DDL of the target tables is not in the
    repository.  The constraints are those sections 3 and 6 of the
    specification name: a unique [id] where a table has one, a unique name for
    countries, genres and roles, a unique (name, release name) for
    distributors, a unique pair or content key that makes a repeated link a
    no-op for the association and child tables, (movie, season number) for
    seasons, (season, episode number) for episodes, and referential integrity
    from every association or child row to its parents. *)
Definition spec_schema (t : string) : table_schema :=
  if String.eqb t "countries" then mkTableSchema [] [[0]; [1]]%nat
  else if String.eqb t "genres" then mkTableSchema [] [[0]; [1]]%nat
  else if String.eqb t "roles" then mkTableSchema [] [[0]; [1]]%nat
  else if String.eqb t "distributors" then mkTableSchema [] [[0]; [1; 2]]%nat
  else if String.eqb t "people" then mkTableSchema [] [[0]]%nat
  else if String.eqb t "movies" then mkTableSchema [] [[0]]%nat
  else if String.eqb t "movie_countries"
  then mkTableSchema [(0, "movies"); (1, "countries")]%nat [[0; 1]]%nat
  else if String.eqb t "movie_genres"
  then mkTableSchema [(0, "movies"); (1, "genres")]%nat [[0; 1]]%nat
  else if String.eqb t "movie_people"
  then mkTableSchema [(0, "movies"); (1, "people"); (2, "roles")]%nat
         [[0; 1; 2; 3]]%nat
  else if String.eqb t "movie_facts"
  then mkTableSchema [(0, "movies")]%nat [[0; 1]]%nat
  else if String.eqb t "movie_videos"
  then mkTableSchema [(0, "movies")]%nat [[0; 1]]%nat
  else if String.eqb t "movie_distributors"
  then mkTableSchema [(0, "movies"); (1, "distributors")]%nat [[0; 1]]%nat
  else if String.eqb t "seasons"
  then mkTableSchema [(1, "movies")]%nat [[0]; [1; 2]]%nat
  else if String.eqb t "episodes"
  then mkTableSchema [(0, "seasons")]%nat [[0; 1]]%nat
  else mkTableSchema [] [].

(** A connection with empty tables and fresh sequences, and the repository
    [PgRepo()] builds on it. *)
Definition empty_conn : connection := mkConnection ∅ ∅ false [] ∅.
Definition empty_pg : PgRepo := mkPgRepo empty_conn ∅ ∅ ∅.

(** The clock of the closed examples: one tick per document. *)
Definition tick (i : nat) : Z := Z.of_nat i.

(** The rows of a table of the open transaction, and of the committed
    state. *)
Definition rows_of (t : string) (pg : PgRepo) : table :=
  get_table (conn_tables (conn pg)) t.

Definition committed_rows (t : string) (pg : PgRepo) : table :=
  get_table (conn_committed (conn pg)) t.

(** ** Value normalizers *)

(** [a <= b] on binary64 numbers, as Python compares floats. *)
Definition float_le (a b : spec_float) : Prop := SFleb a b = true.

Definition rating_ok (f : spec_float) : Prop :=
  float_le float_zero f /\ float_le f float_ten.

Definition year_ok (v : Z) : Prop := (1800 <= v <= 2100)%Z.

(** The binary64 numbers next to the bounds of the rating range. *)
Definition float_above_ten : spec_float :=
  S754_finite false 5629499534213121 (-49).
Definition float_below_zero : spec_float := S754_finite true 1 (-1074).

(** ** Dates *)

Definition midnight_2012_05_03 (tz : option Z) : datetime :=
  mkDatetime 2012 5 3 0 0 0 0 tz.

(** ** Season keys *)

(** The document without the field [k]. *)
Definition dict_remove (k : string) (d : pydict) : pydict :=
  List.filter (fun kv => negb (String.eqb k (fst kv))) d.

Definition season_zero_doc : pydict :=
  [("movieId", VInt 7); ("number", VStr "0");
   ("episodes", VList [VDict [("number", VInt 0); ("name", VStr "Pilot")]])].

Definition pg_with_movie_7 : PgRepo :=
  mkPgRepo (mkConnection {["movies" := [[SInt 7; SText "Show"]]]} ∅ false [] ∅)
    ∅ ∅ ∅.

(** ** Title derivation *)

(** The first of the candidates that is present and not empty. *)
Fixpoint first_non_empty (l : list (option string)) : option string :=
  match l with
  | [] => None
  | Some s :: l' => if String.eqb s "" then first_non_empty l' else Some s
  | None :: l' => first_non_empty l'
  end.

(** The title as the specification derives it: the first non-empty, after
    trimming, of the primary, the alternate and the english name. *)
Definition title_by_spec (py_repr : pyval -> string) (movie : pydict)
  : option string :=
  first_non_empty
    [normalize_text py_repr (dict_get movie "name");
     normalize_text py_repr (dict_get movie "alternativeName");
     normalize_text py_repr (dict_get movie "enName")].

(** [s[:n]] when [s] is longer than [n], [s] otherwise. *)
Definition first_chars (n : nat) (s : string) : string :=
  if (n <? String.length s)%nat then substring 0 n s else s.

Definition name_of_501 : string := string_of_list_ascii (repeat "a"%char 501).
Definition name_of_500 : string := string_of_list_ascii (repeat "a"%char 500).

Definition long_title_doc : pydict := [("name", VStr name_of_501)].

Definition untitled_doc : pydict :=
  [("name", VStr "   "); ("enName", VNone); ("year", VInt 1999)].

Definition titled_doc : pydict :=
  [("alternativeName", VStr " Solaris "); ("enName", VStr "Solaris (1972)")].

(** ** Entity resolvers *)

(** Either nothing was added to the table or one row was. *)
Definition at_most_one_insert (old new : table) : Prop :=
  new = old \/ exists r, new = old ++ [r].

(** Either the rows were updated in place or one row was added. *)
Definition updated_or_one_insert (old new : table) : Prop :=
  (exists g, new = map g old) \/ exists r, new = old ++ [r].

Definition ivan_doc : pyval :=
  VDict [("name", VStr "Ivan Ivanov"); ("enName", VNone);
         ("birthday", VDict [("$date", VStr "1970-01-01T00:00:00.000Z")])].

(** ** Person update *)

Definition ann_row (birth : date) (photo : string) : row :=
  [SInt 1; SText "Ann"; SNull; SDate birth; SNull; SText "Paris"; SText photo].

Definition pg_with_ann : PgRepo :=
  mkPgRepo
    (mkConnection {["people" := [ann_row (mkDate 1970 1 1) "old.jpg"]]} ∅
       false [] ∅)
    ∅ ∅ ∅.

Definition ann_doc : pyval :=
  VDict [("name", VStr "Ann"); ("photo", VStr "new.jpg");
         ("birthday", VDict [("$date", VStr "1980-02-02T00:00:00Z")])].

(** ** Distribution release date *)

(** [parse_mongo_date] as the total function it is. *)
Definition parsed_date (v : pyval) : option datetime :=
  try_except (parse_mongo_date v) None.

Definition premiere (movie_doc : pydict) (k : string) : option datetime :=
  parsed_date (get_nested (VDict movie_doc) ["premiere"; k]).

(** The russia premiere when the field yields a date, the world premiere
    otherwise. *)
Definition preferred_premiere (movie_doc : pydict) : option datetime :=
  match premiere movie_doc "russia" with
  | Some d => Some d
  | None => premiere movie_doc "world"
  end.

Definition premiere_doc : pydict :=
  [("name", VStr "Film");
   ("premiere", VDict [("russia", VStr "2020-05-01T00:00:00Z");
                       ("world", VStr "2020-01-01T00:00:00Z")]);
   ("distributors", VDict [("distributor", VStr "Acme")])].

Definition pg_with_film : PgRepo :=
  mkPgRepo (mkConnection {["movies" := [[SInt 1; SText "Film"]]]} ∅ false [] ∅)
    ∅ ∅ ∅.

(** The movie 1 of the distributor Acme with a russia premiere. *)
Definition dated_doc (russia : string) : pydict :=
  [("id", VInt 1); ("name", VStr "Film");
   ("premiere", VDict [("russia", VStr russia)]);
   ("distributors", VDict [("distributor", VStr "Acme")])].

(** ** Movie-people rows *)

Definition res_map {A B} (f : A -> B) (r : res A) : res B :=
  match r with
  | Ok a => Ok (f a)
  | Raise e => Raise e
  end.

(** The link row of a person reference: the movie, the key (person id, role
    id, character text) and the display order. *)
Definition link_row (movie_id : sqlval) (key : list sqlval) (order : Z) : row :=
  movie_id :: key ++ [SInt order].

(** The rows the loop of [insert_movie_people] keeps, given what each person
    reference resolved to ([None] for a skipped one): the tail of the list
    from position [order_index + 1], with the keys already seen. *)
Fixpoint rows_from (movie_id : sqlval) (order_index : Z)
    (seen_keys : list (list sqlval)) (refs : list (option (list sqlval)))
  : list row :=
  match refs with
  | [] => []
  | None :: refs' => rows_from movie_id (order_index + 1) seen_keys refs'
  | Some key :: refs' =>
      if seen seen_keys key
      then rows_from movie_id (order_index + 1) seen_keys refs'
      else link_row movie_id key (order_index + 1)
           :: rows_from movie_id (order_index + 1) (key :: seen_keys) refs'
  end.

Definition link_rows (movie_id : sqlval) (refs : list (option (list sqlval)))
  : list row :=
  rows_from movie_id 0 [] refs.

Section References.

Variable py_repr : pyval -> string.
Variable schema : string -> table_schema.

(** What one person reference resolves to, in the order the loop of
    [insert_movie_people] does it: the person, then the role, then the
    character text; [None] when the person has no identifier. *)
Definition resolve_ref (p : pyval) : M (option (list sqlval)) :=
  (person_id <- upsert_person py_repr schema p ;;
   if negb (sql_truthy person_id) then ret None
   else
     v_prof <- lift (py_get p "enProfession") ;;
     let role_key := py_lower (default "" (normalize_text py_repr v_prof)) in
     let role_name := role_map role_key in
     role_id <- (if str_truthy role_name then get_role_id role_name
                 else ret SNull) ;;
     v_descr <- lift (py_get p "description") ;;
     let character_name :=
       truncate_text (normalize_text py_repr v_descr) 200 in
     ret (Some [person_id; role_id; opt_text character_name]))%pg.

Fixpoint resolve_refs (persons : list pyval)
  : M (list (option (list sqlval))) :=
  match persons with
  | [] => ret []
  | p :: persons' =>
      (ref <- resolve_ref p ;;
       refs <- resolve_refs persons' ;;
       ret (ref :: refs))%pg
  end.

End References.

Definition pg_with_roles : PgRepo :=
  mkPgRepo
    (mkConnection {["roles" := [[SInt 3; SText "actor"]]]} ∅ false [] ∅)
    ∅ ∅ ∅.

Definition cast : list pyval :=
  [VDict [("name", VStr "Keanu"); ("enProfession", VStr "actor");
          ("description", VStr "Neo")];
   VDict [("enProfession", VStr "actor")];
   VDict [("name", VStr "Keanu"); ("enProfession", VStr "Actor");
          ("description", VStr " Neo ")];
   VDict [("name", VStr "Carrie"); ("enProfession", VStr "actor");
          ("description", VStr "Trinity")]].

(** ** Failure isolation *)

(** A computation that neither sets, releases nor rolls back a savepoint and
    does not commit. *)
Definition stable {A} (m : M A) : Prop :=
  forall pg r pg',
    m pg = (r, pg') ->
    conn_savepoints (conn pg') = conn_savepoints (conn pg)
    /\ conn_committed (conn pg') = conn_committed (conn pg).

Definition sound_doc_before : pydict :=
  [("name", VStr "First"); ("countries", VList [VDict [("name", VStr "Y")]])].

Definition broken_facts_doc : pydict :=
  [("name", VStr "A"); ("countries", VList [VDict [("name", VStr "X")]]);
   ("facts", VList [VStr "oops"])].

Definition sound_doc_after : pydict :=
  [("name", VStr "B"); ("countries", VList [VDict [("name", VStr "X")]])].

(** The unique keys of [spec_schema] without its foreign keys. *)
Definition schema_without_fks (t : string) : table_schema :=
  mkTableSchema [] (ts_uniques (spec_schema t)).

Definition movie_run_without_fks (batch : list pydict) : res Z * PgRepo :=
  run_movie_batch float_of_digits no_repr schema_without_fks tick batch
    empty_pg.

Definition movie_run (batch : list pydict) : res Z * PgRepo :=
  run_movie_batch float_of_digits no_repr spec_schema tick batch empty_pg.

Definition movie_run_counters (batch : list pydict) : counters :=
  locals (snd (run_batch
                 (process_movie_doc float_of_digits no_repr spec_schema tick)
                 batch empty_pg)).

Definition broken_facts_cast_doc : pydict :=
  [("name", VStr "A"); ("persons", VList [VDict [("name", VStr "P")]]);
   ("facts", VList [VStr "oops"])].

Definition two_person_doc : pydict :=
  [("name", VStr "B");
   ("persons", VList [VDict [("name", VStr "P")]; VDict [("name", VStr "Q")]])].

(** The repository when the loop reaches the second document of the batch
    [[broken_facts_cast_doc; two_person_doc]]. *)
Definition pg_after_broken_cast : PgRepo :=
  self (snd (run_batch
               (process_movie_doc float_of_digits no_repr spec_schema tick)
               [broken_facts_cast_doc] empty_pg)).

(** The second document up to its people links: the savepoint and the core
    row, then [insert_movie_people]. *)
Definition people_step : res unit * PgRepo :=
  (on_conn (exec_savepoint "sp") ;;
   movie_id <- insert_movie_core float_of_digits no_repr spec_schema
                 two_person_doc ;;
   insert_movie_people no_repr spec_schema movie_id
     [VDict [("name", VStr "P")]; VDict [("name", VStr "Q")]])%pg
    pg_after_broken_cast.

(** ** What an [INSERT ... ON CONFLICT DO NOTHING] stores *)

(** The table after the rows were proposed one after the other: a row is
    appended unless a row of the table, stored before the statement or
    appended by it, holds one of its unique keys. *)
Fixpoint kept_rows (uniques : list (list nat)) (tbl : table)
    (rows : list row) : table :=
  match rows with
  | [] => tbl
  | r :: rows' =>
      kept_rows uniques (if conflicts uniques tbl r then tbl else tbl ++ [r])
        rows'
  end.

(** A store with the role and the movie the references of [cast] name. *)
Definition pg_with_cast_movie : PgRepo :=
  mkPgRepo
    (mkConnection {["roles" := [[SInt 3; SText "actor"]];
                    "movies" := [[SInt 9; SText "Matrix"]]]} ∅ false [] ∅)
    ∅ ∅ ∅.

(** ** Text normalizers *)

(** The last character of a string, if any. *)
Fixpoint last_char (s : string) : option ascii :=
  match s with
  | EmptyString => None
  | String c EmptyString => Some c
  | String _ s' => last_char s'
  end.

(** ** Batches *)

(** The connection is usable: the transaction is not in the failed state. *)
Definition healthy (pg : PgRepo) : Prop := conn_failed (conn pg) = false.

(** Two repositories at the same point of the same transaction. *)
Definition same_transaction (pg pg' : PgRepo) : Prop :=
  conn_savepoints (conn pg') = conn_savepoints (conn pg)
  /\ conn_committed (conn pg') = conn_committed (conn pg).

(** One iteration of a batch loop returns whatever the document and the
    store do, and adds at most one to [inserted]. *)
Definition counted_step {D} (step : nat -> D -> ST frame unit) : Prop :=
  forall i d fr r fr',
    step i d fr = (r, fr') ->
    r = Ok tt
    /\ (inserted (locals fr) <= inserted (locals fr')
        <= inserted (locals fr) + 1)%Z.

(** One iteration of a batch loop leaves a usable connection usable, at the
    same point of the same transaction. *)
Definition isolated_step {D} (step : nat -> D -> ST frame unit) : Prop :=
  forall i d fr r fr',
    healthy (self fr) ->
    step i d fr = (r, fr') ->
    healthy (self fr') /\ same_transaction (self fr) (self fr').

(** ** The batching of [seed_from_mongo] *)

(** [pg.conn.commit()] *)
Definition pg_commit : M unit :=
  fun pg => (Ok tt, set_conn (commit (conn pg)) pg).

Section Seeding.

Context {St D : Type}.

(** [BATCH_SIZE], read from the environment: any integer. *)
Variable BATCH_SIZE : Z.
(** The batch function, and what follows it: the commit and the flushes. *)
Variable process : list D -> ST St Z.
Variable after_batch : ST St unit.

(** The loop over a cursor, from a point where [batch] holds the documents
    read since the last batch and [total] the sum of the counts: the
    documents are appended one by one, a batch is processed as soon as it
    holds [BATCH_SIZE] documents, and what is left when the cursor ends is
    processed if it is not empty. *)
Fixpoint seed_loop (batch : list D) (total : Z) (cursor : list D) : ST St Z :=
  match cursor with
  | [] =>
      match batch with
      | [] => ret total
      | _ =>
          (n <- process batch ;;
           after_batch ;;
           ret (total + n)%Z)%pg
      end
  | doc :: cursor' =>
      let batch := batch ++ [doc] in
      if (BATCH_SIZE <=? Z.of_nat (length batch))%Z then
        (n <- process batch ;;
         after_batch ;;
         seed_loop [] (total + n)%Z cursor')%pg
      else seed_loop batch total cursor'
  end.

Definition seed_collection (cursor : list D) : ST St Z := seed_loop [] 0 cursor.

(** The batches the loop hands over, in order. *)
Fixpoint batches_from (batch : list D) (cursor : list D) : list (list D) :=
  match cursor with
  | [] =>
      match batch with
      | [] => []
      | _ => [batch]
      end
  | doc :: cursor' =>
      let batch := batch ++ [doc] in
      if (BATCH_SIZE <=? Z.of_nat (length batch))%Z
      then batch :: batches_from [] cursor'
      else batches_from batch cursor'
  end.

(** The batches processed one after the other. *)
Fixpoint run_batches (total : Z) (batches : list (list D)) : ST St Z :=
  match batches with
  | [] => ret total
  | batch :: batches' =>
      (n <- process batch ;;
       after_batch ;;
       run_batches (total + n)%Z batches')%pg
  end.

End Seeding.

Section SeedingStages.

Variable py_float : string -> option spec_float.
Variable py_repr : pyval -> string.
Variable schema : string -> table_schema.
Variable time_ns : nat -> Z.
Variable BATCH_SIZE : Z.

(** The people stage of [seed_from_mongo]. *)
Definition seed_people : list pydict -> M Z :=
  seed_collection BATCH_SIZE (process_people_batch py_repr schema time_ns)
    pg_commit.

(** The movies stage of [seed_from_mongo], run without the search and cache
    sinks. *)
Definition seed_movies : list pydict -> M Z :=
  seed_collection BATCH_SIZE
    (process_movie_batch py_float py_repr schema time_ns) pg_commit.

End SeedingStages.

(** ** The seasons stage of [seed_from_mongo] *)

(** [conn.rollback()] *)
Definition rollback (c : connection) : connection :=
  mkConnection (conn_committed c) (conn_seqs c) false [] (conn_committed c).

Definition pg_rollback : M unit :=
  fun pg => (Ok tt, set_conn (rollback (conn pg)) pg).

(** The local counters of the seasons loop. *)
Record season_counters := mkSeasonCounters {
  inserted_seasons : Z;
  processed_since_commit : Z
}.

Record season_frame := mkSeasonFrame {
  season_locals : season_counters;
  season_self : PgRepo
}.

Definition in_repo {A} (m : M A) : ST season_frame A :=
  fun fr =>
    let '(r, pg) := m (season_self fr) in
    (r, mkSeasonFrame (season_locals fr) pg).

(** [inserted_seasons += 1; processed_since_commit += 1] *)
Definition count_season : ST season_frame unit :=
  fun fr =>
    (Ok tt,
     mkSeasonFrame
       (mkSeasonCounters (inserted_seasons (season_locals fr) + 1)
          (processed_since_commit (season_locals fr) + 1))
       (season_self fr)).

Section Seasons.

Variable py_float : string -> option spec_float.
Variable py_repr : pyval -> string.
Variable schema : string -> table_schema.
Variable time_ns : nat -> Z.
(** [COMMIT_INTERVAL], read from the environment: any integer. *)
Variable COMMIT_INTERVAL : Z.

(** [if processed_since_commit >= COMMIT_INTERVAL: commit; reset] *)
Definition commit_if_due : ST season_frame unit :=
  fun fr =>
    if (COMMIT_INTERVAL <=? processed_since_commit (season_locals fr))%Z
    then
      (Ok tt,
       mkSeasonFrame
         (mkSeasonCounters (inserted_seasons (season_locals fr)) 0)
         (set_conn (commit (conn (season_self fr))) (season_self fr)))
    else (Ok tt, fr).

(** The [try] block of the seasons loop. *)
Definition season_doc_body (name : string) (season_doc : pydict)
  : ST season_frame unit :=
  (in_repo (on_conn (exec_savepoint name)) ;;
   sid <- in_repo (upsert_season py_float py_repr schema season_doc) ;;
   (if sql_truthy sid then count_season else ret tt) ;;
   in_repo (on_conn (exec_release name)) ;;
   commit_if_due)%pg.

(** The [except] clause of the seasons loop: back to the savepoint, or, when
    that fails, a rollback of the whole transaction. *)
Definition season_except (name : string) : ST season_frame unit :=
  catch
    (in_repo (on_conn (exec_rollback_to name)) ;;
     in_repo (on_conn (exec_release name)))%pg
    (fun _ => in_repo pg_rollback).

Definition process_season_doc (i : nat) (season_doc : pydict)
  : ST season_frame unit :=
  let name := sp_name time_ns "sp_season_" i in
  catch (season_doc_body name season_doc) (fun _ => season_except name).

Fixpoint season_loop (i : nat) (docs : list pydict) : ST season_frame unit :=
  match docs with
  | [] => ret tt
  | d :: docs' => (process_season_doc i d ;; season_loop (S i) docs')%pg
  end.

(** The loop over the seasons cursor and the commit that follows it; the
    result is [inserted_seasons]. *)
Definition seed_seasons (cursor : list pydict) : M Z :=
  fun pg =>
    let '(r, fr) :=
      season_loop 0 cursor (mkSeasonFrame (mkSeasonCounters 0 0) pg) in
    match r with
    | Ok _ =>
        (Ok (inserted_seasons (season_locals fr)),
         set_conn (commit (conn (season_self fr))) (season_self fr))
    | Raise e => (Raise e, season_self fr)
    end.

End Seasons.

(** A computation that leaves a usable transaction usable when it returns. *)
Definition keeps_healthy {A} (m : M A) : Prop :=
  forall pg a pg', healthy pg -> m pg = (Ok a, pg') -> healthy pg'.

(** ** Example inputs *)

Definition broken_season_doc : pydict :=
  [("movieId", VInt 7); ("number", VInt 1); ("episodes", VList [VStr "x"])].

Definition three_people : list pydict :=
  [[("name", VStr "Ann")]; [("enName", VNone)]; [("name", VStr "Bob")]].

(** ** [EsRepo]

    The cluster is seen through the requests the client is asked to make:
    each request either returns or raises, as the environment decides, and
    the script does nothing else with the answer than log the failure. *)

(** An action handed to the bulk helper: index [_source] under [_id] in the
    index [movies]. *)
Record es_action := mkEsAction {
  act_id : pyval;
  act_source : pydict
}.

Inductive es_request :=
| EsIndex (id : pyval) (document : pydict)
| EsBulk (actions : list es_action).

(** [EsRepo]: whether [self.client] is set, the buffer and the bulk size. *)
Record EsRepo := mkEsRepo {
  es_client : bool;
  _buffer : list es_action;
  _bulk_size : Z
}.

(** An [EsRepo] and the requests made through its client so far, oldest
    first, each with whether it returned. *)
Record es_world := mkEsWorld {
  es_repo : EsRepo;
  es_requests : list (es_request * bool)
}.

Definition with_buffer (b : list es_action) (w : es_world) : es_world :=
  mkEsWorld (mkEsRepo (es_client (es_repo w)) b (_bulk_size (es_repo w)))
    (es_requests w).

(** The actions a request carries. *)
Definition actions_of (r : es_request) : list es_action :=
  match r with
  | EsIndex id document => [mkEsAction id document]
  | EsBulk actions => actions
  end.

(** The actions handed to the client so far, in order. *)
Definition handed (w : es_world) : list es_action :=
  concat (map (fun rq => actions_of (fst rq)) (es_requests w)).

(** The actions of the requests that returned. *)
Definition delivered (w : es_world) : list es_action :=
  concat (map (fun rq : es_request * bool =>
                 if snd rq then actions_of (fst rq) else [])
            (es_requests w)).

Section Elasticsearch.

(** Whether [elasticsearch.helpers.bulk] could be imported. *)
Variable has_bulk : bool.
(** The environment: whether the request made after [n] others returns. *)
Variable es_accepts : nat -> es_request -> bool.

(** A request made inside a [try] whose [except] clause only logs. *)
Definition es_send (r : es_request) (w : es_world) : es_world :=
  mkEsWorld (es_repo w)
    (es_requests w ++ [(r, es_accepts (length (es_requests w)) r)]).

(** [EsRepo.flush] *)
Definition es_flush (w : es_world) : es_world :=
  if negb (es_client (es_repo w))
     || match _buffer (es_repo w) with [] => true | _ => false end
     || negb has_bulk
  then with_buffer [] w
  else with_buffer [] (es_send (EsBulk (_buffer (es_repo w))) w).

(** [EsRepo.index_movie] *)
Definition index_movie (movie_id : pyval) (body : pydict) (w : es_world)
  : es_world :=
  if negb (es_client (es_repo w)) then w
  else if negb has_bulk then es_send (EsIndex movie_id body) w
  else
    let w1 := with_buffer (_buffer (es_repo w) ++ [mkEsAction movie_id body])
                w in
    if (_bulk_size (es_repo w1) <=? Z.of_nat (length (_buffer (es_repo w1))))%Z
    then es_flush w1
    else w1.

(** [EsRepo.close] *)
Definition es_close (w : es_world) : es_world := es_flush w.

(** A call of one of the two methods. *)
Inductive es_call :=
| CallIndex (movie_id : pyval) (body : pydict)
| CallFlush.

Definition es_run_call (c : es_call) (w : es_world) : es_world :=
  match c with
  | CallIndex movie_id body => index_movie movie_id body w
  | CallFlush => es_flush w
  end.

Definition es_run (calls : list es_call) (w : es_world) : es_world :=
  fold_left (fun w c => es_run_call c w) calls w.

(** The actions the calls ask to index, in order. *)
Definition indexed_by (calls : list es_call) : list es_action :=
  concat (map (fun c => match c with
                        | CallIndex movie_id body => [mkEsAction movie_id body]
                        | CallFlush => []
                        end) calls).

End Elasticsearch.

(** ** [transform_movie_to_es] *)

(** A value read back from the store, as the Python value the driver gives;
    a [date] does not occur among the identifiers handed to the sinks. *)
Definition py_of_sql (v : sqlval) : pyval :=
  match v with
  | SNull => VNone
  | SInt z => VInt z
  | SText s => VStr s
  | SFloat f => VFloat f
  | SBool b => VBool b
  | SDate d =>
      VDatetime (mkDatetime (d_year d) (d_month d) (d_day d) 0 0 0 0 None)
  end.

(** [[{"name": g.get("name")} for g in v if isinstance(g, dict)]] *)
Definition named_entries (v : pyval) : res (list pyval) :=
  (items <-? py_iter v;
   Ok (map (fun g => match g with
                     | VDict d => VDict [("name", dict_get d "name")]
                     | _ => VNone
                     end)
         (List.filter is_dict items)))%res.

(** The entry of one person of the [people] list. *)
Definition person_entry (p : pyval) : pyval :=
  match p with
  | VDict d =>
      VDict [("name", dict_get d "name");
             ("role", py_or (dict_get d "enProfession")
                        (dict_get d "profession"));
             ("character_name", dict_get d "description")]
  | _ => VNone
  end.

Definition person_entries (v : pyval) : res (list pyval) :=
  (items <-? py_iter v; Ok (map person_entry (List.filter is_dict items)))%res.

(** [transform_movie_to_es]; [now] is the text of
    [datetime.now(timezone.utc).isoformat()]. *)
Definition transform_movie_to_es (now : string) (movie_id : pyval)
    (movie_doc : pydict) : res pydict :=
  (let genres := py_or (dict_get movie_doc "genres") (VList []) in
   let countries := py_or (dict_get movie_doc "countries") (VList []) in
   let persons := py_or (dict_get movie_doc "persons") (VList []) in
   let rating := sub_doc movie_doc "rating" in
   let votes := sub_doc movie_doc "votes" in
   let poster := sub_doc movie_doc "poster" in
   let backdrop := sub_doc movie_doc "backdrop" in
   es_genres <-? named_entries genres;
   es_countries <-? named_entries countries;
   es_people <-? person_entries persons;
   rating_kp <-? py_get rating "kp";
   rating_imdb <-? py_get rating "imdb";
   votes_kp <-? py_get votes "kp";
   votes_imdb <-? py_get votes "imdb";
   poster_url <-? py_get poster "url";
   backdrop_url <-? py_get backdrop "url";
   Ok [("movie_id", movie_id);
       ("title", dict_get movie_doc "name");
       ("alternative_name", dict_get movie_doc "alternativeName");
       ("en_name", dict_get movie_doc "enName");
       ("description", dict_get movie_doc "description");
       ("year", dict_get movie_doc "year");
       ("genres", VList es_genres);
       ("countries", VList es_countries);
       ("people", VList es_people);
       ("ratings", VDict [("kp", rating_kp); ("imdb", rating_imdb)]);
       ("votes", VDict [("kp", votes_kp); ("imdb", votes_imdb)]);
       ("movie_length", dict_get movie_doc "movieLength");
       ("age_rating", dict_get movie_doc "ageRating");
       ("type", py_or (dict_get movie_doc "type") (VStr "movie"));
       ("poster_url", poster_url);
       ("backdrop_url", backdrop_url);
       ("created_at", VStr now)])%res.

(** ** [RedisRepo]

    The server is seen through the pipelines the client is asked to execute:
    an execution either returns or raises, as the environment decides, and
    the script does nothing else with the answer than log the failure. *)

Inductive redis_command :=
| HSet (name : string) (mapping : list (string * string))
| ZAdd (name : string) (member : string) (score : pyval)
| Expire (name : string) (seconds : Z).

(** [RedisRepo]: whether [self.client] is set, the commands queued on
    [self._pipeline] ([None] when there is no pipeline) and [self._pending]. *)
Record RedisRepo := mkRedisRepo {
  redis_client : bool;
  _pipeline : option (list redis_command);
  _pending : Z
}.

(** A [RedisRepo] and the pipelines executed through its client so far,
    oldest first, each with whether the execution returned. *)
Record redis_world := mkRedisWorld {
  redis_repo : RedisRepo;
  redis_executed : list (list redis_command * bool)
}.

Definition trending_key : string := "movies:trending:high_rated".
Definition recent_key : string := "movies:trending:recent".
Definition thirty_days : Z := 30 * 24 * 3600.

(** The key a command writes or sets to expire. *)
Definition command_key (c : redis_command) : string :=
  match c with
  | HSet name _ => name
  | ZAdd name _ _ => name
  | Expire name _ => name
  end.

Definition is_expire (c : redis_command) : bool :=
  match c with Expire _ _ => true | _ => false end.

(** [max(filter(None, [a, b])) if any([a, b]) else 0] *)
Definition max_rating_of (a b : option spec_float) : pyval :=
  let kept (o : option spec_float) :=
    match o with
    | Some f => if float_truthy f then Some f else None
    | None => None
    end in
  match kept a, kept b with
  | Some x, Some y => VFloat (if SFltb x y then y else x)
  | Some x, None => VFloat x
  | None, Some y => VFloat y
  | None, None => VInt 0
  end.

(** [max_rating >= threshold], where [max_rating] is a float or the
    integer 0. *)
Definition rating_reaches (max_rating : pyval) (threshold : spec_float)
  : bool :=
  match max_rating with
  | VFloat f => SFleb threshold f
  | _ => SFleb threshold float_zero
  end.

(** [float(max_rating or 0)] *)
Definition rating_score (max_rating : pyval) : spec_float :=
  match max_rating with
  | VFloat f => if float_truthy f then f else float_zero
  | _ => float_zero
  end.

(** [[g.get("name") for g in v if isinstance(g, dict)]] *)
Definition names_list (v : pyval) : res pyval :=
  (items <-? py_iter v;
   Ok (VList (map (fun g => match g with
                            | VDict d => dict_get d "name"
                            | _ => VNone
                            end)
                (List.filter is_dict items))))%res.

Fixpoint map_res {A B} (f : A -> res B) (l : list A) : res (list B) :=
  match l with
  | [] => Ok []
  | x :: l' => (y <-? f x; ys <-? map_res f l'; Ok (y :: ys))%res
  end.

Section Redis.

Variable py_float : string -> option spec_float.
Variable py_repr : pyval -> string.
(** [json.dumps(v, ensure_ascii=False)], [None] when it raises. *)
Variable json_dumps : pyval -> option string.
(** The thresholds and sizes read from the environment. *)
Variable TRENDING_MIN_RATING : spec_float.
Variable TRENDING_MIN_YEAR : Z.
Variable ALWAYS_CACHE_RECENT : bool.
Variable REDIS_PIPELINE_SIZE : Z.
(** The environment: whether the execution made after [n] others returns. *)
Variable redis_accepts : nat -> list redis_command -> bool.

Definition _to_redis_str (v : pyval) : res string :=
  match v with
  | VNone => Ok ""
  | VList _ | VDict _ =>
      match json_dumps v with
      | Some s => Ok s
      | None => Raise TypeError
      end
  | _ => Ok (py_str py_repr v)
  end.

Definition movie_key (movie_id : pyval) : string :=
  ("movie:trending:" ++ py_str py_repr movie_id)%string.

(** What [cache_trending_movie] computes inside its [try] before it touches
    the pipeline: the commands to queue, [None] when it returns early; [now]
    is the text of [datetime.now(timezone.utc).isoformat()]. *)
Definition trending_commands (now : string) (movie_id : pyval)
    (movie_data : pydict) : res (option (list redis_command)) :=
  (let rating := dict_get_default movie_data "rating" (VDict []) in
   v_kp <-? py_get rating "kp";
   let rating_kp := as_float py_float py_repr v_kp in
   v_imdb <-? py_get rating "imdb";
   let rating_imdb := as_float py_float py_repr v_imdb in
   let max_rating := max_rating_of rating_kp rating_imdb in
   match as_int py_float py_repr (dict_get movie_data "year") with
   | None => Ok None
   | Some year =>
       if (year <? TRENDING_MIN_YEAR)%Z then Ok None
       else
         let meets_thresholds :=
           rating_reaches max_rating TRENDING_MIN_RATING in
         if meets_thresholds || ALWAYS_CACHE_RECENT then
           genres <-?
             names_list (py_or (dict_get movie_data "genres") (VList []));
           countries <-?
             names_list (py_or (dict_get movie_data "countries") (VList []));
           let raw_summary :=
             [("id", movie_id);
              ("title",
               py_or (dict_get movie_data "name")
                 (py_or (dict_get movie_data "alternativeName")
                    (dict_get movie_data "enName")));
              ("year", VInt year);
              ("rating_kp", float_val rating_kp);
              ("rating_imdb", float_val rating_imdb);
              ("max_rating", max_rating);
              ("type", py_or (dict_get movie_data "type") (VStr "movie"));
              ("poster_url", get_nested (VDict movie_data) ["poster"; "url"]);
              ("description", dict_get movie_data "description");
              ("genres", genres);
              ("countries", countries);
              ("cached_at", VStr now)] in
           movie_summary <-?
             map_res (fun kv => (s <-? _to_redis_str (snd kv);
                                 Ok (fst kv, s))%res) raw_summary;
           Ok (Some
                 ([HSet (movie_key movie_id) movie_summary]
                  ++ (if meets_thresholds
                      then [ZAdd trending_key (py_str py_repr movie_id)
                              (VFloat (rating_score max_rating))]
                      else [])
                  ++ [ZAdd recent_key (py_str py_repr movie_id) (VInt year);
                      Expire (movie_key movie_id) thirty_days;
                      Expire trending_key thirty_days;
                      Expire recent_key thirty_days]))
         else Ok None
   end)%res.

(** [RedisRepo.flush] *)
Definition redis_flush (w : redis_world) : redis_world :=
  let cleared := mkRedisRepo (redis_client (redis_repo w)) None 0 in
  match redis_client (redis_repo w), _pipeline (redis_repo w) with
  | true, Some commands =>
      mkRedisWorld cleared
        (redis_executed w
         ++ [(commands,
              redis_accepts (length (redis_executed w)) commands)])
  | _, _ => mkRedisWorld cleared (redis_executed w)
  end.

(** [RedisRepo.cache_trending_movie] *)
Definition cache_trending_movie (now : string) (movie_id : pyval)
    (movie_data : pydict) (w : redis_world) : redis_world :=
  if negb (redis_client (redis_repo w)) then w
  else
    match trending_commands now movie_id movie_data with
    | Ok (Some commands) =>
        let pipe := default [] (_pipeline (redis_repo w)) in
        let w1 :=
          mkRedisWorld
            (mkRedisRepo (redis_client (redis_repo w))
               (Some (pipe ++ commands)) (_pending (redis_repo w) + 1))
            (redis_executed w) in
        if (REDIS_PIPELINE_SIZE <=? _pending (redis_repo w1))%Z
        then redis_flush w1
        else w1
    | _ => w
    end.

(** [RedisRepo.close] *)
Definition redis_close (w : redis_world) : redis_world := redis_flush w.

(** A call of one of the two methods. *)
Inductive redis_call :=
| CallCache (now : string) (movie_id : pyval) (movie_data : pydict)
| CallRedisFlush.

Definition redis_run_call (c : redis_call) (w : redis_world) : redis_world :=
  match c with
  | CallCache now movie_id movie_data =>
      cache_trending_movie now movie_id movie_data w
  | CallRedisFlush => redis_flush w
  end.

Definition redis_run (calls : list redis_call) (w : redis_world)
  : redis_world :=
  fold_left (fun w c => redis_run_call c w) calls w.

(** The commands the calls queue, in order. *)
Definition queued_by (calls : list redis_call) : list redis_command :=
  concat (map (fun c => match c with
                        | CallCache now movie_id movie_data =>
                            match trending_commands now movie_id movie_data
                            with
                            | Ok (Some commands) => commands
                            | _ => []
                            end
                        | CallRedisFlush => []
                        end) calls).

End Redis.

(** The commands of the pipelines executed so far, in order. *)
Definition executed_commands (w : redis_world) : list redis_command :=
  concat (map fst (redis_executed w)).

(** The commands that wait on the pipeline. *)
Definition waiting (w : redis_world) : list redis_command :=
  default [] (_pipeline (redis_repo w)).

(** What holds between the calls on a repository with a client: the
    pipeline is there exactly when a movie is pending, and fewer movies are
    pending than the pipeline size (one, when the size is below one). *)
Definition pipeline_inv (REDIS_PIPELINE_SIZE : Z) (w : redis_world) : Prop :=
  redis_client (redis_repo w) = true
  /\ (0 <= _pending (redis_repo w) < Z.max 1 REDIS_PIPELINE_SIZE)%Z
  /\ (_pipeline (redis_repo w) = None <-> _pending (redis_repo w) = 0%Z).

(** ** [process_movie_batch] with its sinks *)

(** The frame of [process_movie_batch] with the two sinks it is given
    ([None] when the argument is [None]) and the two counters it logs. *)
Record sink_frame := mkSinkFrame {
  pg_frame : frame;
  sink_es : option es_world;
  sink_redis : option redis_world;
  es_indexed : Z;
  redis_cached : Z
}.

Definition in_frame {A} (m : ST frame A) : ST sink_frame A :=
  fun sf =>
    let '(r, fr) := m (pg_frame sf) in
    (r, mkSinkFrame fr (sink_es sf) (sink_redis sf) (es_indexed sf)
          (redis_cached sf)).

(** The repository and the two sinks of the movies stage. *)
Record stage_state := mkStage {
  stage_pg : PgRepo;
  stage_es : option es_world;
  stage_redis : option redis_world
}.

(** Neither sink holds anything back. *)
Definition sinks_flushed (st : stage_state) : Prop :=
  (forall w, stage_es st = Some w -> _buffer (es_repo w) = [])
  /\ (forall w, stage_redis st = Some w ->
                _pipeline (redis_repo w) = None
                /\ _pending (redis_repo w) = 0%Z).

Section Sinks.

Variable py_float : string -> option spec_float.
Variable py_repr : pyval -> string.
Variable schema : string -> table_schema.
Variable time_ns : nat -> Z.
Variable has_bulk : bool.
Variable es_accepts : nat -> es_request -> bool.
Variable json_dumps : pyval -> option string.
Variable TRENDING_MIN_RATING : spec_float.
Variable TRENDING_MIN_YEAR : Z.
Variable ALWAYS_CACHE_RECENT : bool.
Variable REDIS_PIPELINE_SIZE : Z.
Variable redis_accepts : nat -> list redis_command -> bool.
(** [datetime.now(timezone.utc).isoformat()] as read for the document at a
    position of the batch, by the transform and by the cache. *)
Variable es_now : nat -> string.
Variable redis_now : nat -> string.

(** The search step of one document: the transform and the indexing are in
    a [try] whose [except] clause logs. *)
Definition es_step (i : nat) (movie_id : sqlval) (movie_doc : pydict)
  : ST sink_frame unit :=
  fun sf =>
    match sink_es sf with
    | Some w =>
        if es_client (es_repo w) then
          match transform_movie_to_es (es_now i) (py_of_sql movie_id)
                  movie_doc with
          | Ok es_doc =>
              (Ok tt,
               mkSinkFrame (pg_frame sf)
                 (Some (index_movie has_bulk es_accepts (py_of_sql movie_id)
                          es_doc w))
                 (sink_redis sf) (es_indexed sf + 1) (redis_cached sf))
          | Raise _ => (Ok tt, sf)
          end
        else (Ok tt, sf)
    | None => (Ok tt, sf)
    end.

(** The cache step of one document. *)
Definition redis_step (i : nat) (movie_id : sqlval) (movie_doc : pydict)
  : ST sink_frame unit :=
  fun sf =>
    match sink_redis sf with
    | Some w =>
        if redis_client (redis_repo w) then
          (Ok tt,
           mkSinkFrame (pg_frame sf) (sink_es sf)
             (Some (cache_trending_movie py_float py_repr json_dumps
                      TRENDING_MIN_RATING TRENDING_MIN_YEAR
                      ALWAYS_CACHE_RECENT REDIS_PIPELINE_SIZE redis_accepts
                      (redis_now i) (py_of_sql movie_id) movie_doc w))
             (es_indexed sf) (redis_cached sf + 1))
        else (Ok tt, sf)
    | None => (Ok tt, sf)
    end.

(** The [try] block of the loop of [process_movie_batch]. *)
Definition movie_doc_body_with_sinks (i : nat) (name : string)
    (movie_doc : pydict) : ST sink_frame unit :=
  (in_frame (in_pg (on_conn (exec_savepoint name))) ;;
   movie_id <- in_frame (in_pg (insert_movie_core py_float py_repr schema
                                  movie_doc)) ;;
   if negb (sql_truthy movie_id) then
     in_frame count_skipped ;;
     in_frame (in_pg (on_conn (exec_release name)))
   else
     in_frame (in_pg (movie_children py_repr schema movie_id movie_doc)) ;;
     es_step i movie_id movie_doc ;;
     redis_step i movie_id movie_doc ;;
     in_frame count_inserted ;;
     in_frame (in_pg (on_conn (exec_release name))))%pg.

Definition process_movie_doc_with_sinks (i : nat) (movie_doc : pydict)
  : ST sink_frame unit :=
  let name := sp_name time_ns "sp_movie_" i in
  catch (movie_doc_body_with_sinks i name movie_doc)
    (fun _ => in_frame (count_skipped ;; rollback_and_release name)%pg).

Fixpoint sink_batch_loop (i : nat) (docs : list pydict)
  : ST sink_frame unit :=
  match docs with
  | [] => ret tt
  | d :: docs' =>
      (process_movie_doc_with_sinks i d ;; sink_batch_loop (S i) docs')%pg
  end.

(** [process_movie_batch(pg, es, redis_repo, movies_batch)] from its entry
    to its [return inserted]. *)
Definition run_sink_batch (movies_batch : list pydict) (pg : PgRepo)
    (es : option es_world) (redis : option redis_world)
  : res unit * sink_frame :=
  sink_batch_loop 0 movies_batch
    (mkSinkFrame (mkFrame (mkCounters 0 0) pg) es redis 0 0).

Variable BATCH_SIZE : Z.

(** The call of [process_movie_batch] in [seed_from_mongo]. *)
Definition process_movie_batch_with_sinks (movies_batch : list pydict)
  : ST stage_state Z :=
  fun st =>
    let '(r, sf) :=
      run_sink_batch movies_batch (stage_pg st) (stage_es st)
        (stage_redis st) in
    (match r with
     | Ok _ => Ok (inserted (locals (pg_frame sf)))
     | Raise e => Raise e
     end,
     mkStage (self (pg_frame sf)) (sink_es sf) (sink_redis sf)).

(** What follows a batch of movies: the commit, then the flush of each sink
    that is there. *)
Definition commit_and_flush : ST stage_state unit :=
  fun st =>
    (Ok tt,
     mkStage (set_conn (commit (conn (stage_pg st))) (stage_pg st))
       (option_map (es_flush has_bulk es_accepts) (stage_es st))
       (option_map (redis_flush redis_accepts) (stage_redis st))).

(** The movies stage of [seed_from_mongo]. *)
Definition seed_movies_with_sinks : list pydict -> ST stage_state Z :=
  seed_collection BATCH_SIZE process_movie_batch_with_sinks commit_and_flush.

End Sinks.

(** A computation on the frame with the sinks does to the relational frame
    what a computation on that frame alone does. *)
Definition follows {A} (m : ST sink_frame A) (m' : ST frame A) : Prop :=
  forall sf, m' (pg_frame sf) = (fst (m sf), pg_frame (snd (m sf))).

(** ** Resolvers and links *)

(** The name under which [get_or_create_country] and [get_or_create_genre]
    look a name up: trimmed and cut to 100 characters. *)
Definition resolver_key (name : string) : string :=
  default "" (truncate_text (Some (py_strip name)) 100).

(** Either nothing was added to the table and the counter stands, or the
    row of [key] under [id] was added and the counter has gone up by one. *)
Definition created_or_not (t counter key : string) (r : res sqlval)
    (pg pg' : PgRepo) : Prop :=
  (rows_of t pg' = rows_of t pg /\ stat counter pg' = stat counter pg)
  \/ (exists id,
         r = Ok id
         /\ rows_of t pg' = rows_of t pg ++ [[id; SText key]]
         /\ stat counter pg' = (stat counter pg + 1)%Z).

(** The names a link function resolves: the non-empty ones. *)
Definition linked_names (names : list string) : list string :=
  List.filter (fun n => negb (String.eqb n "")) names.

(** ** Example sinks *)

(** A cluster and a server that accept every request. *)
Definition es_always (n : nat) (r : es_request) : bool := true.
Definition redis_always (n : nat) (commands : list redis_command) : bool :=
  true.

(** An instance of [json.dumps] for the closed examples, in which only
    empty containers are dumped. *)
Definition dumps_empty (v : pyval) : option string :=
  match v with
  | VList [] => Some "[]"
  | VDict [] => Some "{}"
  | _ => None
  end.

(** The default of [TRENDING_MIN_RATING]. *)
Definition float_seven : spec_float :=
  binary_normalize prec64 emax64 7 0 false.

Definition three_index_calls : list es_call :=
  [CallIndex (VInt 1) [("title", VStr "A")];
   CallIndex (VInt 2) [("title", VStr "B")];
   CallIndex (VInt 3) [("title", VStr "C")]].

Definition recent_doc : pydict := [("name", VStr "New"); ("year", VInt 2025)].

Definition old_doc : pydict := [("name", VStr "Old"); ("year", VInt 1990)].

Definition two_cache_calls : list redis_call :=
  [CallCache "t0" (VInt 1) recent_doc; CallCache "t1" (VInt 2) old_doc].

Definition connected_sinks : stage_state :=
  mkStage empty_pg (Some (mkEsWorld (mkEsRepo true [] 1000) []))
    (Some (mkRedisWorld (mkRedisRepo true None 0) [])).

(** Trailers with an entry that is not a dict. *)
Definition trailers_doc : pydict :=
  [("videos",
    VDict [("trailers",
            VList [VStr "oops";
                   VDict [("url", VStr "http://t");
                          ("type", VStr "TRAILER")]])])].

Definition doc_with_id_7 : pydict := [("id", VInt 7); ("name", VStr "Again")].

Definition doc_with_id_0 : pydict := [("id", VInt 0); ("name", VStr "Zero")].

(** ** Seasons and episodes *)

(** [as_int(ep.get("number")) or 0], the number under which
    [upsert_season] stores an embedded episode. *)
Definition episode_number (py_float : string -> option spec_float)
    (py_repr : pyval -> string) (ep : pyval) : Z :=
  match ep with
  | VDict d => int_or (as_int py_float py_repr (dict_get d "number")) 0
  | _ => 0
  end.

(** No row of [movies] has the identifier [movie_id]. *)
Definition unknown_movie (movie_id : Z) (pg : PgRepo) : Prop :=
  Forall (fun r => col 0 r <> SInt movie_id) (rows_of "movies" pg).

(** The keys of the rows a statement has written are keys of rows of the
    table. *)
Definition touched_are_stored (target : list nat) (t : string)
    (st : tables * list row) : Prop :=
  forall r k, In r (snd st) -> key_of target r = Some k ->
              exists x, In x (get_table (fst st) t)
                        /\ key_of target x = Some k.

(** A second season of movie 7 with two episodes. *)
Definition two_episodes : list pyval :=
  [VDict [("number", VInt 1); ("name", VStr "One")];
   VDict [("number", VStr "2"); ("name", VStr "Two")]].

Definition two_episode_doc : pydict :=
  [("movieId", VInt 7); ("number", VInt 2); ("episodes", VList two_episodes)].

(** ** Elasticsearch setup
    The helpers [seed_from_mongo] defines to bring the templates and the
    policies of the setup file into the shape the cluster takes.  They are
    given JSON objects, as their annotations say; on an object
    [dict(tpl or {})] is a copy of it. *)

(** [d[k] = v]: the value of a key that is there is replaced where it
    stands, a new key goes to the end. *)
Fixpoint dict_set (d : pydict) (k : string) (v : pyval) : pydict :=
  match d with
  | [] => [(k, v)]
  | (k', v') :: d' =>
      if String.eqb k k' then (k', v) :: d' else (k', v') :: dict_set d' k v
  end.

(** [if k in src: dst[k] = src[k]] *)
Definition carry (k : string) (src dst : pydict) : pydict :=
  if dict_has src k then dict_set dst k (dict_get src k) else dst.

(** [to_composable_index_template] *)
Definition to_composable_index_template (tpl : pydict) : pydict :=
  let index_patterns :=
    py_or (dict_get tpl "index_patterns")
      (py_or (dict_get tpl "indexPatterns") (VList [])) in
  let template_block : pydict := [] in
  let template_block := carry "settings" tpl template_block in
  let template_block := carry "mappings" tpl template_block in
  let template_block := carry "aliases" tpl template_block in
  let tpl :=
    fold_left (fun d k => dict_remove k d) ["settings"; "mappings"; "aliases"]
      tpl in
  let body : pydict :=
    [("index_patterns", index_patterns); ("template", VDict template_block)] in
  fold_left (fun b opt => carry opt tpl b) ["priority"; "version"; "_meta"]
    body.

(** [needle in s] on strings *)
Fixpoint has_substring (needle s : string) : bool :=
  String.prefix needle s
  || match s with
     | EmptyString => false
     | String _ s' => has_substring needle s'
     end.

(** [needle in v], where [needle] is a string *)
Definition py_contains (needle : string) (v : pyval) : res bool :=
  match v with
  | VDict d => Ok (dict_has d needle)
  | VList l =>
      Ok (existsb (fun x => match x with
                            | VStr s => String.eqb s needle
                            | _ => false
                            end) l)
  | VStr s => Ok (has_substring needle s)
  | _ => Raise TypeError
  end.

(** [v[k] = x], where [k] is a string: only a dict takes it. *)
Definition py_setitem (v : pyval) (k : string) (x : pyval) : res pyval :=
  match v with
  | VDict d => Ok (VDict (dict_set d k x))
  | _ => Raise TypeError
  end.

(** The body of the loop of [fix_ilm_policy] for a phase that is a dict:
    the phase as it is when the loop stores it back. *)
Definition fix_phase (phase_name : string) (phase : pydict) : res pydict :=
  (let phase :=
     if negb (dict_has phase "actions")
     then dict_set phase "actions" (VDict [])
     else phase in
   if String.eqb phase_name "delete" then
     has_delete <-? py_contains "delete" (dict_get phase "actions");
     if negb has_delete then
       actions <-? py_setitem (dict_get phase "actions") "delete" (VDict []);
       Ok (dict_set phase "actions" actions)
     else Ok phase
   else Ok phase)%res.

(** The loop of [fix_ilm_policy] over the items [phases] had when the loop
    began. *)
Fixpoint fix_phases (items : list (string * pyval)) (phases : pydict)
  : res pydict :=
  match items with
  | [] => Ok phases
  | (phase_name, phase) :: items' =>
      match phase with
      | VDict p =>
          (p' <-? fix_phase phase_name p;
           fix_phases items' (dict_set phases phase_name (VDict p')))%res
      | _ => fix_phases items' phases
      end
  end.

(** [fix_ilm_policy] *)
Definition fix_ilm_policy (policy : pydict) : res pydict :=
  match py_or (dict_get policy "phases") (VDict []) with
  | VDict phases =>
      (phases <-? fix_phases phases phases;
       Ok (dict_set policy "phases" (VDict phases)))%res
  | _ => Raise AttributeError
  end.

(** [v.pop(k, None)], where [k] is a string *)
Definition py_pop (v : pyval) (k : string) : res pyval :=
  match v with
  | VDict d => Ok (VDict (dict_remove k d))
  | VList _ => Raise TypeError
  | _ => Raise AttributeError
  end.

(** [v[k]], where [k] is a string that [k in v] has found *)
Definition py_getitem (v : pyval) (k : string) : res pyval :=
  match v with
  | VDict d => Ok (dict_get d k)
  | _ => Raise TypeError
  end.

(** [sanitize_template] *)
Definition sanitize_template (tpl : pydict) : res pydict :=
  (let settings := py_or (dict_get tpl "settings") (VDict []) in
   v_analysis <-? py_get settings "analysis";
   let analysis := py_or v_analysis (VDict []) in
   v_filter <-? py_get analysis "filter";
   let filters := py_or v_filter (VDict []) in
   has_morphology <-? py_contains "russian_morphology" filters;
   analysis <-?
     (if has_morphology then
        filters <-? py_pop filters "russian_morphology";
        py_setitem analysis "filter" filters
      else Ok analysis);
   v_analyzer <-? py_get analysis "analyzer";
   let analyzers := py_or v_analyzer (VDict []) in
   has_analyzer <-? py_contains "russian_analyzer" analyzers;
   analysis <-?
     (if has_analyzer then
        ra <-? py_getitem analyzers "russian_analyzer";
        ra <-? py_setitem ra "tokenizer" (VStr "standard");
        ra <-? py_setitem ra "filter"
                 (VList [VStr "lowercase"; VStr "snowball_russian";
                         VStr "russian_stop"]);
        analyzers <-? py_setitem analyzers "russian_analyzer" ra;
        py_setitem analysis "analyzer" analyzers
      else Ok analysis);
   if truthy analysis then
     settings <-? py_setitem settings "analysis" analysis;
     Ok (dict_set tpl "settings" settings)
   else Ok tpl)%res.

(** What the setup asks of the cluster. *)
Inductive setup_request :=
| PutIndexTemplate (name : string) (body : pydict)
| PutLifecycle (name : string) (policy : pydict)
| PutScript (id : string) (script : pyval).

(** Whether [es.client] is set, and the setup requests made so far, oldest
    first, each with whether it returned. *)
Record setup_world := mkSetupWorld {
  setup_client : bool;
  setup_requests : list (setup_request * bool)
}.

Section ElasticsearchSetup.

(** The environment: whether the request made after [n] others returns. *)
Variable setup_accepts : nat -> setup_request -> bool.

(** A request made inside a [try] whose [except] clause only logs. *)
Definition setup_send (r : setup_request) (w : setup_world) : setup_world :=
  mkSetupWorld (setup_client w)
    (setup_requests w
     ++ [(r, setup_accepts (length (setup_requests w)) r)]).

(** [EsRepo.put_index_template] *)
Definition put_index_template (name : string) (body : pydict)
  : ST setup_world unit :=
  fun w =>
    if negb (setup_client w) then (Ok tt, w)
    else (Ok tt, setup_send (PutIndexTemplate name body) w).

(** [EsRepo.put_ilm_policy] *)
Definition put_ilm_policy (name : string) (policy : pydict)
  : ST setup_world unit :=
  fun w =>
    if negb (setup_client w) then (Ok tt, w)
    else (Ok tt, setup_send (PutLifecycle name policy) w).

(** [EsRepo.put_stored_script] *)
Definition put_stored_script (name : string) (script : pyval)
  : ST setup_world unit :=
  fun w =>
    if negb (setup_client w) then (Ok tt, w)
    else
      let scr :=
        match script with
        | VDict d => dict_get d "script"
        | _ => VNone
        end in
      let scr := match scr with VNone => script | _ => scr end in
      (Ok tt, setup_send (PutScript name scr) w).

(** One turn of the loop over the index templates of the setup file: the
    template as it is, and in the [except] clause the template with its
    analysis sanitized. *)
Definition apply_index_template (name : string) (raw : pydict)
  : ST setup_world unit :=
  let tpl := to_composable_index_template raw in
  catch (put_index_template name tpl)
    (fun _ =>
       (sanitized <- lift (sanitize_template raw) ;;
        put_index_template name (to_composable_index_template sanitized))%pg).

Definition apply_index_templates (templates : list (string * pydict))
  : ST setup_world unit :=
  for_each (fun t => apply_index_template (fst t) (snd t)) templates.

(** One turn of the loop over the lifecycle policies; [policy] is the
    object under the [policy] key of the entry, [{}] when there is none.
    The policy is fixed before the [try] around the request. *)
Definition apply_policy (name : string) (policy : pydict)
  : ST setup_world unit :=
  (final_policy <- lift (fix_ilm_policy policy) ;;
   catch (put_ilm_policy name final_policy) (fun _ => ret tt))%pg.

Definition apply_policies (policies : list (string * pydict))
  : ST setup_world unit :=
  for_each (fun p => apply_policy (fst p) (snd p)) policies.

(** The loop over the search templates of the setup file. *)
Definition apply_search_templates (scripts : list (string * pyval))
  : ST setup_world unit :=
  for_each (fun s => put_stored_script (fst s) (snd s)) scripts.

(** The three loops of the setup, in the [try] whose [except] clause logs
    that the setup has failed. *)
Definition apply_setup (templates : list (string * pydict))
    (policies : list (string * pydict)) (scripts : list (string * pyval))
  : ST setup_world unit :=
  catch
    (apply_index_templates templates ;;
     apply_policies policies ;;
     apply_search_templates scripts)%pg
    (fun _ => ret tt).

End ElasticsearchSetup.

(** The request a lifecycle policy gives rise to when it can be fixed. *)
Definition policy_request (p : string * pydict) (r : setup_request) : Prop :=
  exists final_policy,
    fix_ilm_policy (snd p) = Ok final_policy
    /\ r = PutLifecycle (fst p) final_policy.

(** The request of a search template: an object with a [script] entry that
    is not [None] is sent as that entry, any other value whole. *)
Definition script_request (s : string * pyval) : setup_request :=
  PutScript (fst s)
    (match py_get (snd s) "script" with
     | Ok VNone | Raise _ => snd s
     | Ok inner => inner
     end).

Definition template_request (t : string * pydict) : setup_request :=
  PutIndexTemplate (fst t) (to_composable_index_template (snd t)).

(** The keys of a dict are distinct. *)
Definition distinct_keys (d : pydict) : Prop := NoDup (map fst d).

(** A phase as [fix_ilm_policy] leaves it: a phase that is a dict has its
    actions, and the [delete] phase a [delete] action among them. *)
Definition phase_fixed (phase_name : string) (phase : pyval) : Prop :=
  match phase with
  | VDict p =>
      dict_has p "actions" = true
      /\ (phase_name = "delete" ->
          py_contains "delete" (dict_get p "actions") = Ok true)
  | _ => True
  end.

(** The phase of an item before and after the loop of [fix_ilm_policy]. *)
Definition phase_step (before after : string * pyval) : Prop :=
  fst after = fst before
  /\ match snd before with
     | VDict p =>
         exists p', fix_phase (fst before) p = Ok p' /\ snd after = VDict p'
     | v => snd after = v
     end.

(** ** Example setup *)

(** A template that is already in the composable form. *)
Definition composable_tpl : pydict :=
  [("index_patterns", VList [VStr "movies*"]);
   ("template", VDict [("settings", VDict [("number_of_shards", VInt 1)])]);
   ("composed_of", VList [])].

Definition two_phase_policy : pydict :=
  [("phases",
    VDict [("hot", VDict []);
           ("delete", VDict [("min_age", VStr "30d")])])].

(** A policy whose [delete] phase has [None] for actions. *)
Definition broken_policy : pydict :=
  [("phases", VDict [("delete", VDict [("actions", VNone)])])].

Definition setup_always (n : nat) (r : setup_request) : bool := true.

(** * Properties *)

(** ** Value normalizers *)

Lemma rating_in_range_spec (f : spec_float) :
  rating_in_range f = true <-> rating_ok f.
Proof.
  unfold rating_in_range, rating_ok, float_le.
  rewrite andb_true_iff. reflexivity.
Qed.

Lemma sanitize_year_some (v r : Z) :
  sanitize_year (Some v) = Some r <-> r = v /\ year_ok v.
Proof.
  unfold sanitize_year, year_ok.
  destruct (1800 <=? v)%Z eqn:Hlo; destruct (v <=? 2100)%Z eqn:Hhi; simpl;
    split; intros H;
    try (injection H as <-); try discriminate;
    try (destruct H as [-> H]); try (split; [reflexivity|]); try lia;
    try reflexivity.
Qed.

Lemma sanitize_year_none (v : Z) :
  sanitize_year (Some v) = None <-> ~ year_ok v.
Proof.
  unfold sanitize_year, year_ok.
  destruct (1800 <=? v)%Z eqn:Hlo; destruct (v <=? 2100)%Z eqn:Hhi; simpl;
    split; intros H; try discriminate; try reflexivity; lia.
Qed.

Section RatingFacts.

Variable py_float : string -> option spec_float.

Lemma sanitize_rating_float (f : spec_float) :
  sanitize_rating py_float (VFloat f)
  = Ok (if rating_in_range f then VFloat f else VNone).
Proof. reflexivity. Qed.

Lemma sanitize_rating_str (s : string) :
  sanitize_rating py_float (VStr s)
  = Ok (match py_float (comma_to_dot s) with
        | Some f => if rating_in_range f then VFloat f else VNone
        | None => VNone
        end).
Proof.
  unfold sanitize_rating, float_of_str.
  destruct (py_float (comma_to_dot s)) as [f|]; reflexivity.
Qed.

(** What every caller computes: [sanitize_rating(as_float(x))]. *)
Lemma sanitize_rating_of_as_float (o : option spec_float) :
  sanitize_rating py_float (match o with Some f => VFloat f | None => VNone end)
  = Ok (match sanitize_rating_opt o with
        | Some f => VFloat f
        | None => VNone
        end).
Proof.
  destruct o as [f|]; [|reflexivity].
  rewrite sanitize_rating_float. simpl.
  destruct (rating_in_range f); reflexivity.
Qed.

End RatingFacts.

(** C5, the claim as stated fails: the integer rating [10 ** 400] lies
    outside [0.0, 10.0], and [sanitize_rating] does not return the absence
    marker for it.  The closing [float(value)] stands outside the [try], and
    on an integer that no float holds it raises [OverflowError]. *)
Lemma huge_integer_rating_raises :
  (10 < 10 ^ 400)%Z
  /\ float_of_Z (10 ^ 400) = Raise OverflowError
  /\ sanitize_rating float_of_digits (VInt (10 ^ 400)) = Raise OverflowError
  /\ sanitize_rating float_of_digits (VInt (- 10 ^ 400)) = Raise OverflowError.
Proof. repeat split; vm_compute; reflexivity. Qed.

(** C5 (amended). Range sanitizers with boundary acceptance: [sanitize_year]
    returns an integer year exactly when it lies in [1800, 2100] and [None]
    otherwise; [sanitize_rating] returns a float rating, or the float a
    numeric string denotes, exactly when it lies in [0.0, 10.0] and [None]
    otherwise; on an integer rating it does what [float] does with it: where
    [float] gives a number, the integer is returned exactly when that number
    lies in [0.0, 10.0] and [None] otherwise, and where [float] raises
    [OverflowError], so does [sanitize_rating]; the bounds 1800, 2100, 0.0
    and 10.0 are accepted, the nearest values outside are not, and a value is
    never replaced by another one. *)
Theorem range_sanitizers_accept_exactly_the_range
    (py_float : string -> option spec_float) :
  (forall v : Z,
      (sanitize_year (Some v) = Some v <-> year_ok v)
      /\ (sanitize_year (Some v) = None <-> ~ year_ok v)
      /\ (forall r, sanitize_year (Some v) = Some r -> r = v))
  /\ (forall f : spec_float,
         (sanitize_rating py_float (VFloat f) = Ok (VFloat f) <-> rating_ok f)
         /\ (sanitize_rating py_float (VFloat f) = Ok VNone <-> ~ rating_ok f))
  /\ (forall (s : string) (f : spec_float),
         py_float (comma_to_dot s) = Some f ->
         (sanitize_rating py_float (VStr s) = Ok (VFloat f) <-> rating_ok f)
         /\ (sanitize_rating py_float (VStr s) = Ok VNone <-> ~ rating_ok f))
  /\ (forall s : string,
         py_float (comma_to_dot s) = None ->
         sanitize_rating py_float (VStr s) = Ok VNone)
  /\ (forall (z : Z) (f : spec_float),
         float_of_Z z = Ok f ->
         (sanitize_rating py_float (VInt z) = Ok (VInt z) <-> rating_ok f)
         /\ (sanitize_rating py_float (VInt z) = Ok VNone <-> ~ rating_ok f))
  /\ (forall z : Z,
         sanitize_rating py_float (VInt z)
         = match float_of_Z z with
           | Ok f => Ok (if rating_in_range f then VInt z else VNone)
           | Raise e => Raise e
           end)
  /\ (forall z : Z,
         (exists f, float_of_Z z = Ok f)
         \/ sanitize_rating py_float (VInt z) = Raise OverflowError)
  /\ sanitize_year (Some 1800%Z) = Some 1800%Z
  /\ sanitize_year (Some 2100%Z) = Some 2100%Z
  /\ sanitize_year (Some 1799%Z) = None
  /\ sanitize_year (Some 2101%Z) = None
  /\ sanitize_rating py_float (VFloat float_zero) = Ok (VFloat float_zero)
  /\ sanitize_rating py_float (VFloat float_ten) = Ok (VFloat float_ten)
  /\ sanitize_rating py_float (VFloat float_above_ten) = Ok VNone
  /\ sanitize_rating py_float (VFloat float_below_zero) = Ok VNone
  /\ sanitize_rating py_float (VInt 0) = Ok (VInt 0)
  /\ sanitize_rating py_float (VInt 10) = Ok (VInt 10)
  /\ sanitize_rating py_float (VInt 11) = Ok VNone.
Proof.
  assert (Hfloat : forall f : spec_float,
             (sanitize_rating py_float (VFloat f) = Ok (VFloat f)
              <-> rating_ok f)
             /\ (sanitize_rating py_float (VFloat f) = Ok VNone
                 <-> ~ rating_ok f)).
  { intros f. rewrite sanitize_rating_float, <- rating_in_range_spec.
    destruct (rating_in_range f); split; split; intros H;
      try discriminate; try reflexivity; try congruence;
      exfalso; apply H; reflexivity. }
  split; [|split; [|split; [|split; [|split; [|split; [|split]]]]]].
  - intros v. split; [|split].
    + rewrite sanitize_year_some. tauto.
    + apply sanitize_year_none.
    + intros r H. apply sanitize_year_some in H. tauto.
  - exact Hfloat.
  - intros s f Hs. rewrite sanitize_rating_str, Hs.
    specialize (Hfloat f). rewrite sanitize_rating_float in Hfloat.
    exact Hfloat.
  - intros s Hs. rewrite sanitize_rating_str, Hs. reflexivity.
  - intros z f Hz. rewrite <- rating_in_range_spec.
    unfold sanitize_rating. cbn [py_float_of]. rewrite Hz. cbn [res_bind].
    destruct (rating_in_range f); split; split; intros H;
      try discriminate; try reflexivity; try congruence;
      exfalso; apply H; reflexivity.
  - intros z. unfold sanitize_rating. cbn [py_float_of].
    destruct (float_of_Z z); reflexivity.
  - intros z. unfold sanitize_rating. cbn [py_float_of].
    unfold float_of_Z.
    destruct (binary_normalize _ _ _ _ _); cbn [res_bind]; eauto.
  - repeat split; reflexivity.
Qed.

(** The theorem at the rating string ["7"], read by [float_of_digits]. *)
Lemma range_sanitizers_witness :
  float_of_digits (comma_to_dot "7") = Some (S754_finite false 7881299347898368 (-50))
  /\ sanitize_rating float_of_digits (VStr "7")
     = Ok (VFloat (S754_finite false 7881299347898368 (-50))).
Proof.
  split; [reflexivity|].
  pose proof (range_sanitizers_accept_exactly_the_range float_of_digits)
    as (_ & _ & Hstr & _).
  destruct (Hstr "7" (S754_finite false 7881299347898368 (-50)) eq_refl)
    as [Hin _].
  apply Hin. split; reflexivity.
Defined.

(** *** Dates *)

(** [parse_mongo_date] returns on every value. *)
Lemma parse_mongo_date_total (value : pyval) :
  exists o, parse_mongo_date value = Ok o.
Proof.
  destruct value as [| b | z | f | s | d | s | l | d]; simpl; eauto.
  destruct (dict_lookup d "$date") as [[| | | | inner | | | | inner]|];
    simpl; eauto.
  destruct (dict_lookup inner "$numberLong"); eauto.
Qed.

(** A shape the function does not decode gives [None]. *)
Lemma parse_mongo_date_unsupported (value : pyval) :
  match value with
  | VNone | VBool _ | VInt _ | VFloat _ | VObjectId _ | VList _ => True
  | VDict d =>
      match dict_lookup d "$date" with
      | Some (VStr _) => False
      | Some (VDict inner) => dict_lookup inner "$numberLong" = None
      | _ => True
      end
  | _ => False
  end ->
  parse_mongo_date value = Ok None.
Proof.
  destruct value as [| b | z | f | s | d | s | l | d]; simpl;
    try tauto; try reflexivity.
  destruct (dict_lookup d "$date") as [[| | | | inner | | | | inner]|];
    simpl; try tauto; try reflexivity.
  intros ->. reflexivity.
Qed.

(** The epoch-millisecond encoding always carries UTC. *)
Lemma fromtimestamp_millis_utc (millis : Z) (d : datetime) :
  fromtimestamp_millis millis = Ok d -> dt_tz d = utc.
Proof.
  unfold fromtimestamp_millis.
  destruct (civil_from_days (millis * 1000 / day_micros)) as [[y m] dd].
  match goal with |- context [valid_datetime ?r] =>
    destruct (valid_datetime r) end; [|discriminate].
  intros H. injection H as <-. reflexivity.
Qed.

(** A native value always carries an offset afterwards, its own when it has
    one and UTC otherwise. *)
Lemma parse_mongo_date_native (d : datetime) :
  exists r, parse_mongo_date (VDatetime d) = Ok (Some r)
            /\ dt_tz r = match dt_tz d with Some o => Some o | None => utc end.
Proof.
  simpl. destruct (dt_tz d) eqn:Htz; eexists; split; try reflexivity.
  exact Htz.
Qed.

(** C3. The date normalizer at an ISO-8601 string without a [Z] suffix: the
    string ["2012-05-03T00:00:00"] gives a datetime without any offset, which
    is not equal to the UTC datetime the same text with a [Z] suffix, the
    epoch-millisecond wrapper and the naive native value of that instant all
    give.  The docstring promises a datetime with UTC tzinfo. *)
Theorem iso_string_without_offset_stays_naive :
  parse_mongo_date (VStr "2012-05-03T00:00:00")
  = Ok (Some (midnight_2012_05_03 None))
  /\ parse_mongo_date (VDict [("$date", VStr "2012-05-03T00:00:00")])
     = Ok (Some (midnight_2012_05_03 None))
  /\ parse_mongo_date (VStr "2012-05-03T00:00:00Z")
     = Ok (Some (midnight_2012_05_03 utc))
  /\ parse_mongo_date
       (VDict [("$date", VDict [("$numberLong", VStr "1336003200000")])])
     = Ok (Some (midnight_2012_05_03 utc))
  /\ parse_mongo_date (VDatetime (midnight_2012_05_03 None))
     = Ok (Some (midnight_2012_05_03 utc))
  /\ datetime_eqb (midnight_2012_05_03 None) (midnight_2012_05_03 utc) = false
  /\ dt_tz (midnight_2012_05_03 None) = None.
Proof. repeat split; vm_compute; reflexivity. Qed.

(** ** Reasoning on computations *)

Lemma bind_ext_at {S A B} (m : ST S A) (k k' : A -> ST S B) (s : S) :
  (forall a s', k a s' = k' a s') -> bind m k s = bind m k' s.
Proof.
  intros H. unfold bind. destruct (m s) as [[a|e] s']; [apply H|reflexivity].
Qed.

(** ** Season keys *)

Lemma dict_lookup_remove_eq (k : string) (d : pydict) :
  dict_lookup (dict_remove k d) k = None.
Proof.
  induction d as [|[k' v] d IH]; simpl; [reflexivity|].
  destruct (String.eqb k k') eqn:Hk; simpl; [exact IH|].
  rewrite Hk. exact IH.
Qed.

Lemma dict_lookup_remove_ne (k k' : string) (d : pydict) :
  k <> k' -> dict_lookup (dict_remove k d) k' = dict_lookup d k'.
Proof.
  intros Hne. induction d as [|[k0 v] d IH]; simpl; [reflexivity|].
  destruct (String.eqb k k0) eqn:Hk; simpl.
  - apply String.eqb_eq in Hk. subst k0.
    destruct (String.eqb k' k) eqn:Hk'; [|exact IH].
    apply String.eqb_eq in Hk'. congruence.
  - rewrite IH. reflexivity.
Qed.

Lemma dict_get_remove_ne (k k' : string) (d : pydict) :
  k <> k' -> dict_get (dict_remove k d) k' = dict_get d k'.
Proof. intros H. unfold dict_get. rewrite dict_lookup_remove_ne; auto. Qed.

Lemma dict_get_remove_eq (k : string) (d : pydict) :
  dict_get (dict_remove k d) k = VNone.
Proof. unfold dict_get. rewrite dict_lookup_remove_eq. reflexivity. Qed.

Section SeasonFacts.

Variable py_float : string -> option spec_float.
Variable py_repr : pyval -> string.
Variable schema : string -> table_schema.

Lemma season_cols_without_number (movie_id : Z) (doc : pydict) :
  as_int py_float py_repr (dict_get doc "number") = Some 0%Z ->
  season_cols py_float py_repr movie_id (dict_remove "number" doc)
  = season_cols py_float py_repr movie_id doc.
Proof.
  intros Hzero. unfold season_cols, sub_doc.
  rewrite dict_get_remove_eq, Hzero.
  rewrite !dict_get_remove_ne by discriminate.
  reflexivity.
Qed.

End SeasonFacts.

(** ** Facts on the store *)

Lemma get_table_insert_eq (T : tables) (t : string) (x : table) :
  get_table (<[t := x]> T) t = x.
Proof. unfold get_table. rewrite lookup_insert_eq. reflexivity. Qed.

Lemma get_table_insert_ne (T : tables) (t t' : string) (x : table) :
  t <> t' -> get_table (<[t := x]> T) t' = get_table T t'.
Proof. intros H. unfold get_table. rewrite lookup_insert_ne; auto. Qed.

Lemma float_eqb_eq (a b : spec_float) : float_eqb a b = true -> a = b.
Proof.
  destruct a as [s | s | | s m e], b as [s' | s' | | s' m' e']; simpl;
    try discriminate; try reflexivity.
  - intros H. apply Bool.eqb_prop in H. congruence.
  - intros H. apply Bool.eqb_prop in H. congruence.
  - rewrite !andb_true_iff. intros [[Hs Hm] He].
    apply Bool.eqb_prop in Hs. apply Pos.eqb_eq in Hm. apply Z.eqb_eq in He.
    congruence.
Qed.

Lemma date_eqb_eq (a b : date) : date_eqb a b = true -> a = b.
Proof.
  destruct a, b. unfold date_eqb. simpl. rewrite !andb_true_iff.
  intros [[Hy Hm] Hd].
  apply Z.eqb_eq in Hy. apply Z.eqb_eq in Hm. apply Z.eqb_eq in Hd.
  congruence.
Qed.

Lemma sql_same_eq (a b : sqlval) : sql_same a b = true -> a = b.
Proof.
  destruct a, b; simpl; try discriminate; try reflexivity; intros H.
  - apply Z.eqb_eq in H. congruence.
  - apply String.eqb_eq in H. congruence.
  - apply float_eqb_eq in H. congruence.
  - apply date_eqb_eq in H. congruence.
  - apply Bool.eqb_prop in H. congruence.
Qed.

Lemma sql_same_refl (a : sqlval) : sql_same a a = true.
Proof.
  destruct a as [| z | s | f | d | b]; simpl; try reflexivity.
  - apply Z.eqb_refl.
  - apply String.eqb_refl.
  - destruct f; simpl; rewrite ?Bool.eqb_reflx, ?Pos.eqb_refl, ?Z.eqb_refl;
      reflexivity.
  - unfold date_eqb. rewrite !Z.eqb_refl. reflexivity.
  - apply Bool.eqb_reflx.
Qed.

Lemma key_same_eq (a b : list sqlval) : key_same a b = true <-> a = b.
Proof.
  split.
  - revert b. induction a as [|x a IH]; intros [|y b]; simpl;
      try discriminate; try reflexivity.
    rewrite andb_true_iff. intros [Hx Hab].
    apply sql_same_eq in Hx. apply IH in Hab. congruence.
  - intros <-. induction a as [|x a IH]; simpl; [reflexivity|].
    rewrite sql_same_refl. exact IH.
Qed.

(** A row that holds the same one-column key as [r] has that column. *)
Lemma same_key_single (i : nat) (r r' : row) :
  same_key [i] r r' = true -> col i r' = col i r.
Proof.
  unfold same_key. cbn [key_of].
  destruct (col i r) eqn:Hr; try discriminate;
    destruct (col i r') eqn:Hr'; try discriminate;
    cbn [key_same]; rewrite andb_true_r; intros H; apply sql_same_eq in H;
    congruence.
Qed.

Lemma col_imap (f : nat -> sqlval -> sqlval) (r : row) (i : nat) :
  (i < length r)%nat -> col i (imap f r) = f i (col i r).
Proof.
  intros Hlt. unfold col.
  destruct (lookup_lt_is_Some_2 r i Hlt) as [v Hv].
  rewrite (nth_lookup_Some _ _ _ _ Hv).
  apply nth_lookup_Some. rewrite list_lookup_imap, Hv. reflexivity.
Qed.

Lemma with_tables_same (c : connection) : with_tables (conn_tables c) c = c.
Proof. destruct c; reflexivity. Qed.

Lemma set_conn_same (pg : PgRepo) : set_conn (conn pg) pg = pg.
Proof. destruct pg; reflexivity. Qed.

(** What a statement that returned has done. *)
Lemma statement_ok {A} (body : tables -> res (A * tables)) (c c' : connection)
    (a : A) :
  statement body c = (Ok a, c') ->
  conn_failed c = false
  /\ body (conn_tables c) = Ok (a, conn_tables c')
  /\ c' = with_tables (conn_tables c') c.
Proof.
  unfold statement. destruct (conn_failed c) eqn:Hf; [discriminate|].
  destruct (body (conn_tables c)) as [[a' T]|e]; [|discriminate].
  intros H. injection H as <- <-. cbn.
  repeat split; reflexivity.
Qed.

(** What a statement that raised has done. *)
Lemma statement_raise {A} (body : tables -> res (A * tables))
    (c c' : connection) (e : exn) :
  statement (A := A) body c = (Raise e, c') ->
  conn_tables c' = conn_tables c
  /\ conn_failed c' = true
  /\ conn_savepoints c' = conn_savepoints c
  /\ conn_seqs c' = conn_seqs c
  /\ conn_committed c' = conn_committed c.
Proof.
  unfold statement. destruct (conn_failed c) eqn:Hf.
  - intros H. injection H as _ <-. auto.
  - destruct (body (conn_tables c)) as [[a' T]|e']; [discriminate|].
    intros H. injection H as _ <-. cbn. auto.
Qed.

Lemma exec_select_one_ok (t : string) (p : row -> bool) (c c' : connection)
    (r : option row) :
  exec_select_one t p c = (Ok r, c') ->
  c' = c /\ r = find p (get_table (conn_tables c) t)
  /\ conn_failed c = false.
Proof.
  intros H. apply statement_ok in H as (Hf & Hbody & Hc).
  injection Hbody as -> HT. rewrite <- HT in Hc.
  rewrite with_tables_same in Hc. auto.
Qed.

Lemma exec_update_ok (t : string) (p : row -> bool) (f : row -> row)
    (c c' : connection) :
  exec_update t p f c = (Ok tt, c') ->
  c' = with_tables
         (<[t := map (fun r => if p r then f r else r)
                   (get_table (conn_tables c) t)]> (conn_tables c)) c
  /\ conn_failed c = false.
Proof.
  intros H. apply statement_ok in H as (Hf & Hbody & Hc).
  injection Hbody as HT. rewrite <- HT in Hc. auto.
Qed.

(** An [INSERT ... RETURNING id] without [ON CONFLICT] that returned has
    appended one row, which holds the returned [id]. *)
Lemma exec_insert_serial_ok (sch : table_schema) (t : string) (cols : row)
    (c c' : connection) (id : sqlval) :
  exec_insert_serial sch NoClause t cols c = (Ok id, c') ->
  conn_failed c = false
  /\ id = SInt (default 0%Z (conn_seqs c !! t) + 1)
  /\ conn_tables c'
     = <[t := get_table (conn_tables c) t ++ [id :: cols]]> (conn_tables c)
  /\ conn_failed c' = false
  /\ conn_savepoints c' = conn_savepoints c
  /\ conn_committed c' = conn_committed c.
Proof.
  unfold exec_insert_serial.
  destruct (conn_failed c) eqn:Hf; [discriminate|].
  unfold nextval. intros H. apply statement_ok in H as (_ & Hbody & Hc).
  cbn [insert_row conn_tables with_seqs] in Hbody.
  destruct (conflicts _ _ _); [discriminate|].
  destruct (fks_ok _ _ _); [|discriminate].
  injection Hbody as <- HT.
  rewrite Hc. cbn. rewrite Hf. rewrite <- HT. repeat split; reflexivity.
Qed.

(** The counters do not touch the connection. *)
Lemma bump_conn (key : string) (n : Z) (pg : PgRepo) :
  bump key n pg
  = (Ok tt, mkPgRepo (conn pg) (_cache pg) (_person_cache pg)
              (<[key := (default 0%Z (stats pg !! key) + n)%Z]> (stats pg))).
Proof. reflexivity. Qed.

(** ** Title derivation *)

Lemma opt_or_first_non_empty (a b c : option string) :
  first_non_empty [a; b; c]
  = if str_truthy (opt_or a (opt_or b c)) then opt_or a (opt_or b c) else None.
Proof.
  unfold opt_or.
  destruct a as [a|], b as [b|], c as [c|]; simpl;
    repeat match goal with
           | |- context [String.eqb ?x ""] =>
               destruct (String.eqb x "") eqn:?; simpl
           end; congruence.
Qed.

Section MovieFacts.

Variable py_float : string -> option spec_float.
Variable py_repr : pyval -> string.
Variable schema : string -> table_schema.
Variable time_ns : nat -> Z.

Lemma movie_core_values_none (movie : pydict) :
  title_by_spec py_repr movie = None ->
  movie_core_values py_float py_repr movie = Ok None.
Proof.
  unfold title_by_spec, movie_core_values.
  rewrite opt_or_first_non_empty.
  destruct (str_truthy _) eqn:Ht; simpl; [|reflexivity].
  intros H. rewrite H in Ht. discriminate.
Qed.

Lemma movie_core_values_some (movie : pydict) (id : option Z)
    (cols : list sqlval) :
  movie_core_values py_float py_repr movie = Ok (Some (id, cols)) ->
  exists t,
    title_by_spec py_repr movie = Some t
    /\ col 0 cols = SText (first_chars 500 t)
    /\ length cols = 34%nat.
Proof.
  unfold title_by_spec, movie_core_values.
  rewrite opt_or_first_non_empty.
  destruct (str_truthy _) eqn:Ht; simpl; [|discriminate].
  destruct (opt_or _ _) as [t|] eqn:Htitle; [|discriminate].
  repeat match goal with
         | |- context [res_bind ?x _] =>
             destruct x; simpl; [|discriminate]
         end.
  intros H. injection H as _ <-.
  exists t. repeat split; reflexivity.
Qed.

(** After [insert_movie_core] has returned on a document with a title, a
    row of [movies] holds the returned [id] and the derived title. *)
Lemma insert_movie_core_stores (movie : pydict) (id : option Z)
    (cols : list sqlval) (pg pg' : PgRepo) (movie_id : sqlval) :
  movie_core_values py_float py_repr movie = Ok (Some (id, cols)) ->
  insert_movie_core py_float py_repr schema movie pg = (Ok movie_id, pg') ->
  exists r, In r (rows_of "movies" pg')
            /\ col 0 r = movie_id /\ col 1 r = col 0 cols.
Proof.
  intros Hvals.
  destruct (movie_core_values_some _ _ _ Hvals) as (t & _ & _ & Hlen).
  unfold insert_movie_core, bind, lift. rewrite Hvals.
  unfold rows_of.
  destruct id as [id|].
  - unfold on_conn.
    destruct (exec_insert _ _ _ _ (conn pg)) as [[[]|e] c1] eqn:Hins;
      [|discriminate].
    apply statement_ok in Hins as (_ & Hbody & _).
    cbn [insert_rows insert_row] in Hbody.
    set (r := SInt id :: cols) in *.
    set (tbl := get_table (conn_tables (conn pg)) "movies") in *.
    assert (Hrow : exists r', In r' (get_table (conn_tables c1) "movies")
                              /\ col 0 r' = SInt id
                              /\ col 1 r' = col 0 cols).
    { destruct (existsb (same_key [0%nat] r) tbl) eqn:Hex.
      - apply existsb_exists in Hex as (old & Hin & Hkey).
        cbn [existsb] in Hbody. injection Hbody as <-.
        rewrite get_table_insert_eq.
        exists (overwrite movie_set_cols r old). split.
        { apply in_map_iff. exists old. rewrite Hkey. auto. }
        unfold overwrite.
        rewrite !col_imap by (subst r; simpl; lia).
        split; [|reflexivity].
        cbn. apply (same_key_single 0 r old Hkey).
      - destruct (conflicts _ _ _); [discriminate|].
        destruct (fks_ok _ _ _); [|discriminate].
        injection Hbody as <-. rewrite get_table_insert_eq.
        exists r. split; [apply in_or_app; right; left; reflexivity|].
        split; reflexivity. }
    unfold ret. cbn [sql_truthy].
    destruct (negb (id =? 0)%Z); rewrite ?bump_conn;
      intros H; injection H as <- <-; exact Hrow.
  - unfold on_conn.
    destruct (exec_insert_serial _ _ _ _ (conn pg)) as [[mid|e] c1] eqn:Hins;
      [|discriminate].
    apply exec_insert_serial_ok in Hins as (_ & Hid & HT & _).
    assert (Hrow : exists r', In r' (get_table (conn_tables c1) "movies")
                              /\ col 0 r' = mid
                              /\ col 1 r' = col 0 cols).
    { rewrite HT, get_table_insert_eq. exists (mid :: cols).
      split; [apply in_or_app; right; left; reflexivity|].
      split; reflexivity. }
    unfold ret.
    destruct (sql_truthy mid); rewrite ?bump_conn;
      intros H; injection H as <- <-; exact Hrow.
Qed.

(** A document without a title leaves the repository as it was and adds one
    to [skipped]. *)
Lemma process_movie_doc_without_title (i : nat) (movie : pydict)
    (c : counters) (pg : PgRepo) :
  title_by_spec py_repr movie = None ->
  conn_failed (conn pg) = false ->
  process_movie_doc py_float py_repr schema time_ns i movie (mkFrame c pg)
  = (Ok tt, mkFrame (mkCounters (inserted c) (skipped c + 1)) pg).
Proof.
  intros Htitle Hfailed.
  unfold process_movie_doc, movie_doc_body, catch, bind, in_pg, on_conn,
    exec_savepoint.
  cbn. rewrite Hfailed.
  unfold insert_movie_core, bind, lift.
  rewrite (movie_core_values_none movie Htitle).
  cbn. unfold exec_release. cbn. rewrite Hfailed, String.eqb_refl. cbn.
  destruct pg as [[T sq fl sps cm] ca pc st]. reflexivity.
Qed.

(** C8 (amended). Title derivation and skip: the title handed to the store
    is the first non-empty (after trimming) of primary name, alternate name
    and english name, cut to its first 500 characters, and a row of [movies]
    holds it once [insert_movie_core] has returned; a document in which all
    three are absent or empty is skipped entirely: the iteration of
    [process_movie_batch] returns normally, adds one to [skipped] and
    nothing to [inserted], and leaves every table, cache and statistics
    counter as it was. *)
Theorem title_is_first_non_empty_cut_to_500 :
  (forall (movie : pydict) (id : option Z) (cols : list sqlval),
      movie_core_values py_float py_repr movie = Ok (Some (id, cols)) ->
      exists t,
        title_by_spec py_repr movie = Some t
        /\ col 0 cols = SText (first_chars 500 t)
        /\ forall pg pg' movie_id,
            insert_movie_core py_float py_repr schema movie pg
            = (Ok movie_id, pg') ->
            exists r, In r (rows_of "movies" pg')
                      /\ col 0 r = movie_id
                      /\ col 1 r = SText (first_chars 500 t))
  /\ (forall (movie : pydict),
         title_by_spec py_repr movie = None ->
         movie_core_values py_float py_repr movie = Ok None
         /\ (forall pg, insert_movie_core py_float py_repr schema movie pg
                        = (Ok SNull, pg))
         /\ forall i c pg,
             conn_failed (conn pg) = false ->
             process_movie_doc py_float py_repr schema time_ns i movie
               (mkFrame c pg)
             = (Ok tt, mkFrame (mkCounters (inserted c) (skipped c + 1)) pg)).
Proof.
  split.
  - intros movie id cols Hvals.
    destruct (movie_core_values_some _ _ _ Hvals) as (t & Ht & Hcol & _).
    exists t. split; [exact Ht|]. split; [exact Hcol|].
    intros pg pg' movie_id Hrun.
    destruct (insert_movie_core_stores _ _ _ _ _ _ Hvals Hrun)
      as (r & Hin & Hid & Htitle).
    exists r. rewrite <- Hcol. auto.
  - intros movie Htitle. split; [|split].
    + apply movie_core_values_none, Htitle.
    + intros pg. unfold insert_movie_core, bind, lift.
      rewrite (movie_core_values_none movie Htitle). reflexivity.
    + intros i c pg Hfailed.
      apply process_movie_doc_without_title; assumption.
Qed.

End MovieFacts.

(** C8, the claim as stated fails: for a document whose name has 501
    characters, the first non-empty name is the name itself, and the title
    stored and committed is another string, its first 500 characters. *)
Lemma long_title_is_not_stored_whole :
  title_by_spec no_repr long_title_doc = Some name_of_501
  /\ map (col 1)
       (committed_rows "movies"
          (snd (run_movie_batch float_of_digits no_repr spec_schema tick
                  [long_title_doc] empty_pg)))
     = [SText name_of_500]
  /\ name_of_500 <> name_of_501.
Proof.
  split; [|split].
  - vm_compute. reflexivity.
  - vm_compute. reflexivity.
  - intros H. apply (f_equal String.length) in H. vm_compute in H.
    discriminate.
Qed.

(** The amended statement at a document whose names are blank or absent and
    at one whose first non-empty name is the alternate one. *)
Lemma title_witness :
  (exists r,
      In r (rows_of "movies"
              (snd (insert_movie_core float_of_digits no_repr spec_schema
                      titled_doc empty_pg)))
      /\ col 0 r = SInt 1 /\ col 1 r = SText "Solaris")
  /\ process_movie_doc float_of_digits no_repr spec_schema tick 0 untitled_doc
       (mkFrame (mkCounters 0 0) empty_pg)
     = (Ok tt, mkFrame (mkCounters 0 1) empty_pg).
Proof.
  pose proof (title_is_first_non_empty_cut_to_500 float_of_digits no_repr
                spec_schema tick) as [Htitled Huntitled].
  split.
  - destruct (movie_core_values float_of_digits no_repr titled_doc)
      as [[[id cols]|]|] eqn:Hvals; try (vm_compute in Hvals; discriminate).
    destruct (Htitled titled_doc id cols Hvals) as (t & Ht & _ & Hstore).
    assert (t = "Solaris") as ->.
    { vm_compute in Ht. injection Ht as <-. reflexivity. }
    apply (Hstore empty_pg). reflexivity.
  - destruct (Huntitled untitled_doc eq_refl) as (_ & _ & Hskip).
    apply (Hskip 0%nat (mkCounters 0 0) empty_pg). reflexivity.
Defined.

(** ** Entity resolvers *)

Lemma cache_lookup_store (kind key : string) (v : sqlval) (pg : PgRepo) :
  cache_lookup kind key (snd (cache_store kind key v pg)) = Some v.
Proof.
  unfold cache_lookup, cache_store. cbn.
  rewrite lookup_insert_eq. cbn. apply lookup_insert_eq.
Qed.

Section ResolverFacts.

Variable py_repr : pyval -> string.
Variable schema : string -> table_schema.

Lemma get_or_create_named_twice (t counter name name' : string)
    (pg pg1 : PgRepo) (id : sqlval) :
  truncate_text (Some (py_strip name')) 100
  = truncate_text (Some (py_strip name)) 100 ->
  get_or_create_named schema t counter name pg = (Ok id, pg1) ->
  get_or_create_named schema t counter name' pg1 = (Ok id, pg1)
  /\ at_most_one_insert (rows_of t pg) (rows_of t pg1).
Proof.
  intros Hkey. unfold get_or_create_named. rewrite Hkey.
  destruct (truncate_text (Some (py_strip name)) 100) as [key|].
  2:{ intros H. injection H as <- <-. split; [reflexivity|left; reflexivity]. }
  destruct (String.eqb key "").
  { intros H. injection H as <- <-. split; [reflexivity|left; reflexivity]. }
  destruct (cache_lookup t key pg) as [cached|] eqn:Hcache.
  { intros H. injection H as <- <-. rewrite Hcache.
    split; [reflexivity|left; reflexivity]. }
  unfold _get_single_value, bind, on_conn.
  destruct (exec_select_one t _ (conn pg)) as [[found|e] c1] eqn:Hsel;
    [|discriminate].
  apply exec_select_one_ok in Hsel as (-> & _ & _).
  rewrite set_conn_same. unfold ret.
  set (sel := match found with Some r' => col 0 r' | None => SNull end).
  destruct (sql_truthy sel).
  - intros H. injection H as <- <-.
    pose proof (cache_lookup_store t key sel pg) as Hhit.
    cbn [snd cache_store] in Hhit. rewrite Hhit.
    split; [reflexivity|left; reflexivity].
  - destruct (exec_insert_serial _ _ _ _ (conn pg)) as [[new|e] c1] eqn:Hins;
      [|discriminate].
    apply exec_insert_serial_ok in Hins as (_ & _ & HT & _).
    intros H. injection H as <- <-.
    split.
    + pose proof (cache_lookup_store t key new (set_conn c1 pg)) as Hhit.
      unfold cache_lookup in *. cbn in Hhit |- *. rewrite Hhit. reflexivity.
    + right. exists (new :: [SText key]). unfold rows_of. cbn.
      rewrite HT, get_table_insert_eq. reflexivity.
Qed.

Lemma upsert_distributor_twice (name release_name : option string)
    (pg pg1 : PgRepo) (id : sqlval) :
  upsert_distributor schema name release_name pg = (Ok id, pg1) ->
  upsert_distributor schema name release_name pg1 = (Ok id, pg1)
  /\ at_most_one_insert (rows_of "distributors" pg)
       (rows_of "distributors" pg1).
Proof.
  unfold upsert_distributor.
  destruct (negb (str_truthy name)).
  { intros H. injection H as <- <-. split; [reflexivity|left; reflexivity]. }
  destruct (truncate_text name 200) as [key|].
  2:{ intros H. injection H as <- <-. split; [reflexivity|left; reflexivity]. }
  set (rel := if str_truthy release_name then truncate_text release_name 200
              else None).
  set (cache_key := (key ++ ":" ++ default "" rel)%string).
  destruct (cache_lookup "distributors" cache_key pg) as [cached|] eqn:Hcache.
  { intros H. injection H as <- <-. rewrite Hcache.
    split; [reflexivity|left; reflexivity]. }
  unfold bind, on_conn.
  destruct (exec_select_one "distributors" _ (conn pg)) as [[found|e] c1]
    eqn:Hsel; [|discriminate].
  apply exec_select_one_ok in Hsel as (-> & _ & _).
  rewrite set_conn_same. unfold ret.
  destruct found as [found|].
  - intros H. injection H as <- <-.
    pose proof (cache_lookup_store "distributors" cache_key (col 0 found) pg)
      as Hhit.
    cbn [snd cache_store] in Hhit. rewrite Hhit.
    split; [reflexivity|left; reflexivity].
  - destruct (exec_insert_serial _ _ _ _ (conn pg)) as [[new|e] c1] eqn:Hins;
      [|discriminate].
    apply exec_insert_serial_ok in Hins as (_ & _ & HT & _).
    intros H. injection H as <- <-.
    split.
    + pose proof (cache_lookup_store "distributors" cache_key new
                    (set_conn c1 pg)) as Hhit.
      unfold cache_lookup in *. cbn in Hhit |- *. rewrite Hhit. reflexivity.
    + right. eexists. unfold rows_of. cbn.
      rewrite HT, get_table_insert_eq. reflexivity.
Qed.

Lemma get_role_id_twice (role_name : option string) (pg pg1 : PgRepo)
    (id : sqlval) :
  get_role_id role_name pg = (Ok id, pg1) ->
  get_role_id role_name pg1 = (Ok id, pg1)
  /\ rows_of "roles" pg1 = rows_of "roles" pg.
Proof.
  unfold get_role_id.
  destruct role_name as [role_name|].
  2:{ intros H. injection H as <- <-. split; reflexivity. }
  destruct (String.eqb role_name "").
  { intros H. injection H as <- <-. split; reflexivity. }
  destruct (cache_lookup "roles" role_name pg) as [cached|] eqn:Hcache.
  { intros H. injection H as <- <-. rewrite Hcache. split; reflexivity. }
  intros Hrun. pose proof Hrun as Hagain. revert Hrun.
  unfold _get_single_value, bind, on_conn.
  destruct (exec_select_one "roles" _ (conn pg)) as [[found|e] c1] eqn:Hsel;
    [|discriminate].
  apply exec_select_one_ok in Hsel as (-> & _ & _).
  rewrite set_conn_same. unfold ret.
  set (sel := match found with Some r' => col 0 r' | None => SNull end).
  destruct (sql_truthy sel).
  - intros H. injection H as <- <-.
    pose proof (cache_lookup_store "roles" role_name sel pg) as Hhit.
    cbn [snd cache_store] in Hhit. rewrite Hhit. split; reflexivity.
  - intros H. injection H as <- <-. split; [|reflexivity].
    rewrite Hcache. exact Hagain.
Qed.

Lemma upsert_person_cached (person : pyval) (f : person_fields)
    (pg : PgRepo) (id : sqlval) :
  person_fields_of py_repr person = Ok (Some f) ->
  _person_cache pg !! (pf_name f, pf_en_name f) = Some id ->
  upsert_person py_repr schema person pg = (Ok id, pg).
Proof.
  intros Hf Hhit. unfold upsert_person, bind, lift. rewrite Hf, Hhit.
  reflexivity.
Qed.

Lemma upsert_person_first (person : pyval) (f : person_fields)
    (pg pg1 : PgRepo) (id : sqlval) :
  person_fields_of py_repr person = Ok (Some f) ->
  upsert_person py_repr schema person pg = (Ok id, pg1) ->
  _person_cache pg1 !! (pf_name f, pf_en_name f) = Some id
  /\ updated_or_one_insert (rows_of "people" pg) (rows_of "people" pg1).
Proof.
  intros Hf. unfold upsert_person, bind, lift. rewrite Hf.
  destruct (_person_cache pg !! (pf_name f, pf_en_name f)) as [cached|]
    eqn:Hcache.
  { intros H. injection H as <- <-. split; [exact Hcache|].
    left. exists (fun r => r). rewrite map_id. reflexivity. }
  unfold on_conn.
  destruct (exec_select_one "people" _ (conn pg)) as [[found|e] c1] eqn:Hsel;
    [|discriminate].
  apply exec_select_one_ok in Hsel as (-> & _ & _).
  rewrite set_conn_same.
  destruct found as [found|].
  - destruct (exec_update "people" _ _ (conn pg)) as [[[]|e] c1] eqn:Hupd;
      [|discriminate].
    apply exec_update_ok in Hupd as (-> & _).
    unfold ret. rewrite bump_conn.
    intros H. injection H as <- <-. cbn -[insert get_table].
    split; [apply lookup_insert_eq|].
    left. unfold rows_of. cbn -[insert get_table].
    rewrite get_table_insert_eq. eexists. reflexivity.
  - destruct (exec_insert_serial _ _ _ _ (conn pg)) as [[new|e] c1] eqn:Hins;
      [|discriminate].
    apply exec_insert_serial_ok in Hins as (_ & _ & HT & _).
    unfold ret. rewrite bump_conn.
    intros H. injection H as <- <-. cbn -[insert get_table].
    split; [apply lookup_insert_eq|].
    right. unfold rows_of. cbn -[insert get_table].
    rewrite HT, get_table_insert_eq. eexists. reflexivity.
Qed.

(** C4. Entity-resolver idempotence: when a call of a resolver
    ([get_or_create_country], [get_or_create_genre], [upsert_distributor],
    [get_role_id], [upsert_person]) has returned an identifier, a further
    call with the same natural key (the trimmed and truncated name, the
    (name, release name) pair, the (name, en-name) pair of the person
    document) returns the same identifier and changes nothing in the
    repository, tables included; the first call has added at most one row to
    the table of the entity. *)
Theorem resolver_called_twice :
  (forall (name name' : string) (pg pg1 : PgRepo) (id : sqlval),
      truncate_text (Some (py_strip name')) 100
      = truncate_text (Some (py_strip name)) 100 ->
      get_or_create_country schema name pg = (Ok id, pg1) ->
      get_or_create_country schema name' pg1 = (Ok id, pg1)
      /\ at_most_one_insert (rows_of "countries" pg) (rows_of "countries" pg1))
  /\ (forall (person person' : pyval) (f f' : person_fields)
             (pg pg1 : PgRepo) (id : sqlval),
         person_fields_of py_repr person = Ok (Some f) ->
         person_fields_of py_repr person' = Ok (Some f') ->
         (pf_name f', pf_en_name f') = (pf_name f, pf_en_name f) ->
         upsert_person py_repr schema person pg = (Ok id, pg1) ->
         upsert_person py_repr schema person' pg1 = (Ok id, pg1)
         /\ updated_or_one_insert (rows_of "people" pg) (rows_of "people" pg1))
  /\ (forall (person : pyval) (pg pg1 : PgRepo) (id : sqlval),
         upsert_person py_repr schema person pg = (Ok id, pg1) ->
         upsert_person py_repr schema person pg1 = (Ok id, pg1))
  /\ (forall (name name' : string) (pg pg1 : PgRepo) (id : sqlval),
         truncate_text (Some (py_strip name')) 100
         = truncate_text (Some (py_strip name)) 100 ->
         get_or_create_genre schema name pg = (Ok id, pg1) ->
         get_or_create_genre schema name' pg1 = (Ok id, pg1)
         /\ at_most_one_insert (rows_of "genres" pg) (rows_of "genres" pg1))
  /\ (forall (name release_name : option string) (pg pg1 : PgRepo)
             (id : sqlval),
         upsert_distributor schema name release_name pg = (Ok id, pg1) ->
         upsert_distributor schema name release_name pg1 = (Ok id, pg1)
         /\ at_most_one_insert (rows_of "distributors" pg)
              (rows_of "distributors" pg1))
  /\ (forall (role_name : option string) (pg pg1 : PgRepo) (id : sqlval),
         get_role_id role_name pg = (Ok id, pg1) ->
         get_role_id role_name pg1 = (Ok id, pg1)
         /\ rows_of "roles" pg1 = rows_of "roles" pg).
Proof.
  split; [|split; [|split; [|split; [|split]]]].
  - intros name name' pg pg1 id Hkey Hrun.
    exact (get_or_create_named_twice _ _ _ _ _ _ _ Hkey Hrun).
  - intros person person' f f' pg pg1 id Hf Hf' Hkey Hrun.
    destruct (upsert_person_first _ _ _ _ _ Hf Hrun) as [Hhit Hrows].
    split; [|exact Hrows].
    apply (upsert_person_cached person' f'); [exact Hf'|].
    rewrite Hkey. exact Hhit.
  - intros person pg pg1 id Hrun.
    destruct (person_fields_of py_repr person) as [[f|]|e] eqn:Hf.
    + destruct (upsert_person_first _ _ _ _ _ Hf Hrun) as [Hhit _].
      apply (upsert_person_cached person f); assumption.
    + revert Hrun. unfold upsert_person, bind, lift. rewrite Hf.
      intros H. injection H as <- <-. reflexivity.
    + revert Hrun. unfold upsert_person, bind, lift. rewrite Hf.
      discriminate.
  - intros name name' pg pg1 id Hkey Hrun.
    exact (get_or_create_named_twice _ _ _ _ _ _ _ Hkey Hrun).
  - intros name release_name pg pg1 id Hrun.
    exact (upsert_distributor_twice _ _ _ _ _ Hrun).
  - intros role_name pg pg1 id Hrun.
    exact (get_role_id_twice _ _ _ _ Hrun).
Qed.

End ResolverFacts.

(** The theorem at the country name [" France "], called again as ["France"],
    and at a person document shaped as the specification's example, both on
    the empty repository. *)
Lemma resolver_called_twice_witness :
  (get_or_create_country spec_schema "France"
     (snd (get_or_create_country spec_schema " France " empty_pg))
   = get_or_create_country spec_schema " France " empty_pg
   /\ rows_of "countries"
        (snd (get_or_create_country spec_schema " France " empty_pg))
      = [[SInt 1; SText "France"]])
  /\ upsert_person no_repr spec_schema ivan_doc
       (snd (upsert_person no_repr spec_schema ivan_doc empty_pg))
     = upsert_person no_repr spec_schema ivan_doc empty_pg
  /\ rows_of "people" (snd (upsert_person no_repr spec_schema ivan_doc empty_pg))
     = [[SInt 1; SText "Ivan Ivanov"; SNull; SDate (mkDate 1970 1 1); SNull;
         SNull; SNull]].
Proof.
  pose proof (resolver_called_twice no_repr spec_schema)
    as (Hcountry & _ & Hperson & _).
  split; [split|split].
  - destruct (get_or_create_country spec_schema " France " empty_pg)
      as [[id|e] pg1] eqn:Hrun; [|vm_compute in Hrun; discriminate].
    apply (Hcountry " France " "France" empty_pg pg1 id eq_refl Hrun).
  - vm_compute. reflexivity.
  - destruct (upsert_person no_repr spec_schema ivan_doc empty_pg)
      as [[id|e] pg1] eqn:Hrun; [|vm_compute in Hrun; discriminate].
    apply (Hperson ivan_doc empty_pg pg1 id Hrun).
  - vm_compute. reflexivity.
Defined.

(** ** Person update *)

Lemma exec_select_one_run (t : string) (p : row -> bool) (c : connection) :
  conn_failed c = false ->
  exec_select_one t p c = (Ok (find p (get_table (conn_tables c) t)), c).
Proof.
  intros Hf. unfold exec_select_one, statement. rewrite Hf.
  rewrite with_tables_same. reflexivity.
Qed.

Lemma exec_update_run (t : string) (p : row -> bool) (f : row -> row)
    (c : connection) :
  conn_failed c = false ->
  exec_update t p f c
  = (Ok tt,
     with_tables
       (<[t := map (fun r => if p r then f r else r)
                 (get_table (conn_tables c) t)]> (conn_tables c)) c).
Proof.
  intros Hf. unfold exec_update, statement. rewrite Hf. reflexivity.
Qed.

Section PersonUpdate.

Variable py_repr : pyval -> string.
Variable schema : string -> table_schema.

(** The mutable columns after the [UPDATE]: the incoming value when there is
    one, the stored value otherwise; the other columns are the stored ones. *)
Lemma person_update_columns (f : person_fields) (r : row) :
  col 0 (person_update f r) = col 0 r
  /\ col people_name (person_update f r) = col people_name r
  /\ col people_en_name (person_update f r) = col people_en_name r
  /\ col people_photo_url (person_update f r)
     = match pf_photo_url f with
       | Some u => SText u
       | None => col people_photo_url r
       end
  /\ col people_birth_date (person_update f r)
     = match pf_birth_date f with
       | Some d => SDate (date_of d)
       | None => col people_birth_date r
       end
  /\ col people_death_date (person_update f r)
     = match pf_death_date f with
       | Some d => SDate (date_of d)
       | None => col people_death_date r
       end
  /\ col people_birth_place (person_update f r)
     = match pf_birth_place f with
       | Some p => SText p
       | None => col people_birth_place r
       end.
Proof.
  unfold person_update. cbn.
  destruct (pf_photo_url f), (pf_birth_date f), (pf_death_date f),
    (pf_birth_place f); cbn; repeat split; reflexivity.
Qed.

(** C2 (amended). Person update semantics: for every person document whose
    (name, en-name) natural key matches an existing row and is not yet in the
    person cache of the run, [upsert_person] returns the [id] of the first
    matching row and sets each mutable field (photo, birth date, death date,
    birth place) of the rows with that [id] to the incoming value when the
    incoming value is not null, keeping the stored value when it is null; no
    other column, row or table changes.  A stored value is never overwritten
    by a null incoming value; it is overwritten by a non-null one. *)
Theorem upsert_person_update_coalesces (person : pyval) (f : person_fields)
    (pg : PgRepo) (found : row) :
  person_fields_of py_repr person = Ok (Some f) ->
  _person_cache pg !! (pf_name f, pf_en_name f) = None ->
  conn_failed (conn pg) = false ->
  find (person_matches (pf_name f) (pf_en_name f)) (rows_of "people" pg)
  = Some found ->
  exists pg',
    upsert_person py_repr schema person pg = (Ok (col 0 found), pg')
    /\ rows_of "people" pg'
       = map (fun r => if sql_eq (col 0 r) (col 0 found)
                       then person_update f r else r)
           (rows_of "people" pg)
    /\ (forall t, t <> "people" -> rows_of t pg' = rows_of t pg)
    /\ forall r,
        col 0 (person_update f r) = col 0 r
        /\ col people_name (person_update f r) = col people_name r
        /\ col people_en_name (person_update f r) = col people_en_name r
        /\ col people_photo_url (person_update f r)
           = match pf_photo_url f with
             | Some u => SText u
             | None => col people_photo_url r
             end
        /\ col people_birth_date (person_update f r)
           = match pf_birth_date f with
             | Some d => SDate (date_of d)
             | None => col people_birth_date r
             end
        /\ col people_death_date (person_update f r)
           = match pf_death_date f with
             | Some d => SDate (date_of d)
             | None => col people_death_date r
             end
        /\ col people_birth_place (person_update f r)
           = match pf_birth_place f with
             | Some p => SText p
             | None => col people_birth_place r
             end.
Proof.
  intros Hf Hcache Hfailed Hfound.
  unfold upsert_person, bind, lift. rewrite Hf, Hcache.
  unfold on_conn. rewrite (exec_select_one_run _ _ _ Hfailed).
  unfold rows_of in Hfound. rewrite Hfound, set_conn_same.
  rewrite (exec_update_run _ _ _ _ Hfailed).
  unfold ret. rewrite bump_conn. cbn -[insert get_table person_update].
  eexists. split; [reflexivity|].
  unfold rows_of. cbn -[insert get_table person_update].
  split; [apply get_table_insert_eq|].
  split; [intros t Ht; apply get_table_insert_ne; congruence|].
  apply person_update_columns.
Qed.

End PersonUpdate.

(** C2, the claim as stated fails: the stored photo and birth date of Ann are
    not null, the document carries other values for both and none for the
    birth place; after [upsert_person] the row holds the incoming photo and
    birth date, and the stored birth place. *)
Lemma stored_person_fields_are_overwritten :
  rows_of "people" pg_with_ann = [ann_row (mkDate 1970 1 1) "old.jpg"]
  /\ rows_of "people" (snd (upsert_person no_repr spec_schema ann_doc pg_with_ann))
     = [ann_row (mkDate 1980 2 2) "new.jpg"]
  /\ ann_row (mkDate 1980 2 2) "new.jpg" <> ann_row (mkDate 1970 1 1) "old.jpg".
Proof.
  split; [|split].
  - vm_compute. reflexivity.
  - vm_compute. reflexivity.
  - discriminate.
Qed.

(** The amended statement at the document and the stored row of Ann. *)
Lemma upsert_person_update_witness :
  exists pg',
    upsert_person no_repr spec_schema ann_doc pg_with_ann = (Ok (SInt 1), pg')
    /\ rows_of "people" pg' = [ann_row (mkDate 1980 2 2) "new.jpg"].
Proof.
  destruct (person_fields_of no_repr ann_doc) as [[f|]|] eqn:Hf;
    try (vm_compute in Hf; discriminate).
  assert (Hname : (pf_name f, pf_en_name f) = ("Ann", None)).
  { vm_compute in Hf. injection Hf as <-. reflexivity. }
  destruct (upsert_person_update_coalesces no_repr spec_schema ann_doc f
              pg_with_ann (ann_row (mkDate 1970 1 1) "old.jpg") Hf)
    as (pg' & Hrun & Hrows & _).
  - rewrite Hname. reflexivity.
  - reflexivity.
  - injection Hname as -> ->. reflexivity.
  - exists pg'. split; [exact Hrun|].
    rewrite Hrows. vm_compute in Hf. injection Hf as <-. reflexivity.
Defined.

(** ** Distribution release date *)

(** An [INSERT ... ON CONFLICT DO NOTHING] of one row that returned has
    appended the row, or nothing when a stored row holds one of its keys. *)
Lemma exec_insert_do_nothing_one (sch : table_schema) (t : string) (r : row)
    (c c' : connection) :
  exec_insert sch DoNothing t [r] c = (Ok tt, c') ->
  get_table (conn_tables c') t
  = get_table (conn_tables c) t
    ++ (if conflicts (ts_uniques sch) (get_table (conn_tables c) t) r
        then [] else [r]).
Proof.
  intros H. apply statement_ok in H as (_ & Hbody & _).
  cbn [insert_rows insert_row] in Hbody.
  destruct (conflicts _ _ _).
  - injection Hbody as <-. rewrite app_nil_r. reflexivity.
  - destruct (fks_ok _ _ _); [|discriminate].
    injection Hbody as <-. apply get_table_insert_eq.
Qed.

Lemma parse_mongo_date_parsed (v : pyval) :
  parse_mongo_date v = Ok (parsed_date v).
Proof.
  unfold parsed_date. destruct (parse_mongo_date_total v) as [o ->].
  reflexivity.
Qed.

Lemma release_date_preferred (movie_doc : pydict) :
  release_date movie_doc = Ok (preferred_premiere movie_doc).
Proof.
  unfold release_date, preferred_premiere, premiere.
  rewrite !parse_mongo_date_parsed. cbn.
  destruct (parsed_date _); reflexivity.
Qed.

Section DistributorFacts.

Variable py_repr : pyval -> string.
Variable schema : string -> table_schema.

(** C9 (amended). Distribution release date: when the distributor step of a
    movie document has returned, the distributor was resolved from the trimmed
    [distributor] and [distributorRelease] fields; if the identifier is truthy
    one [INSERT ... ON CONFLICT DO NOTHING] was issued for the row
    (movie, distributor, "theatrical", date), which added exactly that row to
    [movie_distributors] unless a stored row already held one of its unique
    keys, and no row when one did; the date is the russia premiere date when
    that field yields a date, otherwise the world premiere date, and null when
    neither does. *)
Theorem distribution_row_dated_by_preferred_premiere (movie_id : sqlval)
    (movie_doc : pydict) (pg pg' : PgRepo) :
  link_distributor py_repr schema movie_id movie_doc pg = (Ok tt, pg') ->
  exists v_name v_release distributor_id pg1,
    py_get (sub_doc movie_doc "distributors") "distributor" = Ok v_name
    /\ py_get (sub_doc movie_doc "distributors") "distributorRelease"
       = Ok v_release
    /\ upsert_distributor schema (normalize_text py_repr v_name)
         (normalize_text py_repr v_release) pg = (Ok distributor_id, pg1)
    /\ if sql_truthy distributor_id then
         let r := [movie_id; distributor_id; SText "theatrical";
                   opt_date (preferred_premiere movie_doc)] in
         rows_of "movie_distributors" pg'
         = rows_of "movie_distributors" pg1
           ++ (if conflicts (ts_uniques (schema "movie_distributors"))
                    (rows_of "movie_distributors" pg1) r
               then [] else [r])
       else pg' = pg1.
Proof.
  unfold link_distributor, bind, lift.
  destruct (py_get (sub_doc movie_doc "distributors") "distributor")
    as [v_name|e]; [|discriminate].
  destruct (py_get (sub_doc movie_doc "distributors") "distributorRelease")
    as [v_release|e]; [|discriminate].
  destruct (upsert_distributor _ _ _ pg) as [[distributor_id|e] pg1] eqn:Hup;
    [|discriminate].
  intros Hrun. exists v_name, v_release, distributor_id, pg1.
  split; [reflexivity|]. split; [reflexivity|]. split; [exact Hup|].
  destruct (sql_truthy distributor_id).
  - rewrite release_date_preferred in Hrun. unfold on_conn in Hrun.
    destruct (exec_insert _ _ _ _ (conn pg1)) as [[[]|e] c'] eqn:Hins;
      [|discriminate].
    injection Hrun as <-. unfold rows_of. cbn [conn set_conn].
    apply (exec_insert_do_nothing_one _ _ _ _ _ Hins).
  - injection Hrun as <-. reflexivity.
Qed.

End DistributorFacts.

(** C9, the claim as stated fails: a batch holds the movie 1 twice, the
    second time with a later russia premiere.  Both documents have a resolved
    distributor and both are loaded, and the second one inserts no
    distribution row: the row of the first holds the key, the [INSERT] does
    nothing on the conflict, and the stored row keeps the first date. *)
Lemma stored_distribution_row_is_not_inserted_again :
  let load docs :=
    run_movie_batch float_of_digits no_repr spec_schema tick docs empty_pg in
  let first := dated_doc "2020-05-01T00:00:00Z" in
  let second := dated_doc "2021-03-01T00:00:00Z" in
  committed_rows "movie_distributors" (snd (load [first]))
  = [[SInt 1; SInt 1; SText "theatrical"; SDate (mkDate 2020 5 1)]]
  /\ fst (load [first; second]) = Ok 2%Z
  /\ committed_rows "movie_distributors" (snd (load [first; second]))
     = [[SInt 1; SInt 1; SText "theatrical"; SDate (mkDate 2020 5 1)]]
  /\ opt_date (preferred_premiere second) = SDate (mkDate 2021 3 1).
Proof. repeat split; vm_compute; reflexivity. Qed.

(** The statement at a document with both premieres, for the movie row 1. *)
Lemma distribution_row_witness :
  rows_of "movie_distributors"
    (snd (link_distributor no_repr spec_schema (SInt 1) premiere_doc
            pg_with_film))
  = [[SInt 1; SInt 1; SText "theatrical"; SDate (mkDate 2020 5 1)]].
Proof.
  destruct (link_distributor no_repr spec_schema (SInt 1) premiere_doc
              pg_with_film) as [[[]|e] pg'] eqn:Hrun;
    [|vm_compute in Hrun; discriminate].
  destruct (distribution_row_dated_by_preferred_premiere no_repr spec_schema
              (SInt 1) premiere_doc pg_with_film pg' Hrun)
    as (v_name & v_release & did & pg1 & Hname & Hrel & Hup & Hrows).
  vm_compute in Hname. injection Hname as <-.
  vm_compute in Hrel. injection Hrel as <-.
  vm_compute in Hup. injection Hup as <- <-.
  cbn [sql_truthy] in Hrows. cbn [snd]. rewrite Hrows. vm_compute. reflexivity.
Defined.

(** ** Failure isolation *)

(** *** What a method leaves alone *)

Lemma stable_ret {A} (a : A) : stable (ret a).
Proof. intros pg r pg' H. injection H as _ <-. auto. Qed.

Lemma stable_raise {A} (e : exn) : stable (raise (A := A) e).
Proof. intros pg r pg' H. injection H as _ <-. auto. Qed.

Lemma stable_lift {A} (x : res A) : stable (lift x).
Proof. intros pg r pg' H. injection H as _ <-. auto. Qed.

Lemma stable_bind {A B} (m : M A) (k : A -> M B) :
  stable m -> (forall a, stable (k a)) -> stable (bind m k).
Proof.
  intros Hm Hk pg r pg'. unfold bind.
  destruct (m pg) as [[a|e] pg1] eqn:Hrun.
  - intros H. destruct (Hm _ _ _ Hrun) as [<- <-]. exact (Hk a _ _ _ H).
  - intros H. injection H as _ <-. exact (Hm _ _ _ Hrun).
Qed.

Lemma stable_catch {A} (m : M A) (h : exn -> M A) :
  stable m -> (forall e, stable (h e)) -> stable (catch m h).
Proof.
  intros Hm Hh pg r pg'. unfold catch.
  destruct (m pg) as [[a|e] pg1] eqn:Hrun.
  - intros H. injection H as _ <-. exact (Hm _ _ _ Hrun).
  - intros H. destruct (Hm _ _ _ Hrun) as [<- <-]. exact (Hh e _ _ _ H).
Qed.

Lemma stable_statement {A} (body : tables -> res (A * tables)) :
  stable (on_conn (statement body)).
Proof.
  intros pg r pg'. unfold on_conn, statement.
  destruct (conn_failed (conn pg)).
  - intros H. injection H as _ <-. auto.
  - destruct (body (conn_tables (conn pg))) as [[a T]|e];
      intros H; injection H as _ <-; auto.
Qed.

Lemma stable_insert (sch : table_schema) (oc : on_conflict) (t : string)
    (rows : list row) :
  stable (on_conn (exec_insert sch oc t rows)).
Proof. apply stable_statement. Qed.

Lemma stable_select_one (t : string) (p : row -> bool) :
  stable (on_conn (exec_select_one t p)).
Proof. apply stable_statement. Qed.

Lemma stable_update (t : string) (p : row -> bool) (f : row -> row) :
  stable (on_conn (exec_update t p f)).
Proof. apply stable_statement. Qed.

Lemma stable_insert_serial (sch : table_schema) (oc : on_conflict)
    (t : string) (cols : row) :
  stable (on_conn (exec_insert_serial sch oc t cols)).
Proof.
  intros pg r pg'. unfold on_conn, exec_insert_serial.
  destruct (conn_failed (conn pg)) eqn:Hf.
  - intros H. injection H as _ <-. auto.
  - unfold nextval, statement. cbn [conn_failed with_seqs conn_tables].
    rewrite Hf.
    match goal with
    | |- context [match ?x with Ok _ => _ | Raise _ => _ end] =>
        destruct x as [[a T]|e]
    end; intros H; injection H as _ <-; auto.
Qed.

Lemma stable_cache_store (kind key : string) (v : sqlval) :
  stable (cache_store kind key v).
Proof. intros pg r pg' H. injection H as _ <-. auto. Qed.

Lemma stable_person_cache_store (key : string * option string) (v : sqlval) :
  stable (person_cache_store key v).
Proof. intros pg r pg' H. injection H as _ <-. auto. Qed.

Lemma stable_bump (key : string) (n : Z) : stable (bump key n).
Proof. intros pg r pg' H. injection H as _ <-. auto. Qed.

Lemma stable_for_each {A} (f : A -> M unit) (l : list A) :
  (forall x, stable (f x)) -> stable (for_each f l).
Proof.
  intros Hf. induction l as [|x l IH]; cbn [for_each].
  - apply stable_ret.
  - apply stable_bind; [apply Hf|intros _; exact IH].
Qed.

(** A method that answers from a cache when it can. *)
Lemma stable_cached {A} (look : PgRepo -> option A) (m : M A) :
  stable m ->
  stable (fun pg => match look pg with
                    | Some a => (Ok a, pg)
                    | None => m pg
                    end).
Proof.
  intros Hm pg r pg'. destruct (look pg).
  - intros H. injection H as _ <-. auto.
  - apply Hm.
Qed.

Create HintDb stable discriminated.
#[local] Hint Resolve stable_ret stable_raise stable_lift stable_insert
  stable_select_one stable_update stable_insert_serial stable_cache_store
  stable_person_cache_store stable_bump : stable.

(** Splits a computation along its binds, handlers and case analyses. *)
Ltac stable_step :=
  match goal with
  | |- stable (bind _ _) => apply stable_bind; [|intros ?]
  | |- stable (catch _ _) => apply stable_catch; [|intros ?]
  | |- stable (for_each _ _) => apply stable_for_each; intros ?
  | |- stable (fun pg => match _ with Some _ => _ | None => _ end) =>
      apply stable_cached
  | |- stable (match ?x with _ => _ end) => destruct x
  | |- stable (if ?b then _ else _) => destruct b
  | |- stable _ => solve [auto with stable]
  end.

Ltac stable_tac := repeat stable_step.

Section StableMethods.

Variable py_float : string -> option spec_float.
Variable py_repr : pyval -> string.
Variable schema : string -> table_schema.

Lemma stable_execute_values (oc : on_conflict) (t : string) (rows : list row) :
  stable (execute_values schema oc t rows).
Proof. unfold execute_values. stable_tac. Qed.

Lemma stable_get_single_value (t : string) (p : row -> bool) :
  stable (_get_single_value t p).
Proof. unfold _get_single_value. stable_tac. Qed.

#[local] Hint Resolve stable_execute_values stable_get_single_value : stable.

Lemma stable_get_or_create_named (t counter name : string) :
  stable (get_or_create_named schema t counter name).
Proof. unfold get_or_create_named. stable_tac. Qed.

Lemma stable_get_role_id (role_name : option string) :
  stable (get_role_id role_name).
Proof. unfold get_role_id. stable_tac. Qed.

Lemma stable_upsert_person (person : pyval) :
  stable (upsert_person py_repr schema person).
Proof. unfold upsert_person. stable_tac. Qed.

Lemma stable_upsert_distributor (name release_name : option string) :
  stable (upsert_distributor schema name release_name).
Proof. unfold upsert_distributor. stable_tac. Qed.

Lemma stable_insert_movie_core (movie : pydict) :
  stable (insert_movie_core py_float py_repr schema movie).
Proof. unfold insert_movie_core. stable_tac. Qed.

#[local] Hint Resolve stable_get_or_create_named stable_get_role_id
  stable_upsert_person stable_upsert_distributor stable_insert_movie_core
  : stable.

Lemma stable_resolve_pairs (resolve : string -> M sqlval) (movie_id : sqlval)
    (names : list string) :
  (forall n, stable (resolve n)) ->
  stable (resolve_pairs resolve movie_id names).
Proof.
  intros Hres. induction names as [|n names IH]; cbn [resolve_pairs].
  - apply stable_ret.
  - destruct (String.eqb n ""); [exact IH|].
    apply stable_bind; [apply Hres|intros id].
    apply stable_bind; [exact IH|intros rest]. apply stable_ret.
Qed.

Lemma stable_link_movie_named (resolve : string -> M sqlval)
    (t counter : string) (movie_id : sqlval) (names : list string) :
  (forall n, stable (resolve n)) ->
  stable (link_movie_named schema resolve t counter movie_id names).
Proof.
  intros Hres. unfold link_movie_named.
  destruct names as [|n names]; [apply stable_ret|].
  apply stable_bind; [apply stable_resolve_pairs, Hres|intros pairs].
  stable_tac.
Qed.

Lemma stable_people_rows (movie_id : sqlval) (persons : list pyval)
    (order_index : Z) (seen_keys : list (list sqlval)) :
  stable (people_rows py_repr schema movie_id order_index seen_keys persons).
Proof.
  revert order_index seen_keys.
  induction persons as [|p persons IH]; intros order_index seen_keys;
    cbn [people_rows].
  - apply stable_ret.
  - apply stable_bind; [auto with stable|intros person_id].
    destruct (negb (sql_truthy person_id)); [apply IH|].
    apply stable_bind; [auto with stable|intros v_prof].
    apply stable_bind; [stable_tac|intros role_id].
    apply stable_bind; [auto with stable|intros v_descr].
    cbv zeta. destruct (seen seen_keys _); [apply IH|].
    apply stable_bind; [apply IH|intros rest]. apply stable_ret.
Qed.

Lemma stable_insert_people_one_by_one (rows : list row) :
  stable (insert_people_one_by_one schema rows).
Proof.
  induction rows as [|r rows IH]; cbn [insert_people_one_by_one].
  - apply stable_ret.
  - apply stable_bind; [stable_tac|intros ok].
    apply stable_bind; [exact IH|intros linked]. apply stable_ret.
Qed.

#[local] Hint Resolve stable_people_rows stable_insert_people_one_by_one
  : stable.

Lemma stable_insert_movie_people (movie_id : sqlval) (persons : list pyval) :
  stable (insert_movie_people py_repr schema movie_id persons).
Proof. unfold insert_movie_people. stable_tac. Qed.

Lemma stable_insert_movie_facts (movie_id : sqlval) (facts : pyval) :
  stable (insert_movie_facts py_repr schema movie_id facts).
Proof. unfold insert_movie_facts. stable_tac. Qed.

Lemma stable_insert_movie_videos (movie_id : sqlval) (movie : pydict) :
  stable (insert_movie_videos py_repr schema movie_id movie).
Proof. unfold insert_movie_videos. stable_tac. Qed.

Lemma stable_link_distributor (movie_id : sqlval) (movie : pydict) :
  stable (link_distributor py_repr schema movie_id movie).
Proof. unfold link_distributor. stable_tac. Qed.

#[local] Hint Resolve stable_insert_movie_people stable_insert_movie_facts
  stable_insert_movie_videos stable_link_distributor : stable.

Lemma stable_movie_children (movie_id : sqlval) (movie : pydict) :
  stable (movie_children py_repr schema movie_id movie).
Proof.
  unfold movie_children, link_movie_countries, link_movie_genres.
  repeat first
    [ apply stable_link_movie_named; intros ?; apply stable_get_or_create_named
    | stable_step ].
Qed.

End StableMethods.

(** *** Rollback of a failing document *)

Lemma exec_release_raise (name : string) (c c' : connection) (e : exn) :
  exec_release name c = (Raise e, c') ->
  conn_savepoints c' = conn_savepoints c
  /\ conn_committed c' = conn_committed c.
Proof.
  unfold exec_release. destruct (conn_failed c).
  - intros H. injection H as _ <-. auto.
  - destruct (find_savepoint name (conn_savepoints c)) as [[T sps]|];
      [discriminate|].
    intros H. injection H as _ <-. auto.
Qed.

Section Isolation.

Variable py_float : string -> option spec_float.
Variable py_repr : pyval -> string.
Variable schema : string -> table_schema.
Variable time_ns : nat -> Z.

(** When the [try] block of a movie document raises, the savepoint of the
    document is still the latest one. *)
Lemma movie_doc_body_raise (name : string) (movie_doc : pydict)
    (c : counters) (pg : PgRepo) (e : exn) (fr1 : frame) :
  conn_failed (conn pg) = false ->
  movie_doc_body py_float py_repr schema name movie_doc (mkFrame c pg)
  = (Raise e, fr1) ->
  conn_savepoints (conn (self fr1))
  = (name, conn_tables (conn pg)) :: conn_savepoints (conn pg)
  /\ conn_committed (conn (self fr1)) = conn_committed (conn pg).
Proof.
  intros Hfailed. unfold movie_doc_body, bind, in_pg, on_conn, exec_savepoint.
  cbn [self locals]. rewrite Hfailed. cbn [self locals].
  set (pg0 := set_conn _ pg).
  assert (Hpg0 : conn_savepoints (conn pg0)
                 = (name, conn_tables (conn pg)) :: conn_savepoints (conn pg)
                 /\ conn_committed (conn pg0) = conn_committed (conn pg)).
  { subst pg0. destruct pg as [[T sq fl sps cm] ca pc st]. cbn. auto. }
  destruct Hpg0 as [Hsp Hcm]. clearbody pg0.
  destruct (insert_movie_core py_float py_repr schema movie_doc pg0)
    as [[movie_id|e1] pg1] eqn:Hcore;
    destruct (stable_insert_movie_core _ _ _ _ _ _ _ Hcore) as [Hsp1 Hcm1].
  2:{ intros H; inversion H; subst; cbn.
      split; [rewrite Hsp1; exact Hsp|rewrite Hcm1; exact Hcm]. }
  destruct (negb (sql_truthy movie_id)).
  - unfold count_skipped. cbn [self locals].
    destruct (exec_release name (conn pg1)) as [[[]|e2] c2] eqn:Hrel;
      [discriminate|].
    apply exec_release_raise in Hrel as [Hsp2 Hcm2].
    intros H; inversion H; subst; cbn.
    split; [rewrite Hsp2, Hsp1; exact Hsp|rewrite Hcm2, Hcm1; exact Hcm].
  - cbn [self locals].
    destruct (movie_children py_repr schema movie_id movie_doc pg1)
      as [[[]|e2] pg2] eqn:Hchildren;
      destruct (stable_movie_children _ _ _ _ _ _ _ Hchildren) as [Hsp2 Hcm2].
    2:{ intros H; inversion H; subst; cbn.
        split; [rewrite Hsp2, Hsp1; exact Hsp|rewrite Hcm2, Hcm1; exact Hcm]. }
    unfold count_inserted. cbn [self locals].
    destruct (exec_release name (conn pg2)) as [[[]|e3] c3] eqn:Hrel;
      [discriminate|].
    apply exec_release_raise in Hrel as [Hsp3 Hcm3].
    intros H; inversion H; subst; cbn.
    split; [rewrite Hsp3, Hsp2, Hsp1; exact Hsp
           |rewrite Hcm3, Hcm2, Hcm1; exact Hcm].
Qed.

(** The part of C1 that holds: when the write sequence of a movie document
    raises at any step, the iteration returns normally, adds one to
    [skipped], and the tables, the savepoints and the committed state are
    those before the document, so the rows of the earlier documents stay.
    The caches and the statistics are those at the exception. *)
Theorem failing_document_is_rolled_back (i : nat) (movie_doc : pydict)
    (c : counters) (pg : PgRepo) (e : exn) (fr1 : frame) :
  conn_failed (conn pg) = false ->
  movie_doc_body py_float py_repr schema (sp_name time_ns "sp_movie_" i)
    movie_doc (mkFrame c pg) = (Raise e, fr1) ->
  exists fr2,
    process_movie_doc py_float py_repr schema time_ns i movie_doc
      (mkFrame c pg) = (Ok tt, fr2)
    /\ conn_tables (conn (self fr2)) = conn_tables (conn pg)
    /\ conn_failed (conn (self fr2)) = false
    /\ conn_savepoints (conn (self fr2)) = conn_savepoints (conn pg)
    /\ conn_committed (conn (self fr2)) = conn_committed (conn pg)
    /\ locals fr2
       = mkCounters (inserted (locals fr1)) (skipped (locals fr1) + 1)
    /\ _cache (self fr2) = _cache (self fr1)
    /\ _person_cache (self fr2) = _person_cache (self fr1)
    /\ stats (self fr2) = stats (self fr1).
Proof.
  intros Hfailed Hbody.
  destruct (movie_doc_body_raise _ _ _ _ _ _ Hfailed Hbody) as [Hsp Hcm].
  unfold process_movie_doc, catch. rewrite Hbody.
  unfold bind, count_skipped, rollback_and_release, catch, bind, in_pg,
    on_conn, exec_rollback_to.
  cbn [self locals]. rewrite Hsp. cbn [find_savepoint].
  rewrite String.eqb_refl. cbn [self locals conn set_conn].
  unfold exec_release. cbn. rewrite String.eqb_refl. cbn.
  eexists. split; [reflexivity|]. cbn. rewrite Hcm. repeat split.
Qed.

End Isolation.

Section PeopleBatch.

Variable py_repr : pyval -> string.
Variable schema : string -> table_schema.
Variable time_ns : nat -> Z.

(** [upsert_person] writes to the caches and the statistics only once its
    statements have succeeded, and leaves a transaction that was not failed
    in that state when it returns. *)
Lemma upsert_person_outcome (person : pyval) (pg pg' : PgRepo)
    (r : res sqlval) :
  upsert_person py_repr schema person pg = (r, pg') ->
  match r with
  | Raise _ =>
      _cache pg' = _cache pg /\ _person_cache pg' = _person_cache pg
      /\ stats pg' = stats pg
  | Ok _ => conn_failed (conn pg) = false -> conn_failed (conn pg') = false
  end.
Proof.
  unfold upsert_person, bind, lift.
  destruct (person_fields_of py_repr person) as [[f|]|e].
  3:{ intros H. injection H as <- <-. auto. }
  2:{ intros H. injection H as <- <-. auto. }
  destruct (_person_cache pg !! (pf_name f, pf_en_name f)) as [cached|].
  { intros H. injection H as <- <-. auto. }
  unfold on_conn.
  destruct (exec_select_one "people" _ (conn pg)) as [[found|e] c1] eqn:Hsel.
  2:{ intros H. injection H as <- <-. destruct pg; cbn. auto. }
  apply exec_select_one_ok in Hsel as (-> & _ & _).
  rewrite set_conn_same.
  destruct found as [found|].
  - destruct (exec_update "people" _ _ (conn pg)) as [[[]|e] c1] eqn:Hupd.
    2:{ intros H. injection H as <- <-. destruct pg; cbn. auto. }
    apply exec_update_ok in Hupd as (-> & Hf).
    unfold ret. rewrite bump_conn. intros H. injection H as <- <-.
    cbn. auto.
  - destruct (exec_insert_serial _ _ _ _ (conn pg)) as [[new|e] c1] eqn:Hins.
    2:{ intros H. injection H as <- <-. destruct pg; cbn. auto. }
    apply exec_insert_serial_ok in Hins as (_ & _ & _ & Hf & _).
    unfold ret. rewrite bump_conn. intros H. injection H as <- <-.
    cbn. auto.
Qed.

(** On the people path a failing document leaves no trace: the tables are
    those before the document and so are the caches and the statistics; the
    document is counted as skipped.  The isolation of [process_people_batch]
    needs no fallback: each document is written under its own savepoint. *)
Theorem failing_person_document_leaves_no_trace (i : nat)
    (person_doc : pydict) (c : counters) (pg : PgRepo) (e : exn)
    (fr1 : frame) :
  conn_failed (conn pg) = false ->
  person_doc_body py_repr schema (sp_name time_ns "sp_person_" i) person_doc
    (mkFrame c pg) = (Raise e, fr1) ->
  exists fr2,
    process_person_doc py_repr schema time_ns i person_doc (mkFrame c pg)
    = (Ok tt, fr2)
    /\ conn_tables (conn (self fr2)) = conn_tables (conn pg)
    /\ conn_failed (conn (self fr2)) = false
    /\ conn_savepoints (conn (self fr2)) = conn_savepoints (conn pg)
    /\ conn_committed (conn (self fr2)) = conn_committed (conn pg)
    /\ locals fr2 = mkCounters (inserted c) (skipped c + 1)
    /\ _cache (self fr2) = _cache pg
    /\ _person_cache (self fr2) = _person_cache pg
    /\ stats (self fr2) = stats pg.
Proof.
  intros Hfailed Hbody.
  assert (Hfr1 : conn_savepoints (conn (self fr1))
                 = (sp_name time_ns "sp_person_" i, conn_tables (conn pg))
                   :: conn_savepoints (conn pg)
                 /\ conn_committed (conn (self fr1)) = conn_committed (conn pg)
                 /\ locals fr1 = c
                 /\ _cache (self fr1) = _cache pg
                 /\ _person_cache (self fr1) = _person_cache pg
                 /\ stats (self fr1) = stats pg).
  { revert Hbody.
    unfold person_doc_body, bind, in_pg, on_conn, exec_savepoint.
    cbn [self locals]. rewrite Hfailed. cbn [self locals].
    set (name := sp_name time_ns "sp_person_" i).
    set (pg0 := set_conn _ pg).
    assert (Hpg0 : conn_savepoints (conn pg0)
                   = (name, conn_tables (conn pg)) :: conn_savepoints (conn pg)
                   /\ conn_committed (conn pg0) = conn_committed (conn pg)
                   /\ conn_failed (conn pg0) = false
                   /\ _cache pg0 = _cache pg
                   /\ _person_cache pg0 = _person_cache pg
                   /\ stats pg0 = stats pg).
    { subst pg0. destruct pg as [[T sq fl sps cm] ca pc st]. cbn in *.
      repeat split; auto. }
    destruct Hpg0 as (Hsp & Hcm & Hf0 & Hca & Hpc & Hst). clearbody pg0.
    destruct (upsert_person py_repr schema (VDict person_doc) pg0)
      as [[pid|e1] pg1] eqn:Hup;
      destruct (stable_upsert_person _ _ _ _ _ _ Hup) as [Hsp1 Hcm1];
      pose proof (upsert_person_outcome _ _ _ _ Hup) as Hout.
    - cbn in Hout. specialize (Hout Hf0).
      assert (Hrel : exec_release name (conn pg1)
                     = (Ok tt, with_savepoints (conn_savepoints (conn pg))
                                 (conn pg1))).
      { unfold exec_release. rewrite Hout, Hsp1, Hsp. cbn [find_savepoint].
        rewrite String.eqb_refl. reflexivity. }
      destruct (sql_truthy pid); unfold count_inserted, ret;
        cbn [self locals]; rewrite Hrel; discriminate.
    - destruct Hout as (Hca1 & Hpc1 & Hst1).
      intros H; inversion H; subst; cbn.
      repeat split.
      + rewrite Hsp1. exact Hsp.
      + rewrite Hcm1. exact Hcm.
      + rewrite Hca1. exact Hca.
      + rewrite Hpc1. exact Hpc.
      + rewrite Hst1. exact Hst. }
  destruct Hfr1 as (Hsp & Hcm & Hloc & Hca & Hpc & Hst).
  unfold process_person_doc, catch. rewrite Hbody.
  unfold bind, count_skipped, rollback_and_release, catch, bind, in_pg,
    on_conn, exec_rollback_to.
  cbn [self locals]. rewrite Hsp. cbn [find_savepoint].
  rewrite String.eqb_refl. cbn [self locals conn set_conn].
  unfold exec_release. cbn. rewrite String.eqb_refl. cbn.
  eexists. split; [reflexivity|]. cbn. rewrite Hcm, Hloc, Hca, Hpc, Hst.
  repeat split.
Qed.

End PeopleBatch.

(** C1. Per-document failure isolation at a batch of three documents: the
    second raises at its facts (a fact that is a string has no [get]) after
    it has created the country X; its rows are rolled back, but the identifier
    of X stays in the cache of the run, so the third document, which is
    correctly formed and is loaded when it is processed alone, links itself
    to a country row that no longer exists, fails on the foreign key and is
    skipped as well.  Only the first document is committed.  Were the
    foreign keys not enforced, the third document would be committed with a
    link to the missing country row. *)
Theorem stale_country_cache_drops_a_sound_document :
  fst (movie_run [sound_doc_after]) = Ok 1%Z
  /\ map (col 1) (committed_rows "movies" (snd (movie_run [sound_doc_after])))
     = [SText "B"]
  /\ committed_rows "countries" (snd (movie_run [sound_doc_after]))
     = [[SInt 1; SText "X"]]
  /\ committed_rows "movie_countries" (snd (movie_run [sound_doc_after]))
     = [[SInt 1; SInt 1]]
  /\ fst (movie_run [sound_doc_before; broken_facts_doc; sound_doc_after])
     = Ok 1%Z
  /\ movie_run_counters [sound_doc_before; broken_facts_doc; sound_doc_after]
     = mkCounters 1 2
  /\ map (col 1)
       (committed_rows "movies"
          (snd (movie_run
                  [sound_doc_before; broken_facts_doc; sound_doc_after])))
     = [SText "First"]
  /\ committed_rows "countries"
       (snd (movie_run [sound_doc_before; broken_facts_doc; sound_doc_after]))
     = [[SInt 1; SText "Y"]]
  /\ committed_rows "movie_countries"
       (snd (movie_run [sound_doc_before; broken_facts_doc; sound_doc_after]))
     = [[SInt 1; SInt 1]]
  /\ cache_lookup "countries" "X"
       (snd (movie_run [sound_doc_before; broken_facts_doc; sound_doc_after]))
     = Some (SInt 2)
  /\ committed_rows "countries"
       (snd (movie_run_without_fks
               [sound_doc_before; broken_facts_doc; sound_doc_after]))
     = [[SInt 1; SText "Y"]]
  /\ committed_rows "movie_countries"
       (snd (movie_run_without_fks
               [sound_doc_before; broken_facts_doc; sound_doc_after]))
     = [[SInt 1; SInt 1]; [SInt 3; SInt 2]].
Proof. repeat split; vm_compute; reflexivity. Qed.

(** C7. The bulk fallback of [insert_movie_people] at a batch of two movie
    documents: the first is rolled back after it created the person P, whose
    identifier stays in the person cache; the second lists P and Q.  Its bulk
    insert of two link rows fails on the foreign key of the row of P; the
    rows are then retried one at a time inside the same failed transaction,
    so the retry of the row of Q, which violates nothing, raises as well: no
    link row is written, [insert_movie_people] returns, and the document is
    rolled back when its savepoint is released, after it was counted as
    inserted.  Processed alone, the document stores both link rows. *)
Theorem row_by_row_retry_writes_no_row :
  rows_of "people" (snd people_step)
  = [[SInt 2; SText "Q"; SNull; SNull; SNull; SNull; SNull]]
  /\ rows_of "movies" (snd people_step) <> []
  /\ fst people_step = Ok tt
  /\ rows_of "movie_people" (snd people_step) = []
  /\ conn_failed (conn (snd people_step)) = true
  /\ stat "movie_people_linked" (snd people_step)
     = stat "movie_people_linked" pg_after_broken_cast
  /\ fst (movie_run [broken_facts_cast_doc; two_person_doc]) = Ok 1%Z
  /\ movie_run_counters [broken_facts_cast_doc; two_person_doc]
     = mkCounters 1 2
  /\ committed_rows "movies"
       (snd (movie_run [broken_facts_cast_doc; two_person_doc])) = []
  /\ committed_rows "movie_people"
       (snd (movie_run [broken_facts_cast_doc; two_person_doc])) = []
  /\ committed_rows "movie_people" (snd (movie_run [two_person_doc]))
     = [[SInt 1; SInt 1; SNull; SNull; SInt 1];
        [SInt 1; SInt 2; SNull; SNull; SInt 2]].
Proof. repeat split; vm_compute; try reflexivity; discriminate. Qed.

(** *** The retry inside a failed transaction *)

Section RetryFacts.

Variable py_repr : pyval -> string.
Variable schema : string -> table_schema.

(** In the failed state a statement raises and changes nothing. *)
Lemma statement_in_failed_transaction {A} (body : tables -> res (A * tables))
    (c : connection) :
  conn_failed c = true ->
  statement body c = (Raise (DbError InFailedSqlTransaction), c).
Proof. intros Hf. unfold statement. rewrite Hf. reflexivity. Qed.

(** The per-row retry of [insert_movie_people] in the failed state: every
    row is refused, none is written. *)
Lemma retry_in_failed_transaction (rows : list row) (pg : PgRepo) :
  conn_failed (conn pg) = true ->
  insert_people_one_by_one schema rows pg = (Ok 0%Z, pg).
Proof.
  intros Hf. induction rows as [|r rows IH]; [reflexivity|].
  cbn [insert_people_one_by_one]. unfold bind, catch, on_conn, exec_insert.
  rewrite (statement_in_failed_transaction _ _ Hf), set_conn_same.
  unfold ret at 1. rewrite IH. reflexivity.
Qed.

Lemma for_each_raise_failed (t : string) (oc : on_conflict)
    (ps : list (list row)) (pg pg' : PgRepo) (e : exn) :
  for_each (fun page => on_conn (exec_insert (schema t) oc t page)) ps pg
  = (Raise e, pg') ->
  conn_failed (conn pg') = true.
Proof.
  revert pg. induction ps as [|page ps IH]; intros pg; cbn [for_each].
  { discriminate. }
  unfold bind, on_conn.
  destruct (exec_insert (schema t) oc t page (conn pg)) as [[[]|e'] c1] eqn:Hins.
  - apply IH.
  - intros H. injection H as _ <-. cbn.
    apply statement_raise in Hins. tauto.
Qed.

(** A bulk insert that raises leaves the transaction in the failed state. *)
Lemma execute_values_raise_failed (t : string) (oc : on_conflict)
    (rows : list row) (pg pg' : PgRepo) (e : exn) :
  execute_values schema oc t rows pg = (Raise e, pg') ->
  conn_failed (conn pg') = true.
Proof. apply for_each_raise_failed. Qed.

(** Whenever the bulk insert of the link rows raises, [insert_movie_people]
    returns normally and the retry has added no row and no link to the
    counter: the repository is the one the failed bulk insert left. *)
Lemma bulk_failure_retry_adds_nothing (movie_id : sqlval)
    (persons : list pyval) (rows : list row) (pg pg1 pg2 : PgRepo) (e : exn) :
  persons <> [] -> rows <> [] ->
  people_rows py_repr schema movie_id 0 [] persons pg = (Ok rows, pg1) ->
  execute_values schema DoNothing "movie_people" rows pg1 = (Raise e, pg2) ->
  exists pg3,
    insert_movie_people py_repr schema movie_id persons pg = (Ok tt, pg3)
    /\ conn pg3 = conn pg2
    /\ conn_failed (conn pg3) = true
    /\ stat "movie_people_linked" pg3 = stat "movie_people_linked" pg2.
Proof.
  intros Hpersons Hrows Hbuild Hbulk.
  unfold insert_movie_people.
  destruct persons as [|p persons]; [contradiction|].
  unfold bind at 1. rewrite Hbuild.
  destruct rows as [|r rows]; [contradiction|].
  unfold catch, bind at 1. rewrite Hbulk.
  pose proof (execute_values_raise_failed _ _ _ _ _ _ Hbulk) as Hfailed.
  unfold bind. rewrite (retry_in_failed_transaction _ _ Hfailed).
  rewrite bump_conn. eexists. split; [reflexivity|].
  cbn. split; [reflexivity|]. split; [exact Hfailed|].
  unfold stat. cbn. rewrite lookup_insert_eq. cbn. lia.
Qed.

End RetryFacts.

(** ** Movie-people rows *)

Lemma seen_spec (seen_keys : list (list sqlval)) (key : list sqlval) :
  seen seen_keys key = true <-> In key seen_keys.
Proof.
  unfold seen. rewrite existsb_exists. split.
  - intros (k & Hin & Hk). apply key_same_eq in Hk. subst. exact Hin.
  - intros Hin. exists key. split; [exact Hin|]. apply key_same_eq.
    reflexivity.
Qed.

(** A reference gives a row exactly when it resolved to a key that no earlier
    reference (and no key seen before) had; the order of the row is the
    position of the reference. *)
Lemma rows_from_spec (movie_id : sqlval) (refs : list (option (list sqlval)))
    (order_index : Z) (seen_keys : list (list sqlval)) (r : row) :
  In r (rows_from movie_id order_index seen_keys refs)
  <-> exists (i : nat) (key : list sqlval),
      refs !! i = Some (Some key)
      /\ r = link_row movie_id key (order_index + Z.of_nat i + 1)
      /\ ~ In key seen_keys
      /\ forall j, (j < i)%nat -> refs !! j <> Some (Some key).
Proof.
  revert order_index seen_keys.
  induction refs as [|ref refs IH]; intros order_index seen_keys.
  { simpl. split; [tauto|]. intros (i & key & Hi & _). discriminate. }
  assert (Hshift : forall i : nat,
             (order_index + 1 + Z.of_nat i + 1
              = order_index + Z.of_nat (S i) + 1)%Z) by (intros; lia).
  destruct ref as [key0|]; cbn [rows_from].
  - destruct (seen seen_keys key0) eqn:Hseen; cbn [In].
    + apply seen_spec in Hseen. rewrite IH. split.
      * intros (i & key & Hi & -> & Hnot & Hfirst).
        exists (S i), key. rewrite <- Hshift. repeat split; auto.
        intros [|j] Hj; simpl; [|apply Hfirst; lia].
        intros H. injection H as ->. contradiction.
      * intros (i & key & Hi & -> & Hnot & Hfirst).
        destruct i as [|i]; simpl in Hi.
        { injection Hi as ->. contradiction. }
        exists i, key. rewrite Hshift. repeat split; auto.
        intros j Hj. apply (Hfirst (S j)). lia.
    + assert (Hnew : ~ In key0 seen_keys).
      { intros Hin. apply seen_spec in Hin. congruence. }
      rewrite IH. split.
      * intros [<- | (i & key & Hi & -> & Hnot & Hfirst)].
        { exists 0%nat, key0. replace (order_index + Z.of_nat 0 + 1)%Z
            with (order_index + 1)%Z by lia.
          repeat split; auto. intros j Hj. lia. }
        exists (S i), key. rewrite <- Hshift. repeat split; auto.
        { intros Hin. apply Hnot. right. exact Hin. }
        intros [|j] Hj; simpl; [|apply Hfirst; lia].
        intros H. injection H as ->. apply Hnot. left. reflexivity.
      * intros (i & key & Hi & -> & Hnot & Hfirst).
        destruct i as [|i]; simpl in Hi.
        { injection Hi as ->. left. f_equal. lia. }
        right. exists i, key. rewrite Hshift. repeat split; auto.
        { intros [-> | Hin]; [|contradiction].
          apply (Hfirst 0%nat); [lia|reflexivity]. }
        intros j Hj. apply (Hfirst (S j)). lia.
  - rewrite IH. split.
    + intros (i & key & Hi & -> & Hnot & Hfirst).
      exists (S i), key. rewrite <- Hshift. repeat split; auto.
      intros [|j] Hj; simpl; [discriminate|apply Hfirst; lia].
    + intros (i & key & Hi & -> & Hnot & Hfirst).
      destruct i as [|i]; simpl in Hi; [discriminate|].
      exists i, key. rewrite Hshift. repeat split; auto.
      intros j Hj. apply (Hfirst (S j)). lia.
Qed.

(** *** What the [INSERT] of the link rows adds *)

Lemma insert_row_do_nothing (sch : table_schema) (t : string)
    (T T' : tables) (touched touched' : list row) (r : row) :
  insert_row sch DoNothing t (T, touched) r = Ok (T', touched') ->
  exists added,
    get_table T' t = get_table T t ++ added /\ sublist added [r].
Proof.
  cbn [insert_row].
  destruct (conflicts _ _ _).
  - intros H. injection H as <- _. exists []. rewrite app_nil_r.
    split; [reflexivity|apply sublist_nil_l].
  - destruct (fks_ok _ _ _); [|discriminate].
    intros H. injection H as <- _. exists [r].
    rewrite get_table_insert_eq. split; reflexivity.
Qed.

Lemma insert_rows_do_nothing (sch : table_schema) (t : string)
    (rows : list row) (T T' : tables) (touched touched' : list row) :
  insert_rows sch DoNothing t (T, touched) rows = Ok (T', touched') ->
  exists added,
    get_table T' t = get_table T t ++ added /\ sublist added rows.
Proof.
  revert T touched. induction rows as [|r rows IH]; intros T touched;
    cbn [insert_rows].
  { intros H. injection H as <- _. exists []. rewrite app_nil_r.
    split; reflexivity. }
  destruct (insert_row sch DoNothing t (T, touched) r) as [[T1 touched1]|e]
    eqn:Hrow; [|discriminate].
  intros Hrest.
  destruct (insert_row_do_nothing _ _ _ _ _ _ _ Hrow) as (a1 & HT1 & Hs1).
  destruct (IH _ _ Hrest) as (a2 & HT2 & Hs2).
  exists (a1 ++ a2). rewrite HT2, HT1, app_assoc. split; [reflexivity|].
  change (r :: rows) with ([r] ++ rows). apply sublist_app; assumption.
Qed.

(** One statement of the bulk insert, whatever its outcome. *)
Lemma exec_insert_do_nothing_adds (sch : table_schema) (t : string)
    (rows : list row) (c c' : connection) (r : res unit) :
  exec_insert sch DoNothing t rows c = (r, c') ->
  exists added,
    get_table (conn_tables c') t = get_table (conn_tables c) t ++ added
    /\ sublist added rows.
Proof.
  destruct r as [[]|e]; intros Hrun.
  - apply statement_ok in Hrun as (_ & Hbody & _).
    destruct (insert_rows sch DoNothing t (conn_tables c, []) rows)
      as [[T' touched']|e] eqn:Hrows; [|discriminate].
    injection Hbody as <-.
    exact (insert_rows_do_nothing _ _ _ _ _ _ _ Hrows).
  - apply statement_raise in Hrun as (-> & _).
    exists []. rewrite app_nil_r. split; [reflexivity|apply sublist_nil_l].
Qed.

Lemma pages_from_concat {A} (fuel : nat) (l : list A) :
  (length l <= fuel)%nat -> concat (pages_from fuel l) = l.
Proof.
  revert l. induction fuel as [|fuel IH]; intros l Hlen.
  { destruct l; [reflexivity|simpl in Hlen; lia]. }
  destruct l as [|x l]; [reflexivity|].
  cbn [pages_from concat]. rewrite IH.
  - apply take_drop.
  - rewrite length_drop. simpl in Hlen |- *. lia.
Qed.

Lemma pages_concat {A} (l : list A) : concat (pages l) = l.
Proof. apply pages_from_concat. lia. Qed.

Section PeopleRows.

Variable py_repr : pyval -> string.
Variable schema : string -> table_schema.

(** The loop of [insert_movie_people] resolves the references one after the
    other and keeps the rows [rows_from] describes. *)
Lemma people_rows_resolved (movie_id : sqlval) (persons : list pyval)
    (order_index : Z) (seen_keys : list (list sqlval)) (pg : PgRepo) :
  people_rows py_repr schema movie_id order_index seen_keys persons pg
  = (res_map (rows_from movie_id order_index seen_keys)
       (fst (resolve_refs py_repr schema persons pg)),
     snd (resolve_refs py_repr schema persons pg)).
Proof.
  revert order_index seen_keys pg.
  induction persons as [|p persons IH]; intros order_index seen_keys pg.
  { reflexivity. }
  cbn [people_rows resolve_refs]. unfold resolve_ref, bind, lift, ret.
  cbv zeta.
  destruct (upsert_person py_repr schema p pg) as [[person_id|e] pg1];
    [|reflexivity].
  destruct (sql_truthy person_id); cbn [negb].
  2:{ rewrite IH. destruct (resolve_refs py_repr schema persons pg1) as [[refs|e] pg2];
      reflexivity. }
  destruct (py_get p "enProfession") as [v_prof|e]; [|reflexivity].
  destruct (str_truthy _);
    [destruct (get_role_id _ pg1) as [[role_id|e] pg2]; [|reflexivity]
    |cbv beta iota];
    (destruct (py_get p "description") as [v_descr|e]; [|reflexivity]);
    unfold dedup_key_of, col; cbn [nth];
    (destruct (seen seen_keys _) eqn:Hseen;
     rewrite IH;
     match goal with
     | |- context [resolve_refs py_repr schema persons ?s] =>
         destruct (resolve_refs py_repr schema persons s) as [[refs|e'] pg3]
     end;
     cbn [res_map rows_from fst snd]; rewrite ?Hseen; reflexivity).
Qed.

Lemma resolve_refs_length (persons : list pyval) (pg pg' : PgRepo)
    (refs : list (option (list sqlval))) :
  resolve_refs py_repr schema persons pg = (Ok refs, pg') -> length refs = length persons.
Proof.
  revert pg pg' refs.
  induction persons as [|p persons IH]; intros pg pg' refs;
    cbn [resolve_refs].
  { intros H. injection H as <- _. reflexivity. }
  unfold bind, ret.
  destruct (resolve_ref py_repr schema p pg) as [[ref|e] pg1]; [|discriminate].
  destruct (resolve_refs py_repr schema persons pg1) as [[refs'|e] pg2] eqn:Hrest;
    [|discriminate].
  intros H. injection H as <- _. cbn. f_equal. exact (IH _ _ _ Hrest).
Qed.

Lemma for_each_page_adds (t : string) (ps : list (list row))
    (pg pg' : PgRepo) (r : res unit) :
  for_each (fun page => on_conn (exec_insert (schema t) DoNothing t page)) ps pg
  = (r, pg') ->
  exists added,
    rows_of t pg' = rows_of t pg ++ added /\ sublist added (concat ps).
Proof.
  revert pg. induction ps as [|page ps IH]; intros pg; cbn [for_each].
  { intros H. injection H as _ <-. exists []. rewrite app_nil_r.
    split; reflexivity. }
  unfold bind, on_conn.
  destruct (exec_insert (schema t) DoNothing t page (conn pg)) as [r1 c1]
    eqn:Hpage.
  destruct (exec_insert_do_nothing_adds _ _ _ _ _ _ Hpage) as (a1 & HT1 & Hs1).
  destruct r1 as [[]|e].
  - intros Hrest. destruct (IH _ Hrest) as (a2 & HT2 & Hs2).
    exists (a1 ++ a2). rewrite HT2. unfold rows_of in *. cbn [conn set_conn].
    rewrite HT1, app_assoc. split; [reflexivity|].
    cbn [concat]. apply sublist_app; assumption.
  - intros H. injection H as _ <-. exists a1. unfold rows_of. cbn [conn set_conn].
    split; [exact HT1|]. cbn [concat].
    apply sublist_inserts_r. exact Hs1.
Qed.

Lemma execute_values_adds (t : string) (rows : list row) (pg pg' : PgRepo)
    (r : res unit) :
  execute_values schema DoNothing t rows pg = (r, pg') ->
  exists added, rows_of t pg' = rows_of t pg ++ added /\ sublist added rows.
Proof.
  intros Hrun. unfold execute_values in Hrun.
  destruct (for_each_page_adds _ _ _ _ _ Hrun) as (added & HT & Hs).
  rewrite pages_concat in Hs. eauto.
Qed.

Lemma insert_people_one_by_one_adds (rows : list row) (pg : PgRepo) :
  exists added,
    rows_of "movie_people" (snd (insert_people_one_by_one schema rows pg))
    = rows_of "movie_people" pg ++ added
    /\ sublist added rows.
Proof.
  revert pg. induction rows as [|row rows IH]; intros pg;
    cbn [insert_people_one_by_one].
  { exists []. rewrite app_nil_r. split; reflexivity. }
  unfold bind, catch, on_conn, ret.
  destruct (exec_insert (schema "movie_people") DoNothing "movie_people"
              [row] (conn pg)) as [r1 c1] eqn:Hone.
  destruct (exec_insert_do_nothing_adds _ _ _ _ _ _ Hone) as (a1 & HT1 & Hs1).
  destruct (IH (set_conn c1 pg)) as (a2 & HT2 & Hs2).
  exists (a1 ++ a2).
  split; [|change (row :: rows) with ([row] ++ rows);
           apply sublist_app; assumption].
  destruct r1 as [[]|e];
    destruct (insert_people_one_by_one schema rows (set_conn c1 pg))
      as [[linked|e'] pg2];
    cbn [snd] in *; rewrite HT2; unfold rows_of; cbn [conn set_conn];
    rewrite HT1, app_assoc; reflexivity.
Qed.

(** The table of the links after [insert_movie_people], whatever its
    outcome: the rows it had when the rows to insert were built, followed by
    some of these rows, in their order. *)
Lemma insert_movie_people_adds (movie_id : sqlval) (persons : list pyval)
    (rows : list row) (pg pg1 : PgRepo) :
  people_rows py_repr schema movie_id 0 [] persons pg = (Ok rows, pg1) ->
  exists added,
    rows_of "movie_people"
      (snd (insert_movie_people py_repr schema movie_id persons pg))
    = rows_of "movie_people" pg1 ++ added
    /\ sublist added rows.
Proof.
  intros Hbuild. unfold insert_movie_people.
  destruct persons as [|p persons].
  { cbn in Hbuild. injection Hbuild as <- <-. exists [].
    rewrite app_nil_r. split; reflexivity. }
  unfold bind at 1. rewrite Hbuild.
  destruct rows as [|r rows].
  { exists []. rewrite app_nil_r. split; reflexivity. }
  unfold catch, bind at 1.
  destruct (execute_values schema DoNothing "movie_people" (r :: rows) pg1)
    as [r1 pg2] eqn:Hbulk.
  destruct (execute_values_adds _ _ _ _ _ Hbulk) as (added & HT & Hs).
  destruct r1 as [[]|e].
  - rewrite bump_conn. exists added. split; [exact HT|exact Hs].
  - pose proof (execute_values_raise_failed _ _ _ _ _ _ _ Hbulk) as Hfailed.
    unfold bind. rewrite (retry_in_failed_transaction _ _ _ Hfailed).
    rewrite bump_conn. exists added. split; [exact HT|exact Hs].
Qed.

End PeopleRows.

(** ** Movie-people rows: what the bulk [INSERT] stores *)

Lemma kept_rows_app (uniques : list (list nat)) (tbl : table)
    (a b : list row) :
  kept_rows uniques tbl (a ++ b) = kept_rows uniques (kept_rows uniques tbl a) b.
Proof.
  revert tbl. induction a as [|r a IH]; intros tbl; [reflexivity|].
  cbn [kept_rows app]. apply IH.
Qed.

Lemma conflicts_app_l (uniques : list (list nat)) (tbl more : table) (r : row) :
  conflicts uniques tbl r = true -> conflicts uniques (tbl ++ more) r = true.
Proof.
  unfold conflicts. rewrite !existsb_exists.
  intros (cols & Hin & Hex). exists cols. split; [exact Hin|].
  rewrite existsb_app, Hex. reflexivity.
Qed.

(** The rows stay, in their places, and the table only grows. *)
Lemma kept_rows_extends (uniques : list (list nat)) (rows : list row)
    (tbl : table) :
  exists more, kept_rows uniques tbl rows = tbl ++ more.
Proof.
  revert tbl. induction rows as [|r rows IH]; intros tbl; cbn [kept_rows].
  { exists []. rewrite app_nil_r. reflexivity. }
  destruct (conflicts uniques tbl r); [apply IH|].
  destruct (IH (tbl ++ [r])) as (more & ->).
  exists ([r] ++ more). rewrite app_assoc. reflexivity.
Qed.

(** Every proposed row is stored, or a stored row holds one of its keys. *)
Lemma kept_rows_stored_or_conflicting (uniques : list (list nat))
    (rows : list row) (tbl : table) (r : row) :
  In r rows ->
  In r (kept_rows uniques tbl rows)
  \/ conflicts uniques (kept_rows uniques tbl rows) r = true.
Proof.
  revert tbl. induction rows as [|r0 rows IH]; intros tbl; [intros []|].
  intros [->|Hin]; cbn [kept_rows]; [|apply IH; exact Hin].
  destruct (conflicts uniques tbl r) eqn:Hc.
  - right. destruct (kept_rows_extends uniques rows tbl) as (more & ->).
    apply conflicts_app_l. exact Hc.
  - left. destruct (kept_rows_extends uniques rows (tbl ++ [r])) as (more & ->).
    rewrite !in_app_iff. left. right. left. reflexivity.
Qed.

Lemma insert_rows_do_nothing_kept (sch : table_schema) (t : string)
    (rows : list row) (T T' : tables) (touched touched' : list row) :
  insert_rows sch DoNothing t (T, touched) rows = Ok (T', touched') ->
  get_table T' t = kept_rows (ts_uniques sch) (get_table T t) rows.
Proof.
  revert T touched. induction rows as [|r rows IH]; intros T touched;
    cbn [insert_rows kept_rows].
  { intros H. injection H as <- _. reflexivity. }
  cbn [insert_row].
  destruct (conflicts (ts_uniques sch) (get_table T t) r).
  - apply IH.
  - destruct (fks_ok _ _ _); [|discriminate].
    intros Hrest. rewrite (IH _ _ Hrest), get_table_insert_eq. reflexivity.
Qed.

Lemma exec_insert_do_nothing_kept (sch : table_schema) (t : string)
    (rows : list row) (c c' : connection) :
  exec_insert sch DoNothing t rows c = (Ok tt, c') ->
  get_table (conn_tables c') t
  = kept_rows (ts_uniques sch) (get_table (conn_tables c) t) rows.
Proof.
  intros H. apply statement_ok in H as (_ & Hbody & _).
  destruct (insert_rows sch DoNothing t (conn_tables c, []) rows)
    as [[T' touched']|e] eqn:Hrows; [|discriminate].
  injection Hbody as <-.
  exact (insert_rows_do_nothing_kept _ _ _ _ _ _ _ Hrows).
Qed.

Section PeopleStored.

Variable py_repr : pyval -> string.
Variable schema : string -> table_schema.

Lemma for_each_page_kept (t : string) (ps : list (list row))
    (pg pg' : PgRepo) :
  for_each (fun page => on_conn (exec_insert (schema t) DoNothing t page)) ps pg
  = (Ok tt, pg') ->
  rows_of t pg'
  = kept_rows (ts_uniques (schema t)) (rows_of t pg) (concat ps).
Proof.
  revert pg. induction ps as [|page ps IH]; intros pg; cbn [for_each concat].
  { intros H. injection H as <-. reflexivity. }
  unfold bind, on_conn.
  destruct (exec_insert (schema t) DoNothing t page (conn pg)) as [[[]|e] c1]
    eqn:Hpage; [|discriminate].
  intros Hrest. rewrite (IH _ Hrest), kept_rows_app.
  unfold rows_of. cbn [conn set_conn].
  rewrite (exec_insert_do_nothing_kept _ _ _ _ _ Hpage). reflexivity.
Qed.

Lemma execute_values_kept (t : string) (rows : list row) (pg pg' : PgRepo) :
  execute_values schema DoNothing t rows pg = (Ok tt, pg') ->
  rows_of t pg' = kept_rows (ts_uniques (schema t)) (rows_of t pg) rows.
Proof.
  intros Hrun. unfold execute_values in Hrun.
  rewrite (for_each_page_kept _ _ _ _ Hrun), pages_concat. reflexivity.
Qed.

(** When the bulk [INSERT] of the link rows returns, [insert_movie_people]
    returns, and the table holds what the statement stored. *)
Lemma insert_movie_people_kept (movie_id : sqlval) (persons : list pyval)
    (rows : list row) (pg pg1 pg2 : PgRepo) :
  people_rows py_repr schema movie_id 0 [] persons pg = (Ok rows, pg1) ->
  execute_values schema DoNothing "movie_people" rows pg1 = (Ok tt, pg2) ->
  fst (insert_movie_people py_repr schema movie_id persons pg) = Ok tt
  /\ rows_of "movie_people"
       (snd (insert_movie_people py_repr schema movie_id persons pg))
     = kept_rows (ts_uniques (schema "movie_people"))
         (rows_of "movie_people" pg1) rows.
Proof.
  intros Hbuild Hbulk. unfold insert_movie_people.
  destruct persons as [|p persons].
  { cbn in Hbuild. injection Hbuild as <- <-. split; reflexivity. }
  assert (Heq : forall (k : list row -> M unit),
             bind (people_rows py_repr schema movie_id 0 [] (p :: persons)) k pg
             = k rows pg1).
  { intros k. unfold bind. rewrite Hbuild. reflexivity. }
  rewrite !Heq. clear Heq.
  destruct rows as [|r rows]; [split; reflexivity|].
  unfold catch, bind. rewrite Hbulk. cbn [fst snd].
  split; [reflexivity|].
  rewrite bump_conn. apply (execute_values_kept _ _ _ _ Hbulk).
Qed.

(** C6. Movie-people ordering and deduplication: the rows
    [insert_movie_people] hands to the [INSERT] are those of the person
    references resolved in document order, one reference per person of the
    list; a reference at position [i] (from 0) gives a row exactly when it
    resolved to a (person id, role id, character text) key that no earlier
    reference resolved to, and that row carries the display order [i + 1]:
    skipped references are counted, and of the references with one key only
    the first gives a row.  The rows the call inserts into [movie_people] are
    some of these rows, in their order, whatever the outcome of the call.
    When the bulk [INSERT] of these rows returns, so does the call, and the
    rows are inserted: the table is the one it was, followed by each of the
    rows in turn that collides with no row stored by then, so that every one
    of the rows is stored, or a stored row holds its unique key. *)
Theorem link_rows_carry_position_and_first_key (movie_id : sqlval) :
  (forall (persons : list pyval) (pg : PgRepo),
      people_rows py_repr schema movie_id 0 [] persons pg
      = (res_map (link_rows movie_id) (fst (resolve_refs py_repr schema persons pg)),
         snd (resolve_refs py_repr schema persons pg)))
  /\ (forall (persons : list pyval) (pg pg' : PgRepo) refs,
         resolve_refs py_repr schema persons pg = (Ok refs, pg') ->
         length refs = length persons)
  /\ (forall (refs : list (option (list sqlval))) (r : row),
         In r (link_rows movie_id refs)
         <-> exists (i : nat) (key : list sqlval),
             refs !! i = Some (Some key)
             /\ r = link_row movie_id key (Z.of_nat i + 1)
             /\ forall j, (j < i)%nat -> refs !! j <> Some (Some key))
  /\ (forall (persons : list pyval) (rows : list row) (pg pg1 : PgRepo),
         people_rows py_repr schema movie_id 0 [] persons pg = (Ok rows, pg1) ->
         exists added,
           rows_of "movie_people"
             (snd (insert_movie_people py_repr schema movie_id persons pg))
           = rows_of "movie_people" pg1 ++ added
           /\ sublist added rows)
  /\ (forall (persons : list pyval) (rows : list row) (pg pg1 pg2 : PgRepo),
         people_rows py_repr schema movie_id 0 [] persons pg = (Ok rows, pg1) ->
         execute_values schema DoNothing "movie_people" rows pg1
         = (Ok tt, pg2) ->
         let stored :=
           rows_of "movie_people"
             (snd (insert_movie_people py_repr schema movie_id persons pg)) in
         fst (insert_movie_people py_repr schema movie_id persons pg) = Ok tt
         /\ stored
            = kept_rows (ts_uniques (schema "movie_people"))
                (rows_of "movie_people" pg1) rows
         /\ forall r,
             In r rows ->
             In r stored
             \/ conflicts (ts_uniques (schema "movie_people")) stored r = true).
Proof.
  split; [|split; [|split; [|split]]].
  - intros persons pg. apply people_rows_resolved.
  - intros persons pg pg' refs. apply resolve_refs_length.
  - intros refs r. unfold link_rows. rewrite rows_from_spec. split.
    + intros (i & key & Hi & -> & _ & Hfirst). exists i, key. auto.
    + intros (i & key & Hi & -> & Hfirst). exists i, key.
      repeat split; auto.
  - intros persons rows pg pg1. apply insert_movie_people_adds.
  - intros persons rows pg pg1 pg2 Hbuild Hbulk. cbv zeta.
    destruct (insert_movie_people_kept movie_id persons rows pg pg1 pg2
                Hbuild Hbulk) as [Hret Hrows].
    split; [exact Hret|]. split; [exact Hrows|].
    intros r Hin. rewrite Hrows.
    apply kept_rows_stored_or_conflicting. exact Hin.
Qed.

End PeopleStored.

(** The theorem at a cast of four references: the second has no name, the
    third repeats the key of the first; the rows are those of positions 1
    and 4, and on a store that holds the movie and the role the call inserts
    both. *)
Lemma link_rows_witness :
  fst (resolve_refs no_repr spec_schema cast pg_with_roles)
  = Ok [Some [SInt 1; SInt 3; SText "Neo"]; None;
        Some [SInt 1; SInt 3; SText "Neo"];
        Some [SInt 2; SInt 3; SText "Trinity"]]
  /\ fst (people_rows no_repr spec_schema (SInt 9) 0 [] cast pg_with_roles)
     = Ok [[SInt 9; SInt 1; SInt 3; SText "Neo"; SInt 1];
           [SInt 9; SInt 2; SInt 3; SText "Trinity"; SInt 4]]
  /\ length [Some [SInt 1; SInt 3; SText "Neo"]; None;
             Some [SInt 1; SInt 3; SText "Neo"];
             Some [SInt 2; SInt 3; SText "Trinity"]] = length cast
  /\ fst (insert_movie_people no_repr spec_schema (SInt 9) cast
            pg_with_cast_movie) = Ok tt
  /\ rows_of "movie_people"
       (snd (insert_movie_people no_repr spec_schema (SInt 9) cast
               pg_with_cast_movie))
     = [[SInt 9; SInt 1; SInt 3; SText "Neo"; SInt 1];
        [SInt 9; SInt 2; SInt 3; SText "Trinity"; SInt 4]].
Proof.
  pose proof (link_rows_carry_position_and_first_key no_repr spec_schema
                (SInt 9)) as (Hrows & Hlen & _ & _ & Hstored).
  split; [|split; [|split]].
  - vm_compute. reflexivity.
  - rewrite Hrows. vm_compute. reflexivity.
  - destruct (resolve_refs no_repr spec_schema cast pg_with_roles)
      as [[refs|e] pg'] eqn:Hrun; [|vm_compute in Hrun; discriminate].
    rewrite <- (Hlen cast pg_with_roles pg' refs Hrun).
    vm_compute in Hrun. injection Hrun as <- _. reflexivity.
  - destruct (people_rows no_repr spec_schema (SInt 9) 0 [] cast
                pg_with_cast_movie) as [[rows|e] pg1] eqn:Hbuild;
      [|vm_compute in Hbuild; discriminate].
    destruct (execute_values spec_schema DoNothing "movie_people" rows pg1)
      as [[[]|e] pg2] eqn:Hbulk.
    2:{ pose proof Hbuild as Hv. vm_compute in Hv. injection Hv as <- <-.
        vm_compute in Hbulk. discriminate. }
    destruct (Hstored cast rows pg_with_cast_movie pg1 pg2 Hbuild Hbulk)
      as (Hret & Hkept & _).
    split; [exact Hret|]. rewrite Hkept.
    vm_compute in Hbuild. injection Hbuild as <- <-.
    vm_compute. reflexivity.
Defined.

(** ** Text normalizers *)

Lemma lstrip_by_head (p : ascii -> bool) (s : string) :
  match lstrip_by p s with
  | EmptyString => True
  | String c _ => p c = false
  end.
Proof.
  induction s as [|c s IH]; cbn [lstrip_by]; [exact I|].
  destruct (p c) eqn:Hc; [exact IH|exact Hc].
Qed.

Lemma lstrip_by_fixed (p : ascii -> bool) (s : string) :
  match s with
  | EmptyString => True
  | String c _ => p c = false
  end ->
  lstrip_by p s = s.
Proof.
  destruct s as [|c s]; cbn [lstrip_by]; [auto|]. intros ->. reflexivity.
Qed.

Lemma rstrip_by_head (p : ascii -> bool) (c : ascii) (s : string) :
  p c = false -> exists r, rstrip_by p (String c s) = String c r.
Proof.
  intros Hc. cbn [rstrip_by].
  destruct (rstrip_by p s) as [|d r]; [rewrite Hc|]; eexists; reflexivity.
Qed.

Lemma rstrip_by_idem (p : ascii -> bool) (s : string) :
  rstrip_by p (rstrip_by p s) = rstrip_by p s.
Proof.
  induction s as [|c s IH]; [reflexivity|].
  cbn [rstrip_by].
  destruct (rstrip_by p s) as [|d r] eqn:Hr.
  - destruct (p c) eqn:Hc; [reflexivity|].
    cbn [rstrip_by]. rewrite Hc. reflexivity.
  - change (rstrip_by p (String c (String d r)))
      with (match rstrip_by p (String d r) with
            | EmptyString => if p c then EmptyString else String c EmptyString
            | r' => String c r'
            end).
    rewrite IH. reflexivity.
Qed.

Lemma strip_by_idem (p : ascii -> bool) (s : string) :
  strip_by p (strip_by p s) = strip_by p s.
Proof.
  unfold strip_by.
  pose proof (lstrip_by_head p s) as Hhead.
  destruct (lstrip_by p s) as [|c u]; [reflexivity|].
  destruct (rstrip_by_head p c u Hhead) as [r Hr].
  rewrite Hr, (lstrip_by_fixed p (String c r)) by exact Hhead.
  rewrite <- Hr. apply rstrip_by_idem.
Qed.

Lemma strip_by_head (p : ascii -> bool) (s : string) :
  match strip_by p s with
  | EmptyString => True
  | String c _ => p c = false
  end.
Proof.
  unfold strip_by.
  pose proof (lstrip_by_head p s) as Hhead.
  destruct (lstrip_by p s) as [|c u]; [exact I|].
  destruct (rstrip_by_head p c u Hhead) as [r ->]. exact Hhead.
Qed.

Lemma rstrip_by_last (p : ascii -> bool) (s : string) (c : ascii) :
  last_char (rstrip_by p s) = Some c -> p c = false.
Proof.
  induction s as [|a s IH]; [discriminate|].
  cbn [rstrip_by].
  destruct (rstrip_by p s) as [|d r] eqn:Hr.
  - destruct (p a) eqn:Ha; [discriminate|].
    cbn. intros H. injection H as <-. exact Ha.
  - cbn [last_char]. exact IH.
Qed.

Section TextFacts.

Variable py_repr : pyval -> string.

(** What [normalize_text] returns is never empty, has no white space at
    either end, and is left as it is by [normalize_text]. *)
Theorem normalize_text_result_is_trimmed (value : pyval) (t : string) :
  normalize_text py_repr value = Some t ->
  t <> ""
  /\ (forall c s, t = String c s -> is_space c = false)
  /\ (forall c, last_char t = Some c -> is_space c = false)
  /\ py_strip t = t
  /\ normalize_text py_repr (VStr t) = Some t.
Proof.
  intros H.
  assert (Ht : t = py_strip (py_str py_repr value) /\ String.eqb t "" = false).
  { unfold normalize_text in H. destruct value; try discriminate;
      match type of H with
      | (if String.eqb ?s "" then _ else _) = _ =>
          destruct (String.eqb s "") eqn:Hs; [discriminate|];
          injection H as <-; auto
      end. }
  destruct Ht as [Ht Hne].
  assert (Hstrip : py_strip t = t).
  { rewrite Ht. apply strip_by_idem. }
  split; [intros ->; discriminate|].
  split.
  { intros c s Hcs.
    pose proof (strip_by_head is_space (py_str py_repr value)) as Hh.
    fold (py_strip (py_str py_repr value)) in Hh. rewrite <- Ht, Hcs in Hh.
    exact Hh. }
  split.
  { intros c Hc. rewrite Ht in Hc. unfold py_strip, strip_by in Hc.
    exact (rstrip_by_last _ _ _ Hc). }
  split; [exact Hstrip|].
  unfold normalize_text. cbn [py_str]. rewrite Hstrip, Hne. reflexivity.
Qed.

End TextFacts.

Lemma substring_0_length (n : nat) (s : string) :
  String.length (substring 0 n s) = Nat.min n (String.length s).
Proof.
  revert n. induction s as [|c s IH]; intros [|n]; cbn; try reflexivity.
  rewrite IH. reflexivity.
Qed.

Lemma substring_0_prefix (n : nat) (s : string) :
  exists rest, s = (substring 0 n s ++ rest)%string.
Proof.
  revert n. induction s as [|c s IH]; intros [|n]; cbn.
  - exists "". reflexivity.
  - exists "". reflexivity.
  - exists (String c s). reflexivity.
  - destruct (IH n) as [rest Hrest]. exists rest.
    rewrite Hrest at 1. reflexivity.
Qed.

(** [truncate_text] keeps a text of at most [max_length] characters and cuts a
    longer one to its first [max_length] characters; cutting twice is cutting
    once; [None] stays [None]. *)
Theorem truncate_text_keeps_a_prefix (s : string) (max_length : nat) :
  truncate_text None max_length = None
  /\ exists t,
      truncate_text (Some s) max_length = Some t
      /\ String.length t = Nat.min max_length (String.length s)
      /\ (exists rest, s = (t ++ rest)%string)
      /\ ((String.length s <= max_length)%nat -> t = s)
      /\ truncate_text (Some t) max_length = Some t.
Proof.
  split; [reflexivity|].
  unfold truncate_text.
  destruct (max_length <? String.length s)%nat eqn:Hlt.
  - apply Nat.ltb_lt in Hlt.
    exists (substring 0 max_length s).
    split; [reflexivity|].
    split; [apply substring_0_length|].
    split; [apply substring_0_prefix|].
    split; [lia|].
    rewrite substring_0_length.
    replace (max_length <? Nat.min max_length (String.length s))%nat with false;
      [reflexivity|].
    symmetry. apply Nat.ltb_ge. lia.
  - apply Nat.ltb_ge in Hlt.
    exists s.
    split; [reflexivity|].
    split; [lia|].
    split; [exists ""; clear; induction s as [|c s IH];
            [reflexivity|rewrite IH at 1; reflexivity]|].
    split; [reflexivity|].
    replace (max_length <? String.length s)%nat with false; [reflexivity|].
    symmetry. apply Nat.ltb_ge. exact Hlt.
Qed.

Lemma get_nested_cons (d : pyval) (k : string) (p : list string) :
  get_nested d (k :: p)
  = match d with
    | VDict c =>
        match dict_lookup c k with
        | Some v => get_nested v p
        | None => VNone
        end
    | _ => VNone
    end.
Proof. destruct d; reflexivity. Qed.

Lemma get_nested_none (q : list string) : get_nested VNone q = VNone.
Proof. destruct q; reflexivity. Qed.

(** [get_nested] along a path in two parts is [get_nested] along the second
    part from where the first part leads: a key that is missing, or a value
    on the way that is no dict, gives [None] wherever it occurs. *)
Theorem get_nested_along_a_split_path (d : pyval) (p q : list string) :
  get_nested d (p ++ q) = get_nested (get_nested d p) q
  /\ (forall c k, dict_lookup c k = None ->
                  get_nested (VDict c) (k :: q) = VNone)
  /\ (forall v k, is_dict v = false -> get_nested v (k :: q) = VNone).
Proof.
  split; [|split].
  - revert d. induction p as [|k p IH]; intros d; [reflexivity|].
    cbn [app]. rewrite !get_nested_cons.
    destruct d as [| | | | | | | |c]; try (symmetry; apply get_nested_none).
    destruct (dict_lookup c k) as [v|]; [apply IH|].
    symmetry; apply get_nested_none.
  - intros c k Hk. rewrite get_nested_cons, Hk. reflexivity.
  - intros v k Hv. rewrite get_nested_cons. destruct v; try reflexivity.
    discriminate.
Qed.

(** ** Batches *)

Lemma exec_release_ok (name : string) (c c' : connection) :
  exec_release name c = (Ok tt, c') ->
  conn_failed c' = false
  /\ conn_tables c' = conn_tables c
  /\ conn_committed c' = conn_committed c
  /\ forall T sps, conn_savepoints c = (name, T) :: sps ->
                   conn_savepoints c' = sps.
Proof.
  unfold exec_release. destruct (conn_failed c) eqn:Hf; [discriminate|].
  destruct (find_savepoint name (conn_savepoints c)) as [[T0 sps0]|] eqn:Hfind;
    [|discriminate].
  intros H. injection H as <-. cbn. repeat split; [exact Hf|].
  intros T sps Hsp. rewrite Hsp in Hfind. cbn [find_savepoint] in Hfind.
  rewrite String.eqb_refl in Hfind. injection Hfind as _ <-. reflexivity.
Qed.

(** The [except] clause of a batch loop, entered while the savepoint of the
    document is the latest one: the tables are those of the savepoint, the
    transaction is usable again and the savepoint is gone. *)
Lemma except_clause_restores (name : string) (fr1 : frame) (T : tables)
    (sps : list (string * tables)) :
  conn_savepoints (conn (self fr1)) = (name, T) :: sps ->
  exists fr2,
    (count_skipped ;; rollback_and_release name)%pg fr1 = (Ok tt, fr2)
    /\ conn_tables (conn (self fr2)) = T
    /\ conn_failed (conn (self fr2)) = false
    /\ conn_savepoints (conn (self fr2)) = sps
    /\ conn_committed (conn (self fr2)) = conn_committed (conn (self fr1))
    /\ conn_seqs (conn (self fr2)) = conn_seqs (conn (self fr1))
    /\ locals fr2
       = mkCounters (inserted (locals fr1)) (skipped (locals fr1) + 1)
    /\ _cache (self fr2) = _cache (self fr1)
    /\ _person_cache (self fr2) = _person_cache (self fr1)
    /\ stats (self fr2) = stats (self fr1).
Proof.
  intros Hsp.
  unfold bind, count_skipped, rollback_and_release, catch, bind, in_pg,
    on_conn, exec_rollback_to.
  cbn [self locals]. rewrite Hsp. cbn [find_savepoint].
  rewrite String.eqb_refl. cbn [self locals conn set_conn].
  unfold exec_release. cbn. rewrite String.eqb_refl. cbn.
  eexists. split; [reflexivity|]. cbn. repeat split.
Qed.

(** The [except] clause of a batch loop returns in every state. *)
Lemma except_clause_returns (name : string) (fr1 : frame) :
  exists fr2,
    (count_skipped ;; rollback_and_release name)%pg fr1 = (Ok tt, fr2)
    /\ locals fr2
       = mkCounters (inserted (locals fr1)) (skipped (locals fr1) + 1).
Proof.
  unfold bind, count_skipped, rollback_and_release, catch, bind, in_pg,
    on_conn.
  cbn [self locals].
  destruct (exec_rollback_to name (conn (self fr1))) as [[[]|e] c1].
  - destruct (exec_release name _) as [[[]|e] c2]; eexists; split; reflexivity.
  - eexists; split; reflexivity.
Qed.

Lemma batch_loop_counted {D} (step : nat -> D -> ST frame unit) :
  counted_step step ->
  forall docs i fr,
    exists fr',
      batch_loop step i docs fr = (Ok tt, fr')
      /\ (inserted (locals fr) <= inserted (locals fr')
          <= inserted (locals fr) + Z.of_nat (length docs))%Z.
Proof.
  intros Hstep docs. induction docs as [|d docs IH]; intros i fr.
  - exists fr. cbn. split; [reflexivity|lia].
  - cbn [batch_loop]. unfold bind.
    destruct (step i d fr) as [r fr1] eqn:Hrun.
    destruct (Hstep _ _ _ _ _ Hrun) as (-> & Hins).
    destruct (IH (S i) fr1) as (fr' & Hloop & Hins').
    exists fr'. split; [exact Hloop|]. cbn [length]. lia.
Qed.

Lemma batch_loop_isolated {D} (step : nat -> D -> ST frame unit) :
  isolated_step step ->
  forall docs i fr r fr',
    healthy (self fr) ->
    batch_loop step i docs fr = (r, fr') ->
    healthy (self fr') /\ same_transaction (self fr) (self fr').
Proof.
  intros Hstep docs. induction docs as [|d docs IH]; intros i fr r fr' Hfr.
  - cbn. intros H. injection H as _ <-. unfold same_transaction. auto.
  - cbn [batch_loop]. unfold bind.
    destruct (step i d fr) as [[[]|e] fr1] eqn:Hrun;
      destruct (Hstep _ _ _ _ _ Hfr Hrun) as (Hfr1 & Hsp & Hcm).
    + intros Hloop.
      destruct (IH _ _ _ _ Hfr1 Hloop) as (Hfr' & Hsp' & Hcm').
      split; [exact Hfr'|]. split; congruence.
    + intros H. injection H as _ <-. split; [exact Hfr1|]. split; assumption.
Qed.

Section BatchFacts.

Variable py_float : string -> option spec_float.
Variable py_repr : pyval -> string.
Variable schema : string -> table_schema.
Variable time_ns : nat -> Z.

(** A statement that returned leaves the transaction usable. *)
Lemma statement_ok_healthy {A} (body : tables -> res (A * tables))
    (pg pg' : PgRepo) (a : A) :
  on_conn (statement body) pg = (Ok a, pg') -> healthy pg'.
Proof.
  unfold on_conn.
  destruct (statement body (conn pg)) as [r c1] eqn:Hst.
  intros H. injection H as -> <-.
  apply statement_ok in Hst as (Hf & _ & Hc).
  unfold healthy. cbn. rewrite Hc. exact Hf.
Qed.

Lemma insert_movie_core_healthy (movie : pydict) (pg pg' : PgRepo)
    (movie_id : sqlval) :
  healthy pg ->
  insert_movie_core py_float py_repr schema movie pg = (Ok movie_id, pg') ->
  healthy pg'.
Proof.
  intros Hpg. unfold insert_movie_core, bind, lift.
  destruct (movie_core_values py_float py_repr movie) as [[[id cols]|]|e];
    [| |discriminate].
  2:{ intros H. injection H as _ <-. exact Hpg. }
  destruct id as [id|].
  - destruct (on_conn (exec_insert _ _ _ _) pg) as [[[]|e] pg1] eqn:Hins;
      [|discriminate].
    apply statement_ok_healthy in Hins.
    unfold ret. cbn [sql_truthy].
    destruct (negb (id =? 0)%Z); rewrite ?bump_conn;
      intros H; injection H as _ <-; exact Hins.
  - unfold on_conn.
    destruct (exec_insert_serial _ _ _ _ (conn pg)) as [[mid|e] c1] eqn:Hins;
      [|discriminate].
    apply exec_insert_serial_ok in Hins as (_ & _ & _ & Hf & _).
    unfold ret.
    destruct (sql_truthy mid); rewrite ?bump_conn;
      intros H; injection H as _ <-; exact Hf.
Qed.

(** The [try] block of a movie document counts the document once at most. *)
Lemma movie_doc_body_counts (name : string) (movie_doc : pydict)
    (fr : frame) (r : res unit) (fr1 : frame) :
  movie_doc_body py_float py_repr schema name movie_doc fr = (r, fr1) ->
  (inserted (locals fr) <= inserted (locals fr1)
   <= inserted (locals fr) + 1)%Z.
Proof.
  unfold movie_doc_body, bind, in_pg.
  destruct (on_conn (exec_savepoint name) (self fr)) as [[[]|e0] pg0].
  2:{ intros H; inversion H; subst; cbn. lia. }
  cbn [self locals].
  destruct (insert_movie_core py_float py_repr schema movie_doc pg0)
    as [[movie_id|e1] pg1].
  2:{ intros H; inversion H; subst; cbn. lia. }
  destruct (negb (sql_truthy movie_id)).
  - unfold count_skipped. cbn [self locals].
    destruct (on_conn (exec_release name) pg1) as [[[]|e2] pg2];
      intros H; inversion H; subst; cbn; lia.
  - cbn [self locals].
    destruct (movie_children py_repr schema movie_id movie_doc pg1)
      as [[[]|e2] pg2].
    2:{ intros H; inversion H; subst; cbn. lia. }
    unfold count_inserted. cbn [self locals].
    destruct (on_conn (exec_release name) pg2) as [[[]|e3] pg3];
      intros H; inversion H; subst; cbn; lia.
Qed.

(** When the [try] block of a movie document returns, the savepoint of the
    document has been released in a usable transaction. *)
Lemma movie_doc_body_returns (name : string) (movie_doc : pydict)
    (c : counters) (pg : PgRepo) (fr1 : frame) :
  healthy pg ->
  movie_doc_body py_float py_repr schema name movie_doc (mkFrame c pg)
  = (Ok tt, fr1) ->
  healthy (self fr1) /\ same_transaction pg (self fr1).
Proof.
  intros Hpg. unfold healthy in Hpg.
  unfold movie_doc_body, bind, in_pg, on_conn, exec_savepoint.
  cbn [self locals]. rewrite Hpg. cbn [self locals].
  set (pg0 := set_conn _ pg).
  assert (Hpg0 : conn_savepoints (conn pg0)
                 = (name, conn_tables (conn pg)) :: conn_savepoints (conn pg)
                 /\ conn_committed (conn pg0) = conn_committed (conn pg)).
  { subst pg0. destruct pg as [[T sq fl sps cm] ca pc st]. cbn in *. auto. }
  destruct Hpg0 as (Hsp & Hcm). clearbody pg0.
  destruct (insert_movie_core py_float py_repr schema movie_doc pg0)
    as [[movie_id|e1] pg1] eqn:Hcore; [|discriminate].
  destruct (stable_insert_movie_core _ _ _ _ _ _ _ Hcore) as [Hsp1 Hcm1].
  destruct (negb (sql_truthy movie_id)).
  - unfold count_skipped. cbn [self locals].
    destruct (exec_release name (conn pg1)) as [[[]|e2] c2] eqn:Hrel;
      [|discriminate].
    apply exec_release_ok in Hrel as (Hf2 & _ & Hcm2 & Hsp2).
    intros H; inversion H; subst; cbn.
    split; [exact Hf2|]. split; cbn.
    + apply (Hsp2 (conn_tables (conn pg))). rewrite Hsp1. exact Hsp.
    + rewrite Hcm2, Hcm1. exact Hcm.
  - cbn [self locals].
    destruct (movie_children py_repr schema movie_id movie_doc pg1)
      as [[[]|e2] pg2] eqn:Hchildren; [|discriminate].
    destruct (stable_movie_children _ _ _ _ _ _ _ Hchildren) as [Hsp2 Hcm2].
    unfold count_inserted. cbn [self locals].
    destruct (exec_release name (conn pg2)) as [[[]|e3] c3] eqn:Hrel;
      [|discriminate].
    apply exec_release_ok in Hrel as (Hf3 & _ & Hcm3 & Hsp3).
    intros H; inversion H; subst; cbn.
    split; [exact Hf3|]. split; cbn.
    + apply (Hsp3 (conn_tables (conn pg))). rewrite Hsp2, Hsp1. exact Hsp.
    + rewrite Hcm3, Hcm2, Hcm1. exact Hcm.
Qed.

Lemma process_movie_doc_counted :
  counted_step (process_movie_doc py_float py_repr schema time_ns).
Proof.
  intros i d fr r fr'. unfold process_movie_doc, catch.
  destruct (movie_doc_body py_float py_repr schema _ d fr)
    as [[[]|e] fr1] eqn:Hbody;
    pose proof (movie_doc_body_counts _ _ _ _ _ Hbody) as Hins.
  - intros H. injection H as <- <-. auto.
  - destruct (except_clause_returns (sp_name time_ns "sp_movie_" i) fr1)
      as (fr2 & Hrun & Hloc).
    rewrite Hrun. intros H. injection H as <- <-.
    rewrite Hloc. cbn [inserted]. auto.
Qed.

Lemma process_movie_doc_isolated :
  isolated_step (process_movie_doc py_float py_repr schema time_ns).
Proof.
  intros i d [c pg] r fr Hpg. cbn [self] in *.
  unfold process_movie_doc, catch.
  destruct (movie_doc_body py_float py_repr schema _ d (mkFrame c pg))
    as [[[]|e] fr1] eqn:Hbody.
  - intros H. injection H as _ <-.
    exact (movie_doc_body_returns _ _ _ _ _ Hpg Hbody).
  - destruct (movie_doc_body_raise _ _ _ _ _ _ _ _ _ Hpg Hbody)
      as [Hsp Hcm].
    destruct (except_clause_restores _ fr1 _ _ Hsp)
      as (fr2 & Hrun & _ & Hf2 & Hsp2 & Hcm2 & _).
    rewrite Hrun. intros H. injection H as _ <-.
    split; [exact Hf2|]. split; [exact Hsp2|]. rewrite Hcm2. exact Hcm.
Qed.

(** The [try] block of a person document counts the document once at most. *)
Lemma person_doc_body_counts (name : string) (person_doc : pydict)
    (fr : frame) (r : res unit) (fr1 : frame) :
  person_doc_body py_repr schema name person_doc fr = (r, fr1) ->
  (inserted (locals fr) <= inserted (locals fr1)
   <= inserted (locals fr) + 1)%Z.
Proof.
  unfold person_doc_body, bind, in_pg.
  destruct (on_conn (exec_savepoint name) (self fr)) as [[[]|e0] pg0].
  2:{ intros H; inversion H; subst; cbn. lia. }
  cbn [self locals].
  destruct (upsert_person py_repr schema (VDict person_doc) pg0)
    as [[pid|e1] pg1].
  2:{ intros H; inversion H; subst; cbn. lia. }
  destruct (sql_truthy pid); unfold count_inserted, ret; cbn [self locals];
    destruct (on_conn (exec_release name) pg1) as [[[]|e2] pg2];
    intros H; inversion H; subst; cbn; lia.
Qed.

(** Where the [try] block of a person document stands when it ends: the
    savepoint released when it returns, still the latest one when it
    raises. *)
Lemma person_doc_body_transaction (name : string) (person_doc : pydict)
    (c : counters) (pg : PgRepo) (r : res unit) (fr1 : frame) :
  healthy pg ->
  person_doc_body py_repr schema name person_doc (mkFrame c pg) = (r, fr1) ->
  conn_committed (conn (self fr1)) = conn_committed (conn pg)
  /\ match r with
     | Ok _ =>
         healthy (self fr1)
         /\ conn_savepoints (conn (self fr1)) = conn_savepoints (conn pg)
     | Raise _ =>
         conn_savepoints (conn (self fr1))
         = (name, conn_tables (conn pg)) :: conn_savepoints (conn pg)
     end.
Proof.
  intros Hpg. unfold healthy in Hpg.
  unfold person_doc_body, bind, in_pg, on_conn, exec_savepoint.
  cbn [self locals]. rewrite Hpg. cbn [self locals].
  set (pg0 := set_conn _ pg).
  assert (Hpg0 : conn_savepoints (conn pg0)
                 = (name, conn_tables (conn pg)) :: conn_savepoints (conn pg)
                 /\ conn_committed (conn pg0) = conn_committed (conn pg)).
  { subst pg0. destruct pg as [[T sq fl sps cm] ca pc st]. cbn in *. auto. }
  destruct Hpg0 as (Hsp & Hcm). clearbody pg0.
  destruct (upsert_person py_repr schema (VDict person_doc) pg0)
    as [[pid|e1] pg1] eqn:Hup;
    destruct (stable_upsert_person _ _ _ _ _ _ Hup) as [Hsp1 Hcm1].
  2:{ intros H; inversion H; subst; cbn.
      split; [rewrite Hcm1; exact Hcm|rewrite Hsp1; exact Hsp]. }
  assert (Hrest : forall c1,
             (let '(r0, pg2) :=
                let '(r0, c0) := exec_release name (conn pg1) in
                (r0, set_conn c0 pg1) in
              (r0, mkFrame c1 pg2)) = (r, fr1) ->
             conn_committed (conn (self fr1)) = conn_committed (conn pg)
             /\ match r with
                | Ok _ =>
                    healthy (self fr1)
                    /\ conn_savepoints (conn (self fr1))
                       = conn_savepoints (conn pg)
                | Raise _ =>
                    conn_savepoints (conn (self fr1))
                    = (name, conn_tables (conn pg)) :: conn_savepoints (conn pg)
                end).
  { intros c1.
    destruct (exec_release name (conn pg1)) as [[[]|e2] c2] eqn:Hrel.
    - apply exec_release_ok in Hrel as (Hf2 & _ & Hcm2 & Hsp2).
      intros H; inversion H; subst; cbn.
      split; [rewrite Hcm2, Hcm1; exact Hcm|].
      split; [exact Hf2|].
      apply (Hsp2 (conn_tables (conn pg))). rewrite Hsp1. exact Hsp.
    - apply exec_release_raise in Hrel as [Hsp2 Hcm2].
      intros H; inversion H; subst; cbn.
      split; [rewrite Hcm2, Hcm1; exact Hcm|rewrite Hsp2, Hsp1; exact Hsp]. }
  destruct (sql_truthy pid); unfold count_inserted, ret; cbn [self locals];
    intros H; apply (Hrest _ H).
Qed.

Lemma process_person_doc_counted :
  counted_step (process_person_doc py_repr schema time_ns).
Proof.
  intros i d fr r fr'. unfold process_person_doc, catch.
  destruct (person_doc_body py_repr schema _ d fr)
    as [[[]|e] fr1] eqn:Hbody;
    pose proof (person_doc_body_counts _ _ _ _ _ Hbody) as Hins.
  - intros H. injection H as <- <-. auto.
  - destruct (except_clause_returns (sp_name time_ns "sp_person_" i) fr1)
      as (fr2 & Hrun & Hloc).
    rewrite Hrun. intros H. injection H as <- <-.
    rewrite Hloc. cbn [inserted]. auto.
Qed.

Lemma process_person_doc_isolated :
  isolated_step (process_person_doc py_repr schema time_ns).
Proof.
  intros i d [c pg] r fr Hpg. cbn [self] in *.
  unfold process_person_doc, catch.
  destruct (person_doc_body py_repr schema _ d (mkFrame c pg))
    as [[[]|e] fr1] eqn:Hbody;
    destruct (person_doc_body_transaction _ _ _ _ _ _ Hpg Hbody) as [Hcm Hr].
  - intros H. injection H as _ <-. destruct Hr as [Hh Hsp].
    split; [exact Hh|]. split; assumption.
  - destruct (except_clause_restores _ fr1 _ _ Hr)
      as (fr2 & Hrun & _ & Hf2 & Hsp2 & Hcm2 & _).
    rewrite Hrun. intros H. injection H as _ <-.
    split; [exact Hf2|]. split; [exact Hsp2|]. rewrite Hcm2. exact Hcm.
Qed.

Lemma movie_batch_outcome (movies_batch : list pydict)
    (pg : PgRepo) :
  exists n pg',
    process_movie_batch py_float py_repr schema time_ns movies_batch pg
    = (Ok n, pg')
    /\ (0 <= n <= Z.of_nat (length movies_batch))%Z
    /\ (healthy pg -> healthy pg' /\ same_transaction pg pg').
Proof.
  unfold process_movie_batch, returning_inserted, run_batch.
  destruct (batch_loop_counted _ process_movie_doc_counted movies_batch 0%nat
              (mkFrame (mkCounters 0 0) pg)) as (fr & Hloop & Hins).
  rewrite Hloop. cbn [fst snd locals inserted] in *.
  exists (inserted (locals fr)), (self fr).
  split; [reflexivity|]. split; [lia|].
  intros Hpg.
  exact (batch_loop_isolated _ process_movie_doc_isolated _ _
           (mkFrame (mkCounters 0 0) pg) _ _ Hpg Hloop).
Qed.

(** [process_movie_batch] returns whatever the documents and the store do:
    no exception leaves it; the count it returns lies between zero and the
    number of documents; and a connection that was usable is usable after
    the batch, at the same point of the same transaction: every savepoint
    the batch set is gone and nothing was committed. *)
Theorem movie_batch_returns_a_count (movies_batch : list pydict)
    (pg : PgRepo) :
  exists n pg',
    process_movie_batch py_float py_repr schema time_ns movies_batch pg
    = (Ok n, pg')
    /\ (0 <= n <= Z.of_nat (length movies_batch))%Z
    /\ (healthy pg -> healthy pg' /\ same_transaction pg pg').
Proof. apply movie_batch_outcome. Qed.

Lemma people_batch_outcome (people_batch : list pydict)
    (pg : PgRepo) :
  exists n pg',
    process_people_batch py_repr schema time_ns people_batch pg = (Ok n, pg')
    /\ (0 <= n <= Z.of_nat (length people_batch))%Z
    /\ (healthy pg -> healthy pg' /\ same_transaction pg pg').
Proof.
  unfold process_people_batch, returning_inserted, run_batch.
  destruct (batch_loop_counted _ process_person_doc_counted people_batch 0%nat
              (mkFrame (mkCounters 0 0) pg)) as (fr & Hloop & Hins).
  rewrite Hloop. cbn [fst snd locals inserted] in *.
  exists (inserted (locals fr)), (self fr).
  split; [reflexivity|]. split; [lia|].
  intros Hpg.
  exact (batch_loop_isolated _ process_person_doc_isolated _ _
           (mkFrame (mkCounters 0 0) pg) _ _ Hpg Hloop).
Qed.

(** [process_people_batch] returns whatever the documents and the store do:
    no exception leaves it; the count it returns lies between zero and the
    number of documents; and a connection that was usable is usable after
    the batch, at the same point of the same transaction. *)
Theorem people_batch_returns_a_count (people_batch : list pydict)
    (pg : PgRepo) :
  exists n pg',
    process_people_batch py_repr schema time_ns people_batch pg = (Ok n, pg')
    /\ (0 <= n <= Z.of_nat (length people_batch))%Z
    /\ (healthy pg -> healthy pg' /\ same_transaction pg pg').
Proof. apply people_batch_outcome. Qed.

End BatchFacts.

(** ** The batching of [seed_from_mongo] *)

Section SeedingFacts.

Context {St D : Type}.
Variable BATCH_SIZE : Z.
Variable process : list D -> ST St Z.
Variable after_batch : ST St unit.

Lemma seed_loop_run_batches (batch : list D) (total : Z) (cursor : list D)
    (s : St) :
  seed_loop BATCH_SIZE process after_batch batch total cursor s
  = run_batches process after_batch total
      (batches_from BATCH_SIZE batch cursor) s.
Proof.
  revert batch total s.
  induction cursor as [|doc cursor IH]; intros batch total s.
  - cbn [seed_loop batches_from]. destruct batch as [|d batch]; [reflexivity|].
    cbn [run_batches]. unfold bind.
    destruct (process (d :: batch) s) as [[n|e] s1]; [|reflexivity].
    destruct (after_batch s1) as [[[]|e] s2]; reflexivity.
  - cbn [seed_loop batches_from].
    destruct (BATCH_SIZE <=? Z.of_nat (length (batch ++ [doc])))%Z.
    + cbn [run_batches]. unfold bind.
      destruct (process (batch ++ [doc]) s) as [[n|e] s1]; [|reflexivity].
      destruct (after_batch s1) as [[[]|e] s2]; [|reflexivity].
      apply IH.
    + apply IH.
Qed.

Lemma batches_from_concat (batch cursor : list D) :
  concat (batches_from BATCH_SIZE batch cursor) = batch ++ cursor.
Proof.
  revert batch. induction cursor as [|doc cursor IH]; intros batch.
  - cbn [batches_from]. destruct batch as [|d batch]; [reflexivity|].
    cbn. rewrite !app_nil_r. reflexivity.
  - cbn [batches_from].
    destruct (BATCH_SIZE <=? Z.of_nat (length (batch ++ [doc])))%Z.
    + cbn [concat]. rewrite IH. cbn. rewrite <- app_assoc. reflexivity.
    + rewrite IH. rewrite <- app_assoc. reflexivity.
Qed.

Lemma batches_from_sizes (batch cursor : list D) :
  (Z.of_nat (length batch) < Z.max 1 BATCH_SIZE)%Z ->
  forall i b,
    batches_from BATCH_SIZE batch cursor !! i = Some b ->
    (0 < Z.of_nat (length b) <= Z.max 1 BATCH_SIZE)%Z
    /\ (S i < length (batches_from BATCH_SIZE batch cursor) ->
        Z.of_nat (length b) = Z.max 1 BATCH_SIZE)%nat.
Proof.
  revert batch. induction cursor as [|doc cursor IH]; intros batch Hlt i b.
  - cbn [batches_from]. destruct batch as [|d batch]; [discriminate|].
    destruct i as [|i]; [|discriminate].
    cbn. intros H. injection H as <-. split; [|lia].
    cbn [length] in *. lia.
  - cbn [batches_from].
    destruct (BATCH_SIZE <=? Z.of_nat (length (batch ++ [doc])))%Z eqn:Hfull.
    + apply Z.leb_le in Hfull. rewrite length_app in *. cbn [length] in *.
      destruct i as [|i].
      * cbn. intros H. injection H as <-. rewrite length_app. cbn [length].
        split; lia.
      * cbn [lookup]. intros H.
        assert (H0 : (Z.of_nat (length (@nil D)) < Z.max 1 BATCH_SIZE)%Z)
          by (cbn; lia).
        destruct (IH [] H0 i b H) as [Hb Hlast].
        split; [exact Hb|]. cbn [length]. intros Hi. apply Hlast. lia.
    + apply Z.leb_gt in Hfull. apply IH.
      rewrite length_app in *. cbn [length] in *. lia.
Qed.

(** The loop over a cursor processes the batches of [batches_from] one after
    the other; put end to end these batches are the documents of the cursor,
    in order; no batch is empty; every batch but the last holds [BATCH_SIZE]
    documents, one when [BATCH_SIZE] is below one, and the last holds no
    more. *)
Theorem cursor_is_processed_in_batches (cursor : list D) :
  (forall s,
      seed_collection BATCH_SIZE process after_batch cursor s
      = run_batches process after_batch 0
          (batches_from BATCH_SIZE [] cursor) s)
  /\ concat (batches_from BATCH_SIZE [] cursor) = cursor
  /\ (forall i b,
         batches_from BATCH_SIZE [] cursor !! i = Some b ->
         (0 < Z.of_nat (length b) <= Z.max 1 BATCH_SIZE)%Z
         /\ (S i < length (batches_from BATCH_SIZE [] cursor) ->
             Z.of_nat (length b) = Z.max 1 BATCH_SIZE)%nat).
Proof.
  split; [|split].
  - intros s. apply seed_loop_run_batches.
  - apply batches_from_concat.
  - apply batches_from_sizes. cbn. lia.
Qed.

End SeedingFacts.

Section SeedingRuns.

Variable py_float : string -> option spec_float.
Variable py_repr : pyval -> string.
Variable schema : string -> table_schema.
Variable time_ns : nat -> Z.
Variable BATCH_SIZE : Z.

Lemma pg_commit_run (pg : PgRepo) :
  exists pg',
    pg_commit pg = (Ok tt, pg')
    /\ healthy pg'
    /\ conn_savepoints (conn pg') = []
    /\ conn_committed (conn pg') = conn_tables (conn pg')
    /\ (healthy pg -> conn_tables (conn pg') = conn_tables (conn pg)).
Proof.
  eexists. split; [reflexivity|]. unfold healthy. cbn.
  repeat split. intros ->. reflexivity.
Qed.

(** A stage that runs a batch function with the properties of
    [process_people_batch] and [process_movie_batch], each batch followed by
    a commit. *)
Lemma run_batches_commits (process : list pydict -> M Z) :
  (forall batch pg,
      exists n pg',
        process batch pg = (Ok n, pg')
        /\ (0 <= n <= Z.of_nat (length batch))%Z
        /\ (healthy pg -> healthy pg' /\ same_transaction pg pg')) ->
  forall batches total pg,
    exists total' pg',
      run_batches process pg_commit total batches pg = (Ok total', pg')
      /\ (total <= total' <= total + Z.of_nat (length (concat batches)))%Z
      /\ (healthy pg -> healthy pg')
      /\ (batches <> [] ->
          conn_committed (conn pg') = conn_tables (conn pg')
          /\ conn_savepoints (conn pg') = []
          /\ healthy pg').
Proof.
  intros Hprocess batches.
  induction batches as [|batch batches IH]; intros total pg.
  - exists total, pg. cbn. split; [reflexivity|]. split; [lia|].
    split; [auto|]. intros H. contradiction.
  - cbn [run_batches]. unfold bind.
    destruct (Hprocess batch pg) as (n & pg1 & -> & Hn & _).
    destruct (pg_commit_run pg1) as (pg2 & -> & Hh2 & Hsp2 & Hcm2 & _).
    destruct (IH (total + n)%Z pg2) as (total' & pg' & Hrun & Htotal & Hh & Hc).
    exists total', pg'. split; [exact Hrun|].
    cbn [concat]. rewrite length_app.
    split; [lia|]. split; [auto|]. intros _.
    destruct batches as [|b batches].
    + cbn in Hrun. injection Hrun as _ <-. auto.
    + apply Hc. discriminate.
Qed.

Lemma seed_collection_commits (process : list pydict -> M Z)
    (cursor : list pydict) (pg : PgRepo) :
  (forall batch pg,
      exists n pg',
        process batch pg = (Ok n, pg')
        /\ (0 <= n <= Z.of_nat (length batch))%Z
        /\ (healthy pg -> healthy pg' /\ same_transaction pg pg')) ->
  exists total pg',
    seed_collection BATCH_SIZE process pg_commit cursor pg = (Ok total, pg')
    /\ (0 <= total <= Z.of_nat (length cursor))%Z
    /\ (cursor = [] -> pg' = pg)
    /\ (cursor <> [] ->
        conn_committed (conn pg') = conn_tables (conn pg')
        /\ conn_savepoints (conn pg') = []
        /\ healthy pg').
Proof.
  intros Hprocess. unfold seed_collection.
  rewrite seed_loop_run_batches.
  destruct (run_batches_commits process Hprocess
              (batches_from BATCH_SIZE [] cursor) 0%Z pg)
    as (total & pg' & Hrun & Htotal & _ & Hc).
  rewrite batches_from_concat in Htotal. cbn [app] in Htotal.
  exists total, pg'. split; [exact Hrun|]. split; [lia|]. split.
  - intros ->. cbn in Hrun. injection Hrun as _ <-. reflexivity.
  - intros Hne. apply Hc. intros Hnil.
    apply (f_equal (@concat pydict)) in Hnil.
    rewrite batches_from_concat in Hnil. cbn in Hnil. contradiction.
Qed.

(** The people and the movies stages of [seed_from_mongo] return whatever
    the documents and the store do; the total they return lies between zero
    and the number of documents read; after a stage that read a document the
    connection is usable, no savepoint is left and every table is committed
    as it stands; a stage that read nothing leaves the repository alone and
    commits nothing. *)
Theorem seeding_stage_ends_committed (cursor : list pydict) (pg : PgRepo) :
  (exists total pg',
      seed_people py_repr schema time_ns BATCH_SIZE cursor pg = (Ok total, pg')
      /\ (0 <= total <= Z.of_nat (length cursor))%Z
      /\ (cursor = [] -> pg' = pg)
      /\ (cursor <> [] ->
          conn_committed (conn pg') = conn_tables (conn pg')
          /\ conn_savepoints (conn pg') = []
          /\ healthy pg'))
  /\ (exists total pg',
         seed_movies py_float py_repr schema time_ns BATCH_SIZE cursor pg
         = (Ok total, pg')
         /\ (0 <= total <= Z.of_nat (length cursor))%Z
         /\ (cursor = [] -> pg' = pg)
         /\ (cursor <> [] ->
             conn_committed (conn pg') = conn_tables (conn pg')
             /\ conn_savepoints (conn pg') = []
             /\ healthy pg')).
Proof.
  split.
  - apply seed_collection_commits. intros batch pg0.
    apply people_batch_outcome.
  - apply seed_collection_commits. intros batch pg0.
    apply movie_batch_outcome.
Qed.

(** The commit that follows a batch of movies keeps what the batch left:
    when the connection was usable before the batch, the tables after the
    commit are the tables after the batch, and they are the committed
    ones.  A document that failed inside the batch was rolled back to its
    savepoint and does not turn the commit into a rollback. *)
Theorem commit_after_batch_keeps_the_batch (movies_batch : list pydict)
    (pg : PgRepo) :
  healthy pg ->
  fst (run_movie_batch py_float py_repr schema time_ns movies_batch pg)
  = fst (process_movie_batch py_float py_repr schema time_ns movies_batch pg)
  /\ conn_tables
       (conn (snd (run_movie_batch py_float py_repr schema time_ns
                     movies_batch pg)))
     = conn_tables
         (conn (snd (process_movie_batch py_float py_repr schema time_ns
                       movies_batch pg)))
  /\ conn_committed
       (conn (snd (run_movie_batch py_float py_repr schema time_ns
                     movies_batch pg)))
     = conn_tables
         (conn (snd (process_movie_batch py_float py_repr schema time_ns
                       movies_batch pg))).
Proof.
  intros Hpg. unfold run_movie_batch.
  destruct (movie_batch_outcome py_float py_repr schema time_ns movies_batch
              pg) as (n & pg1 & Hrun & _ & Hh).
  rewrite Hrun. destruct (Hh Hpg) as [Hh1 _]. unfold healthy in Hh1.
  cbn. rewrite Hh1. auto.
Qed.

End SeedingRuns.

(** ** The seasons stage of [seed_from_mongo] *)

Lemma keeps_healthy_ret {A} (a : A) : keeps_healthy (ret a).
Proof. intros pg a' pg' Hpg H. injection H as _ <-. exact Hpg. Qed.

Lemma keeps_healthy_lift {A} (x : res A) : keeps_healthy (lift x).
Proof. intros pg a' pg' Hpg H. injection H as _ <-. exact Hpg. Qed.

Lemma keeps_healthy_bind {A B} (m : M A) (k : A -> M B) :
  keeps_healthy m -> (forall a, keeps_healthy (k a)) ->
  keeps_healthy (bind m k).
Proof.
  intros Hm Hk pg b pg' Hpg. unfold bind.
  destruct (m pg) as [[a|e] pg1] eqn:Hrun; [|discriminate].
  intros H. exact (Hk a _ _ _ (Hm _ _ _ Hpg Hrun) H).
Qed.

Lemma keeps_healthy_statement {A} (body : tables -> res (A * tables)) :
  keeps_healthy (on_conn (statement body)).
Proof. intros pg a pg' _ H. exact (statement_ok_healthy _ _ _ _ H). Qed.

Lemma keeps_healthy_insert_serial (sch : table_schema) (oc : on_conflict)
    (t : string) (cols : row) :
  keeps_healthy (on_conn (exec_insert_serial sch oc t cols)).
Proof.
  intros pg a pg' _. unfold on_conn, exec_insert_serial.
  destruct (conn_failed (conn pg)) eqn:Hf; [discriminate|].
  unfold nextval.
  match goal with
  | |- context [statement ?b ?c] =>
      destruct (statement b c) as [r c1] eqn:Hst
  end.
  intros H. injection H as -> <-.
  apply statement_ok in Hst as (Hf1 & _ & Hc).
  unfold healthy. cbn. rewrite Hc. exact Hf1.
Qed.

Lemma keeps_healthy_bump (key : string) (n : Z) : keeps_healthy (bump key n).
Proof. intros pg a pg' Hpg H. injection H as _ <-. exact Hpg. Qed.

Lemma keeps_healthy_cache_store (kind key : string) (v : sqlval) :
  keeps_healthy (cache_store kind key v).
Proof. intros pg a pg' Hpg H. injection H as _ <-. exact Hpg. Qed.

Lemma keeps_healthy_person_cache_store (key : string * option string)
    (v : sqlval) :
  keeps_healthy (person_cache_store key v).
Proof. intros pg a pg' Hpg H. injection H as _ <-. exact Hpg. Qed.

Lemma keeps_healthy_for_each {A} (f : A -> M unit) (l : list A) :
  (forall x, keeps_healthy (f x)) -> keeps_healthy (for_each f l).
Proof.
  intros Hf. induction l as [|x l IH]; cbn [for_each].
  - apply keeps_healthy_ret.
  - apply keeps_healthy_bind; [apply Hf|intros _; exact IH].
Qed.

Lemma keeps_healthy_cached {A} (look : PgRepo -> option A) (m : M A) :
  keeps_healthy m ->
  keeps_healthy (fun pg => match look pg with
                           | Some a => (Ok a, pg)
                           | None => m pg
                           end).
Proof.
  intros Hm pg a pg' Hpg. destruct (look pg).
  - intros H. injection H as _ <-. exact Hpg.
  - apply Hm, Hpg.
Qed.

Create HintDb healthy discriminated.
#[local] Hint Resolve keeps_healthy_ret keeps_healthy_lift
  keeps_healthy_statement keeps_healthy_insert_serial keeps_healthy_bump
  keeps_healthy_cache_store keeps_healthy_person_cache_store : healthy.

Ltac healthy_step :=
  match goal with
  | |- keeps_healthy (bind _ _) => apply keeps_healthy_bind; [|intros ?]
  | |- keeps_healthy (for_each _ _) => apply keeps_healthy_for_each; intros ?
  | |- keeps_healthy (fun pg => match _ with Some _ => _ | None => _ end) =>
      apply keeps_healthy_cached
  | |- keeps_healthy (on_conn (exec_insert _ _ _ _)) =>
      apply keeps_healthy_statement
  | |- keeps_healthy (on_conn (exec_select_one _ _)) =>
      apply keeps_healthy_statement
  | |- keeps_healthy (on_conn (exec_update _ _ _)) =>
      apply keeps_healthy_statement
  | |- keeps_healthy (match ?x with _ => _ end) => destruct x
  | |- keeps_healthy (if ?b then _ else _) => destruct b
  | |- keeps_healthy _ => solve [auto with healthy]
  end.

Ltac healthy_tac := repeat healthy_step.

Section SeasonFacts.

Variable py_float : string -> option spec_float.
Variable py_repr : pyval -> string.
Variable schema : string -> table_schema.
Variable time_ns : nat -> Z.
Variable COMMIT_INTERVAL : Z.

Lemma keeps_healthy_execute_values (oc : on_conflict) (t : string)
    (rows : list row) :
  keeps_healthy (execute_values schema oc t rows).
Proof. unfold execute_values. healthy_tac. Qed.

Lemma keeps_healthy_upsert_season (season_doc : pydict) :
  keeps_healthy (upsert_season py_float py_repr schema season_doc).
Proof.
  pose proof keeps_healthy_execute_values.
  unfold upsert_season. healthy_tac.
Qed.

Lemma stable_upsert_season (season_doc : pydict) :
  stable (upsert_season py_float py_repr schema season_doc).
Proof.
  pose proof (stable_execute_values schema).
  unfold upsert_season. stable_tac.
Qed.

(** The [try] block of a season document counts the document once at
    most. *)
Lemma season_doc_body_counts (name : string) (season_doc : pydict)
    (fr : season_frame) (r : res unit) (fr1 : season_frame) :
  season_doc_body py_float py_repr schema COMMIT_INTERVAL name season_doc fr
  = (r, fr1) ->
  (inserted_seasons (season_locals fr) <= inserted_seasons (season_locals fr1)
   <= inserted_seasons (season_locals fr) + 1)%Z.
Proof.
  unfold season_doc_body, bind, in_repo.
  destruct (on_conn (exec_savepoint name) (season_self fr)) as [[[]|e0] pg0].
  2:{ intros H; inversion H; subst; cbn. lia. }
  cbn [season_self season_locals].
  destruct (upsert_season py_float py_repr schema season_doc pg0)
    as [[sid|e1] pg1].
  2:{ intros H; inversion H; subst; cbn. lia. }
  destruct (sql_truthy sid); unfold count_season, ret;
    cbn [season_self season_locals];
    destruct (on_conn (exec_release name) pg1) as [[[]|e2] pg2];
    unfold commit_if_due; cbn [season_self season_locals];
    try (intros H; inversion H; subst; cbn; lia);
    match goal with
    | |- context [(?a <=? ?b)%Z] => destruct (a <=? b)%Z
    end; intros H; inversion H; subst; cbn; lia.
Qed.

(** Where the [try] block of a season document stands when it ends: in a
    usable transaction when it returns, with the savepoint of the document
    still the latest one when it raises. *)
Lemma season_doc_body_transaction (name : string) (season_doc : pydict)
    (c : season_counters) (pg : PgRepo) (r : res unit) (fr1 : season_frame) :
  healthy pg ->
  season_doc_body py_float py_repr schema COMMIT_INTERVAL name season_doc
    (mkSeasonFrame c pg) = (r, fr1) ->
  match r with
  | Ok _ => healthy (season_self fr1)
  | Raise _ =>
      conn_savepoints (conn (season_self fr1))
      = (name, conn_tables (conn pg)) :: conn_savepoints (conn pg)
      /\ conn_committed (conn (season_self fr1)) = conn_committed (conn pg)
  end.
Proof.
  intros Hpg. unfold healthy in Hpg.
  unfold season_doc_body, bind, in_repo, on_conn, exec_savepoint.
  cbn [season_self season_locals]. rewrite Hpg.
  cbn [season_self season_locals].
  set (pg0 := set_conn _ pg).
  assert (Hpg0 : conn_savepoints (conn pg0)
                 = (name, conn_tables (conn pg)) :: conn_savepoints (conn pg)
                 /\ conn_committed (conn pg0) = conn_committed (conn pg)).
  { subst pg0. destruct pg as [[T sq fl sps cm] ca pc st]. cbn in *. auto. }
  destruct Hpg0 as (Hsp & Hcm). clearbody pg0.
  destruct (upsert_season py_float py_repr schema season_doc pg0)
    as [[sid|e1] pg1] eqn:Hup;
    destruct (stable_upsert_season _ _ _ _ Hup) as [Hsp1 Hcm1].
  2:{ intros H; inversion H; subst; cbn.
      split; [rewrite Hsp1; exact Hsp|rewrite Hcm1; exact Hcm]. }
  assert (Hrest : forall c1,
             (let '(r0, fr0) :=
                let '(r0, pg2) :=
                  let '(r0, c0) := exec_release name (conn pg1) in
                  (r0, set_conn c0 pg1) in
                (r0, mkSeasonFrame c1 pg2) in
              match r0 with
              | Ok _ => commit_if_due COMMIT_INTERVAL fr0
              | Raise e => (Raise e, fr0)
              end) = (r, fr1) ->
             match r with
             | Ok _ => healthy (season_self fr1)
             | Raise _ =>
                 conn_savepoints (conn (season_self fr1))
                 = (name, conn_tables (conn pg)) :: conn_savepoints (conn pg)
                 /\ conn_committed (conn (season_self fr1))
                    = conn_committed (conn pg)
             end).
  { intros c1.
    destruct (exec_release name (conn pg1)) as [[[]|e2] c2] eqn:Hrel.
    - apply exec_release_ok in Hrel as (Hf2 & _).
      unfold commit_if_due. cbn [season_self season_locals].
      destruct (COMMIT_INTERVAL <=? _)%Z;
        intros H; inversion H; subst; cbn; [reflexivity|exact Hf2].
    - apply exec_release_raise in Hrel as [Hsp2 Hcm2].
      intros H; inversion H; subst; cbn.
      split; [rewrite Hsp2, Hsp1; exact Hsp|rewrite Hcm2, Hcm1; exact Hcm]. }
  destruct (sql_truthy sid); unfold count_season, ret;
    cbn [season_self season_locals]; intros H; apply (Hrest _ H).
Qed.

(** The [except] clause of the seasons loop returns in every state. *)
Lemma season_except_returns (name : string) (fr1 : season_frame) :
  exists fr2,
    season_except name fr1 = (Ok tt, fr2)
    /\ season_locals fr2 = season_locals fr1.
Proof.
  unfold season_except, catch, bind, in_repo, on_conn, pg_rollback.
  cbn [season_self season_locals].
  destruct (exec_rollback_to name (conn (season_self fr1))) as [[[]|e] c1].
  - cbn [season_self season_locals conn set_conn].
    destruct (exec_release name _) as [[[]|e] c2]; eexists; split; reflexivity.
  - eexists; split; reflexivity.
Qed.

(** The [except] clause of the seasons loop, entered while the savepoint of
    the document is the latest one: the rollback of the whole transaction is
    not reached. *)
Lemma season_except_restores (name : string) (fr1 : season_frame)
    (T : tables) (sps : list (string * tables)) :
  conn_savepoints (conn (season_self fr1)) = (name, T) :: sps ->
  exists fr2,
    season_except name fr1 = (Ok tt, fr2)
    /\ conn_tables (conn (season_self fr2)) = T
    /\ conn_failed (conn (season_self fr2)) = false
    /\ conn_savepoints (conn (season_self fr2)) = sps
    /\ conn_committed (conn (season_self fr2))
       = conn_committed (conn (season_self fr1))
    /\ season_locals fr2 = season_locals fr1.
Proof.
  intros Hsp.
  unfold season_except, catch, bind, in_repo, on_conn, exec_rollback_to.
  cbn [season_self season_locals]. rewrite Hsp. cbn [find_savepoint].
  rewrite String.eqb_refl. cbn [season_self season_locals conn set_conn].
  unfold exec_release. cbn. rewrite String.eqb_refl. cbn.
  eexists. split; [reflexivity|]. cbn. repeat split.
Qed.

Lemma process_season_doc_outcome (i : nat) (season_doc : pydict)
    (fr : season_frame) :
  exists fr',
    process_season_doc py_float py_repr schema time_ns COMMIT_INTERVAL i
      season_doc fr = (Ok tt, fr')
    /\ (inserted_seasons (season_locals fr)
        <= inserted_seasons (season_locals fr')
        <= inserted_seasons (season_locals fr) + 1)%Z
    /\ (healthy (season_self fr) -> healthy (season_self fr')).
Proof.
  unfold process_season_doc, catch.
  destruct (season_doc_body py_float py_repr schema COMMIT_INTERVAL _
              season_doc fr) as [[[]|e] fr1] eqn:Hbody;
    pose proof (season_doc_body_counts _ _ _ _ _ Hbody) as Hins.
  - exists fr1. split; [reflexivity|]. split; [exact Hins|].
    intros Hfr. destruct fr as [c pg].
    exact (season_doc_body_transaction _ _ _ _ _ _ Hfr Hbody).
  - destruct (season_except_returns (sp_name time_ns "sp_season_" i) fr1)
      as (fr2 & Hrun & Hloc).
    exists fr2. split; [exact Hrun|]. rewrite Hloc. split; [exact Hins|].
    intros Hfr. destruct fr as [c pg].
    destruct (season_doc_body_transaction _ _ _ _ _ _ Hfr Hbody) as [Hsp _].
    destruct (season_except_restores _ fr1 _ _ Hsp)
      as (fr3 & Hrun3 & _ & Hf3 & _).
    rewrite Hrun in Hrun3. injection Hrun3 as <-. exact Hf3.
Qed.

Lemma season_loop_outcome (docs : list pydict) (i : nat) (fr : season_frame) :
  exists fr',
    season_loop py_float py_repr schema time_ns COMMIT_INTERVAL i docs fr
    = (Ok tt, fr')
    /\ (inserted_seasons (season_locals fr)
        <= inserted_seasons (season_locals fr')
        <= inserted_seasons (season_locals fr) + Z.of_nat (length docs))%Z
    /\ (healthy (season_self fr) -> healthy (season_self fr')).
Proof.
  revert i fr. induction docs as [|d docs IH]; intros i fr.
  - exists fr. cbn. split; [reflexivity|]. split; [lia|auto].
  - cbn [season_loop]. unfold bind.
    destruct (process_season_doc_outcome i d fr) as (fr1 & -> & Hins & Hh).
    destruct (IH (S i) fr1) as (fr' & Hloop & Hins' & Hh').
    exists fr'. split; [exact Hloop|]. cbn [length].
    split; [lia|auto].
Qed.

(** The seasons stage of [seed_from_mongo] returns whatever the documents
    and the store do; the count it returns lies between zero and the number
    of documents; it ends with a usable connection, no savepoint, and every
    table committed as it stands, and when the connection was usable at the
    start the last commit keeps what the loop left. *)
Theorem seasons_stage_ends_committed (cursor : list pydict) (pg : PgRepo) :
  exists n pg',
    seed_seasons py_float py_repr schema time_ns COMMIT_INTERVAL cursor pg
    = (Ok n, pg')
    /\ (0 <= n <= Z.of_nat (length cursor))%Z
    /\ healthy pg'
    /\ conn_savepoints (conn pg') = []
    /\ conn_committed (conn pg') = conn_tables (conn pg')
    /\ (healthy pg ->
        conn_tables (conn pg')
        = conn_tables
            (conn (season_self
                     (snd (season_loop py_float py_repr schema time_ns
                             COMMIT_INTERVAL 0 cursor
                             (mkSeasonFrame (mkSeasonCounters 0 0) pg)))))).
Proof.
  unfold seed_seasons.
  destruct (season_loop_outcome cursor 0%nat
              (mkSeasonFrame (mkSeasonCounters 0 0) pg))
    as (fr & Hloop & Hins & Hh).
  rewrite Hloop. cbn [season_locals inserted_seasons season_self snd] in *.
  eexists _, _. split; [reflexivity|].
  split; [lia|]. unfold healthy. cbn.
  repeat split. intros Hpg. specialize (Hh Hpg). unfold healthy in Hh.
  rewrite Hh. reflexivity.
Qed.

(** When the [try] block of a season document raises at any step on a
    usable connection, the iteration returns normally, the tables are those
    before the document, with the seasons loaded earlier in the same
    transaction, and the savepoints and the committed state are unchanged:
    the rollback of the whole transaction in the [except] clause is not
    reached. *)
Theorem failing_season_is_rolled_back (i : nat) (season_doc : pydict)
    (c : season_counters) (pg : PgRepo) (e : exn) (fr1 : season_frame) :
  healthy pg ->
  season_doc_body py_float py_repr schema COMMIT_INTERVAL
    (sp_name time_ns "sp_season_" i) season_doc (mkSeasonFrame c pg)
  = (Raise e, fr1) ->
  exists fr2,
    process_season_doc py_float py_repr schema time_ns COMMIT_INTERVAL i
      season_doc (mkSeasonFrame c pg) = (Ok tt, fr2)
    /\ conn_tables (conn (season_self fr2)) = conn_tables (conn pg)
    /\ healthy (season_self fr2)
    /\ conn_savepoints (conn (season_self fr2)) = conn_savepoints (conn pg)
    /\ conn_committed (conn (season_self fr2)) = conn_committed (conn pg)
    /\ season_locals fr2 = season_locals fr1.
Proof.
  intros Hpg Hbody.
  destruct (season_doc_body_transaction _ _ _ _ _ _ Hpg Hbody) as [Hsp Hcm].
  destruct (season_except_restores _ fr1 _ _ Hsp)
    as (fr2 & Hrun & HT & Hf & Hsp2 & Hcm2 & Hloc).
  exists fr2. unfold process_season_doc, catch. rewrite Hbody.
  split; [exact Hrun|]. split; [exact HT|]. split; [exact Hf|].
  split; [exact Hsp2|]. split; [rewrite Hcm2; exact Hcm|exact Hloc].
Qed.

End SeasonFacts.

(** ** Closed instances: normalizers, batches and stages *)

(** The theorem at the value ["  Dune "]. *)
Lemma normalize_text_witness :
  normalize_text no_repr (VStr "  Dune ") = Some "Dune"
  /\ py_strip "Dune" = "Dune".
Proof.
  split; [reflexivity|].
  apply (normalize_text_result_is_trimmed no_repr (VStr "  Dune ") "Dune").
  reflexivity.
Defined.

(** The theorem at a text of three characters, kept under a bound of five. *)
Lemma truncate_text_witness :
  exists t, truncate_text (Some "abc") 5 = Some t /\ t = "abc".
Proof.
  destruct (truncate_text_keeps_a_prefix "abc" 5)
    as (_ & t & Ht & _ & _ & Hshort & _).
  exists t. split; [exact Ht|]. apply Hshort. cbn. lia.
Defined.

(** The theorem at a document without a [premiere]. *)
Lemma get_nested_witness :
  dict_lookup [("name", VStr "Film")] "premiere" = None
  /\ get_nested (VDict [("name", VStr "Film")]) ["premiere"; "world"] = VNone.
Proof.
  split; [reflexivity|].
  destruct (get_nested_along_a_split_path VNone [] ["world"])
    as (_ & Hmissing & _).
  apply Hmissing. reflexivity.
Defined.

(** The theorem at a batch of two documents, the second of which fails. *)
Lemma movie_batch_witness :
  healthy empty_pg
  /\ exists n pg',
      process_movie_batch float_of_digits no_repr spec_schema tick
        [sound_doc_before; broken_facts_doc] empty_pg = (Ok n, pg')
      /\ healthy pg' /\ same_transaction empty_pg pg'.
Proof.
  split; [reflexivity|].
  destruct (movie_batch_returns_a_count float_of_digits no_repr spec_schema
              tick [sound_doc_before; broken_facts_doc] empty_pg)
    as (n & pg' & Hrun & _ & Hh).
  exists n, pg'. split; [exact Hrun|]. apply Hh. reflexivity.
Defined.

(** The theorem at a batch of three person documents, the second of which
    has no name. *)
Lemma people_batch_witness :
  healthy empty_pg
  /\ exists n pg',
      process_people_batch no_repr spec_schema tick three_people empty_pg
      = (Ok n, pg')
      /\ healthy pg' /\ same_transaction empty_pg pg'.
Proof.
  split; [reflexivity|].
  destruct (people_batch_returns_a_count no_repr spec_schema tick three_people
              empty_pg) as (n & pg' & Hrun & _ & Hh).
  exists n, pg'. split; [exact Hrun|]. apply Hh. reflexivity.
Defined.

(** The theorem at a cursor of three documents and a batch size of two: the
    first batch holds two documents. *)
Lemma cursor_batches_witness :
  batches_from 2 [] three_people !! 0%nat = Some (take 2 three_people)
  /\ Z.of_nat (length (take 2 three_people)) = Z.max 1 2.
Proof.
  split; [reflexivity|].
  destruct (cursor_is_processed_in_batches 2
              (process_people_batch no_repr spec_schema tick) pg_commit
              three_people) as (_ & _ & Hsizes).
  destruct (Hsizes 0%nat (take 2 three_people) eq_refl) as [_ Hfull].
  apply Hfull. vm_compute. lia.
Defined.

(** The theorem at a cursor of three person documents and a batch size of
    two. *)
Lemma seeding_stage_witness :
  three_people <> []
  /\ exists total pg',
      seed_people no_repr spec_schema tick 2 three_people empty_pg
      = (Ok total, pg')
      /\ conn_committed (conn pg') = conn_tables (conn pg').
Proof.
  split; [discriminate|].
  destruct (seeding_stage_ends_committed float_of_digits no_repr spec_schema
              tick 2 three_people empty_pg)
    as [(total & pg' & Hrun & _ & _ & Hc) _].
  exists total, pg'. split; [exact Hrun|]. apply Hc. discriminate.
Defined.

(** The theorem at a batch of two documents, the second of which fails. *)
Lemma commit_after_batch_witness :
  healthy empty_pg
  /\ conn_committed
       (conn (snd (run_movie_batch float_of_digits no_repr spec_schema tick
                     [sound_doc_before; broken_facts_doc] empty_pg)))
     = conn_tables
         (conn (snd (process_movie_batch float_of_digits no_repr spec_schema
                       tick [sound_doc_before; broken_facts_doc] empty_pg))).
Proof.
  split; [reflexivity|].
  apply (commit_after_batch_keeps_the_batch float_of_digits no_repr
           spec_schema tick [sound_doc_before; broken_facts_doc] empty_pg).
  reflexivity.
Defined.

(** The theorem at a cursor of one season of movie 7. *)
Lemma seasons_stage_witness :
  healthy pg_with_movie_7
  /\ exists n pg',
      seed_seasons float_of_digits no_repr spec_schema tick 500
        [season_zero_doc] pg_with_movie_7 = (Ok n, pg')
      /\ conn_committed (conn pg') = conn_tables (conn pg').
Proof.
  split; [reflexivity|].
  destruct (seasons_stage_ends_committed float_of_digits no_repr spec_schema
              tick 500 [season_zero_doc] pg_with_movie_7)
    as (n & pg' & Hrun & _ & _ & _ & Hc & _).
  exists n, pg'. split; [exact Hrun|exact Hc].
Defined.

(** The theorem at a season of movie 7 whose episode is a string: the season
    row is written, then the episode raises. *)
Lemma failing_season_witness :
  healthy pg_with_movie_7
  /\ exists fr2,
      process_season_doc float_of_digits no_repr spec_schema tick 500 0
        broken_season_doc (mkSeasonFrame (mkSeasonCounters 0 0) pg_with_movie_7)
      = (Ok tt, fr2)
      /\ conn_tables (conn (season_self fr2))
         = conn_tables (conn pg_with_movie_7).
Proof.
  split; [reflexivity|].
  destruct (season_doc_body float_of_digits no_repr spec_schema 500
              (sp_name tick "sp_season_" 0) broken_season_doc
              (mkSeasonFrame (mkSeasonCounters 0 0) pg_with_movie_7))
    as [[[]|e] fr1] eqn:Hbody.
  { vm_compute in Hbody. discriminate. }
  destruct (failing_season_is_rolled_back float_of_digits no_repr spec_schema
              tick 500 0 broken_season_doc (mkSeasonCounters 0 0)
              pg_with_movie_7 e fr1 eq_refl Hbody)
    as (fr2 & Hrun & HT & _).
  exists fr2. split; [exact Hrun|exact HT].
Defined.

(** ** [EsRepo] *)

Section ElasticsearchFacts.

Variable has_bulk : bool.
Variable es_accepts : nat -> es_request -> bool.

Lemma handed_send (r : es_request) (w : es_world) :
  handed (es_send es_accepts r w) = handed w ++ actions_of r.
Proof.
  unfold handed, es_send. cbn. rewrite map_app, concat_app. cbn.
  rewrite app_nil_r. reflexivity.
Qed.

Lemma handed_with_buffer (b : list es_action) (w : es_world) :
  handed (with_buffer b w) = handed w.
Proof. reflexivity. Qed.

(** What is handed to the client and what waits in the buffer, together,
    after one call. *)
Lemma es_run_call_conserves (c : es_call) (w : es_world) :
  es_client (es_repo w) = true ->
  (has_bulk = false -> _buffer (es_repo w) = []) ->
  es_client (es_repo (es_run_call has_bulk es_accepts c w)) = true
  /\ (has_bulk = false ->
      _buffer (es_repo (es_run_call has_bulk es_accepts c w)) = [])
  /\ handed (es_run_call has_bulk es_accepts c w)
     ++ _buffer (es_repo (es_run_call has_bulk es_accepts c w))
     = handed w ++ _buffer (es_repo w) ++ indexed_by [c].
Proof.
  intros Hclient Hnobulk.
  destruct c as [movie_id body|]; cbn [es_run_call indexed_by map concat].
  - unfold index_movie. rewrite Hclient. cbn [negb].
    destruct has_bulk; cbn [negb].
    + remember (_buffer (es_repo w) ++ [mkEsAction movie_id body]) as b
        eqn:Hbdef.
      assert (Hb : b <> []).
      { subst b. destruct (_buffer (es_repo w)); discriminate. }
      change (_bulk_size (es_repo (with_buffer b w)))
        with (_bulk_size (es_repo w)).
      change (_buffer (es_repo (with_buffer b w))) with b.
      destruct (_ <=? _)%Z.
      * unfold es_flush.
        change (es_client (es_repo (with_buffer b w)))
          with (es_client (es_repo w)).
        change (_buffer (es_repo (with_buffer b w))) with b.
        rewrite Hclient. cbn [negb orb].
        destruct b as [|a l]; [contradiction|]. cbn [orb].
        split; [exact Hclient|]. split; [discriminate|].
        rewrite handed_with_buffer, handed_send, handed_with_buffer.
        cbn [actions_of with_buffer es_repo _buffer].
        rewrite Hbdef, !app_nil_r. reflexivity.
      * split; [exact Hclient|]. split; [discriminate|].
        rewrite handed_with_buffer.
        cbn [with_buffer es_repo _buffer].
        rewrite Hbdef, app_nil_r. reflexivity.
    + pose proof (Hnobulk eq_refl) as Hb.
      split; [exact Hclient|]. split; [intros _; exact Hb|].
      rewrite handed_send. cbn [es_send es_repo actions_of].
      rewrite Hb, !app_nil_r. reflexivity.
  - unfold es_flush. rewrite Hclient. cbn [negb orb].
    destruct (_buffer (es_repo w)) as [|a l] eqn:Hb; cbn [orb].
    + split; [exact Hclient|]. split; [reflexivity|].
      rewrite handed_with_buffer. cbn. rewrite !app_nil_r. reflexivity.
    + destruct has_bulk; cbn [negb orb].
      * split; [exact Hclient|]. split; [discriminate|].
        rewrite handed_with_buffer, handed_send.
        cbn. rewrite !app_nil_r. reflexivity.
      * discriminate (Hnobulk eq_refl).
Qed.

Lemma es_run_conserves (calls : list es_call) (w : es_world) :
  es_client (es_repo w) = true ->
  (has_bulk = false -> _buffer (es_repo w) = []) ->
  handed (es_run has_bulk es_accepts calls w)
  ++ _buffer (es_repo (es_run has_bulk es_accepts calls w))
  = handed w ++ _buffer (es_repo w) ++ indexed_by calls.
Proof.
  revert w. induction calls as [|c calls IH]; intros w Hclient Hnobulk.
  - cbn. rewrite app_nil_r. reflexivity.
  - cbn [es_run fold_left].
    destruct (es_run_call_conserves c w Hclient Hnobulk) as (Hc1 & Hn1 & H1).
    fold (es_run has_bulk es_accepts calls
            (es_run_call has_bulk es_accepts c w)).
    rewrite (IH _ Hc1 Hn1), app_assoc, H1.
    unfold indexed_by. cbn [map concat]. rewrite app_nil_r, <- !app_assoc.
    reflexivity.
Qed.

Lemma es_flush_conserves (w : es_world) :
  es_client (es_repo w) = true ->
  (has_bulk = false -> _buffer (es_repo w) = []) ->
  _buffer (es_repo (es_flush has_bulk es_accepts w)) = []
  /\ handed (es_flush has_bulk es_accepts w)
     = handed w ++ _buffer (es_repo w).
Proof.
  intros Hclient Hnobulk.
  destruct (es_run_call_conserves CallFlush w Hclient Hnobulk)
    as (_ & _ & H).
  cbn [es_run_call indexed_by map concat] in H.
  assert (Hb : _buffer (es_repo (es_flush has_bulk es_accepts w)) = []).
  { unfold es_flush. destruct (_ || _ || _); reflexivity. }
  split; [exact Hb|]. rewrite Hb, !app_nil_r in H. exact H.
Qed.

Lemma es_run_keeps (calls : list es_call) (w : es_world) :
  es_client (es_repo w) = true ->
  (has_bulk = false -> _buffer (es_repo w) = []) ->
  es_client (es_repo (es_run has_bulk es_accepts calls w)) = true
  /\ (has_bulk = false ->
      _buffer (es_repo (es_run has_bulk es_accepts calls w)) = []).
Proof.
  revert w. induction calls as [|c calls IH]; intros w Hclient Hnobulk.
  - auto.
  - cbn [es_run fold_left].
    destruct (es_run_call_conserves c w Hclient Hnobulk) as (Hc1 & Hn1 & _).
    exact (IH _ Hc1 Hn1).
Qed.

Lemma delivered_when_accepted (w : es_world) :
  (forall rq, In rq (es_requests w) -> snd rq = true) ->
  delivered w = handed w.
Proof.
  unfold delivered, handed. intros Hall.
  induction (es_requests w) as [|rq l IH]; [reflexivity|].
  cbn [map concat]. rewrite (Hall rq) by (left; reflexivity).
  rewrite IH; [reflexivity|]. intros rq' Hin. apply Hall. right. exact Hin.
Qed.

Lemma delivered_sublist (w : es_world) : sublist (delivered w) (handed w).
Proof.
  unfold delivered, handed.
  induction (es_requests w) as [|[r ok] l IH]; [constructor|].
  cbn [map concat fst snd]. apply sublist_app; [|exact IH].
  destruct ok; [reflexivity|apply sublist_nil_l].
Qed.

Lemma es_send_requests (r : es_request) (w : es_world)
    (rq : es_request * bool) :
  In rq (es_requests (es_send es_accepts r w)) ->
  In rq (es_requests w)
  \/ rq = (r, es_accepts (length (es_requests w)) r).
Proof.
  unfold es_send. cbn. intros Hin. apply in_app_or in Hin as [Hin|[<-|[]]];
    auto.
Qed.

Lemma es_run_call_requests (c : es_call) (w : es_world)
    (rq : es_request * bool) :
  In rq (es_requests (es_run_call has_bulk es_accepts c w)) ->
  In rq (es_requests w)
  \/ exists r, rq = (r, es_accepts (length (es_requests w)) r).
Proof.
  destruct c as [movie_id body|]; cbn [es_run_call].
  - unfold index_movie. destruct (negb _); [auto|].
    destruct (negb has_bulk).
    { intros Hin. apply es_send_requests in Hin as [Hin|Hin]; eauto. }
    destruct (_ <=? _)%Z; [|auto].
    unfold es_flush. destruct (_ || _ || _); [auto|].
    intros Hin. apply es_send_requests in Hin as [Hin|Hin]; eauto.
  - unfold es_flush. destruct (_ || _ || _); [auto|].
    intros Hin. apply es_send_requests in Hin as [Hin|Hin]; eauto.
Qed.

Lemma es_run_requests (calls : list es_call) (w : es_world)
    (rq : es_request * bool) :
  In rq (es_requests (es_run has_bulk es_accepts calls w)) ->
  In rq (es_requests w) \/ exists n r, rq = (r, es_accepts n r).
Proof.
  revert w. induction calls as [|c calls IH]; intros w; [auto|].
  cbn [es_run fold_left]. intros Hin. apply IH in Hin as [Hin|Hin]; [|auto].
  apply es_run_call_requests in Hin as [Hin|[r Hr]]; eauto.
Qed.

(** With a client, every action that [index_movie] is asked to index is
    handed to the client exactly once, in the order of the calls, or still
    waits in the buffer; after a [flush] none waits.  A request that raises
    is not repeated: what returned is a sublist of what was handed, and all
    of it when every request returns.  Without a client no request is
    made. *)
Theorem every_indexed_action_is_handed_once (calls : list es_call)
    (bulk_size : Z) :
  let connected := mkEsWorld (mkEsRepo true [] bulk_size) [] in
  let w := es_run has_bulk es_accepts calls connected in
  handed w ++ _buffer (es_repo w) = indexed_by calls
  /\ _buffer (es_repo (es_flush has_bulk es_accepts w)) = []
  /\ handed (es_flush has_bulk es_accepts w) = indexed_by calls
  /\ sublist (delivered (es_flush has_bulk es_accepts w)) (indexed_by calls)
  /\ ((forall n r, es_accepts n r = true) ->
      delivered (es_flush has_bulk es_accepts w) = indexed_by calls)
  /\ es_requests
       (es_flush has_bulk es_accepts
          (es_run has_bulk es_accepts calls
             (mkEsWorld (mkEsRepo false [] bulk_size) []))) = [].
Proof.
  intros connected w.
  assert (Hclient : es_client (es_repo connected) = true) by reflexivity.
  assert (Hnobulk : has_bulk = false -> _buffer (es_repo connected) = [])
    by reflexivity.
  pose proof (es_run_conserves calls connected Hclient Hnobulk) as Hrun.
  destruct (es_run_keeps calls connected Hclient Hnobulk) as [Hc Hn].
  fold w in Hrun, Hc, Hn. cbn [handed connected es_requests map concat
                                 es_repo _buffer app] in Hrun.
  destruct (es_flush_conserves w Hc Hn) as [Hempty Hflush].
  rewrite Hrun in Hflush.
  split; [exact Hrun|]. split; [exact Hempty|]. split; [exact Hflush|].
  split; [rewrite <- Hflush; apply delivered_sublist|]. split.
  - intros Hall. rewrite <- Hflush. apply delivered_when_accepted.
    intros rq Hin.
    change (es_flush has_bulk es_accepts w)
      with (es_run_call has_bulk es_accepts CallFlush w) in Hin.
    apply es_run_call_requests in Hin as [Hin|[r ->]]; [|apply Hall].
    apply es_run_requests in Hin as [[]|(n & r & ->)]. apply Hall.
  - clear. set (w0 := mkEsWorld (mkEsRepo false [] bulk_size) []).
    assert (Hinv : forall cs w1,
               es_client (es_repo w1) = false ->
               es_requests (es_run has_bulk es_accepts cs w1) = es_requests w1
               /\ es_client (es_repo (es_run has_bulk es_accepts cs w1))
                  = false).
    { induction cs as [|c cs IH]; intros w1 H1; [auto|].
      cbn [es_run fold_left].
      assert (Hstep : es_requests (es_run_call has_bulk es_accepts c w1)
                      = es_requests w1
                      /\ es_client
                           (es_repo (es_run_call has_bulk es_accepts c w1))
                         = false).
      { destruct c; cbn [es_run_call]; unfold index_movie, es_flush;
          rewrite H1; cbn; auto. }
      destruct Hstep as [Hr Hc].
      destruct (IH _ Hc) as [Hr' Hc']. unfold es_run in Hr', Hc'.
      split; [rewrite Hr'; exact Hr|exact Hc']. }
    destruct (Hinv calls w0 eq_refl) as [Hr Hc].
    unfold es_flush. rewrite Hc. cbn. exact Hr.
Qed.

(** With the bulk helper, the buffer never reaches the bulk size (one, when
    the bulk size is below one), and no bulk request is empty or holds more
    actions than that. *)
Theorem buffer_stays_below_the_bulk_size (calls : list es_call)
    (bulk_size : Z) :
  has_bulk = true ->
  let w := es_run has_bulk es_accepts calls
             (mkEsWorld (mkEsRepo true [] bulk_size) []) in
  (Z.of_nat (length (_buffer (es_repo w))) < Z.max 1 bulk_size)%Z
  /\ forall actions ok,
      In (EsBulk actions, ok) (es_requests w) ->
      (0 < Z.of_nat (length actions) <= Z.max 1 bulk_size)%Z.
Proof.
  intros Hbulk.
  set (inv := fun w : es_world =>
                es_client (es_repo w) = true
                /\ _bulk_size (es_repo w) = bulk_size
                /\ (Z.of_nat (length (_buffer (es_repo w)))
                    < Z.max 1 bulk_size)%Z
                /\ forall actions ok,
                    In (EsBulk actions, ok) (es_requests w) ->
                    (0 < Z.of_nat (length actions) <= Z.max 1 bulk_size)%Z).
  assert (Hstep : forall c w, inv w ->
                              inv (es_run_call has_bulk es_accepts c w)).
  { intros c w (Hclient & Hsize & Hlen & Hreq).
    assert (Hsend : forall b actions ok,
               (0 < Z.of_nat (length b) <= Z.max 1 bulk_size)%Z ->
               In (EsBulk actions, ok)
                 (es_requests (es_send es_accepts (EsBulk b) w)) ->
               (0 < Z.of_nat (length actions) <= Z.max 1 bulk_size)%Z).
    { intros b actions ok Hb Hin.
      apply es_send_requests in Hin as [Hin|Hin]; [exact (Hreq _ _ Hin)|].
      injection Hin as -> _. exact Hb. }
    destruct c as [movie_id body|]; cbn [es_run_call].
    - unfold index_movie. rewrite Hclient, Hbulk. cbn [negb].
      remember (_buffer (es_repo w) ++ [mkEsAction movie_id body]) as b
        eqn:Hb.
      assert (Hlb : (Z.of_nat (length b)
                     = Z.of_nat (length (_buffer (es_repo w))) + 1)%Z).
      { subst b. rewrite length_app. cbn [length]. lia. }
      change (_bulk_size (es_repo (with_buffer b w)))
        with (_bulk_size (es_repo w)).
      change (_buffer (es_repo (with_buffer b w))) with b.
      rewrite Hsize.
      destruct (bulk_size <=? Z.of_nat (length b))%Z eqn:Hfull.
      + apply Z.leb_le in Hfull. unfold es_flush.
        change (es_client (es_repo (with_buffer b w)))
          with (es_client (es_repo w)).
        change (_buffer (es_repo (with_buffer b w))) with b.
        rewrite Hclient. cbn [negb orb].
        destruct b as [|a l] eqn:Hbl; [cbn in Hlb; lia|]. cbn [orb].
        split; [exact Hclient|]. split; [exact Hsize|].
        split; [cbn; lia|].
        intros actions ok Hin. apply (Hsend (a :: l) actions ok); [lia|].
        exact Hin.
      + apply Z.leb_gt in Hfull.
        split; [exact Hclient|]. split; [exact Hsize|].
        split; [cbn [with_buffer es_repo _buffer]; lia|].
        intros actions ok Hin. exact (Hreq _ _ Hin).
    - unfold es_flush. rewrite Hclient, Hbulk. cbn [negb orb].
      destruct (_buffer (es_repo w)) as [|a l] eqn:Hb; cbn [orb].
      + split; [exact Hclient|]. split; [exact Hsize|].
        split; [cbn; lia|].
        intros actions ok Hin. exact (Hreq _ _ Hin).
      + split; [exact Hclient|]. split; [exact Hsize|].
        split; [cbn; lia|].
        intros actions ok Hin. apply (Hsend (a :: l) actions ok); [|exact Hin].
        cbn [length] in *. lia. }
  assert (Hrun : forall cs w, inv w -> inv (es_run has_bulk es_accepts cs w)).
  { induction cs as [|c cs IH]; intros w Hw; [exact Hw|].
    cbn [es_run fold_left]. apply IH, Hstep, Hw. }
  intros w.
  assert (Hw : inv w).
  { apply Hrun. split; [reflexivity|]. split; [reflexivity|].
    split; [cbn; lia|]. intros actions ok []. }
  destruct Hw as (_ & _ & Hlen & Hreq). split; [exact Hlen|exact Hreq].
Qed.

End ElasticsearchFacts.

(** ** [transform_movie_to_es] *)

Section TransformFacts.

Variable py_float : string -> option spec_float.
Variable py_repr : pyval -> string.

Lemma named_entries_iter (v : pyval) :
  is_ok (py_iter v) = true -> is_ok (named_entries v) = true.
Proof.
  unfold named_entries. destruct (py_iter v); [reflexivity|discriminate].
Qed.

Lemma names_of_iter (movie_doc : pydict) (k : string) (names : list string) :
  names_of py_repr movie_doc k = Ok names ->
  is_ok (py_iter (py_or (dict_get movie_doc k) (VList []))) = true.
Proof.
  unfold names_of. destruct (py_iter _); [reflexivity|discriminate].
Qed.

(** The sub-documents [insert_movie_core] has read are dicts. *)
Lemma movie_core_values_sub_docs (movie : pydict) (id : option Z)
    (cols : list sqlval) :
  movie_core_values py_float py_repr movie = Ok (Some (id, cols)) ->
  is_dict (sub_doc movie "rating") = true
  /\ is_dict (sub_doc movie "votes") = true
  /\ is_dict (sub_doc movie "poster") = true
  /\ is_dict (sub_doc movie "backdrop") = true.
Proof.
  unfold movie_core_values.
  destruct (negb (str_truthy _)); [discriminate|]. cbv zeta.
  intros H.
  assert (Hget : forall v k, is_ok (py_get v k) = true -> is_dict v = true).
  { intros v k. destruct v; try discriminate. reflexivity. }
  repeat match type of H with
         | res_bind ?x _ = _ =>
             let Hx := fresh "Hx" in
             destruct x eqn:Hx; cbn [res_bind] in H; [|discriminate]
         end.
  repeat split.
  - apply (Hget _ "kp"). rewrite Hx1. reflexivity.
  - apply (Hget _ "kp"). 
    match goal with
    | Hv : py_get (sub_doc movie "votes") "kp" = Ok _ |- _ => rewrite Hv
    end. reflexivity.
  - apply (Hget _ "url").
    match goal with
    | Hv : py_get (sub_doc movie "poster") "url" = Ok _ |- _ => rewrite Hv
    end. reflexivity.
  - apply (Hget _ "url").
    match goal with
    | Hv : py_get (sub_doc movie "backdrop") "url" = Ok _ |- _ => rewrite Hv
    end. reflexivity.
Qed.

Lemma py_get_dict (v : pyval) (k : string) :
  is_dict v = true -> exists x, py_get v k = Ok x.
Proof. destruct v; try discriminate. intros _. eexists. reflexivity. Qed.

(** [transform_movie_to_es] returns on every document the relational
    loaders have accepted up to the people links, provided the [persons]
    field can be iterated: the sub-documents it reads are those
    [insert_movie_core] has read, the lists those of the country and genre
    links.  The document it builds holds the identifier it was given and
    the raw [name] as title.  When [persons] cannot be iterated, which the
    relational loaders tolerate, it raises. *)
Theorem transform_returns_on_a_loaded_document (now : string)
    (movie_id : pyval) (movie : pydict) (id : option Z) (cols : list sqlval)
    (countries genres : list string) :
  movie_core_values py_float py_repr movie = Ok (Some (id, cols)) ->
  names_of py_repr movie "countries" = Ok countries ->
  names_of py_repr movie "genres" = Ok genres ->
  match py_iter (py_or (dict_get movie "persons") (VList [])) with
  | Ok persons =>
      exists es_doc,
        transform_movie_to_es now movie_id movie = Ok es_doc
        /\ dict_get es_doc "movie_id" = movie_id
        /\ dict_get es_doc "title" = dict_get movie "name"
        /\ dict_get es_doc "people"
           = VList (map person_entry (List.filter is_dict persons))
  | Raise e => transform_movie_to_es now movie_id movie = Raise e
  end.
Proof.
  intros Hcore Hcountries Hgenres.
  destruct (movie_core_values_sub_docs _ _ _ Hcore) as (Hr & Hv & Hp & Hb).
  apply names_of_iter in Hcountries. apply names_of_iter in Hgenres.
  unfold transform_movie_to_es, named_entries, person_entries.
  destruct (py_iter (py_or (dict_get movie "genres") (VList [])))
    as [gs|]; [|discriminate].
  destruct (py_iter (py_or (dict_get movie "countries") (VList [])))
    as [cs|]; [|discriminate].
  cbn [res_bind].
  destruct (py_iter (py_or (dict_get movie "persons") (VList [])))
    as [ps|e]; [|reflexivity].
  cbn [res_bind].
  destruct (py_get_dict _ "kp" Hr) as [x1 ->].
  destruct (py_get_dict _ "imdb" Hr) as [x2 ->].
  destruct (py_get_dict _ "kp" Hv) as [x3 ->].
  destruct (py_get_dict _ "imdb" Hv) as [x4 ->].
  destruct (py_get_dict _ "url" Hp) as [x5 ->].
  destruct (py_get_dict _ "url" Hb) as [x6 ->].
  cbn [res_bind]. eexists. split; [reflexivity|].
  repeat split; reflexivity.
Qed.

End TransformFacts.

(** ** [RedisRepo] *)

Section RedisFacts.

Variable py_float : string -> option spec_float.
Variable py_repr : pyval -> string.
Variable json_dumps : pyval -> option string.
Variable TRENDING_MIN_RATING : spec_float.
Variable TRENDING_MIN_YEAR : Z.
Variable ALWAYS_CACHE_RECENT : bool.
Variable REDIS_PIPELINE_SIZE : Z.
Variable redis_accepts : nat -> list redis_command -> bool.

Abbreviation commands_for :=
  (trending_commands py_float py_repr json_dumps TRENDING_MIN_RATING
     TRENDING_MIN_YEAR ALWAYS_CACHE_RECENT).
Abbreviation cache_movie :=
  (cache_trending_movie py_float py_repr json_dumps TRENDING_MIN_RATING
     TRENDING_MIN_YEAR ALWAYS_CACHE_RECENT REDIS_PIPELINE_SIZE redis_accepts).

(** A movie without a usable year, or older than [TRENDING_MIN_YEAR], or
    whose [rating] field is present and is not a dict ([None] included), is
    not cached: the call queues nothing and leaves the repository as it
    was, whatever the ratings and [ALWAYS_CACHE_RECENT]. *)
Theorem old_or_malformed_movie_is_not_cached (now : string)
    (movie_id : pyval) (movie_data : pydict) (w : redis_world) :
  (as_int py_float py_repr (dict_get movie_data "year") = None
   \/ (exists year,
          as_int py_float py_repr (dict_get movie_data "year") = Some year
          /\ (year < TRENDING_MIN_YEAR)%Z)
   \/ is_dict (dict_get_default movie_data "rating" (VDict [])) = false) ->
  cache_movie now movie_id movie_data w = w.
Proof.
  intros Hcase. unfold cache_trending_movie.
  destruct (negb _); [reflexivity|].
  assert (Hnone : forall cmds, commands_for now movie_id movie_data
                               <> Ok (Some cmds)).
  { intros cmds. unfold trending_commands.
    destruct (dict_get_default movie_data "rating" (VDict [])) eqn:Hrating;
      try discriminate.
    cbn [py_get res_bind].
    destruct Hcase as [Hyear|[(year & Hyear & Hlt)|Hdict]];
      [rewrite Hyear; discriminate| |discriminate].
    rewrite Hyear. apply Z.ltb_lt in Hlt. rewrite Hlt. discriminate. }
  destruct (commands_for now movie_id movie_data) as [[cmds|]|e];
    [|reflexivity|reflexivity].
  exfalso. exact (Hnone cmds eq_refl).
Qed.

Lemma max_rating_of_float (a b : option spec_float) (f : spec_float) :
  max_rating_of a b = VFloat f ->
  float_truthy f = true /\ (a = Some f \/ b = Some f).
Proof.
  unfold max_rating_of.
  destruct a as [x|], b as [y|]; cbv beta zeta iota;
    try (destruct (float_truthy x) eqn:Hx);
    try (destruct (float_truthy y) eqn:Hy);
    try discriminate;
    try (destruct (SFltb x y)); intros H; injection H as <-; auto.
Qed.

Lemma max_rating_of_cases (a b : option spec_float) :
  max_rating_of a b = VInt 0 \/ exists f, max_rating_of a b = VFloat f.
Proof.
  unfold max_rating_of.
  destruct a as [x|], b as [y|]; cbv beta zeta iota;
    try (destruct (float_truthy x));
    try (destruct (float_truthy y)); eauto.
Qed.

Lemma max_rating_of_shape (a b : option spec_float) :
  max_rating_of a b = VInt 0
  \/ exists f, max_rating_of a b = VFloat f /\ float_truthy f = true.
Proof.
  destruct (max_rating_of_cases a b) as [H0|[f Hf]]; [auto|].
  right. exists f. split; [exact Hf|]. apply (max_rating_of_float _ _ _ Hf).
Qed.

Lemma score_reaches (max_rating : pyval) (threshold : spec_float) :
  rating_reaches max_rating threshold = true ->
  (max_rating = VInt 0
   \/ exists f, max_rating = VFloat f /\ float_truthy f = true) ->
  SFleb threshold (rating_score max_rating) = true.
Proof.
  intros Hmeets [->|(f & -> & Hf)]; [exact Hmeets|].
  unfold rating_score. rewrite Hf. exact Hmeets.
Qed.

(** What [cache_trending_movie] queues for a movie it caches: the year of
    the movie is at least [TRENDING_MIN_YEAR]; the first command writes the
    summary of twelve fields under the key of the movie; the movie is added
    to the recent set with its year as score; it is added to the high-rated
    set only with a score that reaches [TRENDING_MIN_RATING], one of its two
    ratings or zero, and always when [ALWAYS_CACHE_RECENT] is off; and every
    key a command names is set to expire after thirty days by the same
    commands. *)
Theorem queued_commands_of_a_cached_movie (now : string) (movie_id : pyval)
    (movie_data : pydict) (commands : list redis_command) :
  commands_for now movie_id movie_data = Ok (Some commands) ->
  exists year summary,
    as_int py_float py_repr (dict_get movie_data "year") = Some year
    /\ (TRENDING_MIN_YEAR <= year)%Z
    /\ hd_error commands = Some (HSet (movie_key py_repr movie_id) summary)
    /\ map fst summary
       = ["id"; "title"; "year"; "rating_kp"; "rating_imdb"; "max_rating";
          "type"; "poster_url"; "description"; "genres"; "countries";
          "cached_at"]
    /\ In (ZAdd recent_key (py_str py_repr movie_id) (VInt year)) commands
    /\ (forall member score,
           In (ZAdd trending_key member score) commands ->
           member = py_str py_repr movie_id
           /\ exists f, score = VFloat f
                        /\ SFleb TRENDING_MIN_RATING f = true)
    /\ (ALWAYS_CACHE_RECENT = false ->
        exists f,
          In (ZAdd trending_key (py_str py_repr movie_id) (VFloat f))
            commands)
    /\ (forall c, In c commands ->
                  In (Expire (command_key c) thirty_days) commands).
Proof.
  unfold trending_commands.
  destruct (py_get _ "kp") as [v_kp|]; [|discriminate].
  destruct (py_get _ "imdb") as [v_imdb|]; [|discriminate].
  cbn [res_bind].
  set (rating_kp := as_float py_float py_repr v_kp).
  set (rating_imdb := as_float py_float py_repr v_imdb).
  set (max_rating := max_rating_of rating_kp rating_imdb).
  destruct (as_int py_float py_repr (dict_get movie_data "year"))
    as [year|]; [|discriminate].
  destruct (year <? TRENDING_MIN_YEAR)%Z eqn:Hyear; [discriminate|].
  apply Z.ltb_ge in Hyear.
  destruct (rating_reaches max_rating TRENDING_MIN_RATING) eqn:Hmeets;
    destruct ALWAYS_CACHE_RECENT eqn:Halways; cbn [orb];
    try discriminate;
    (destruct (names_list (py_or (dict_get movie_data "genres") _))
      as [genres|]; [|discriminate]);
    (destruct (names_list (py_or (dict_get movie_data "countries") _))
      as [countries|]; [|discriminate]);
    cbn [res_bind map_res fst snd];
    repeat match goal with
           | |- context [_to_redis_str ?r ?j ?v] =>
               destruct (_to_redis_str r j v); cbn [res_bind fst snd];
               [|discriminate]
           end;
    intros H; injection H as <-;
    exists year; eexists;
    (split; [reflexivity|]); (split; [exact Hyear|]);
    (split; [reflexivity|]); (split; [reflexivity|]);
    (split; [cbn; tauto|]).
  all: split; [|split].
  all: lazymatch goal with
       | |- forall member score, In (ZAdd _ member score) _ -> _ =>
           intros member score Hin; cbn in Hin;
           unfold recent_key, trending_key in Hin;
           repeat match type of Hin with
                  | _ \/ _ => destruct Hin as [Hin|Hin]
                  end; try discriminate; try contradiction;
           (injection Hin as <- <-; split; [reflexivity|];
            eexists; split; [reflexivity|];
            apply (score_reaches _ _ Hmeets);
            apply max_rating_of_shape)
       | |- _ = false -> _ =>
           intros Hoff; try discriminate; eexists; cbn; eauto
       | |- forall c, In c _ -> _ =>
           intros c Hin; cbn in Hin;
           repeat match type of Hin with
                  | _ \/ _ => destruct Hin as [Hin|Hin]
                  end; try contradiction; subst c; cbn; tauto
       end.
Qed.

Abbreviation run_calls :=
  (redis_run py_float py_repr json_dumps TRENDING_MIN_RATING
     TRENDING_MIN_YEAR ALWAYS_CACHE_RECENT REDIS_PIPELINE_SIZE redis_accepts).
Abbreviation run_call :=
  (redis_run_call py_float py_repr json_dumps TRENDING_MIN_RATING
     TRENDING_MIN_YEAR ALWAYS_CACHE_RECENT REDIS_PIPELINE_SIZE redis_accepts).
Abbreviation queued :=
  (queued_by py_float py_repr json_dumps TRENDING_MIN_RATING
     TRENDING_MIN_YEAR ALWAYS_CACHE_RECENT).

Lemma redis_flush_run (w : redis_world) :
  redis_client (redis_repo w) = true ->
  pipeline_inv REDIS_PIPELINE_SIZE (redis_flush redis_accepts w)
  /\ waiting (redis_flush redis_accepts w) = []
  /\ executed_commands (redis_flush redis_accepts w)
     = executed_commands w ++ waiting w.
Proof.
  intros Hclient. unfold redis_flush, pipeline_inv, waiting, executed_commands.
  rewrite Hclient.
  destruct (_pipeline (redis_repo w)) as [cmds|]; cbn.
  - rewrite map_app, concat_app. cbn. rewrite !app_nil_r.
    repeat split; auto; lia.
  - rewrite app_nil_r. repeat split; auto; lia.
Qed.

Lemma redis_run_call_conserves (c : redis_call) (w : redis_world) :
  pipeline_inv REDIS_PIPELINE_SIZE w ->
  pipeline_inv REDIS_PIPELINE_SIZE (run_call c w)
  /\ executed_commands (run_call c w) ++ waiting (run_call c w)
     = executed_commands w ++ waiting w ++ queued [c].
Proof.
  intros (Hclient & Hpending & Hpipe).
  destruct c as [now movie_id movie_data|];
    cbn [redis_run_call queued_by map concat].
  - unfold cache_trending_movie. rewrite Hclient. cbn [negb].
    destruct (commands_for now movie_id movie_data) as [[cmds|]|e].
    2,3: (split; [repeat split; tauto|]; rewrite !app_nil_r; reflexivity).
    cbn [redis_repo _pending].
    destruct (REDIS_PIPELINE_SIZE <=? _pending (redis_repo w) + 1)%Z
      eqn:Hfull.
    + match goal with
      | |- context [redis_flush _ ?w1] =>
          destruct (redis_flush_run w1 eq_refl) as (Hinv & Hwait & Hexec)
      end.
      split; [exact Hinv|]. rewrite Hwait, Hexec.
      unfold waiting, executed_commands. cbn.
      rewrite !app_nil_r. reflexivity.
    + apply Z.leb_gt in Hfull. split.
      * unfold pipeline_inv. cbn. split; [reflexivity|].
        split; [lia|]. split; [discriminate|lia].
      * unfold waiting, executed_commands. cbn.
        rewrite !app_nil_r. reflexivity.
  - destruct (redis_flush_run w Hclient) as (Hinv & Hwait & Hexec).
    split; [exact Hinv|]. rewrite Hwait, Hexec, !app_nil_r. reflexivity.
Qed.

Lemma redis_run_conserves (calls : list redis_call) (w : redis_world) :
  pipeline_inv REDIS_PIPELINE_SIZE w ->
  pipeline_inv REDIS_PIPELINE_SIZE (run_calls calls w)
  /\ executed_commands (run_calls calls w) ++ waiting (run_calls calls w)
     = executed_commands w ++ waiting w ++ queued calls.
Proof.
  revert w. induction calls as [|c calls IH]; intros w Hinv.
  - cbn. rewrite app_nil_r. auto.
  - cbn [redis_run fold_left].
    destruct (redis_run_call_conserves c w Hinv) as (Hinv1 & H1).
    destruct (IH _ Hinv1) as (Hinv2 & H2). unfold redis_run in Hinv2, H2.
    split; [exact Hinv2|]. rewrite H2, app_assoc, H1.
    unfold queued_by. cbn [map concat]. rewrite app_nil_r, <- !app_assoc.
    reflexivity.
Qed.

(** With a client, the commands [cache_trending_movie] queues are executed
    exactly once, in the order of the calls, or still wait on the pipeline;
    after a [flush] none waits, there is no pipeline and nothing is
    pending.  Fewer movies are pending between the calls than the pipeline
    size, and the pipeline is there exactly when a movie is pending. *)
Theorem every_queued_command_is_executed_once (calls : list redis_call) :
  let w := run_calls calls (mkRedisWorld (mkRedisRepo true None 0) []) in
  executed_commands w ++ waiting w = queued calls
  /\ (0 <= _pending (redis_repo w) < Z.max 1 REDIS_PIPELINE_SIZE)%Z
  /\ (_pipeline (redis_repo w) = None <-> _pending (redis_repo w) = 0%Z)
  /\ executed_commands (redis_flush redis_accepts w) = queued calls
  /\ redis_repo (redis_flush redis_accepts w) = mkRedisRepo true None 0.
Proof.
  intros w.
  assert (Hinv0 : pipeline_inv REDIS_PIPELINE_SIZE
                    (mkRedisWorld (mkRedisRepo true None 0) [])).
  { unfold pipeline_inv. cbn. repeat split; auto; lia. }
  destruct (redis_run_conserves calls _ Hinv0) as ((Hclient & Hp & Hpipe) & H).
  fold w in Hclient, Hp, Hpipe, H. cbn in H.
  destruct (redis_flush_run w Hclient) as (_ & Hwait & Hexec).
  split; [exact H|]. split; [exact Hp|]. split; [exact Hpipe|].
  split; [rewrite Hexec; exact H|].
  unfold redis_flush. rewrite Hclient.
  destruct (_pipeline (redis_repo w)); reflexivity.
Qed.

End RedisFacts.

(** ** [process_movie_batch] with its sinks *)

Lemma follows_in_frame {A} (m : ST frame A) : follows (in_frame m) m.
Proof.
  intros sf. unfold in_frame. destruct (m (pg_frame sf)) as [r fr].
  reflexivity.
Qed.

Lemma follows_bind {A B} (m : ST sink_frame A) (m' : ST frame A)
    (k : A -> ST sink_frame B) (k' : A -> ST frame B) :
  follows m m' -> (forall a, follows (k a) (k' a)) ->
  follows (bind m k) (bind m' k').
Proof.
  intros Hm Hk sf. unfold bind. rewrite (Hm sf).
  destruct (m sf) as [[a|e] sf1]; cbn [fst snd]; [apply Hk|reflexivity].
Qed.

Lemma follows_catch {A} (m : ST sink_frame A) (m' : ST frame A)
    (h : exn -> ST sink_frame A) (h' : exn -> ST frame A) :
  follows m m' -> (forall e, follows (h e) (h' e)) ->
  follows (catch m h) (catch m' h').
Proof.
  intros Hm Hh sf. unfold catch. rewrite (Hm sf).
  destruct (m sf) as [[a|e] sf1]; cbn [fst snd]; [reflexivity|apply Hh].
Qed.

(** A step that returns and leaves the relational frame alone can be
    dropped. *)
Lemma follows_skip {B} (m : ST sink_frame unit) (k : ST sink_frame B)
    (k' : ST frame B) :
  (forall sf, fst (m sf) = Ok tt /\ pg_frame (snd (m sf)) = pg_frame sf) ->
  follows k k' ->
  follows (bind m (fun _ => k)) k'.
Proof.
  intros Hm Hk sf. unfold bind. destruct (Hm sf) as [Hr Hf].
  destruct (m sf) as [r sf1]. cbn [fst snd] in *. subst r.
  rewrite <- Hf. apply Hk.
Qed.

Section SinkFacts.

Variable py_float : string -> option spec_float.
Variable py_repr : pyval -> string.
Variable schema : string -> table_schema.
Variable time_ns : nat -> Z.
Variable has_bulk : bool.
Variable es_accepts : nat -> es_request -> bool.
Variable json_dumps : pyval -> option string.
Variable TRENDING_MIN_RATING : spec_float.
Variable TRENDING_MIN_YEAR : Z.
Variable ALWAYS_CACHE_RECENT : bool.
Variable REDIS_PIPELINE_SIZE : Z.
Variable redis_accepts : nat -> list redis_command -> bool.
Variable es_now : nat -> string.
Variable redis_now : nat -> string.

Abbreviation doc_with_sinks :=
  (process_movie_doc_with_sinks py_float py_repr schema time_ns has_bulk
     es_accepts json_dumps TRENDING_MIN_RATING TRENDING_MIN_YEAR
     ALWAYS_CACHE_RECENT REDIS_PIPELINE_SIZE redis_accepts es_now redis_now).
Abbreviation loop_with_sinks :=
  (sink_batch_loop py_float py_repr schema time_ns has_bulk
     es_accepts json_dumps TRENDING_MIN_RATING TRENDING_MIN_YEAR
     ALWAYS_CACHE_RECENT REDIS_PIPELINE_SIZE redis_accepts es_now redis_now).
Abbreviation batch_with_sinks :=
  (run_sink_batch py_float py_repr schema time_ns has_bulk
     es_accepts json_dumps TRENDING_MIN_RATING TRENDING_MIN_YEAR
     ALWAYS_CACHE_RECENT REDIS_PIPELINE_SIZE redis_accepts es_now redis_now).

Lemma es_step_returns (i : nat) (movie_id : sqlval) (movie_doc : pydict)
    (sf : sink_frame) :
  fst (es_step has_bulk es_accepts es_now i movie_id movie_doc sf) = Ok tt
  /\ pg_frame (snd (es_step has_bulk es_accepts es_now i movie_id movie_doc
                      sf)) = pg_frame sf.
Proof.
  unfold es_step. destruct (sink_es sf) as [w|]; [|auto].
  destruct (es_client (es_repo w)); [|auto].
  destruct (transform_movie_to_es _ _ _); auto.
Qed.

Lemma redis_step_returns (i : nat) (movie_id : sqlval) (movie_doc : pydict)
    (sf : sink_frame) :
  let step := redis_step py_float py_repr json_dumps TRENDING_MIN_RATING
                TRENDING_MIN_YEAR ALWAYS_CACHE_RECENT REDIS_PIPELINE_SIZE
                redis_accepts redis_now i movie_id movie_doc in
  fst (step sf) = Ok tt /\ pg_frame (snd (step sf)) = pg_frame sf.
Proof.
  unfold redis_step. destruct (sink_redis sf) as [w|]; [|auto].
  destruct (redis_client (redis_repo w)); auto.
Qed.

Lemma process_movie_doc_follows (i : nat) (movie_doc : pydict) :
  follows (doc_with_sinks i movie_doc)
    (process_movie_doc py_float py_repr schema time_ns i movie_doc).
Proof.
  unfold process_movie_doc_with_sinks, process_movie_doc.
  apply follows_catch; [|intros e; apply follows_in_frame].
  unfold movie_doc_body_with_sinks, movie_doc_body.
  apply follows_bind; [apply follows_in_frame|intros _].
  apply follows_bind; [apply follows_in_frame|intros movie_id].
  destruct (negb (sql_truthy movie_id)).
  - apply follows_bind; [apply follows_in_frame|intros _].
    apply follows_in_frame.
  - apply follows_bind; [apply follows_in_frame|intros _].
    apply follows_skip; [apply es_step_returns|].
    apply follows_skip; [apply redis_step_returns|].
    apply follows_bind; [apply follows_in_frame|intros _].
    apply follows_in_frame.
Qed.

Lemma sink_batch_loop_follows (docs : list pydict) (i : nat) :
  follows (loop_with_sinks i docs)
    (batch_loop (process_movie_doc py_float py_repr schema time_ns) i docs).
Proof.
  revert i. induction docs as [|d docs IH]; intros i.
  - intros sf. reflexivity.
  - cbn [sink_batch_loop batch_loop].
    apply follows_bind; [apply process_movie_doc_follows|intros _; apply IH].
Qed.

Lemma sinks_leave_the_relational_outcome_aux (movies_batch : list pydict)
    (pg : PgRepo) (es : option es_world) (redis : option redis_world) :
  returning_inserted
    (fst (batch_with_sinks movies_batch pg es redis),
     pg_frame (snd (batch_with_sinks movies_batch pg es redis)))
  = process_movie_batch py_float py_repr schema time_ns movies_batch pg.
Proof.
  unfold process_movie_batch, run_batch, run_sink_batch.
  pose proof (sink_batch_loop_follows movies_batch 0
                (mkSinkFrame (mkFrame (mkCounters 0 0) pg) es redis 0 0))
    as H.
  cbn [pg_frame] in H. rewrite H. reflexivity.
Qed.

(** The search and cache sinks cannot make a movie document fail nor change
    what the batch does to the relational store: whatever the two sinks are
    and whatever their requests answer, [process_movie_batch] returns the
    count and leaves the repository that it returns and leaves without
    them. *)
Theorem sinks_leave_the_relational_outcome (movies_batch : list pydict)
    (pg : PgRepo) (es : option es_world) (redis : option redis_world) :
  returning_inserted
    (fst (batch_with_sinks movies_batch pg es redis),
     pg_frame (snd (batch_with_sinks movies_batch pg es redis)))
  = process_movie_batch py_float py_repr schema time_ns movies_batch pg.
Proof. apply sinks_leave_the_relational_outcome_aux. Qed.

Variable BATCH_SIZE : Z.

Abbreviation process_with_sinks :=
  (process_movie_batch_with_sinks py_float py_repr schema time_ns has_bulk
     es_accepts json_dumps TRENDING_MIN_RATING TRENDING_MIN_YEAR
     ALWAYS_CACHE_RECENT REDIS_PIPELINE_SIZE redis_accepts es_now redis_now).
Abbreviation flushes := (commit_and_flush has_bulk es_accepts redis_accepts).

Lemma process_with_sinks_follows (batch : list pydict) (st : stage_state) :
  process_movie_batch py_float py_repr schema time_ns batch (stage_pg st)
  = (fst (process_with_sinks batch st),
     stage_pg (snd (process_with_sinks batch st))).
Proof.
  rewrite <- (sinks_leave_the_relational_outcome_aux batch (stage_pg st)
                (stage_es st) (stage_redis st)).
  unfold process_movie_batch_with_sinks, returning_inserted.
  destruct (batch_with_sinks batch (stage_pg st) (stage_es st)
              (stage_redis st)) as [r sf].
  reflexivity.
Qed.

Lemma es_flush_empties (w : es_world) :
  _buffer (es_repo (es_flush has_bulk es_accepts w)) = [].
Proof. unfold es_flush. destruct (_ || _ || _); reflexivity. Qed.

Lemma redis_flush_clears (w : redis_world) :
  _pipeline (redis_repo (redis_flush redis_accepts w)) = None
  /\ _pending (redis_repo (redis_flush redis_accepts w)) = 0%Z.
Proof.
  unfold redis_flush.
  destruct (redis_client (redis_repo w)), (_pipeline (redis_repo w)); auto.
Qed.

Lemma commit_and_flush_flushes (st : stage_state) :
  sinks_flushed (snd (flushes st)).
Proof.
  unfold commit_and_flush, sinks_flushed. cbn [snd stage_es stage_redis].
  split.
  - intros w. destruct (stage_es st) as [w0|]; [|discriminate].
    cbn. intros H. injection H as <-. apply es_flush_empties.
  - intros w. destruct (stage_redis st) as [w0|]; [|discriminate].
    cbn. intros H. injection H as <-. apply redis_flush_clears.
Qed.

Lemma run_batches_with_sinks (batches : list (list pydict)) (total : Z)
    (st : stage_state) :
  exists total' st',
    run_batches process_with_sinks flushes total batches st = (Ok total', st')
    /\ run_batches (process_movie_batch py_float py_repr schema time_ns)
         pg_commit total batches (stage_pg st) = (Ok total', stage_pg st')
    /\ (batches <> [] -> sinks_flushed st').
Proof.
  revert total st. induction batches as [|batch batches IH]; intros total st.
  - exists total, st. cbn. split; [reflexivity|]. split; [reflexivity|].
    intros Hne. contradiction.
  - cbn [run_batches]. unfold bind.
    pose proof (process_with_sinks_follows batch st) as Hp.
    destruct (movie_batch_outcome py_float py_repr schema time_ns batch
                (stage_pg st)) as (n & pg1 & Hrun & _).
    rewrite Hrun in Hp.
    destruct (process_with_sinks batch st) as [r st1]. cbn [fst snd] in Hp.
    injection Hp as <- ->. rewrite Hrun.
    cbn [commit_and_flush pg_commit].
    match goal with
    | |- context [run_batches _ _ _ batches ?s] =>
        destruct (IH (total + n)%Z s) as (total' & st' & H1 & H2 & H3)
    end.
    exists total', st'. split; [exact H1|]. split; [exact H2|].
    intros _. destruct batches as [|b batches].
    + cbn in H1. injection H1 as _ <-.
      apply (commit_and_flush_flushes st1).
    + apply H3. discriminate.
Qed.

(** The movies stage of [seed_from_mongo] with its sinks returns the total
    and leaves the repository of the stage run without them; after a stage
    that read a document neither sink holds anything back: the buffer of the
    search sink is empty and the cache sink has no pipeline and nothing
    pending. *)
Theorem movies_stage_flushes_its_sinks (cursor : list pydict)
    (st : stage_state) :
  exists total st',
    seed_movies_with_sinks py_float py_repr schema time_ns has_bulk
      es_accepts json_dumps TRENDING_MIN_RATING TRENDING_MIN_YEAR
      ALWAYS_CACHE_RECENT REDIS_PIPELINE_SIZE redis_accepts es_now redis_now
      BATCH_SIZE cursor st = (Ok total, st')
    /\ seed_movies py_float py_repr schema time_ns BATCH_SIZE cursor
         (stage_pg st) = (Ok total, stage_pg st')
    /\ (cursor <> [] -> sinks_flushed st').
Proof.
  unfold seed_movies_with_sinks, seed_movies, seed_collection.
  rewrite !seed_loop_run_batches.
  destruct (run_batches_with_sinks (batches_from BATCH_SIZE [] cursor) 0 st)
    as (total & st' & H1 & H2 & H3).
  exists total, st'. split; [exact H1|]. split; [exact H2|].
  intros Hne. apply H3. intros Hnil.
  apply (f_equal (@concat pydict)) in Hnil.
  rewrite batches_from_concat in Hnil. cbn in Hnil. contradiction.
Qed.

End SinkFacts.

(** ** Resolvers and links *)

Lemma exec_insert_serial_raise (sch : table_schema) (oc : on_conflict)
    (t : string) (cols : row) (c c' : connection) (e : exn) :
  exec_insert_serial sch oc t cols c = (Raise e, c') ->
  conn_tables c' = conn_tables c.
Proof.
  unfold exec_insert_serial. destruct (conn_failed c).
  - intros H. injection H as _ <-. reflexivity.
  - unfold nextval. intros H. apply statement_raise in H as (-> & _).
    reflexivity.
Qed.

Lemma Forall_of_sublist {A} (P : A -> Prop) (l1 l2 : list A) :
  sublist l1 l2 -> Forall P l2 -> Forall P l1.
Proof.
  intros Hsub. induction Hsub as [|x l1 l2 _ IH|x l1 l2 _ IH]; intros Hall.
  - constructor.
  - inversion Hall; subst. constructor; auto.
  - inversion Hall; subst. auto.
Qed.

Lemma stat_bump_eq (key : string) (n : Z) (pg : PgRepo) :
  stat key (snd (bump key n pg)) = (stat key pg + n)%Z.
Proof. unfold stat. cbn. rewrite lookup_insert_eq. reflexivity. Qed.

Lemma stat_bump_ne (key key' : string) (n : Z) (pg : PgRepo) :
  key <> key' -> stat key' (snd (bump key n pg)) = stat key' pg.
Proof. intros H. unfold stat. cbn. rewrite lookup_insert_ne; auto. Qed.

Section ResolverCounters.

Variable schema : string -> table_schema.

(** What one call of [get_or_create_country] or [get_or_create_genre] does
    to the tables and the counters, whatever its outcome. *)
Lemma get_or_create_named_outcome (t counter name : string)
    (pg pg' : PgRepo) (r : res sqlval) :
  get_or_create_named schema t counter name pg = (r, pg') ->
  created_or_not t counter (resolver_key name) r pg pg'
  /\ (forall t', t <> t' -> rows_of t' pg' = rows_of t' pg)
  /\ (forall k, counter <> k -> stat k pg' = stat k pg)
  /\ (forall id,
         r = Ok id -> sql_truthy id = true ->
         cache_lookup t (resolver_key name) pg = None ->
         exists row, In row (rows_of t pg')
                     /\ col 0 row = id
                     /\ col 1 row = SText (resolver_key name)).
Proof.
  unfold get_or_create_named, resolver_key, created_or_not.
  destruct (truncate_text (Some (py_strip name)) 100) as [key|];
    cbn [from_option id].
  2:{ intros H. injection H as <- <-.
      repeat split; auto. intros id H. injection H as <-. discriminate. }
  destruct (String.eqb key "").
  { intros H. injection H as <- <-.
    repeat split; auto. intros id H. injection H as <-. discriminate. }
  destruct (cache_lookup t key pg) as [cached|] eqn:Hcache.
  { intros H. injection H as <- <-.
    repeat split; auto. intros id _ _ H. discriminate H. }
  unfold _get_single_value, bind, on_conn.
  destruct (exec_select_one t _ (conn pg)) as [[found|e] c1] eqn:Hsel.
  2:{ apply statement_raise in Hsel as (HT & _).
      intros H. injection H as <- <-. unfold rows_of, stat. cbn. rewrite HT.
      repeat split; auto. intros id H. discriminate. }
  apply exec_select_one_ok in Hsel as (-> & Hfound & _).
  rewrite set_conn_same. unfold ret.
  set (sel := match found with Some r' => col 0 r' | None => SNull end).
  destruct (sql_truthy sel) eqn:Hsel.
  - intros H. injection H as <- <-. unfold rows_of, stat. cbn.
    repeat split; auto.
    intros id H _ _. injection H as <-.
    destruct found as [row|]; [|discriminate].
    symmetry in Hfound. apply find_some in Hfound as [Hin Hname].
    exists row. split; [exact Hin|]. split; [reflexivity|].
    destruct (col 1 row) eqn:Hc; try discriminate.
    cbn in Hname. apply String.eqb_eq in Hname. congruence.
  - destruct (exec_insert_serial _ _ _ _ (conn pg)) as [[new|e] c1] eqn:Hins.
    2:{ apply exec_insert_serial_raise in Hins.
        intros H. injection H as <- <-. unfold rows_of, stat. cbn.
        rewrite Hins. repeat split; auto. intros id H. discriminate. }
    apply exec_insert_serial_ok in Hins as (_ & _ & HT & _).
    intros H. injection H as <- <-.
    unfold rows_of, stat. cbn. rewrite HT, get_table_insert_eq.
    split; [right; exists new; rewrite lookup_insert_eq; auto|].
    split; [|split].
    + intros t' Hne. apply get_table_insert_ne. exact Hne.
    + intros k Hne. rewrite lookup_insert_ne by exact Hne. reflexivity.
    + intros id H _ _. injection H as <-.
      exists [new; SText key].
      split; [apply in_or_app; right; left; reflexivity|].
      split; reflexivity.
Qed.

(** [countries_created] and [genres_created] count the rows the run adds
    to [countries] and [genres]: a call of the resolver, whatever its
    outcome, either adds no row and leaves the counter, or adds the row of
    the trimmed and cut name under the identifier it returns and adds one
    to the counter.  When the name was not in the cache and the identifier
    returned is not empty, it is that of a row of the table that holds the
    name. *)
Theorem created_counters_count_the_created_rows (name : string)
    (pg pg' : PgRepo) (r : res sqlval) :
  (get_or_create_country schema name pg = (r, pg') ->
   created_or_not "countries" "countries_created" (resolver_key name) r pg pg'
   /\ forall id,
       r = Ok id -> sql_truthy id = true ->
       cache_lookup "countries" (resolver_key name) pg = None ->
       exists row, In row (rows_of "countries" pg')
                   /\ col 0 row = id
                   /\ col 1 row = SText (resolver_key name))
  /\ (get_or_create_genre schema name pg = (r, pg') ->
      created_or_not "genres" "genres_created" (resolver_key name) r pg pg'
      /\ forall id,
          r = Ok id -> sql_truthy id = true ->
          cache_lookup "genres" (resolver_key name) pg = None ->
          exists row, In row (rows_of "genres" pg')
                      /\ col 0 row = id
                      /\ col 1 row = SText (resolver_key name)).
Proof.
  split; intros Hrun;
    destruct (get_or_create_named_outcome _ _ _ _ _ _ Hrun)
      as (Hc & _ & _ & Hrow); auto.
Qed.

Lemma on_conn_stats {A} (f : connection -> res A * connection)
    (pg pg' : PgRepo) (r : res A) :
  on_conn f pg = (r, pg') -> stats pg' = stats pg.
Proof.
  unfold on_conn. destruct (f (conn pg)) as [r0 c].
  intros H. injection H as _ <-. reflexivity.
Qed.

Lemma execute_values_stats (oc : on_conflict) (t : string) (rows : list row)
    (pg pg' : PgRepo) (r : res unit) :
  execute_values schema oc t rows pg = (r, pg') -> stats pg' = stats pg.
Proof.
  unfold execute_values. generalize (pages rows). intros ps. revert pg.
  induction ps as [|page ps IH]; intros pg; cbn [for_each].
  - intros H. injection H as _ <-. reflexivity.
  - unfold bind.
    destruct (on_conn (exec_insert (schema t) oc t page) pg)
      as [[[]|e] pg1] eqn:Hpage; apply on_conn_stats in Hpage.
    + intros H. rewrite (IH _ H). exact Hpage.
    + intros H. injection H as _ <-. exact Hpage.
Qed.

(** The loop of a link function leaves the link table and the link counter
    alone, and resolves one pair for each non-empty name. *)
Lemma resolve_pairs_outcome (t0 c0 t counter : string) (movie_id : sqlval)
    (names : list string) (pg pg' : PgRepo) (r : res (list row)) :
  t0 <> t -> c0 <> counter ->
  resolve_pairs (get_or_create_named schema t0 c0) movie_id names pg
  = (r, pg') ->
  rows_of t pg' = rows_of t pg
  /\ stat counter pg' = stat counter pg
  /\ forall pairs,
      r = Ok pairs ->
      length pairs = length (linked_names names)
      /\ Forall (fun p => col 0 p = movie_id) pairs.
Proof.
  intros Ht Hc. revert pg pg' r.
  induction names as [|n names IH]; intros pg pg' r; cbn [resolve_pairs].
  - intros H. injection H as <- <-.
    split; [reflexivity|]. split; [reflexivity|].
    intros pairs H. injection H as <-. split; [reflexivity|constructor].
  - unfold linked_names. cbn [List.filter].
    destruct (String.eqb n ""); cbn [negb]; [apply IH|].
    unfold bind.
    destruct (get_or_create_named schema t0 c0 n pg) as [[id|e] pg1] eqn:Hres;
      destruct (get_or_create_named_outcome _ _ _ _ _ _ Hres)
        as (_ & Hrows & Hstat & _).
    2:{ intros H. injection H as <- <-.
        split; [apply Hrows, Ht|]. split; [apply Hstat, Hc|].
        intros pairs H. discriminate H. }
    destruct (resolve_pairs _ movie_id names pg1) as [[rest|e] pg2] eqn:Hrest;
      destruct (IH _ _ _ Hrest) as (Hrows2 & Hstat2 & Hpairs).
    + intros H. injection H as <- <-.
      split; [rewrite Hrows2; apply Hrows, Ht|].
      split; [rewrite Hstat2; apply Hstat, Hc|].
      intros pairs H. injection H as <-.
      destruct (Hpairs rest eq_refl) as [Hlen Hall].
      split; [cbn [length]; f_equal; exact Hlen|].
      constructor; [reflexivity|exact Hall].
    + intros H. injection H as <- <-.
      split; [rewrite Hrows2; apply Hrows, Ht|].
      split; [rewrite Hstat2; apply Hstat, Hc|].
      intros pairs H. discriminate H.
Qed.

Lemma link_movie_named_outcome (t0 c0 t counter : string) (movie_id : sqlval)
    (names : list string) (pg pg' : PgRepo) :
  t0 <> t -> c0 <> counter ->
  link_movie_named schema (get_or_create_named schema t0 c0) t counter
    movie_id names pg = (Ok tt, pg') ->
  exists added,
    rows_of t pg' = rows_of t pg ++ added
    /\ (length added <= length (linked_names names))%nat
    /\ Forall (fun p => col 0 p = movie_id) added
    /\ stat counter pg'
       = (stat counter pg + Z.of_nat (length (linked_names names)))%Z.
Proof.
  intros Ht Hc. unfold link_movie_named.
  destruct names as [|n names].
  { intros H. injection H as <-. exists []. rewrite app_nil_r. cbn.
    repeat split; auto. lia. }
  unfold bind at 1.
  destruct (resolve_pairs _ movie_id (n :: names) pg) as [[pairs|e] pg1]
    eqn:Hpairs; [|discriminate].
  destruct (resolve_pairs_outcome _ _ _ _ _ _ _ _ _ Ht Hc Hpairs)
    as (Hrows & Hstat & Hok).
  destruct (Hok pairs eq_refl) as [Hlen Hall].
  destruct pairs as [|p pairs].
  { intros H. injection H as <-. exists []. rewrite app_nil_r.
    rewrite <- Hlen. cbn. repeat split; auto. lia. }
  unfold bind.
  destruct (execute_values schema DoNothing t (p :: pairs) pg1)
    as [[[]|e] pg2] eqn:Hins; [|discriminate].
  destruct (execute_values_adds _ _ _ _ _ _ Hins) as (added & Hadd & Hsub).
  pose proof (execute_values_stats _ _ _ _ _ _ Hins) as Hst.
  intros H. injection H as <-.
  exists added. unfold rows_of in *. cbn [conn bump snd fst].
  split; [|split; [|split]].
  - cbn. rewrite Hadd, Hrows. reflexivity.
  - rewrite <- Hlen. apply sublist_length, Hsub.
  - apply (Forall_of_sublist _ _ _ Hsub Hall).
  - unfold stat in *. cbn [stats bump snd]. rewrite lookup_insert_eq.
    cbn [from_option id]. rewrite Hst, Hstat, <- Hlen. reflexivity.
Qed.

(** [movie_countries_linked] and [movie_genres_linked] count the pairs a
    link function submits, one for each non-empty name, and not the rows it
    adds: when the call returns, the rows added to the link table are rows
    of the movie, no more of them than names, and the counter has gone up by
    the number of names. *)
Theorem link_counters_count_the_submitted_pairs (movie_id : sqlval)
    (names : list string) (pg pg' : PgRepo) :
  (link_movie_countries schema movie_id names pg = (Ok tt, pg') ->
   exists added,
     rows_of "movie_countries" pg' = rows_of "movie_countries" pg ++ added
     /\ (length added <= length (linked_names names))%nat
     /\ Forall (fun p => col 0 p = movie_id) added
     /\ stat "movie_countries_linked" pg'
        = (stat "movie_countries_linked" pg
           + Z.of_nat (length (linked_names names)))%Z)
  /\ (link_movie_genres schema movie_id names pg = (Ok tt, pg') ->
      exists added,
        rows_of "movie_genres" pg' = rows_of "movie_genres" pg ++ added
        /\ (length added <= length (linked_names names))%nat
        /\ Forall (fun p => col 0 p = movie_id) added
        /\ stat "movie_genres_linked" pg'
           = (stat "movie_genres_linked" pg
              + Z.of_nat (length (linked_names names)))%Z).
Proof.
  split; apply link_movie_named_outcome; discriminate.
Qed.

End ResolverCounters.

(** ** Loaders of a movie *)

Section LoaderFacts.

Variable py_float : string -> option spec_float.
Variable py_repr : pyval -> string.
Variable schema : string -> table_schema.

Lemma fact_rows_of_a_malformed_list (movie_id : sqlval) (facts : list pyval) :
  (exists f, In f facts /\ is_dict f = false) ->
  fact_rows py_repr movie_id facts = Raise AttributeError.
Proof.
  induction facts as [|f facts IH]; intros (x & Hin & Hx).
  - contradiction.
  - cbn [fact_rows]. destruct f as [| | | | | | | |d];
      try reflexivity.
    destruct Hin as [<-|Hin]; [discriminate|].
    cbn [py_get res_bind]. rewrite IH by eauto. reflexivity.
Qed.

(** [insert_movie_videos] tolerates what [insert_movie_facts] does not.
    Building the video rows never raises, whatever the shape of the
    trailers: an exception that leaves the video loader is the one its bulk
    [INSERT] of the rows raised, on a list of trailers that is not empty,
    and the repository is left as that statement left it.  A list of facts
    with one item that is not a dict makes the fact loader raise
    [AttributeError] before it has written anything, which skips the whole
    movie. *)
Theorem video_loader_tolerates_malformed_entries :
  (forall (movie_id : sqlval) (movie : pydict) (pg pg' : PgRepo) (e : exn),
      insert_movie_videos py_repr schema movie_id movie pg = (Raise e, pg') ->
      exists v videos,
        py_or (get_nested (VDict movie) ["videos"; "trailers"]) (VList [])
        = VList (v :: videos)
        /\ video_rows py_repr movie_id (v :: videos) <> []
        /\ execute_values schema DoNothing "movie_videos"
             (video_rows py_repr movie_id (v :: videos)) pg
           = (Raise e, pg'))
  /\ (forall (movie_id : sqlval) (facts : list pyval) (pg : PgRepo),
         (exists f, In f facts /\ is_dict f = false) ->
         insert_movie_facts py_repr schema movie_id (VList facts) pg
         = (Raise AttributeError, pg)).
Proof.
  split.
  - intros movie_id movie pg pg' e. unfold insert_movie_videos.
    destruct (py_or _ _) as [| | | | | | |l|]; try discriminate.
    destruct l as [|v videos]; [discriminate|].
    destruct (video_rows py_repr movie_id (v :: videos)) as [|r rows]
      eqn:Hrows; [discriminate|].
    unfold bind.
    destruct (execute_values schema DoNothing "movie_videos" (r :: rows) pg)
      as [[[]|e'] pg1] eqn:Hins; [discriminate|].
    intros H. injection H as <- <-.
    exists v, videos. rewrite Hrows. split; [reflexivity|].
    split; [intros Hnil; discriminate Hnil|exact Hins].
  - intros movie_id facts pg Hbad. unfold insert_movie_facts.
    destruct facts as [|f facts]; [destruct Hbad as (x & [] & _)|].
    cbn [truthy negb py_iter]. unfold bind, lift.
    rewrite (fact_rows_of_a_malformed_list movie_id (f :: facts) Hbad).
    reflexivity.
Qed.

Lemma same_key_id (id : Z) (r old : row) :
  col 0 r = SInt id -> col 0 old = SInt id ->
  same_key [0%nat] r old = true.
Proof.
  intros Hr Hold. unfold same_key. cbn [key_of]. rewrite Hr, Hold.
  cbn. rewrite Z.eqb_refl. reflexivity.
Qed.

(** [SET c = EXCLUDED.c] for every column but [id] puts the proposed row in
    the place of the stored one. *)
Lemma overwrite_whole_row (id : Z) (cols : list sqlval) (old : row) :
  length cols = 34%nat -> col 0 old = SInt id ->
  overwrite movie_set_cols (SInt id :: cols) old = SInt id :: cols.
Proof.
  intros Hlen Hold.
  do 34 (destruct cols as [|? cols]; [discriminate|]).
  destruct cols; [|discriminate].
  unfold overwrite. cbn. rewrite Hold. reflexivity.
Qed.

Lemma insert_movie_core_with_id (movie : pydict) (id : Z)
    (cols : list sqlval) (pg pg' : PgRepo) (movie_id : sqlval) :
  movie_core_values py_float py_repr movie = Ok (Some (Some id, cols)) ->
  insert_movie_core py_float py_repr schema movie pg = (Ok movie_id, pg') ->
  movie_id = SInt id
  /\ In (SInt id :: cols) (rows_of "movies" pg')
  /\ (forall r, In r (rows_of "movies" pg') -> col 0 r = SInt id ->
                r = SInt id :: cols)
  /\ (forall t, "movies" <> t -> rows_of t pg' = rows_of t pg)
  /\ stat "movies_inserted" pg' = stat "movies_inserted" pg
  /\ stat "movies_updated" pg'
     = (stat "movies_updated" pg + (if (id =? 0)%Z then 0 else 1))%Z.
Proof.
  intros Hvals.
  destruct (movie_core_values_some _ _ _ _ _ Hvals) as (t & _ & _ & Hlen).
  unfold insert_movie_core, bind, lift. rewrite Hvals.
  unfold on_conn.
  destruct (exec_insert _ _ _ _ (conn pg)) as [[[]|e] c1] eqn:Hins;
    [|discriminate].
  apply statement_ok in Hins as (_ & Hbody & _).
  cbn [insert_rows insert_row] in Hbody.
  set (r := SInt id :: cols) in *.
  set (tbl := get_table (conn_tables (conn pg)) "movies") in *.
  assert (Hrows : In r (get_table (conn_tables c1) "movies")
                  /\ (forall r', In r' (get_table (conn_tables c1) "movies") ->
                                 col 0 r' = SInt id -> r' = r)
                  /\ forall t, "movies" <> t ->
                               get_table (conn_tables c1) t
                               = get_table (conn_tables (conn pg)) t).
  { destruct (existsb (same_key [0%nat] r) tbl) eqn:Hex.
    - cbn [existsb] in Hbody. injection Hbody as <-.
      rewrite get_table_insert_eq. split; [|split].
      3:{ intros t0 Hne. apply get_table_insert_ne. exact Hne. }
      + apply existsb_exists in Hex as (old & Hin & Hkey).
        apply in_map_iff. exists old. rewrite Hkey. split; [|exact Hin].
        apply overwrite_whole_row; [exact Hlen|].
        apply (same_key_single 0 r old Hkey).
      + intros r' Hin Hid. apply in_map_iff in Hin as (old & <- & Hin).
        destruct (same_key [0%nat] r old) eqn:Hkey.
        * apply overwrite_whole_row; [exact Hlen|].
          apply (same_key_single 0 r old Hkey).
        * rewrite (same_key_id id r old eq_refl Hid) in Hkey. discriminate.
    - destruct (conflicts _ _ _); [discriminate|].
      destruct (fks_ok _ _ _); [|discriminate].
      injection Hbody as <-. rewrite get_table_insert_eq. split; [|split].
      3:{ intros t0 Hne. apply get_table_insert_ne. exact Hne. }
      + apply in_or_app. right. left. reflexivity.
      + intros r' Hin Hid. apply in_app_or in Hin as [Hin|[<-|[]]];
          [|reflexivity].
        exfalso.
        assert (Hno : existsb (same_key [0%nat] r) tbl = true).
        { apply existsb_exists. exists r'. split; [exact Hin|].
          exact (same_key_id id r r' eq_refl Hid). }
        rewrite Hno in Hex. discriminate. }
  unfold ret. cbn [sql_truthy].
  destruct (id =? 0)%Z; cbn [negb]; rewrite ?bump_conn;
    intros H; injection H as <- <-; unfold rows_of, stat; cbn;
    rewrite ?lookup_insert_eq, ?lookup_insert_ne by discriminate;
    (split; [reflexivity|]); (split; [apply Hrows|]);
    (split; [apply Hrows|]); (split; [apply Hrows|]); split; cbn; lia.
Qed.

(** A movie document with an explicit [id] replaces the whole row of that
    [id]: once [insert_movie_core] has returned, the row of the document is
    in [movies] and every row under that [id] is this row, so that no value
    stored before survives, a [NULL] of the document included.  The
    document is counted in [movies_updated], never in [movies_inserted],
    whether the row existed or not, and in neither when the [id] is zero. *)
Theorem explicit_id_replaces_the_whole_row (movie : pydict) (id : Z)
    (cols : list sqlval) (pg pg' : PgRepo) (movie_id : sqlval) :
  movie_core_values py_float py_repr movie = Ok (Some (Some id, cols)) ->
  insert_movie_core py_float py_repr schema movie pg = (Ok movie_id, pg') ->
  movie_id = SInt id
  /\ In (SInt id :: cols) (rows_of "movies" pg')
  /\ (forall r, In r (rows_of "movies" pg') -> col 0 r = SInt id ->
                r = SInt id :: cols)
  /\ (forall t, "movies" <> t -> rows_of t pg' = rows_of t pg)
  /\ stat "movies_inserted" pg' = stat "movies_inserted" pg
  /\ stat "movies_updated" pg'
     = (stat "movies_updated" pg + (if (id =? 0)%Z then 0 else 1))%Z.
Proof. apply insert_movie_core_with_id. Qed.

Variable time_ns : nat -> Z.

(** A movie document whose [id] is zero is written and then counted as
    skipped: the identifier [insert_movie_core] returns is empty, so that
    [process_movie_batch] releases the savepoint without a rollback and goes
    on to the next document.  On a usable connection the iteration adds one
    to [skipped] and nothing to [inserted], and either the insert failed and
    the tables are those before the document, or the row of the document is
    in [movies] and no other table has changed: none of its countries,
    genres, people, facts, videos or distributors is linked. *)
Theorem movie_with_id_zero_is_stored_and_skipped (i : nat) (movie : pydict)
    (cols : list sqlval) (c : counters) (pg : PgRepo) :
  healthy pg ->
  movie_core_values py_float py_repr movie = Ok (Some (Some 0%Z, cols)) ->
  exists fr,
    process_movie_doc py_float py_repr schema time_ns i movie (mkFrame c pg)
    = (Ok tt, fr)
    /\ locals fr = mkCounters (inserted c) (skipped c + 1)
    /\ healthy (self fr)
    /\ (conn_tables (conn (self fr)) = conn_tables (conn pg)
        \/ (In (SInt 0 :: cols) (rows_of "movies" (self fr))
            /\ forall t, "movies" <> t ->
                         rows_of t (self fr) = rows_of t pg)).
Proof.
  intros Hpg Hvals.
  destruct (movie_doc_body py_float py_repr schema
              (sp_name time_ns "sp_movie_" i) movie (mkFrame c pg))
    as [r fr1] eqn:Hbody.
  unfold process_movie_doc, catch. rewrite Hbody.
  pose proof Hbody as Hrun. revert Hrun.
  unfold movie_doc_body, bind, in_pg, on_conn, exec_savepoint.
  cbn [self locals]. unfold healthy in Hpg. rewrite Hpg. cbn [self locals].
  set (name := sp_name time_ns "sp_movie_" i) in *.
  set (pg0 := set_conn _ pg).
  assert (Hpg0 : conn_savepoints (conn pg0)
                 = (name, conn_tables (conn pg)) :: conn_savepoints (conn pg)
                 /\ healthy pg0
                 /\ conn_tables (conn pg0) = conn_tables (conn pg)).
  { subst pg0. destruct pg as [[T sq fl sps cm] ca pc st]. cbn in *. auto. }
  destruct Hpg0 as (Hsp & Hh0 & HT0). clearbody pg0.
  destruct (insert_movie_core py_float py_repr schema movie pg0)
    as [[movie_id|e1] pg1] eqn:Hcore.
  - destruct (insert_movie_core_with_id _ _ _ _ _ _ Hvals Hcore)
      as (-> & Hin & _ & Hother & _).
    pose proof (insert_movie_core_healthy _ _ _ _ _ _ _ Hh0 Hcore) as Hh1.
    destruct (stable_insert_movie_core _ _ _ _ _ _ _ Hcore) as [Hsp1 _].
    cbn [sql_truthy Z.eqb negb]. unfold count_skipped. cbn [self locals].
    unfold exec_release. unfold healthy in Hh1. rewrite Hh1, Hsp1, Hsp.
    cbn [find_savepoint]. rewrite String.eqb_refl.
    intros H. injection H as <- <-.
    eexists. split; [reflexivity|]. cbn.
    split; [reflexivity|]. split; [exact Hh1|]. right.
    unfold rows_of in *. cbn. split; [exact Hin|].
    intros t Hne. rewrite (Hother t Hne), HT0. reflexivity.
  - intros H. injection H as <- <-.
    destruct (movie_doc_body_raise _ _ _ _ _ _ _ _ _ Hpg Hbody) as [Hsp1 _].
    destruct (except_clause_restores name (mkFrame c pg1) _ _ Hsp1)
      as (fr2 & Hrun & HT & Hf & _ & _ & _ & Hloc & _).
    exists fr2. split; [exact Hrun|].
    split; [rewrite Hloc; reflexivity|]. split; [exact Hf|].
    left. exact HT.
Qed.

End LoaderFacts.

(** ** Closed instances: sinks, resolvers and loaders *)

(** The theorem at three calls on a cluster that accepts every request, with
    a bulk size of two. *)
Lemma indexed_actions_witness :
  (forall n r, es_always n r = true)
  /\ delivered
       (es_flush true es_always
          (es_run true es_always three_index_calls
             (mkEsWorld (mkEsRepo true [] 2) [])))
     = indexed_by three_index_calls.
Proof.
  split; [reflexivity|].
  pose proof (every_indexed_action_is_handed_once true es_always
                three_index_calls 2) as H.
  cbv zeta in H. destruct H as (_ & _ & _ & _ & Hall & _).
  apply Hall. reflexivity.
Defined.

(** The theorem at the same calls: one action waits after three calls. *)
Lemma buffer_bound_witness :
  true = true
  /\ (Z.of_nat
        (length
           (_buffer
              (es_repo
                 (es_run true es_always three_index_calls
                    (mkEsWorld (mkEsRepo true [] 2) [])))))
      < Z.max 1 2)%Z.
Proof.
  split; [reflexivity|].
  pose proof (buffer_stays_below_the_bulk_size true es_always
                three_index_calls 2 eq_refl) as H.
  cbv zeta in H. exact (proj1 H).
Defined.

(** The theorem at a document with a name and one country. *)
Lemma transform_witness :
  names_of no_repr sound_doc_before "countries" = Ok ["Y"]
  /\ exists es_doc,
      transform_movie_to_es "t0" (VInt 1) sound_doc_before = Ok es_doc
      /\ dict_get es_doc "title" = VStr "First".
Proof.
  split; [reflexivity|].
  destruct (movie_core_values float_of_digits no_repr sound_doc_before)
    as [[[id cols]|]|e] eqn:Hvals;
    [|vm_compute in Hvals; discriminate..].
  pose proof (transform_returns_on_a_loaded_document float_of_digits no_repr
                "t0" (VInt 1) sound_doc_before id cols ["Y"] [] Hvals
                eq_refl eq_refl) as H.
  cbn [sound_doc_before dict_get dict_lookup py_or truthy py_iter] in H.
  destruct H as (es_doc & Hrun & _ & Htitle & _).
  exists es_doc. split; [exact Hrun|exact Htitle].
Defined.

(** The theorem at a movie of 1990 under the default year of 2024. *)
Lemma old_movie_witness :
  (exists year,
      as_int float_of_digits no_repr (dict_get old_doc "year") = Some year
      /\ (year < 2024)%Z)
  /\ cache_trending_movie float_of_digits no_repr dumps_empty float_seven
       2024 true 1000 redis_always "t0" (VInt 2) old_doc
       (mkRedisWorld (mkRedisRepo true None 0) [])
     = mkRedisWorld (mkRedisRepo true None 0) [].
Proof.
  assert (Hold : exists year,
             as_int float_of_digits no_repr (dict_get old_doc "year")
             = Some year /\ (year < 2024)%Z).
  { exists 1990%Z. split; [reflexivity|lia]. }
  split; [exact Hold|].
  apply (old_or_malformed_movie_is_not_cached float_of_digits no_repr
           dumps_empty float_seven 2024 true 1000 redis_always "t0" (VInt 2)
           old_doc).
  right. left. exact Hold.
Defined.

(** The theorem at a movie of 2025 without ratings, cached because
    [ALWAYS_CACHE_RECENT] is set. *)
Lemma cached_movie_witness :
  exists commands,
    trending_commands float_of_digits no_repr dumps_empty float_seven 2024
      true "t0" (VInt 1) recent_doc = Ok (Some commands)
    /\ In (ZAdd recent_key (py_str no_repr (VInt 1)) (VInt 2025)) commands.
Proof.
  destruct (trending_commands float_of_digits no_repr dumps_empty float_seven
              2024 true "t0" (VInt 1) recent_doc)
    as [[commands|]|e] eqn:Hrun;
    [|vm_compute in Hrun; discriminate..].
  exists commands. split; [reflexivity|].
  destruct (queued_commands_of_a_cached_movie float_of_digits no_repr
              dumps_empty float_seven 2024 true "t0" (VInt 1) recent_doc
              commands Hrun)
    as (year & summary & Hyear & _ & _ & _ & Hrecent & _).
  vm_compute in Hyear. injection Hyear as <-. exact Hrecent.
Defined.

(** The theorem at two calls, of which the second queues nothing. *)
Lemma queued_commands_witness :
  executed_commands
    (redis_flush redis_always
       (redis_run float_of_digits no_repr dumps_empty float_seven 2024 true
          1000 redis_always two_cache_calls
          (mkRedisWorld (mkRedisRepo true None 0) [])))
  = queued_by float_of_digits no_repr dumps_empty float_seven 2024 true
      two_cache_calls.
Proof.
  pose proof (every_queued_command_is_executed_once float_of_digits no_repr
                dumps_empty float_seven 2024 true 1000 redis_always
                two_cache_calls) as H.
  cbv zeta in H. destruct H as (_ & _ & _ & Hall & _).
  exact Hall.
Defined.

(** The theorem at a cursor of one document with both sinks connected. *)
Lemma movies_stage_witness :
  [sound_doc_before] <> []
  /\ exists total st',
      seed_movies_with_sinks float_of_digits no_repr spec_schema tick true
        es_always dumps_empty float_seven 2024 true 1000 redis_always
        (fun _ => "t0") (fun _ => "t1") 1000 [sound_doc_before]
        connected_sinks = (Ok total, st')
      /\ sinks_flushed st'.
Proof.
  split; [discriminate|].
  destruct (movies_stage_flushes_its_sinks float_of_digits no_repr
              spec_schema tick true es_always dumps_empty float_seven 2024
              true 1000 redis_always (fun _ => "t0") (fun _ => "t1") 1000
              [sound_doc_before] connected_sinks)
    as (total & st' & Hrun & _ & Hflushed).
  exists total, st'. split; [exact Hrun|]. apply Hflushed. discriminate.
Defined.

(** The theorem at a country that is not in the cache. *)
Lemma created_counters_witness :
  exists r pg',
    get_or_create_country spec_schema " Y " empty_pg = (r, pg')
    /\ created_or_not "countries" "countries_created" (resolver_key " Y ") r
         empty_pg pg'.
Proof.
  destruct (get_or_create_country spec_schema " Y " empty_pg)
    as [r pg'] eqn:Hrun.
  exists r, pg'. split; [reflexivity|].
  destruct (created_counters_count_the_created_rows spec_schema " Y "
              empty_pg pg' r) as [Hcountry _].
  exact (proj1 (Hcountry Hrun)).
Defined.

(** The theorem at a movie linked to the same country twice: one row is
    added and the counter goes up by two. *)
Lemma link_counters_witness :
  exists pg',
    link_movie_countries spec_schema (SInt 7) ["X"; "X"] pg_with_movie_7
    = (Ok tt, pg')
    /\ stat "movie_countries_linked" pg'
       = (stat "movie_countries_linked" pg_with_movie_7 + 2)%Z.
Proof.
  destruct (link_movie_countries spec_schema (SInt 7) ["X"; "X"]
              pg_with_movie_7) as [[[]|e] pg'] eqn:Hrun;
    [|vm_compute in Hrun; discriminate].
  exists pg'. split; [reflexivity|].
  destruct (link_counters_count_the_submitted_pairs spec_schema (SInt 7)
              ["X"; "X"] pg_with_movie_7 pg') as [Hcountries _].
  destruct (Hcountries Hrun) as (added & _ & _ & _ & Hstat).
  exact Hstat.
Defined.

(** The theorem at a list of facts whose only element is a string, and at
    trailers with an entry that is not a dict, loaded for a movie that is
    not stored: the entry is passed over, and the exception is the one of
    the [INSERT] of the one row. *)
Lemma malformed_facts_witness :
  (exists f, In f [VStr "oops"] /\ is_dict f = false)
  /\ insert_movie_facts no_repr spec_schema (SInt 7) (VList [VStr "oops"])
       pg_with_movie_7
     = (Raise AttributeError, pg_with_movie_7)
  /\ exists pg',
      insert_movie_videos no_repr spec_schema (SInt 7) trailers_doc empty_pg
      = (Raise (DbError ForeignKeyViolation), pg')
      /\ execute_values spec_schema DoNothing "movie_videos"
           [[SInt 7; SText "http://t"; SNull; SNull; SText "trailer"]]
           empty_pg
         = (Raise (DbError ForeignKeyViolation), pg').
Proof.
  assert (Hbad : exists f, In f [VStr "oops"] /\ is_dict f = false).
  { exists (VStr "oops"). split; [left; reflexivity|reflexivity]. }
  split; [exact Hbad|].
  destruct (video_loader_tolerates_malformed_entries no_repr spec_schema)
    as [Hvideos Hfacts].
  split; [apply Hfacts; exact Hbad|].
  destruct (insert_movie_videos no_repr spec_schema (SInt 7) trailers_doc
              empty_pg) as [[[]|e] pg'] eqn:Hrun;
    [vm_compute in Hrun; discriminate|].
  assert (He : e = DbError ForeignKeyViolation).
  { pose proof Hrun as Hv. vm_compute in Hv. injection Hv as <- _.
    reflexivity. }
  subst e. exists pg'. split; [reflexivity|].
  destruct (Hvideos (SInt 7) trailers_doc empty_pg pg' _ Hrun)
    as (v & videos & Hlist & _ & Hins).
  vm_compute in Hlist. injection Hlist as <- <-.
  exact Hins.
Defined.

(** The theorem at a document with the id of a movie that is stored. *)
Lemma explicit_id_witness :
  exists movie_id pg',
    insert_movie_core float_of_digits no_repr spec_schema doc_with_id_7
      pg_with_movie_7 = (Ok movie_id, pg')
    /\ movie_id = SInt 7
    /\ stat "movies_updated" pg'
       = (stat "movies_updated" pg_with_movie_7 + 1)%Z.
Proof.
  destruct (movie_core_values float_of_digits no_repr doc_with_id_7)
    as [[[[id|] cols]|]|e] eqn:Hvals;
    try (vm_compute in Hvals; discriminate).
  assert (Hid : id = 7%Z).
  { pose proof Hvals as Hv. vm_compute in Hv. congruence. }
  subst id.
  destruct (insert_movie_core float_of_digits no_repr spec_schema
              doc_with_id_7 pg_with_movie_7) as [[movie_id|e] pg'] eqn:Hrun;
    [|vm_compute in Hrun; discriminate].
  exists movie_id, pg'. split; [reflexivity|].
  destruct (explicit_id_replaces_the_whole_row float_of_digits no_repr
              spec_schema doc_with_id_7 7 cols pg_with_movie_7 pg' movie_id
              Hvals Hrun) as (Hid & _ & _ & _ & _ & Hupdated).
  split; [exact Hid|exact Hupdated].
Defined.

(** The theorem at a document whose id is zero, on an empty store. *)
Lemma id_zero_witness :
  healthy empty_pg
  /\ exists fr,
      process_movie_doc float_of_digits no_repr spec_schema tick 0
        doc_with_id_0 (mkFrame (mkCounters 0 0) empty_pg) = (Ok tt, fr)
      /\ locals fr = mkCounters 0 1.
Proof.
  split; [reflexivity|].
  destruct (movie_core_values float_of_digits no_repr doc_with_id_0)
    as [[[[id|] cols]|]|e] eqn:Hvals;
    try (vm_compute in Hvals; discriminate).
  assert (Hid : id = 0%Z).
  { pose proof Hvals as Hv. vm_compute in Hv. congruence. }
  subst id.
  destruct (movie_with_id_zero_is_stored_and_skipped float_of_digits no_repr
              spec_schema tick 0 doc_with_id_0 cols (mkCounters 0 0)
              empty_pg eq_refl Hvals) as (fr & Hrun & Hloc & _).
  exists fr. split; [exact Hrun|exact Hloc].
Defined.

(** ** Rows of one statement under [ON CONFLICT DO UPDATE] *)

Lemma same_key_keys (cols : list nat) (r r' : row) :
  same_key cols r r' = true
  <-> exists k, key_of cols r = Some k /\ key_of cols r' = Some k.
Proof.
  unfold same_key. split.
  - destruct (key_of cols r) as [k|]; [|discriminate].
    destruct (key_of cols r') as [k'|]; [|discriminate].
    intros H. apply key_same_eq in H. subst k'. exists k. auto.
  - intros (k & -> & ->). apply key_same_eq. reflexivity.
Qed.

Lemma key_of_columns (cols : list nat) (r r' : row) :
  Forall (fun i => col i r' = col i r) cols ->
  key_of cols r' = key_of cols r.
Proof.
  induction 1 as [|i cols Hi _ IH]; cbn [key_of]; [reflexivity|].
  rewrite Hi, IH. reflexivity.
Qed.

Lemma key_of_in_range (cols : list nat) (r : row) (k : list sqlval) :
  key_of cols r = Some k -> Forall (fun i => (i < length r)%nat) cols.
Proof.
  revert k. induction cols as [|i cols IH]; intros k; cbn [key_of].
  { constructor. }
  destruct (col i r) eqn:Hcol; try discriminate;
    destruct (key_of cols r) as [k'|]; try discriminate; intros _;
    (constructor; [|exact (IH _ eq_refl)]);
    (destruct (Nat.lt_ge_cases i (length r)) as [Hlt|Hge]; [exact Hlt|]);
    unfold col in Hcol; rewrite nth_overflow in Hcol by exact Hge;
    discriminate.
Qed.

(** [DO UPDATE SET] leaves the conflict key of the stored row, when it sets
    none of the key columns. *)
Lemma overwrite_keeps_key (target set : list nat) (new old : row)
    (k : list sqlval) :
  Forall (fun i => existsb (Nat.eqb i) set = false) target ->
  key_of target new = Some k ->
  key_of target (overwrite set new old) = key_of target old.
Proof.
  intros Hdisj Hkey. apply key_of_columns.
  pose proof (key_of_in_range _ _ _ Hkey) as Hrange.
  rewrite Forall_forall in *. intros i Hi.
  unfold overwrite. rewrite col_imap by (apply Hrange; exact Hi).
  rewrite (Hdisj i Hi). reflexivity.
Qed.

Lemma insert_row_do_update (sch : table_schema) (target set : list nat)
    (t : string) (st st' : tables * list row) (r : row) (k : list sqlval) :
  Forall (fun i => existsb (Nat.eqb i) set = false) target ->
  key_of target r = Some k ->
  touched_are_stored target t st ->
  insert_row sch (DoUpdate target set) t st r = Ok st' ->
  touched_are_stored target t st'
  /\ snd st' = snd st ++ [r]
  /\ forall r0, In r0 (snd st) -> key_of target r0 <> Some k.
Proof.
  intros Hdisj Hkey Hinv. destruct st as [T touched].
  unfold insert_row.
  destruct (existsb (same_key target r) (get_table T t)) eqn:Hstored.
  - destruct (existsb (same_key target r) touched) eqn:Htouched;
      [discriminate|].
    intros H. injection H as <-. cbn [fst snd].
    split; [|split; [reflexivity|]].
    + intros r0 k0 Hin Hk0. cbn [fst snd] in *.
      rewrite get_table_insert_eq.
      assert (Hx : exists x, In x (get_table T t)
                             /\ key_of target x = Some k0).
      { apply in_app_or in Hin as [Hin|[<-|[]]].
        - exact (Hinv r0 k0 Hin Hk0).
        - apply existsb_exists in Hstored as (x & Hx & Hsame).
          apply same_key_keys in Hsame as (k1 & Hk1 & Hkx).
          exists x. split; [exact Hx|]. congruence. }
      destruct Hx as (x & Hx & Hkx).
      exists (if same_key target r x then overwrite set r x else x).
      split.
      * apply in_map_iff. exists x. split; [reflexivity|exact Hx].
      * destruct (same_key target r x); [|exact Hkx].
        rewrite (overwrite_keeps_key _ _ _ _ _ Hdisj Hkey). exact Hkx.
    + intros r0 Hin Hk0.
      assert (Hsame : existsb (same_key target r) touched = true).
      { apply existsb_exists. exists r0. split; [exact Hin|].
        apply same_key_keys. exists k. auto. }
      congruence.
  - assert (Hfresh : forall r0, In r0 touched -> key_of target r0 <> Some k).
    { intros r0 Hin Hk0.
      destruct (Hinv r0 k Hin Hk0) as (x & Hx & Hkx).
      assert (Hsame : existsb (same_key target r) (get_table T t) = true).
      { apply existsb_exists. exists x. split; [exact Hx|].
        apply same_key_keys. exists k. auto. }
      congruence. }
    destruct (conflicts (ts_uniques sch) (get_table T t) r); [discriminate|].
    destruct (fks_ok (ts_fks sch) T r); [|discriminate].
    intros H. injection H as <-. cbn [fst snd].
    split; [|split; [reflexivity|exact Hfresh]].
    intros r0 k0 Hin Hk0. cbn [fst snd] in *.
    rewrite get_table_insert_eq.
    apply in_app_or in Hin as [Hin|[<-|[]]].
    + destruct (Hinv r0 k0 Hin Hk0) as (x & Hx & Hkx).
      exists x. split; [apply in_or_app; left; exact Hx|exact Hkx].
    + exists r. split; [apply in_or_app; right; left; reflexivity|exact Hk0].
Qed.

(** A statement under [ON CONFLICT DO UPDATE] that returns has proposed no
    key twice. *)
Lemma insert_rows_do_update (sch : table_schema) (target set : list nat)
    (t : string) (rows : list row) (st st' : tables * list row) :
  Forall (fun i => existsb (Nat.eqb i) set = false) target ->
  Forall (fun r => key_of target r <> None) rows ->
  touched_are_stored target t st ->
  insert_rows sch (DoUpdate target set) t st rows = Ok st' ->
  NoDup (map (key_of target) rows)
  /\ forall r r0, In r rows -> In r0 (snd st) ->
                  key_of target r0 <> key_of target r.
Proof.
  intros Hdisj Hkeys. revert st.
  induction Hkeys as [|r rows Hr _ IH]; intros st Hinv; cbn [insert_rows].
  { intros _. split; [constructor|]. intros r r0 []. }
  destruct (key_of target r) as [k|] eqn:Hk; [|contradiction].
  destruct (insert_row sch (DoUpdate target set) t st r) as [st1|e] eqn:Hrow;
    [|discriminate].
  destruct (insert_row_do_update _ _ _ _ _ _ _ _ Hdisj Hk Hinv Hrow)
    as (Hinv1 & Htouched & Hfresh).
  intros Hrest. destruct (IH st1 Hinv1 Hrest) as [Hnodup Hapart].
  split.
  - cbn [map]. constructor; [|exact Hnodup].
    rewrite Hk. intros Hin. apply list_elem_of_In in Hin.
    apply in_map_iff in Hin as (r1 & Hk1 & Hin1).
    apply (Hapart r1 r Hin1); [|congruence].
    rewrite Htouched. apply in_or_app. right. left. reflexivity.
  - intros r1 r0 [<-|Hin1] Hin0.
    + rewrite Hk. apply Hfresh. exact Hin0.
    + apply Hapart; [exact Hin1|].
      rewrite Htouched. apply in_or_app. left. exact Hin0.
Qed.

Lemma pages_from_map {A B} (f : A -> B) (fuel : nat) (l : list A) :
  pages_from fuel (map f l) = map (map f) (pages_from fuel l).
Proof.
  revert l. induction fuel as [|fuel IH]; intros l; [reflexivity|].
  destruct l as [|x l]; [reflexivity|].
  change (map f (x :: l)) with (f <$> (x :: l)).
  cbn [pages_from]. change (f <$> (x :: l)) with (f x :: map f l) at 1.
  cbv beta iota. cbn [map].
  change (f x :: map f l) with (f <$> (x :: l)).
  rewrite <- fmap_take, <- fmap_drop. f_equal. apply IH.
Qed.

Lemma pages_map {A B} (f : A -> B) (l : list A) :
  pages (map f l) = map (map f) (pages l).
Proof. unfold pages. rewrite length_map. apply pages_from_map. Qed.

Section EpisodeFacts.

Variable py_float : string -> option spec_float.
Variable py_repr : pyval -> string.
Variable schema : string -> table_schema.

(** [execute_values] under [ON CONFLICT DO UPDATE] that returns has sent no
    page that proposes a key twice. *)
Lemma for_each_page_do_update (target set : list nat) (t : string)
    (ps : list (list row)) (pg pg' : PgRepo) :
  Forall (fun i => existsb (Nat.eqb i) set = false) target ->
  Forall (Forall (fun r => key_of target r <> None)) ps ->
  for_each (fun page => on_conn (exec_insert (schema t) (DoUpdate target set)
                                   t page)) ps pg = (Ok tt, pg') ->
  Forall (fun page => NoDup (map (key_of target) page)) ps.
Proof.
  intros Hdisj Hkeys. revert pg.
  induction Hkeys as [|page ps Hpage _ IH]; intros pg; cbn [for_each].
  { intros _. constructor. }
  unfold bind, on_conn.
  destruct (exec_insert (schema t) (DoUpdate target set) t page (conn pg))
    as [[[]|e] c1] eqn:Hins; [|discriminate].
  intros Hrest. constructor; [|exact (IH _ Hrest)].
  apply statement_ok in Hins as (_ & Hbody & _).
  destruct (insert_rows (schema t) (DoUpdate target set) t
              (conn_tables (conn pg), []) page) as [st'|e] eqn:Hrows;
    [|discriminate].
  refine (proj1 (insert_rows_do_update _ _ _ _ _ _ _ Hdisj Hpage _ Hrows)).
  intros r k [].
Qed.

Lemma execute_values_do_update (target set : list nat) (t : string)
    (rows : list row) (pg pg' : PgRepo) :
  Forall (fun i => existsb (Nat.eqb i) set = false) target ->
  Forall (fun r => key_of target r <> None) rows ->
  execute_values schema (DoUpdate target set) t rows pg = (Ok tt, pg') ->
  Forall (fun page => NoDup (map (key_of target) page)) (pages rows).
Proof.
  intros Hdisj Hkeys. unfold execute_values.
  apply for_each_page_do_update; [exact Hdisj|].
  apply Forall_concat. rewrite pages_concat. exact Hkeys.
Qed.

Lemma episode_row_key (season_id : sqlval) (ep : pyval) (r : row) :
  episode_row py_float py_repr season_id ep = Ok r ->
  is_dict ep = true
  /\ col 0 r = season_id
  /\ col 1 r = SInt (episode_number py_float py_repr ep).
Proof.
  destruct ep as [| | | | | | | |d]; try discriminate.
  unfold episode_row. cbn [py_get res_bind].
  destruct (parse_mongo_date _) as [air|e]; [|discriminate].
  cbn [res_bind].
  destruct (py_get (py_or _ _) "url") as [u|e]; [|discriminate].
  cbn [res_bind].
  destruct (py_get (py_or _ _) "previewUrl") as [p|e]; [|discriminate].
  cbn [res_bind]. intros H. injection H as <-.
  split; [reflexivity|]. split; reflexivity.
Qed.

Lemma episode_rows_keys (season_id : sqlval) (episodes : list pyval)
    (rows : list row) :
  season_id <> SNull ->
  episode_rows py_float py_repr season_id episodes = Ok rows ->
  Forall (fun ep => is_dict ep = true) episodes
  /\ length rows = length episodes
  /\ map (key_of episodes_key) rows
     = map (fun ep => Some [season_id;
                            SInt (episode_number py_float py_repr ep)])
         episodes.
Proof.
  intros Hid. revert rows.
  induction episodes as [|ep episodes IH]; intros rows; cbn [episode_rows].
  { intros H. injection H as <-. split; [constructor|]. split; reflexivity. }
  destruct (episode_row py_float py_repr season_id ep) as [r|e] eqn:Hrow;
    [|discriminate].
  cbn [res_bind].
  destruct (episode_rows py_float py_repr season_id episodes) as [rest|e];
    [|discriminate].
  cbn [res_bind]. intros H. injection H as <-.
  destruct (IH rest eq_refl) as (Hdicts & Hlen & Hkeys).
  destruct (episode_row_key _ _ _ Hrow) as (Hdict & H0 & H1).
  split; [constructor; assumption|].
  split; [cbn [length]; congruence|].
  cbn [map]. rewrite Hkeys. f_equal.
  unfold episodes_key. cbn [key_of]. rewrite H0, H1.
  destruct season_id; try reflexivity. contradiction.
Qed.

(** What a season that [upsert_season] has loaded looks like: every item
    of [episodes] is a dict, and no two episodes sent in the same page of
    100 have the same number, where an episode without a usable number, or
    with the number 0, counts as episode 0.  A season that repeats an
    episode number within a page makes the statement raise, which the
    seasons loop answers by skipping the whole season. *)
Theorem loaded_season_has_distinct_episodes (season_doc : pydict)
    (pg pg' : PgRepo) (season_id : sqlval) (episodes : list pyval) :
  upsert_season py_float py_repr schema season_doc pg = (Ok season_id, pg') ->
  season_id <> SNull ->
  py_iter (py_or (dict_get season_doc "episodes") (VList [])) = Ok episodes ->
  Forall (fun ep => is_dict ep = true) episodes
  /\ Forall (fun page => NoDup (map (episode_number py_float py_repr) page))
       (pages episodes).
Proof.
  intros Hrun Hid Hiter. revert Hrun. unfold upsert_season.
  destruct (as_int py_float py_repr (dict_get season_doc "movieId"))
    as [movie_id|];
    [|intros H; injection H as <- _; contradiction].
  destruct (movie_id =? 0)%Z;
    [intros H; injection H as <- _; contradiction|].
  unfold bind at 1.
  destruct (on_conn (exec_select_one "movies" _) pg) as [[[found|]|e] pg1];
    [|intros H; injection H as <- _; contradiction|discriminate].
  unfold bind at 1. unfold lift at 1.
  destruct (season_cols py_float py_repr movie_id season_doc) as [cols|e];
    [|discriminate].
  unfold bind at 1.
  destruct (on_conn (exec_insert_serial _ _ _ _) pg1) as [[sid|e] pg2];
    [|discriminate].
  unfold bind at 1. rewrite bump_conn.
  unfold bind at 1. unfold lift at 1. rewrite Hiter.
  unfold bind at 1. unfold lift at 1.
  destruct (episode_rows py_float py_repr sid episodes) as [rows|e] eqn:Hrows;
    [|discriminate].
  unfold bind at 1.
  destruct rows as [|r rows].
  - intros _. destruct episodes as [|ep episodes].
    + split; constructor.
    + cbn [episode_rows] in Hrows.
      destruct (episode_row py_float py_repr sid ep); [|discriminate].
      cbn [res_bind] in Hrows.
      destruct (episode_rows py_float py_repr sid episodes); discriminate.
  - match goal with
    | |- context [execute_values ?s ?oc ?t ?rs ?p] =>
        destruct (execute_values s oc t rs p) as [[[]|e] pg4] eqn:Hex;
          [|discriminate]
    end.
    unfold ret. intros H. injection H as -> <-.
    destruct (episode_rows_keys _ _ _ Hid Hrows) as (Hdicts & _ & Hkeys).
    split; [exact Hdicts|].
    apply execute_values_do_update in Hex.
    + assert (Hpages : map (map (key_of episodes_key)) (pages (r :: rows))
                       = map (map (fun ep =>
                                     Some [season_id;
                                           SInt (episode_number py_float
                                                   py_repr ep)]))
                           (pages episodes)).
      { rewrite <- !pages_map. rewrite Hkeys. reflexivity. }
      assert (Hall : Forall (fun ks : list (option (list sqlval)) => NoDup ks)
                       (map (map (key_of episodes_key)) (pages (r :: rows)))).
      { apply List.Forall_forall. intros ks Hks.
        apply in_map_iff in Hks as (page & <- & Hpage).
        rewrite List.Forall_forall in Hex. exact (Hex page Hpage). }
      rewrite Hpages in Hall. apply List.Forall_forall. intros page Hpage.
      rewrite List.Forall_forall in Hall.
      assert (Hnodup : NoDup (map (fun ep =>
                                     Some [season_id;
                                           SInt (episode_number py_float
                                                   py_repr ep)]) page)).
      { apply Hall. apply in_map. exact Hpage. }
      rewrite <- (map_map (episode_number py_float py_repr)
                    (fun n => Some [season_id; SInt n])) in Hnodup.
      exact (NoDup_fmap_1 _ _ Hnodup).
    + repeat constructor.
    + apply List.Forall_forall. intros r0 Hin Hnone.
      assert (Hin' : In (key_of episodes_key r0)
                       (map (key_of episodes_key) (r :: rows))).
      { apply in_map. exact Hin. }
      rewrite Hkeys, Hnone in Hin'.
      apply in_map_iff in Hin' as (ep & Hep & _). discriminate.
Qed.

End EpisodeFacts.

(** ** What [upsert_season] writes *)

Lemma insert_row_other_table (sch : table_schema) (oc : on_conflict)
    (t : string) (st st' : tables * list row) (r : row) (t' : string) :
  t <> t' ->
  insert_row sch oc t st r = Ok st' ->
  get_table (fst st') t' = get_table (fst st) t'.
Proof.
  intros Hne. destruct st as [T touched]. unfold insert_row.
  destruct oc as [| |target set];
    repeat match goal with
           | |- context [if ?b then _ else _] => destruct b
           end;
    try discriminate; intros H; injection H as <-; cbn [fst];
    try reflexivity; apply get_table_insert_ne; exact Hne.
Qed.

Lemma insert_rows_other_table (sch : table_schema) (oc : on_conflict)
    (t : string) (rows : list row) (st st' : tables * list row)
    (t' : string) :
  t <> t' ->
  insert_rows sch oc t st rows = Ok st' ->
  get_table (fst st') t' = get_table (fst st) t'.
Proof.
  intros Hne. revert st.
  induction rows as [|r rows IH]; intros st; cbn [insert_rows].
  { intros H. injection H as <-. reflexivity. }
  destruct (insert_row sch oc t st r) as [st1|e] eqn:Hrow; [|discriminate].
  intros H. rewrite (IH _ H).
  exact (insert_row_other_table _ _ _ _ _ _ _ Hne Hrow).
Qed.

Lemma exec_insert_other_table (sch : table_schema) (oc : on_conflict)
    (t : string) (rows : list row) (c c' : connection) (r : res unit)
    (t' : string) :
  t <> t' ->
  exec_insert sch oc t rows c = (r, c') ->
  get_table (conn_tables c') t' = get_table (conn_tables c) t'.
Proof.
  intros Hne. destruct r as [[]|e]; intros H.
  - apply statement_ok in H as (_ & Hbody & _).
    destruct (insert_rows sch oc t (conn_tables c, []) rows)
      as [[T' touched]|e] eqn:Hrows; [|discriminate].
    injection Hbody as <-.
    exact (insert_rows_other_table _ _ _ _ _ _ _ Hne Hrows).
  - apply statement_raise in H as (-> & _). reflexivity.
Qed.

Section SeasonOutcome.

Variable py_float : string -> option spec_float.
Variable py_repr : pyval -> string.
Variable schema : string -> table_schema.

Lemma execute_values_other_table (oc : on_conflict) (t : string)
    (rows : list row) (pg pg' : PgRepo) (r : res unit) (t' : string) :
  t <> t' ->
  execute_values schema oc t rows pg = (r, pg') ->
  rows_of t' pg' = rows_of t' pg.
Proof.
  intros Hne. unfold execute_values. generalize (pages rows). intros ps.
  revert pg. induction ps as [|page ps IH]; intros pg; cbn [for_each].
  { intros H. injection H as _ <-. reflexivity. }
  unfold bind, on_conn.
  destruct (exec_insert (schema t) oc t page (conn pg)) as [[[]|e] c1]
    eqn:Hpage;
    apply (exec_insert_other_table _ _ _ _ _ _ _ t' Hne) in Hpage.
  - intros H. rewrite (IH _ H). exact Hpage.
  - intros H. injection H as _ <-. exact Hpage.
Qed.

(** [INSERT ... ON CONFLICT (key) DO UPDATE ... RETURNING id] that returns
    gives the identifier of a row that holds the key. *)
Lemma exec_insert_serial_do_update (sch : table_schema)
    (target set : list nat) (t : string) (cols : row) (c c' : connection)
    (id : sqlval) (k : list sqlval) :
  Forall (fun i => existsb (Nat.eqb i) set = false) target ->
  (forall v, key_of target (SInt v :: cols) = Some k) ->
  exec_insert_serial sch (DoUpdate target set) t cols c = (Ok id, c') ->
  (exists row, In row (get_table (conn_tables c') t)
               /\ col 0 row = id /\ key_of target row = Some k)
  /\ forall t', t <> t' ->
                get_table (conn_tables c') t' = get_table (conn_tables c) t'.
Proof.
  intros Hdisj Hkey. unfold exec_insert_serial.
  destruct (conn_failed c) eqn:Hf; [discriminate|].
  unfold nextval. set (v := (default 0%Z (conn_seqs c !! t) + 1)%Z).
  intros H. apply statement_ok in H as (_ & Hbody & _).
  cbn [conn_tables with_seqs] in Hbody.
  set (r := SInt v :: cols) in *. set (T := conn_tables c) in *.
  assert (Hkr : key_of target r = Some k) by apply Hkey.
  destruct (insert_row sch (DoUpdate target set) t (T, []) r)
    as [[T' touched]|e] eqn:Hrow; [|discriminate].
  injection Hbody as Hid HT. cbn [conn_tables] in HT. rewrite <- HT.
  assert (Hempty : touched_are_stored target t (T, [])).
  { intros r0 k0 []. }
  destruct (insert_row_do_update _ _ _ _ _ _ _ _ Hdisj Hkr Hempty Hrow)
    as (Hstored & Htouched & _).
  cbn [fst snd] in *.
  split.
  2:{ intros t' Hne.
      exact (insert_row_other_table _ _ _ _ _ _ _ Hne Hrow). }
  destruct (Hstored r k) as (x & Hx & Hkx);
    [rewrite Htouched; left; reflexivity|exact Hkr|].
  destruct (existsb (same_key target r) (get_table T t)) eqn:Hex.
  - unfold returning_id in Hid.
    destruct (find (same_key target r) (get_table T' t)) as [r'|] eqn:Hfind.
    + apply find_some in Hfind as [Hin Hsame].
      apply same_key_keys in Hsame as (k1 & Hk1 & Hk1').
      exists r'. split; [exact Hin|]. split; [exact Hid|].
      congruence.
    + exfalso. apply (find_none _ _ Hfind) in Hx.
      assert (Hsame : same_key target r x = true).
      { apply same_key_keys. exists k. split; [exact Hkr|exact Hkx]. }
      congruence.
  - revert Hrow. unfold insert_row. rewrite Hex.
    destruct (conflicts (ts_uniques sch) (get_table T t) r); [discriminate|].
    destruct (fks_ok (ts_fks sch) T r); [|discriminate].
    intros Hrow. injection Hrow as <- _.
    exists r. rewrite get_table_insert_eq.
    split; [apply in_or_app; right; left; reflexivity|].
    split; [exact Hid|exact Hkr].
Qed.

Lemma season_cols_key (movie_id : Z) (season_doc : pydict) (cols : row) :
  season_cols py_float py_repr movie_id season_doc = Ok cols ->
  forall v,
    key_of seasons_key (SInt v :: cols)
    = Some [SInt movie_id;
            SInt (int_or (as_int py_float py_repr
                            (dict_get season_doc "number")) 1)].
Proof.
  unfold season_cols.
  destruct (parse_mongo_date _) as [air|e]; [|discriminate].
  cbn [res_bind].
  destruct (py_get _ "url") as [u|e]; [|discriminate].
  cbn [res_bind]. intros H. injection H as <-. reflexivity.
Qed.

(** What a call of [upsert_season] that returns has done.  Either it has
    skipped the season: the document has no usable [movieId], or the number
    0, or no row of [movies] has that identifier; it returns [None] and
    leaves the repository as it was.  Or the movie is stored, and then a row
    of [seasons] holds the identifier returned with the movie and the season
    number of the document (1 when the document gives none, or 0),
    [seasons_inserted] has gone up by one, whether the row was inserted or
    updated, [seasons_updated] stands, and only the tables [seasons] and
    [episodes] can have changed. *)
Theorem upsert_season_skips_or_stores (season_doc : pydict)
    (pg pg' : PgRepo) (season_id : sqlval) :
  upsert_season py_float py_repr schema season_doc pg = (Ok season_id, pg') ->
  (season_id = SNull /\ pg' = pg
   /\ match as_int py_float py_repr (dict_get season_doc "movieId") with
      | None => True
      | Some movie_id => movie_id = 0%Z \/ unknown_movie movie_id pg
      end)
  \/ (exists movie_id row,
         as_int py_float py_repr (dict_get season_doc "movieId")
         = Some movie_id
         /\ movie_id <> 0%Z
         /\ ~ unknown_movie movie_id pg
         /\ In row (rows_of "seasons" pg')
         /\ col 0 row = season_id
         /\ col 1 row = SInt movie_id
         /\ col 2 row
            = SInt (int_or (as_int py_float py_repr
                              (dict_get season_doc "number")) 1)
         /\ stat "seasons_inserted" pg'
            = (stat "seasons_inserted" pg + 1)%Z
         /\ stat "seasons_updated" pg' = stat "seasons_updated" pg
         /\ forall t, "seasons" <> t -> "episodes" <> t ->
                      rows_of t pg' = rows_of t pg).
Proof.
  unfold upsert_season.
  destruct (as_int py_float py_repr (dict_get season_doc "movieId"))
    as [movie_id|];
    [|intros H; injection H as <- <-; left; auto].
  destruct (movie_id =? 0)%Z eqn:Hzero.
  { intros H. injection H as <- <-. left. apply Z.eqb_eq in Hzero. auto. }
  apply Z.eqb_neq in Hzero.
  unfold bind at 1. unfold on_conn at 1.
  destruct (exec_select_one "movies" _ (conn pg)) as [[found|e] c1] eqn:Hsel;
    [|discriminate].
  apply exec_select_one_ok in Hsel as (-> & -> & Hf).
  rewrite set_conn_same.
  match goal with
  | |- context [find ?p ?l] => destruct (find p l) as [found|] eqn:Hfind
  end.
  2:{ intros H. injection H as <- <-. left.
      split; [reflexivity|]. split; [reflexivity|]. right.
      apply Forall_forall. intros r Hin Hcol.
      apply list_elem_of_In in Hin.
      apply (find_none _ _ Hfind) in Hin. rewrite Hcol in Hin.
      cbn in Hin. rewrite Z.eqb_refl in Hin. discriminate. }
  apply find_some in Hfind as [Hin Hfound].
  assert (Hknown : ~ unknown_movie movie_id pg).
  { intros Hall. unfold unknown_movie in Hall.
    rewrite Forall_forall in Hall.
    apply list_elem_of_In in Hin. apply (Hall found Hin).
    destruct (col 0 found); try discriminate.
    cbn in Hfound. apply Z.eqb_eq in Hfound. congruence. }
  unfold bind at 1. unfold lift at 1.
  destruct (season_cols py_float py_repr movie_id season_doc) as [cols|e]
    eqn:Hcols; [|discriminate].
  pose proof (season_cols_key _ _ _ Hcols) as Hkey.
  unfold bind at 1. unfold on_conn at 1.
  destruct (exec_insert_serial _ _ _ _ (conn pg)) as [[sid|e] c2] eqn:Hins;
    [|discriminate].
  apply exec_insert_serial_do_update
    with (k := [SInt movie_id;
                SInt (int_or (as_int py_float py_repr
                                (dict_get season_doc "number")) 1)])
    in Hins; [|repeat constructor|exact Hkey].
  destruct Hins as ((row & Hrow & Hid & Hrowkey) & Hothers).
  unfold bind at 1. rewrite bump_conn.
  set (pg3 := mkPgRepo _ _ _ _).
  unfold bind at 1. unfold lift at 1.
  destruct (py_iter _) as [items|e]; [|discriminate].
  unfold bind at 1. unfold lift at 1.
  destruct (episode_rows py_float py_repr sid items) as [rows|e];
    [|discriminate].
  unfold bind at 1.
  assert (Hlast : forall pg4,
             rows_of "seasons" pg4 = rows_of "seasons" pg3 ->
             stats pg4 = stats pg3 ->
             (forall t, "episodes" <> t -> rows_of t pg4 = rows_of t pg3) ->
             exists movie_id0 row0,
               Some movie_id = Some movie_id0
               /\ movie_id0 <> 0%Z
               /\ ~ unknown_movie movie_id0 pg
               /\ In row0 (rows_of "seasons" pg4)
               /\ col 0 row0 = sid
               /\ col 1 row0 = SInt movie_id0
               /\ col 2 row0
                  = SInt (int_or (as_int py_float py_repr
                                    (dict_get season_doc "number")) 1)
               /\ stat "seasons_inserted" pg4
                  = (stat "seasons_inserted" pg + 1)%Z
               /\ stat "seasons_updated" pg4 = stat "seasons_updated" pg
               /\ forall t, "seasons" <> t -> "episodes" <> t ->
                            rows_of t pg4 = rows_of t pg).
  { intros pg4 Hseasons Hstats Hrest.
    exists movie_id, row.
    split; [reflexivity|]. split; [exact Hzero|]. split; [exact Hknown|].
    split; [rewrite Hseasons; exact Hrow|]. split; [exact Hid|].
    unfold seasons_key in Hrowkey. cbn [key_of] in Hrowkey.
    split.
    { destruct (col 1 row); try discriminate;
        destruct (col 2 row); try discriminate; congruence. }
    split.
    { destruct (col 1 row); try discriminate;
        destruct (col 2 row); try discriminate; congruence. }
    unfold stat. rewrite Hstats. subst pg3. cbn [stats].
    split; [rewrite lookup_insert_eq; reflexivity|].
    split; [rewrite lookup_insert_ne by discriminate; reflexivity|].
    intros t Hs He. rewrite (Hrest t He). unfold rows_of. cbn [conn].
    apply Hothers. exact Hs. }
  destruct rows as [|r rows].
  - unfold ret. intros H. injection H as <- <-. right.
    apply Hlast; auto.
  - match goal with
    | |- context [execute_values ?s ?oc ?t ?rs ?p] =>
        destruct (execute_values s oc t rs p) as [[[]|e] pg4] eqn:Hex;
          [|discriminate]
    end.
    unfold ret. intros H. injection H as <- <-. right.
    apply Hlast.
    + apply (execute_values_other_table _ _ _ _ _ _ "seasons") in Hex;
        [exact Hex|discriminate].
    + exact (execute_values_stats _ _ _ _ _ _ _ Hex).
    + intros t Hne.
      exact (execute_values_other_table _ _ _ _ _ _ t Hne Hex).
Qed.

End SeasonOutcome.

(** ** Movie documents without an identifier *)

Lemma exec_insert_serial_next (sch : table_schema) (t : string) (cols : row)
    (c c' : connection) (id : sqlval) :
  exec_insert_serial sch NoClause t cols c = (Ok id, c') ->
  exists n,
    id = SInt n
    /\ n = (default 0 (conn_seqs c !! t) + 1)%Z
    /\ conn_seqs c' !! t = Some n
    /\ get_table (conn_tables c') t
       = get_table (conn_tables c) t ++ [id :: cols].
Proof.
  unfold exec_insert_serial.
  destruct (conn_failed c) eqn:Hf; [discriminate|].
  unfold nextval. set (n := (default 0%Z (conn_seqs c !! t) + 1)%Z).
  intros H. apply statement_ok in H as (_ & Hbody & Hc).
  cbn [conn_tables with_seqs] in Hbody.
  unfold insert_row in Hbody.
  destruct (conflicts _ _ _); [discriminate|].
  destruct (fks_ok _ _ _); [|discriminate].
  injection Hbody as <- HT.
  exists n. split; [reflexivity|]. split; [reflexivity|].
  split.
  - rewrite Hc. cbn. apply lookup_insert_eq.
  - rewrite <- HT. apply get_table_insert_eq.
Qed.

Section MovieWithoutId.

Variable py_float : string -> option spec_float.
Variable py_repr : pyval -> string.
Variable schema : string -> table_schema.

Lemma insert_movie_core_without_id (movie : pydict) (cols : list sqlval)
    (pg pg' : PgRepo) (movie_id : sqlval) :
  movie_core_values py_float py_repr movie = Ok (Some (None, cols)) ->
  insert_movie_core py_float py_repr schema movie pg = (Ok movie_id, pg') ->
  exists n,
    movie_id = SInt n
    /\ n = (default 0 (conn_seqs (conn pg) !! "movies") + 1)%Z
    /\ conn_seqs (conn pg') !! "movies" = Some n
    /\ rows_of "movies" pg' = rows_of "movies" pg ++ [movie_id :: cols]
    /\ stat "movies_inserted" pg'
       = (stat "movies_inserted" pg + (if (n =? 0)%Z then 0 else 1))%Z
    /\ stat "movies_updated" pg' = stat "movies_updated" pg.
Proof.
  intros Hvals. unfold insert_movie_core, bind, lift. rewrite Hvals.
  unfold on_conn.
  destruct (exec_insert_serial _ _ _ _ (conn pg)) as [[id|e] c1] eqn:Hins;
    [|discriminate].
  destruct (exec_insert_serial_next _ _ _ _ _ _ Hins)
    as (n & -> & Hn & Hseq & Hrows).
  cbn [sql_truthy]. unfold rows_of, stat.
  destruct (n =? 0)%Z eqn:Hzero; cbn [negb]; unfold ret, bump;
    intros H; injection H as <- <-; cbn [conn stats set_conn];
    exists n; rewrite Hzero; (split; [reflexivity|]); (split; [exact Hn|]);
    (split; [exact Hseq|]); (split; [exact Hrows|]).
  - split; [symmetry; apply Z.add_0_r|reflexivity].
  - rewrite lookup_insert_eq, lookup_insert_ne by discriminate.
    split; reflexivity.
Qed.

(** A movie document without an [id] has no key under which it could be
    found again: each time [insert_movie_core] returns on it, it has added
    a row of the same values under the next identifier of the sequence.
    Loading the same document twice leaves two rows. *)
Theorem movie_without_id_is_inserted_anew (movie : pydict)
    (cols : list sqlval) (pg pg1 pg2 : PgRepo) (id1 id2 : sqlval) :
  movie_core_values py_float py_repr movie = Ok (Some (None, cols)) ->
  insert_movie_core py_float py_repr schema movie pg = (Ok id1, pg1) ->
  insert_movie_core py_float py_repr schema movie pg1 = (Ok id2, pg2) ->
  exists n,
    id1 = SInt n /\ id2 = SInt (n + 1)
    /\ rows_of "movies" pg2
       = rows_of "movies" pg ++ [id1 :: cols; id2 :: cols]
    /\ stat "movies_updated" pg2 = stat "movies_updated" pg.
Proof.
  intros Hvals Hfirst Hsecond.
  destruct (insert_movie_core_without_id _ _ _ _ _ Hvals Hfirst)
    as (n & Hid1 & _ & Hseq & Hrows1 & _ & Hupd1).
  destruct (insert_movie_core_without_id _ _ _ _ _ Hvals Hsecond)
    as (m & Hid2 & Hm & _ & Hrows2 & _ & Hupd2).
  rewrite Hseq in Hm. cbn in Hm. subst m.
  exists n. split; [exact Hid1|]. split; [exact Hid2|].
  split; [|congruence].
  rewrite Hrows2, Hrows1, <- app_assoc. reflexivity.
Qed.

End MovieWithoutId.

(** ** Season keys: what [upsert_season] stores *)

(** A stored key stays stored by a row under [ON CONFLICT DO UPDATE]. *)
Lemma insert_row_keeps_key (sch : table_schema) (target set : list nat)
    (t : string) (st st' : tables * list row) (r x : row) (k : list sqlval) :
  Forall (fun i => existsb (Nat.eqb i) set = false) target ->
  In x (get_table (fst st) t) ->
  key_of target x = Some k ->
  insert_row sch (DoUpdate target set) t st r = Ok st' ->
  exists x', In x' (get_table (fst st') t) /\ key_of target x' = Some k.
Proof.
  intros Hdisj Hx Hkx. destruct st as [T touched]. cbn [fst] in Hx.
  unfold insert_row.
  destruct (existsb (same_key target r) (get_table T t)).
  - destruct (existsb (same_key target r) touched); [discriminate|].
    intros H. injection H as <-. cbn [fst].
    rewrite get_table_insert_eq.
    exists (if same_key target r x then overwrite set r x else x). split.
    + apply in_map_iff. exists x. split; [reflexivity|exact Hx].
    + destruct (same_key target r x) eqn:Hsame; [|exact Hkx].
      apply same_key_keys in Hsame as (k1 & Hk1 & _).
      rewrite (overwrite_keeps_key _ _ _ _ _ Hdisj Hk1). exact Hkx.
  - destruct (conflicts (ts_uniques sch) (get_table T t) r); [discriminate|].
    destruct (fks_ok (ts_fks sch) T r); [|discriminate].
    intros H. injection H as <-. cbn [fst].
    rewrite get_table_insert_eq.
    exists x. split; [apply in_or_app; left; exact Hx|exact Hkx].
Qed.

(** The key of a row that went through is stored. *)
Lemma insert_row_stores_key (sch : table_schema) (target set : list nat)
    (t : string) (st st' : tables * list row) (r : row) (k : list sqlval) :
  Forall (fun i => existsb (Nat.eqb i) set = false) target ->
  key_of target r = Some k ->
  insert_row sch (DoUpdate target set) t st r = Ok st' ->
  exists x', In x' (get_table (fst st') t) /\ key_of target x' = Some k.
Proof.
  intros Hdisj Hk. destruct st as [T touched].
  destruct (existsb (same_key target r) (get_table T t)) eqn:Hstored.
  - apply existsb_exists in Hstored as (x & Hx & Hsame).
    apply same_key_keys in Hsame as (k1 & Hk1 & Hkx).
    assert (k1 = k) by congruence. subst k1.
    apply (insert_row_keeps_key sch target set t (T, touched) st' r x k);
      assumption.
  - unfold insert_row. rewrite Hstored.
    destruct (conflicts (ts_uniques sch) (get_table T t) r); [discriminate|].
    destruct (fks_ok (ts_fks sch) T r); [|discriminate].
    intros H. injection H as <-. cbn [fst].
    rewrite get_table_insert_eq.
    exists r. split; [apply in_or_app; right; left; reflexivity|exact Hk].
Qed.

Lemma insert_rows_keeps_key (sch : table_schema) (target set : list nat)
    (t : string) (rows : list row) (st st' : tables * list row) (x : row)
    (k : list sqlval) :
  Forall (fun i => existsb (Nat.eqb i) set = false) target ->
  In x (get_table (fst st) t) ->
  key_of target x = Some k ->
  insert_rows sch (DoUpdate target set) t st rows = Ok st' ->
  exists x', In x' (get_table (fst st') t) /\ key_of target x' = Some k.
Proof.
  intros Hdisj. revert st x.
  induction rows as [|r rows IH]; intros st x Hx Hkx; cbn [insert_rows].
  { intros H. injection H as <-. eauto. }
  destruct (insert_row sch (DoUpdate target set) t st r) as [st1|e] eqn:Hrow;
    [|discriminate].
  destruct (insert_row_keeps_key _ _ _ _ _ _ _ _ _ Hdisj Hx Hkx Hrow)
    as (x1 & Hx1 & Hk1).
  apply (IH st1 x1 Hx1 Hk1).
Qed.

Lemma insert_rows_stores_keys (sch : table_schema) (target set : list nat)
    (t : string) (rows : list row) (st st' : tables * list row) (r : row)
    (k : list sqlval) :
  Forall (fun i => existsb (Nat.eqb i) set = false) target ->
  In r rows ->
  key_of target r = Some k ->
  insert_rows sch (DoUpdate target set) t st rows = Ok st' ->
  exists x', In x' (get_table (fst st') t) /\ key_of target x' = Some k.
Proof.
  intros Hdisj. revert st.
  induction rows as [|r0 rows IH]; intros st Hin Hk; [destruct Hin|].
  cbn [insert_rows].
  destruct (insert_row sch (DoUpdate target set) t st r0) as [st1|e] eqn:Hrow;
    [|discriminate].
  destruct Hin as [->|Hin].
  - destruct (insert_row_stores_key _ _ _ _ _ _ _ _ Hdisj Hk Hrow)
      as (x1 & Hx1 & Hk1).
    apply (insert_rows_keeps_key _ _ _ _ _ _ _ _ _ Hdisj Hx1 Hk1).
  - apply (IH st1 Hin Hk).
Qed.

Section EpisodesStored.

Variable py_float : string -> option spec_float.
Variable py_repr : pyval -> string.
Variable schema : string -> table_schema.

Lemma for_each_page_keeps_key (target set : list nat) (t : string)
    (ps : list (list row)) (pg pg' : PgRepo) (x : row) (k : list sqlval) :
  Forall (fun i => existsb (Nat.eqb i) set = false) target ->
  In x (rows_of t pg) ->
  key_of target x = Some k ->
  for_each (fun page => on_conn (exec_insert (schema t) (DoUpdate target set)
                                   t page)) ps pg = (Ok tt, pg') ->
  exists x', In x' (rows_of t pg') /\ key_of target x' = Some k.
Proof.
  intros Hdisj. revert pg x.
  induction ps as [|page ps IH]; intros pg x Hx Hkx; cbn [for_each].
  { intros H. injection H as <-. eauto. }
  unfold bind, on_conn.
  destruct (exec_insert (schema t) (DoUpdate target set) t page (conn pg))
    as [[[]|e] c1] eqn:Hins; [|discriminate].
  apply statement_ok in Hins as (_ & Hbody & _).
  destruct (insert_rows (schema t) (DoUpdate target set) t
              (conn_tables (conn pg), []) page) as [[T1 touched1]|e] eqn:Hrows;
    [|discriminate].
  injection Hbody as HT.
  destruct (insert_rows_keeps_key (schema t) target set t page
              (conn_tables (conn pg), []) (T1, touched1) x k Hdisj Hx Hkx
              Hrows) as (x1 & Hx1 & Hk1).
  cbn [fst] in Hx1. rewrite HT in Hx1.
  apply (IH (set_conn c1 pg) x1); [exact Hx1|exact Hk1].
Qed.

Lemma for_each_page_stores_keys (target set : list nat) (t : string)
    (ps : list (list row)) (pg pg' : PgRepo) (r : row) (k : list sqlval) :
  Forall (fun i => existsb (Nat.eqb i) set = false) target ->
  In r (concat ps) ->
  key_of target r = Some k ->
  for_each (fun page => on_conn (exec_insert (schema t) (DoUpdate target set)
                                   t page)) ps pg = (Ok tt, pg') ->
  exists x', In x' (rows_of t pg') /\ key_of target x' = Some k.
Proof.
  intros Hdisj. revert pg.
  induction ps as [|page ps IH]; intros pg Hin Hk; [destruct Hin|].
  cbn [for_each]. unfold bind, on_conn.
  destruct (exec_insert (schema t) (DoUpdate target set) t page (conn pg))
    as [[[]|e] c1] eqn:Hins; [|discriminate].
  cbn [concat] in Hin. apply in_app_or in Hin as [Hin|Hin].
  - apply statement_ok in Hins as (_ & Hbody & _).
    destruct (insert_rows (schema t) (DoUpdate target set) t
                (conn_tables (conn pg), []) page) as [[T1 touched1]|e]
      eqn:Hrows; [|discriminate].
    injection Hbody as HT.
    destruct (insert_rows_stores_keys (schema t) target set t page
                (conn_tables (conn pg), []) (T1, touched1) r k Hdisj Hin Hk
                Hrows) as (x1 & Hx1 & Hk1).
    cbn [fst] in Hx1. rewrite HT in Hx1.
    apply (for_each_page_keeps_key target set t ps (set_conn c1 pg) pg' x1 k
             Hdisj); [exact Hx1|exact Hk1].
  - apply (IH (set_conn c1 pg) Hin Hk).
Qed.

(** Every row a bulk [INSERT ... ON CONFLICT DO UPDATE] that returned was
    given has its key in the table. *)
Lemma execute_values_stores_keys (target set : list nat) (t : string)
    (rows : list row) (pg pg' : PgRepo) (r : row) (k : list sqlval) :
  Forall (fun i => existsb (Nat.eqb i) set = false) target ->
  In r rows ->
  key_of target r = Some k ->
  execute_values schema (DoUpdate target set) t rows pg = (Ok tt, pg') ->
  exists x', In x' (rows_of t pg') /\ key_of target x' = Some k.
Proof.
  intros Hdisj Hin Hk. unfold execute_values.
  apply (for_each_page_stores_keys target set t (pages rows) pg pg' r k);
    [exact Hdisj| |exact Hk].
  rewrite pages_concat. exact Hin.
Qed.

Lemma episode_rows_of_each (season_id : sqlval) (episodes : list pyval)
    (rows : list row) (ep : pyval) :
  episode_rows py_float py_repr season_id episodes = Ok rows ->
  In ep episodes ->
  exists r, In r rows /\ episode_row py_float py_repr season_id ep = Ok r.
Proof.
  revert rows. induction episodes as [|ep0 episodes IH]; intros rows;
    [intros _ []|].
  cbn [episode_rows].
  destruct (episode_row py_float py_repr season_id ep0) as [r0|e] eqn:Hrow;
    [|discriminate].
  cbn [res_bind].
  destruct (episode_rows py_float py_repr season_id episodes) as [rest|e];
    [|discriminate].
  cbn [res_bind]. intros H. injection H as <-.
  intros [<-|Hin].
  - exists r0. split; [left; reflexivity|exact Hrow].
  - destruct (IH rest eq_refl Hin) as (r & Hr & Hep).
    exists r. split; [right; exact Hr|exact Hep].
Qed.

Lemma episodes_key_columns (x : row) (a b : sqlval) :
  key_of episodes_key x = Some [a; b] -> col 0 x = a /\ col 1 x = b.
Proof.
  unfold episodes_key. cbn [key_of].
  destruct (col 0 x); try discriminate;
    destruct (col 1 x); try discriminate;
    intros H; injection H as <- <-; split; reflexivity.
Qed.

(** A season that [upsert_season] has loaded has a row of [episodes] for
    each of its embedded episodes, under the number of the episode. *)
Lemma upsert_season_stores_episodes (season_doc : pydict) (pg pg' : PgRepo)
    (season_id : sqlval) (episodes : list pyval) (ep : pyval) :
  upsert_season py_float py_repr schema season_doc pg = (Ok season_id, pg') ->
  season_id <> SNull ->
  py_iter (py_or (dict_get season_doc "episodes") (VList [])) = Ok episodes ->
  In ep episodes ->
  exists r, In r (rows_of "episodes" pg')
            /\ col 0 r = season_id
            /\ col 1 r = SInt (episode_number py_float py_repr ep).
Proof.
  intros Hrun Hid Hiter Hep. revert Hrun. unfold upsert_season.
  destruct (as_int py_float py_repr (dict_get season_doc "movieId"))
    as [movie_id|];
    [|intros H; injection H as <- _; contradiction].
  destruct (movie_id =? 0)%Z;
    [intros H; injection H as <- _; contradiction|].
  unfold bind at 1.
  destruct (on_conn (exec_select_one "movies" _) pg) as [[[found|]|e] pg1];
    [|intros H; injection H as <- _; contradiction|discriminate].
  unfold bind at 1. unfold lift at 1.
  destruct (season_cols py_float py_repr movie_id season_doc) as [cols|e];
    [|discriminate].
  unfold bind at 1.
  destruct (on_conn (exec_insert_serial _ _ _ _) pg1) as [[sid|e] pg2];
    [|discriminate].
  unfold bind at 1. rewrite bump_conn.
  unfold bind at 1. unfold lift at 1. rewrite Hiter.
  unfold bind at 1. unfold lift at 1.
  destruct (episode_rows py_float py_repr sid episodes) as [rows|e] eqn:Hrows;
    [|discriminate].
  unfold bind at 1.
  destruct (episode_rows_of_each _ _ _ _ Hrows Hep) as (r & Hr & Hrow).
  destruct rows as [|r0 rows]; [destruct Hr|].
  match goal with
  | |- context [execute_values ?s ?oc ?t ?rs ?p] =>
      destruct (execute_values s oc t rs p) as [[[]|e] pg4] eqn:Hex;
        [|discriminate]
  end.
  unfold ret. intros H. injection H as -> <-.
  destruct (episode_row_key _ _ _ _ _ Hrow) as (_ & H0 & H1).
  assert (Hk : key_of episodes_key r
               = Some [season_id;
                       SInt (episode_number py_float py_repr ep)]).
  { unfold episodes_key. cbn [key_of]. rewrite H0, H1.
    destruct season_id; try reflexivity. contradiction. }
  destruct (execute_values_stores_keys episodes_key episodes_set "episodes"
              (r0 :: rows) _ _ r _ ltac:(repeat constructor) Hr Hk Hex)
    as (x & Hx & Hkx).
  exists x. split; [exact Hx|]. apply episodes_key_columns. exact Hkx.
Qed.

(** C10. Zero is treated as absence for the season keys: a [movieId] that
    parses to 0 skips the document with no write and no other change of the
    repository; a season [number] that parses to 0 makes [upsert_season]
    behave exactly as on the document without the field, and the season
    number written is 1; an episode [number] that parses to 0 is written
    as 0: the row built for the episode has the number 0, and when
    [upsert_season] has loaded the season, the table [episodes] holds a row
    of that season for each embedded episode under the number of the
    episode, which is 0 for such an episode. *)
Theorem season_zero_keys_are_absent :
  (forall (doc : pydict) (pg : PgRepo),
      as_int py_float py_repr (dict_get doc "movieId") = Some 0%Z ->
      upsert_season py_float py_repr schema doc pg = (Ok SNull, pg))
  /\ (forall (doc : pydict) (pg : PgRepo),
         as_int py_float py_repr (dict_get doc "number") = Some 0%Z ->
         upsert_season py_float py_repr schema doc pg
         = upsert_season py_float py_repr schema (dict_remove "number" doc) pg
         /\ forall movie_id cols,
             season_cols py_float py_repr movie_id doc = Ok cols ->
             col 1 cols = SInt 1)
  /\ (forall (season_id : sqlval) (ep v : pyval) (r : row),
         py_get ep "number" = Ok v ->
         as_int py_float py_repr v = Some 0%Z ->
         episode_row py_float py_repr season_id ep = Ok r ->
         col 1 r = SInt 0)
  /\ (forall (doc : pydict) (pg pg' : PgRepo) (season_id : sqlval)
             (episodes : list pyval) (ep : pyval),
         upsert_season py_float py_repr schema doc pg = (Ok season_id, pg') ->
         season_id <> SNull ->
         py_iter (py_or (dict_get doc "episodes") (VList [])) = Ok episodes ->
         In ep episodes ->
         (exists r, In r (rows_of "episodes" pg')
                    /\ col 0 r = season_id
                    /\ col 1 r = SInt (episode_number py_float py_repr ep))
         /\ forall v : pyval,
             py_get ep "number" = Ok v ->
             as_int py_float py_repr v = Some 0%Z ->
             exists r, In r (rows_of "episodes" pg')
                       /\ col 0 r = season_id
                       /\ col 1 r = SInt 0).
Proof.
  split; [|split; [|split]].
  - intros doc pg Hzero. unfold upsert_season. rewrite Hzero. reflexivity.
  - intros doc pg Hzero. split.
    + unfold upsert_season.
      rewrite !dict_get_remove_ne by discriminate.
      destruct (as_int py_float py_repr (dict_get doc "movieId"))
        as [movie_id|]; [|reflexivity].
      destruct (Z.eqb movie_id 0); [reflexivity|].
      apply bind_ext_at. intros [found|] pg1; [|reflexivity].
      rewrite season_cols_without_number by exact Hzero.
      reflexivity.
    + intros movie_id cols. unfold season_cols. rewrite Hzero. simpl.
      destruct (parse_mongo_date (dict_get doc "airDate")); simpl;
        [|discriminate].
      destruct (py_get (sub_doc doc "poster") "url"); simpl; [|discriminate].
      intros H. injection H as <-. reflexivity.
  - intros season_id ep v r Hget Hzero. unfold episode_row.
    rewrite Hget. simpl. rewrite Hzero. simpl.
    repeat match goal with
           | |- context [res_bind ?x _] =>
               destruct x; simpl; [|discriminate]
           end.
    intros H. injection H as <-. reflexivity.
  - intros doc pg pg' season_id episodes ep Hrun Hid Hiter Hep.
    pose proof (upsert_season_stores_episodes doc pg pg' season_id episodes
                  ep Hrun Hid Hiter Hep) as Hstored.
    split; [exact Hstored|].
    intros v Hget Hzero.
    assert (Hnum : episode_number py_float py_repr ep = 0%Z).
    { destruct ep as [| | | | | | | |d]; try reflexivity.
      cbn [py_get] in Hget. injection Hget as <-.
      unfold episode_number. rewrite Hzero. reflexivity. }
    rewrite Hnum in Hstored. exact Hstored.
Qed.

End EpisodesStored.

(** The theorem at a season document of movie 7 whose number is ["0"] and
    whose only episode has number [0], and at a document whose [movieId]
    is [0]: the season is stored under the number 1 and its episode under
    the number 0. *)
Lemma season_zero_keys_witness :
  upsert_season float_of_digits no_repr spec_schema [("movieId", VInt 0)]
    pg_with_movie_7 = (Ok SNull, pg_with_movie_7)
  /\ upsert_season float_of_digits no_repr spec_schema season_zero_doc
       pg_with_movie_7
     = upsert_season float_of_digits no_repr spec_schema
         (dict_remove "number" season_zero_doc) pg_with_movie_7
  /\ rows_of "seasons"
       (snd (upsert_season float_of_digits no_repr spec_schema season_zero_doc
               pg_with_movie_7))
     = [[SInt 1; SInt 7; SInt 1; SNull; SNull; SNull; SNull]]
  /\ rows_of "episodes"
       (snd (upsert_season float_of_digits no_repr spec_schema season_zero_doc
               pg_with_movie_7))
     = [[SInt 1; SInt 0; SText "Pilot"; SNull; SNull; SNull; SNull; SNull;
         SNull]]
  /\ exists r,
      In r (rows_of "episodes"
              (snd (upsert_season float_of_digits no_repr spec_schema
                      season_zero_doc pg_with_movie_7)))
      /\ col 0 r = SInt 1 /\ col 1 r = SInt 0.
Proof.
  pose proof (season_zero_keys_are_absent float_of_digits no_repr spec_schema)
    as (Hmovie & Hnumber & _ & Hstored).
  split; [|split; [|split; [|split]]].
  - apply Hmovie. reflexivity.
  - apply (Hnumber season_zero_doc pg_with_movie_7). reflexivity.
  - vm_compute. reflexivity.
  - vm_compute. reflexivity.
  - destruct (upsert_season float_of_digits no_repr spec_schema
                season_zero_doc pg_with_movie_7) as [[season_id|e] pg']
      eqn:Hrun; [|vm_compute in Hrun; discriminate].
    assert (Hid : season_id = SInt 1).
    { pose proof Hrun as Hv. vm_compute in Hv. injection Hv as <- _.
      reflexivity. }
    subst season_id. cbn [snd].
    apply (proj2 (Hstored season_zero_doc pg_with_movie_7 pg' (SInt 1)
                    [VDict [("number", VInt 0); ("name", VStr "Pilot")]]
                    (VDict [("number", VInt 0); ("name", VStr "Pilot")])
                    Hrun ltac:(discriminate) eq_refl
                    ltac:(left; reflexivity))
             (VInt 0)); reflexivity.
Defined.

(** ** Closed instances: seasons and movies without an identifier *)

(** The theorem at a season of two episodes of a stored movie, numbered 1
    and 2: the season is loaded, and the one page of its episodes repeats no
    number. *)
Lemma loaded_season_witness :
  exists season_id pg',
    upsert_season float_of_digits no_repr spec_schema two_episode_doc
      pg_with_movie_7 = (Ok season_id, pg')
    /\ season_id <> SNull
    /\ pages two_episodes = [two_episodes]
    /\ map (episode_number float_of_digits no_repr) two_episodes
       = [1%Z; 2%Z]
    /\ Forall (fun ep => is_dict ep = true) two_episodes
    /\ Forall (fun page =>
                 NoDup (map (episode_number float_of_digits no_repr) page))
         (pages two_episodes).
Proof.
  destruct (upsert_season float_of_digits no_repr spec_schema two_episode_doc
              pg_with_movie_7) as [[season_id|e] pg'] eqn:Hrun;
    [|vm_compute in Hrun; discriminate].
  assert (Hid : season_id <> SNull).
  { pose proof Hrun as Hv. vm_compute in Hv. intros ->. discriminate. }
  exists season_id, pg'. split; [reflexivity|]. split; [exact Hid|].
  split; [reflexivity|]. split; [reflexivity|].
  exact (loaded_season_has_distinct_episodes float_of_digits no_repr
           spec_schema two_episode_doc pg_with_movie_7 pg' season_id
           two_episodes Hrun Hid eq_refl).
Defined.

(** The theorem at a season of a movie that is not stored. *)
Lemma skipped_season_witness :
  upsert_season float_of_digits no_repr spec_schema season_zero_doc empty_pg
  = (Ok SNull, empty_pg)
  /\ unknown_movie 7 empty_pg.
Proof.
  destruct (upsert_season float_of_digits no_repr spec_schema season_zero_doc
              empty_pg) as [[season_id|e] pg'] eqn:Hrun;
    [|vm_compute in Hrun; discriminate].
  destruct (upsert_season_skips_or_stores float_of_digits no_repr spec_schema
              season_zero_doc empty_pg pg' season_id Hrun)
    as [(-> & -> & Hmovie)|(movie_id & row & _ & _ & Hknown & _)].
  - split; [reflexivity|]. constructor.
  - exfalso. apply Hknown. constructor.
Defined.

(** The theorem at a document with a title, loaded twice into an empty
    store. *)
Lemma movie_without_id_witness :
  exists id1 id2 pg1 pg2,
    insert_movie_core float_of_digits no_repr spec_schema sound_doc_before
      empty_pg = (Ok id1, pg1)
    /\ insert_movie_core float_of_digits no_repr spec_schema sound_doc_before
         pg1 = (Ok id2, pg2)
    /\ length (rows_of "movies" pg2) = 2%nat.
Proof.
  destruct (movie_core_values float_of_digits no_repr sound_doc_before)
    as [[[[id|] cols]|]|e] eqn:Hvals;
    try (vm_compute in Hvals; discriminate).
  destruct (insert_movie_core float_of_digits no_repr spec_schema
              sound_doc_before empty_pg) as [[id1|e] pg1] eqn:Hfirst;
    [|vm_compute in Hfirst; discriminate].
  destruct (insert_movie_core float_of_digits no_repr spec_schema
              sound_doc_before pg1) as [[id2|e] pg2] eqn:Hsecond.
  2:{ pose proof Hfirst as Hv. vm_compute in Hv. injection Hv as _ <-.
      vm_compute in Hsecond. discriminate. }
  exists id1, id2, pg1, pg2. split; [reflexivity|]. split; [exact Hsecond|].
  destruct (movie_without_id_is_inserted_anew float_of_digits no_repr
              spec_schema sound_doc_before cols empty_pg pg1 pg2 id1 id2
              Hvals Hfirst Hsecond) as (n & _ & _ & Hrows & _).
  rewrite Hrows. reflexivity.
Defined.

(** ** Dict assignment *)

Lemma dict_lookup_set (d : pydict) (k k' : string) (v : pyval) :
  dict_lookup (dict_set d k v) k'
  = if String.eqb k' k then Some v else dict_lookup d k'.
Proof.
  induction d as [|[k0 v0] d IH]; cbn [dict_set dict_lookup].
  { reflexivity. }
  destruct (String.eqb_spec k k0) as [->|Hne]; cbn [dict_lookup].
  - destruct (String.eqb k' k0); reflexivity.
  - rewrite IH. destruct (String.eqb_spec k' k0) as [->|Hne'];
      [|reflexivity].
    destruct (String.eqb_spec k0 k) as [Heq|_]; [congruence|reflexivity].
Qed.

Lemma dict_set_keys (d : pydict) (k : string) (v : pyval) :
  dict_has d k = true -> map fst (dict_set d k v) = map fst d.
Proof.
  unfold dict_has.
  induction d as [|[k0 v0] d IH]; cbn [dict_set dict_lookup map fst].
  { discriminate. }
  destruct (String.eqb k k0); [reflexivity|].
  intros H. cbn [map fst]. rewrite (IH H). reflexivity.
Qed.

Lemma dict_set_same (d : pydict) (k : string) (v : pyval) :
  dict_lookup d k = Some v -> dict_set d k v = d.
Proof.
  induction d as [|[k0 v0] d IH]; cbn [dict_set dict_lookup].
  { discriminate. }
  destruct (String.eqb k k0).
  - intros H. injection H as ->. reflexivity.
  - intros H. rewrite (IH H). reflexivity.
Qed.

Lemma carry_lookup (k : string) (src dst : pydict) (k' : string) :
  dict_lookup (carry k src dst) k'
  = if String.eqb k' k
    then match dict_lookup src k with
         | Some v => Some v
         | None => dict_lookup dst k'
         end
    else dict_lookup dst k'.
Proof.
  unfold carry, dict_has, dict_get.
  destruct (dict_lookup src k) as [v|].
  - apply dict_lookup_set.
  - destruct (String.eqb k' k); reflexivity.
Qed.

(** ** [to_composable_index_template] *)

Lemma template_block_lookup (tpl : pydict) (k : string) :
  dict_lookup
    (carry "aliases" tpl (carry "mappings" tpl (carry "settings" tpl []))) k
  = if existsb (String.eqb k) ["settings"; "mappings"; "aliases"]
    then dict_lookup tpl k else None.
Proof.
  rewrite !carry_lookup. cbn [existsb dict_lookup].
  destruct (String.eqb_spec k "aliases") as [->|_].
  { cbn. destruct (dict_lookup tpl "aliases"); reflexivity. }
  destruct (String.eqb_spec k "mappings") as [->|_].
  { cbn. destruct (dict_lookup tpl "mappings"); reflexivity. }
  destruct (String.eqb_spec k "settings") as [->|_].
  { cbn. destruct (dict_lookup tpl "settings"); reflexivity. }
  reflexivity.
Qed.

Lemma composable_body_lookup (tpl : pydict) (k : string) :
  dict_lookup (to_composable_index_template tpl) k
  = if String.eqb k "index_patterns" then
      Some (py_or (dict_get tpl "index_patterns")
              (py_or (dict_get tpl "indexPatterns") (VList [])))
    else if String.eqb k "template" then
      Some (VDict (carry "aliases" tpl
                     (carry "mappings" tpl (carry "settings" tpl []))))
    else if existsb (String.eqb k) ["priority"; "version"; "_meta"]
    then dict_lookup tpl k
    else None.
Proof.
  unfold to_composable_index_template. cbn [fold_left].
  rewrite !carry_lookup. cbn [existsb dict_lookup].
  rewrite !dict_lookup_remove_ne by discriminate.
  destruct (String.eqb_spec k "_meta") as [->|_].
  { cbn. destruct (dict_lookup tpl "_meta"); reflexivity. }
  destruct (String.eqb_spec k "version") as [->|_].
  { cbn. destruct (dict_lookup tpl "version"); reflexivity. }
  destruct (String.eqb_spec k "priority") as [->|_].
  { cbn. destruct (dict_lookup tpl "priority"); reflexivity. }
  rewrite !orb_false_r.
  destruct (String.eqb k "index_patterns"); [reflexivity|].
  destruct (String.eqb k "template"); reflexivity.
Qed.

(** What [to_composable_index_template] keeps of a template: the index
    patterns, under either spelling; [settings], [mappings] and [aliases],
    moved under [template]; [priority], [version] and [_meta].  Every other
    key is dropped.  A template that is already in the composable form,
    with its settings under [template] and none at the top, therefore comes
    out with an empty [template]: the helper applied to its own result
    gives an empty [template], whatever the template was. *)
Theorem composable_template_keeps_eight_keys (tpl : pydict) :
  let body := to_composable_index_template tpl in
  dict_lookup body "index_patterns"
  = Some (py_or (dict_get tpl "index_patterns")
            (py_or (dict_get tpl "indexPatterns") (VList [])))
  /\ (exists block,
         dict_lookup body "template" = Some (VDict block)
         /\ (forall k,
                dict_lookup block k
                = if existsb (String.eqb k) ["settings"; "mappings"; "aliases"]
                  then dict_lookup tpl k else None)
         /\ (dict_has tpl "settings" = false ->
             dict_has tpl "mappings" = false ->
             dict_has tpl "aliases" = false -> block = []))
  /\ (forall k,
         existsb (String.eqb k) ["priority"; "version"; "_meta"] = true ->
         dict_lookup body k = dict_lookup tpl k)
  /\ (forall k,
         existsb (String.eqb k)
           ["index_patterns"; "template"; "priority"; "version"; "_meta"]
         = false ->
         dict_lookup body k = None)
  /\ dict_get (to_composable_index_template body) "template" = VDict [].
Proof.
  cbv zeta. split; [|split; [|split; [|split]]].
  - rewrite composable_body_lookup. reflexivity.
  - eexists. split; [rewrite composable_body_lookup; reflexivity|].
    split; [apply template_block_lookup|].
    intros H1 H2 H3. unfold carry. rewrite H1, H2, H3. reflexivity.
  - intros k Hk. rewrite composable_body_lookup.
    cbn [existsb] in Hk.
    destruct (String.eqb_spec k "index_patterns") as [->|_];
      [discriminate|].
    destruct (String.eqb_spec k "template") as [->|_]; [discriminate|].
    cbn [existsb]. rewrite Hk. reflexivity.
  - intros k Hk. rewrite composable_body_lookup.
    cbn [existsb] in Hk |- *.
    destruct (String.eqb k "index_patterns"); [discriminate|].
    destruct (String.eqb k "template"); [discriminate|].
    cbn [orb] in Hk. rewrite Hk. reflexivity.
  - unfold dict_get. rewrite composable_body_lookup.
    change (String.eqb "template" "index_patterns") with false.
    change (String.eqb "template" "template") with true.
    cbv iota. unfold carry, dict_has.
    rewrite !composable_body_lookup. reflexivity.
Qed.

(** ** The setup requests *)

Section SetupFacts.

Variable setup_accepts : nat -> setup_request -> bool.

Lemma apply_index_template_run (name : string) (raw : pydict)
    (w : setup_world) :
  exists w',
    apply_index_template setup_accepts name raw w = (Ok tt, w')
    /\ setup_client w' = setup_client w
    /\ map fst (setup_requests w')
       = map fst (setup_requests w)
         ++ (if setup_client w
             then [PutIndexTemplate name (to_composable_index_template raw)]
             else []).
Proof.
  unfold apply_index_template, catch, put_index_template.
  destruct (setup_client w) eqn:Hclient; cbn [negb].
  - eexists. split; [reflexivity|]. split; [exact Hclient|].
    unfold setup_send. cbn [setup_requests].
    rewrite map_app. reflexivity.
  - exists w. split; [reflexivity|]. split; [exact Hclient|].
    rewrite app_nil_r. reflexivity.
Qed.

Lemma put_stored_script_run (name : string) (script : pyval)
    (w : setup_world) :
  exists w',
    put_stored_script setup_accepts name script w = (Ok tt, w')
    /\ setup_client w' = setup_client w
    /\ map fst (setup_requests w')
       = map fst (setup_requests w)
         ++ (if setup_client w
             then [script_request (name, script)]
             else []).
Proof.
  unfold put_stored_script.
  destruct (setup_client w) eqn:Hclient; cbn [negb].
  - eexists. split; [reflexivity|]. split; [exact Hclient|].
    unfold setup_send. cbn [setup_requests].
    rewrite map_app. cbn [map fst]. do 3 f_equal.
    destruct script; reflexivity.
  - exists w. split; [reflexivity|]. split; [exact Hclient|].
    rewrite app_nil_r. reflexivity.
Qed.

Lemma apply_index_templates_run
    (templates : list (string * pydict)) (w : setup_world) :
  exists w',
    apply_index_templates setup_accepts templates w = (Ok tt, w')
    /\ setup_client w' = setup_client w
    /\ map fst (setup_requests w')
       = map fst (setup_requests w)
         ++ (if setup_client w
             then map template_request templates
             else []).
Proof.
  unfold apply_index_templates. revert w.
  induction templates as [|[name raw] templates IH]; intros w;
    cbn [for_each map fst snd].
  { exists w. split; [reflexivity|]. split; [reflexivity|].
    destruct (setup_client w); rewrite app_nil_r; reflexivity. }
  destruct (apply_index_template_run name raw w) as (w1 & Hrun & Hc1 & Hr1).
  destruct (IH w1) as (w' & Hrest & Hc & Hr).
  exists w'. unfold bind. rewrite Hrun.
  split; [exact Hrest|]. split; [congruence|].
  rewrite Hr, Hr1, Hc1. destruct (setup_client w);
    rewrite <- app_assoc; reflexivity.
Qed.

(** The setup asks the cluster once for each index template, in the order
    of the setup file and whatever the cluster answers, and what it sends is
    the template as [to_composable_index_template] makes it from the file:
    [put_index_template] logs a failure and returns, so that the [except]
    clause of the caller, which would send the template with its analysis
    sanitized, is never entered.  Without a client nothing is sent. *)
Theorem rejected_template_is_not_retried
    (templates : list (string * pydict)) (w : setup_world) :
  exists w',
    apply_index_templates setup_accepts templates w = (Ok tt, w')
    /\ setup_client w' = setup_client w
    /\ map fst (setup_requests w')
       = map fst (setup_requests w)
         ++ (if setup_client w
             then map template_request templates
             else []).
Proof. apply apply_index_templates_run. Qed.

Lemma apply_search_templates_run (scripts : list (string * pyval))
    (w : setup_world) :
  exists w',
    apply_search_templates setup_accepts scripts w = (Ok tt, w')
    /\ setup_client w' = setup_client w
    /\ map fst (setup_requests w')
       = map fst (setup_requests w)
         ++ (if setup_client w then map script_request scripts else []).
Proof.
  unfold apply_search_templates. revert w.
  induction scripts as [|[name script] scripts IH]; intros w;
    cbn [for_each map fst snd].
  { exists w. split; [reflexivity|]. split; [reflexivity|].
    destruct (setup_client w); rewrite app_nil_r; reflexivity. }
  destruct (put_stored_script_run name script w) as (w1 & Hrun & Hc1 & Hr1).
  destruct (IH w1) as (w' & Hrest & Hc & Hr).
  exists w'. unfold bind. rewrite Hrun.
  split; [exact Hrest|]. split; [congruence|].
  rewrite Hr, Hr1, Hc1. destruct (setup_client w);
    rewrite <- app_assoc; reflexivity.
Qed.

(** The loop over the policies sends the policies it can fix and stops at
    the first it cannot. *)
Lemma apply_policies_run (policies : list (string * pydict))
    (w : setup_world) :
  setup_client w = true ->
  exists r w',
    apply_policies setup_accepts policies w = (r, w')
    /\ setup_client w' = true
    /\ ((exists requests,
            r = Ok tt
            /\ Forall2 policy_request policies requests
            /\ map fst (setup_requests w')
               = map fst (setup_requests w) ++ requests)
        \/ (exists before name bad after e requests,
               r = Raise e
               /\ policies = before ++ (name, bad) :: after
               /\ fix_ilm_policy bad = Raise e
               /\ Forall2 policy_request before requests
               /\ map fst (setup_requests w')
                  = map fst (setup_requests w) ++ requests)).
Proof.
  unfold apply_policies. revert w.
  induction policies as [|[name policy] policies IH]; intros w Hclient;
    cbn [for_each fst snd].
  { exists (Ok tt), w. split; [reflexivity|]. split; [exact Hclient|].
    left. exists []. split; [reflexivity|]. split; [constructor|].
    rewrite app_nil_r. reflexivity. }
  unfold bind at 1. unfold apply_policy, bind, lift, catch, put_ilm_policy.
  rewrite Hclient. cbn [negb].
  destruct (fix_ilm_policy policy) as [final|e] eqn:Hfix.
  - set (w1 := setup_send setup_accepts (PutLifecycle name final) w).
    destruct (IH w1 Hclient) as (r & w' & Hrest & Hc & Hcases).
    exists r, w'. split; [exact Hrest|]. split; [exact Hc|].
    assert (Hone : policy_request (name, policy) (PutLifecycle name final)).
    { exists final. split; [exact Hfix|reflexivity]. }
    assert (Hsent : map fst (setup_requests w1)
                    = map fst (setup_requests w) ++ [PutLifecycle name final]).
    { subst w1. unfold setup_send. cbn [setup_requests].
      rewrite map_app. reflexivity. }
    destruct Hcases as [(requests & -> & Hall & Hreq)
                       |(before & bad_name & bad & after & e & requests
                         & -> & -> & Hbad & Hall & Hreq)].
    + left. exists (PutLifecycle name final :: requests).
      split; [reflexivity|]. split; [constructor; assumption|].
      rewrite Hreq, Hsent, <- app_assoc. reflexivity.
    + right.
      exists ((name, policy) :: before), bad_name, bad, after, e,
        (PutLifecycle name final :: requests).
      split; [reflexivity|]. split; [reflexivity|]. split; [exact Hbad|].
      split; [constructor; assumption|].
      rewrite Hreq, Hsent, <- app_assoc. reflexivity.
  - exists (Raise e), w. split; [reflexivity|]. split; [exact Hclient|].
    right. exists [], name, policy, policies, e, [].
    split; [reflexivity|]. split; [reflexivity|]. split; [exact Hfix|].
    split; [constructor|]. rewrite app_nil_r. reflexivity.
Qed.

(** A lifecycle policy that [fix_ilm_policy] cannot fix ends the setup: the
    helper is called outside the [try] around the request, so that its
    exception reaches the [except] clause of the whole setup.  With a
    client, the setup returns in any case; it has sent every index template
    and the policies before the first that cannot be fixed, and, only when
    every policy can be fixed, the search templates after them. *)
Theorem malformed_policy_ends_the_setup
    (templates policies : list (string * pydict))
    (scripts : list (string * pyval)) (w : setup_world) :
  setup_client w = true ->
  exists w',
    apply_setup setup_accepts templates policies scripts w = (Ok tt, w')
    /\ ((exists requests,
            Forall2 policy_request policies requests
            /\ map fst (setup_requests w')
               = map fst (setup_requests w)
                 ++ map template_request templates
                 ++ requests ++ map script_request scripts)
        \/ (exists before name bad after e requests,
               policies = before ++ (name, bad) :: after
               /\ fix_ilm_policy bad = Raise e
               /\ Forall2 policy_request before requests
               /\ map fst (setup_requests w')
                  = map fst (setup_requests w)
                    ++ map template_request templates ++ requests)).
Proof.
  intros Hclient. unfold apply_setup, catch, bind.
  destruct (apply_index_templates_run templates w) as (w1 & Hrun1 & Hc1 & Hr1).
  rewrite Hrun1. rewrite Hclient in Hc1, Hr1.
  destruct (apply_policies_run policies w1 Hc1)
    as (r & w2 & Hrun2 & Hc2 & Hcases).
  rewrite Hrun2.
  destruct Hcases as [(requests & -> & Hall & Hreq)
                     |(before & name & bad & after & e & requests
                       & -> & -> & Hbad & Hall & Hreq)].
  - destruct (apply_search_templates_run scripts w2)
      as (w3 & Hrun3 & _ & Hr3).
    rewrite Hrun3. exists w3. split; [reflexivity|].
    left. exists requests. split; [exact Hall|].
    rewrite Hr3, Hc2, Hreq, Hr1, <- !app_assoc. reflexivity.
  - exists w2. split; [reflexivity|].
    right. exists before, name, bad, after, e, requests.
    split; [reflexivity|]. split; [exact Hbad|]. split; [exact Hall|].
    rewrite Hreq, Hr1, <- app_assoc. reflexivity.
Qed.

End SetupFacts.

(** ** [fix_ilm_policy] *)


Lemma dict_has_set (d : pydict) (k : string) (v : pyval) :
  dict_has (dict_set d k v) k = true.
Proof.
  unfold dict_has. rewrite dict_lookup_set, String.eqb_refl. reflexivity.
Qed.

Lemma dict_get_set (d : pydict) (k : string) (v : pyval) :
  dict_get (dict_set d k v) k = v.
Proof.
  unfold dict_get. rewrite dict_lookup_set, String.eqb_refl. reflexivity.
Qed.

Lemma fix_phase_fixed (phase_name : string) (p p' : pydict) :
  fix_phase phase_name p = Ok p' ->
  phase_fixed phase_name (VDict p')
  /\ fix_phase phase_name p' = Ok p'
  /\ forall k, k <> "actions" -> dict_lookup p' k = dict_lookup p k.
Proof.
  unfold fix_phase.
  set (p1 := if negb (dict_has p "actions")
             then dict_set p "actions" (VDict []) else p).
  assert (Hhas : dict_has p1 "actions" = true).
  { subst p1. destruct (dict_has p "actions") eqn:H; cbn [negb];
      [exact H|apply dict_has_set]. }
  assert (Hother : forall k, k <> "actions" ->
                             dict_lookup p1 k = dict_lookup p k).
  { intros k Hk. subst p1. destruct (dict_has p "actions"); cbn [negb];
      [reflexivity|].
    rewrite dict_lookup_set.
    destruct (String.eqb_spec k "actions"); [contradiction|reflexivity]. }
  clearbody p1.
  destruct (String.eqb_spec phase_name "delete") as [->|Hname].
  - destruct (py_contains "delete" (dict_get p1 "actions")) as [[|]|e]
      eqn:Hin; cbn [res_bind negb]; [| |discriminate].
    + intros H. injection H as <-.
      split; [split; [exact Hhas|intros _; exact Hin]|].
      split; [|exact Hother].
      rewrite Hhas. cbn [negb]. rewrite Hin. reflexivity.
    + destruct (dict_get p1 "actions") as [| | | | | | | |a] eqn:Hactions;
        try discriminate.
      cbn [py_setitem res_bind]. intros H. injection H as <-.
      assert (Hnow : py_contains "delete"
                       (dict_get (dict_set p1 "actions"
                                    (VDict (dict_set a "delete" (VDict []))))
                          "actions") = Ok true).
      { rewrite dict_get_set. cbn [py_contains].
        rewrite dict_has_set. reflexivity. }
      split; [split; [apply dict_has_set|intros _; exact Hnow]|].
      split.
      * rewrite dict_has_set. cbn [negb]. rewrite Hnow. reflexivity.
      * intros k Hk. rewrite dict_lookup_set.
        destruct (String.eqb_spec k "actions"); [contradiction|].
        apply Hother. exact Hk.
  - intros H. injection H as <-.
    split; [split; [exact Hhas|intros Heq; contradiction]|].
    split; [|exact Hother].
    rewrite Hhas. cbn [negb].
    destruct (String.eqb_spec phase_name "delete"); [contradiction|].
    reflexivity.
Qed.

Lemma dict_set_app (pre d : pydict) (k : string) (v : pyval) :
  ~ In k (map fst pre) -> dict_set (pre ++ d) k v = pre ++ dict_set d k v.
Proof.
  induction pre as [|[k0 v0] pre IH]; cbn [app map fst dict_set In];
    [reflexivity|].
  intros Hnot. destruct (String.eqb_spec k k0) as [->|_].
  - exfalso. apply Hnot. left. reflexivity.
  - rewrite IH; [reflexivity|]. intros Hin. apply Hnot. right. exact Hin.
Qed.

(** On a dict, the loop stores each phase back where it stood. *)
Lemma fix_phases_run (items pre : list (string * pyval)) (phases' : pydict) :
  NoDup (map fst (pre ++ items)) ->
  fix_phases items (pre ++ items) = Ok phases' ->
  exists items', phases' = pre ++ items' /\ Forall2 phase_step items items'.
Proof.
  revert pre. induction items as [|[name phase] items IH]; intros pre Hnodup;
    cbn [fix_phases].
  { intros H. injection H as <-. exists []. split; [reflexivity|constructor]. }
  assert (Hname : ~ In name (map fst pre)).
  { rewrite map_app in Hnodup. apply NoDup_app in Hnodup as (_ & Hapart & _).
    intros Hin. apply list_elem_of_In in Hin.
    apply (Hapart name Hin). left. }
  assert (Hnext : forall v,
             NoDup (map fst ((pre ++ [(name, v)]) ++ items))).
  { intros v. rewrite <- app_assoc. cbn [app].
    rewrite !map_app in *. exact Hnodup. }
  assert (Hstep : forall v items',
             Forall2 phase_step items items' ->
             phase_step (name, phase) (name, v) ->
             exists items'',
               (pre ++ [(name, v)]) ++ items' = pre ++ items''
               /\ Forall2 phase_step ((name, phase) :: items) items'').
  { intros v items' Hall Hone. exists ((name, v) :: items').
    rewrite <- app_assoc. split; [reflexivity|].
    constructor; assumption. }
  destruct phase as [| | | | | | | |p];
    try (intros H;
         match goal with
         | |- context [(name, ?v) :: items] =>
             change (pre ++ (name, v) :: items)
               with (pre ++ [(name, v)] ++ items) in H;
             rewrite app_assoc in H;
             destruct (IH _ (Hnext v) H) as (items' & -> & Hall);
             apply (Hstep v items' Hall); split; reflexivity
         end).
  destruct (fix_phase name p) as [p'|e] eqn:Hfix; [|discriminate].
  cbn [res_bind]. rewrite dict_set_app by exact Hname.
  cbn [dict_set]. rewrite String.eqb_refl.
  intros H.
  change (pre ++ (name, VDict p') :: items)
    with (pre ++ [(name, VDict p')] ++ items) in H.
  rewrite app_assoc in H.
  destruct (IH _ (Hnext (VDict p')) H) as (items' & -> & Hall).
  apply (Hstep (VDict p') items' Hall).
  split; [reflexivity|]. exists p'. split; [exact Hfix|reflexivity].
Qed.

Lemma phase_step_keys (items items' : list (string * pyval)) :
  Forall2 phase_step items items' -> map fst items' = map fst items.
Proof.
  induction 1 as [|x y items items' [Hkey _] _ IH]; cbn [map];
    [reflexivity|].
  rewrite Hkey, IH. reflexivity.
Qed.

Lemma phase_step_fixed (items items' : list (string * pyval)) :
  Forall2 phase_step items items' ->
  Forall (fun item => phase_fixed (fst item) (snd item)) items'.
Proof.
  induction 1 as [|[name v] [name' v'] items items' [Hkey Hval] _ IH];
    constructor; [|exact IH].
  cbn [fst snd] in *. subst name'.
  destruct v as [| | | | | | | |p]; cbv beta iota in Hval.
  all: try (subst v'; exact I).
  destruct Hval as (p' & Hfix & ->).
  exact (proj1 (fix_phase_fixed _ _ _ Hfix)).
Qed.

(** The loop changes nothing in phases it has left. *)
Lemma fix_phases_again (items items' pre : list (string * pyval)) :
  Forall2 phase_step items items' ->
  NoDup (map fst (pre ++ items')) ->
  fix_phases items' (pre ++ items') = Ok (pre ++ items').
Proof.
  intros Hall. revert pre.
  induction Hall as [|[name v] [name' v'] items items' [Hkey Hval] _ IH];
    intros pre Hnodup; cbn [fix_phases]; [reflexivity|].
  cbn [fst snd] in *. subst name'.
  assert (Hname : ~ In name (map fst pre)).
  { rewrite map_app in Hnodup. apply NoDup_app in Hnodup as (_ & Hapart & _).
    intros Hin. apply list_elem_of_In in Hin.
    apply (Hapart name Hin). left. }
  assert (Hnext : fix_phases items' ((pre ++ [(name, v')]) ++ items')
                  = Ok ((pre ++ [(name, v')]) ++ items')).
  { apply IH. rewrite <- app_assoc. exact Hnodup. }
  rewrite <- app_assoc in Hnext. cbn [app] in Hnext.
  destruct v as [| | | | | | | |p]; cbv beta iota in Hval;
    try (subst v'; exact Hnext).
  destruct Hval as (p' & Hfix & ->).
  rewrite (proj1 (proj2 (fix_phase_fixed _ _ _ Hfix))). cbn [res_bind].
  rewrite dict_set_app by exact Hname.
  cbn [dict_set]. rewrite String.eqb_refl. exact Hnext.
Qed.

(** What [fix_ilm_policy] returns on a policy whose phases are an object:
    the same phases in the same order, where every phase that is an object
    has its [actions] and the [delete] phase a [delete] action among them;
    the other entries of the policy are kept; and the policy returned is one
    the helper leaves as it is. *)
Theorem fixed_policy_has_its_actions (policy policy' phases : pydict) :
  py_or (dict_get policy "phases") (VDict []) = VDict phases ->
  distinct_keys phases ->
  fix_ilm_policy policy = Ok policy' ->
  exists phases',
    dict_get policy' "phases" = VDict phases'
    /\ map fst phases' = map fst phases
    /\ Forall (fun item => phase_fixed (fst item) (snd item)) phases'
    /\ Forall2 phase_step phases phases'
    /\ (forall k, k <> "phases" -> dict_lookup policy' k = dict_lookup policy k)
    /\ fix_ilm_policy policy' = Ok policy'.
Proof.
  intros Hphases Hnodup. unfold fix_ilm_policy. rewrite Hphases.
  destruct (fix_phases phases phases) as [phases'|e] eqn:Hloop;
    [|discriminate].
  cbn [res_bind]. intros H. injection H as <-.
  destruct (fix_phases_run phases [] phases' Hnodup Hloop)
    as (items' & -> & Hall).
  cbn [app] in *. exists items'.
  pose proof (phase_step_keys _ _ Hall) as Hkeys.
  split; [apply dict_get_set|]. split; [exact Hkeys|].
  split; [exact (phase_step_fixed _ _ Hall)|]. split; [exact Hall|].
  split.
  { intros k Hk. rewrite dict_lookup_set.
    destruct (String.eqb_spec k "phases"); [contradiction|reflexivity]. }
  rewrite dict_get_set.
  assert (Hagain : fix_phases items' items' = Ok items').
  { apply (fix_phases_again phases items' [] Hall).
    cbn [app]. rewrite Hkeys. exact Hnodup. }
  assert (Hor : py_or (VDict items') (VDict []) = VDict items').
  { unfold py_or. destruct items'; reflexivity. }
  rewrite Hor, Hagain. cbn [res_bind]. f_equal.
  apply dict_set_same. rewrite dict_lookup_set, String.eqb_refl. reflexivity.
Qed.

(** ** Closed instances: Elasticsearch setup *)

(** The theorem at a template in the composable form: its settings are
    lost. *)
Lemma composable_template_witness :
  dict_has composable_tpl "settings" = false
  /\ dict_get (to_composable_index_template composable_tpl) "template"
     = VDict [].
Proof.
  split; [reflexivity|].
  destruct (composable_template_keeps_eight_keys composable_tpl)
    as (_ & (block & Hblock & _ & Hempty) & _).
  unfold dict_get. rewrite Hblock. f_equal.
  apply Hempty; reflexivity.
Defined.

(** The theorem at a policy with a [hot] and a [delete] phase. *)
Lemma fixed_policy_witness :
  distinct_keys [("hot", VDict []);
                 ("delete", VDict [("min_age", VStr "30d")])]
  /\ exists policy',
      fix_ilm_policy two_phase_policy = Ok policy'
      /\ fix_ilm_policy policy' = Ok policy'.
Proof.
  assert (Hkeys : distinct_keys [("hot", VDict []);
                                 ("delete", VDict [("min_age", VStr "30d")])]).
  { unfold distinct_keys. cbn [map fst].
    apply NoDup_cons. split.
    - intros Hin. apply list_elem_of_In in Hin.
      destruct Hin as [H|[]]. discriminate H.
    - apply NoDup_singleton. }
  split; [exact Hkeys|].
  destruct (fix_ilm_policy two_phase_policy) as [policy'|e] eqn:Hrun;
    [|vm_compute in Hrun; discriminate].
  exists policy'. split; [reflexivity|].
  destruct (fixed_policy_has_its_actions two_phase_policy policy' _ eq_refl
              Hkeys Hrun) as (phases' & _ & _ & _ & _ & _ & Hagain).
  exact Hagain.
Defined.

(** The theorem at one template, a policy that cannot be fixed and one
    search template: only the index template is sent. *)
Lemma malformed_policy_witness :
  setup_client (mkSetupWorld true []) = true
  /\ exists w',
      apply_setup setup_always [("movies", composable_tpl)]
        [("cleanup", broken_policy)] [("search", VStr "query")]
        (mkSetupWorld true []) = (Ok tt, w')
      /\ map fst (setup_requests w')
         = [template_request ("movies", composable_tpl)].
Proof.
  split; [reflexivity|].
  destruct (malformed_policy_ends_the_setup setup_always
              [("movies", composable_tpl)] [("cleanup", broken_policy)]
              [("search", VStr "query")] (mkSetupWorld true []) eq_refl)
    as (w' & Hrun & Hcases).
  exists w'. split; [exact Hrun|].
  destruct Hcases as [(requests & Hall & _)
                     |(before & name & bad & after & e & requests
                       & Hsplit & _ & Hall & Hreq)].
  - exfalso. inversion Hall as [|p r ps rs (final & Hfix & _) _]; subst.
    vm_compute in Hfix. discriminate.
  - destruct before as [|p before].
    + inversion Hall; subst. rewrite Hreq. reflexivity.
    + exfalso. injection Hsplit as _ Hrest.
      destruct before; discriminate.
Defined.
